(** * jsnes: a shallow embedding of the emulator core

    The development follows the JavaScript sources of the emulator:
    the Game Genie codec ([gamegenie.js]), the base mapper with the
    controller ports ([mapper0.js]), the PPU register interface and the
    APU frame counter ([ppu/index.js]), and the CPU interpreter with the
    console frame loop (the [CPU] and [NES] objects).

    JavaScript numbers are modelled as [Z].  All bit operations of the
    sources ([&], [|], [^], [<<], [>>]) are applied to values far inside
    the signed 32-bit range, where they agree with [Z.land], [Z.lor],
    [Z.lxor], [Z.shiftl] and [Z.shiftr].  A [Uint8Array] is a [list Z]
    read and written through [ta_get] and [ta_set]; a plain, possibly
    sparse JavaScript array such as [cpu.mem] is a [gmap Z Z]. *)

From Stdlib Require Import ZArith Lia Bool Ascii.
From stdpp Require Import base list gmap strings.

Local Open Scope Z_scope.

(* ===================================================================== *)
(** * JavaScript primitives shared by all components                      *)
(* ===================================================================== *)

Module JS.

  (** A value that may be [undefined] used in an integer context
      ([undefined & 7], storing into a typed array): ToInt32 gives 0. *)
Definition toInt (o : option Z) : Z := default 0 o.

  (** [arr[i]] on a typed array: [undefined] outside the array. *)
Definition ta_get (arr : list Z) (i : Z) : option Z :=
    if 0 <=? i then arr !! Z.to_nat i else None.

  (** [arr[i] = v] on a [Uint8Array]: the value is reduced modulo 256 and
      a store outside the array is ignored. *)
Definition ta_set (arr : list Z) (i v : Z) : list Z :=
    if 0 <=? i then <[Z.to_nat i := v mod 256]> arr else arr.

  (** [boolean ? 1 : 0] *)
Definition b2z (b : bool) : Z := if b then 1 else 0.

  (** Bounded universal quantification by enumeration, used to settle
      identities on bytes and addresses by evaluation. *)
Fixpoint forall_from (n : nat) (z : Z) (P : Z -> bool) : bool :=
    match n with
    | O => true
    | S n' => P z && forall_from n' (z + 1) P
    end.

Definition forall_below (n : nat) (P : Z -> bool) : bool := forall_from n 0 P.

Lemma forall_from_spec n P : forall z0,
    forall_from n z0 P = true ->
    forall z, z0 <= z < z0 + Z.of_nat n -> P z = true.
  Proof.
    induction n as [| n IH]; intros z0 H z Hz; [lia |].
    cbn [forall_from] in H. apply andb_true_iff in H as [H0 H1].
    destruct (Z.eq_dec z z0) as [-> | Hne]; [done |].
    apply (IH (z0 + 1)); [done | lia].
  Qed.

Lemma forall_below_spec n P :
    forall_below n P = true -> forall z, 0 <= z < Z.of_nat n -> P z = true.
  Proof. intros H z Hz. apply (forall_from_spec n P 0); [done | lia]. Qed.

Lemma land_7_bounds x : 0 <= Z.land x 7 <= 7.
  Proof.
    assert (E : Z.land x 7 = x mod 8) by (apply (Z.land_ones x 3); lia).
    rewrite E. pose proof (Z.mod_pos_bound x 8). lia.
  Qed.

Lemma land_8_cases x : Z.land x 8 = 0 \/ Z.land x 8 = 8.
  Proof.
    assert (B : forall n, 0 <= n -> Z.testbit 8 n = (3 =? n)).
    { intros n Hn. change 8 with (2 ^ 3). apply Z.pow2_bits_eqb. lia. }
    destruct (Z.testbit x 3) eqn:E; [right | left];
      apply Z.bits_inj'; intros n Hn; rewrite Z.land_spec, ?Z.bits_0, B by lia;
      destruct (Z.eqb_spec 3 n) as [<- | Hne];
      rewrite ?E, ?andb_false_r; reflexivity.
  Qed.

  (** A nibble assembled as [low three bits + bit 3] splits again. *)
Lemma nibble_split a b :
    0 <= a <= 7 -> b = 0 \/ b = 8 ->
    Z.land (a + b) 7 = a /\ Z.land (a + b) 8 = b /\ 0 <= a + b < 16.
  Proof.
    intros Ha Hb.
    assert (A : a = 0 \/ a = 1 \/ a = 2 \/ a = 3 \/ a = 4 \/ a = 5 \/ a = 6 \/ a = 7) by lia.
    destruct Hb as [-> | ->];
      repeat (destruct A as [-> | A]); try subst a;
      (split; [reflexivity | split; [reflexivity | lia]]).
  Qed.

End JS.

(* ===================================================================== *)
(** * Game Genie codes ([gamegenie.js])                                   *)
(* ===================================================================== *)

Module GameGenie.

Definition LETTER_VALUES : string := "APZLGITYEOXUKSVN".

  (** [s.indexOf(c)] for a one-character needle, counting from [i];
      [-1] when the character does not occur. *)
Fixpoint indexOf_from (s : string) (c : ascii) (i : Z) : Z :=
    match s with
    | EmptyString => -1
    | String d s' => if Ascii.eqb d c then i else indexOf_from s' c (i + 1)
    end.

Definition indexOf (s : string) (c : ascii) : Z := indexOf_from s c 0.

  (** [s.substr(start, len)]; a negative start counts from the end. *)
Definition substr (s : string) (start len : Z) : string :=
    let n := Z.of_nat (String.length s) in
    let st := if start <? 0 then Z.max (n + start) 0 else start in
    String.substring (Z.to_nat st) (Z.to_nat len) s.

  (** [toUpperCase] on the ASCII range. *)
Definition upper_char (c : ascii) : ascii :=
    let n := Ascii.nat_of_ascii c in
    if ((97 <=? n) && (n <=? 122))%nat then Ascii.ascii_of_nat (n - 32) else c.

Fixpoint toUpperCase (s : string) : string :=
    match s with
    | EmptyString => EmptyString
    | String c s' => String (upper_char c) (toUpperCase s')
    end.

Definition toDigit (letter : ascii) : Z := indexOf LETTER_VALUES letter.

Definition toLetter (digit : Z) : string := substr LETTER_VALUES digit 1.

Record Patch := mkPatch
    { value : Z; addr : Z; wantskey : bool; key : option Z }.

  (** [encode]: the array [digits] after all assignments, then
      [digits.map(toLetter).join("")]. *)
Definition encode_digits (addr value : Z) (key : option Z) (wantskey : bool)
    : list Z :=
    let d0 := Z.land value 7 + Z.land (Z.shiftr value 4) 8 in
    let d1 := Z.land (Z.shiftr value 4) 7 + Z.land (Z.shiftr addr 4) 8 in
    let d2 := Z.land (Z.shiftr addr 4) 7 in
    let d3 := Z.shiftr addr 12 + Z.land addr 8 in
    let d4 := Z.land addr 7 + Z.land (Z.shiftr addr 8) 8 in
    let d5 := Z.land (Z.shiftr addr 8) 7 in
    match key with
    | None =>
        let d5 := d5 + Z.land value 8 in
        let d2 := if wantskey then d2 + 8 else d2 in
        [d0; d1; d2; d3; d4; d5]
    | Some key =>
        let d2 := d2 + 8 in
        let d5 := d5 + Z.land key 8 in
        let d6 := Z.land key 7 + Z.land (Z.shiftr key 4) 8 in
        let d7 := Z.land (Z.shiftr key 4) 7 + Z.land value 8 in
        [d0; d1; d2; d3; d4; d5; d6; d7]
    end.

Definition encode (addr value : Z) (key : option Z) (wantskey : bool)
    : string :=
    String.concat "" (map toLetter (encode_digits addr value key wantskey)).

  (** [decode] after [code.toUpperCase().split("").map(toDigit)]: every
      [digits[i]] is used under [&] or [>>], where a missing element
      counts as 0. *)
Definition decode_digits (digits : list Z) : Patch :=
    let d (i : nat) := JS.toInt (digits !! i) in
    let value :=
      Z.shiftl (Z.land (d 0%nat) 8) 4 + Z.shiftl (Z.land (d 1%nat) 7) 4
      + Z.land (d 0%nat) 7 in
    let addr :=
      Z.shiftl (Z.land (d 3%nat) 7) 12 + Z.shiftl (Z.land (d 4%nat) 8) 8
      + Z.shiftl (Z.land (d 5%nat) 7) 8 + Z.shiftl (Z.land (d 1%nat) 8) 4
      + Z.shiftl (Z.land (d 2%nat) 7) 4 + Z.land (d 3%nat) 8
      + Z.land (d 4%nat) 7 in
    let wantskey := negb (Z.shiftr (d 2%nat) 3 =? 0) in
    if (length digits =? 8)%nat then
      mkPatch (value + Z.land (d 7%nat) 8) addr wantskey
        (Some (Z.shiftl (Z.land (d 6%nat) 8) 4 + Z.shiftl (Z.land (d 7%nat) 7) 4
               + Z.land (d 5%nat) 8 + Z.land (d 6%nat) 7))
    else
      mkPatch (value + Z.land (d 5%nat) 8) addr wantskey None.

  Section Decode.
    (** The [addr:value?key] hexadecimal syntax is parsed by [decodeHex]
        with a regular expression; it is kept abstract here. *)
    Variable decodeHex : string -> option Patch.

Definition decode (code : string) : option Patch :=
      if negb (indexOf code ":" =? -1) then decodeHex code
      else Some (decode_digits
                   (map toDigit (String.list_ascii_of_string (toUpperCase code)))).
  End Decode.

Example encode_SXIOPO : encode 0x11d9 0xad None false = "SXIOPO"%string.
  Proof. reflexivity. Qed.

Example encode_AAEAULPA : encode 0x0b03 0x00 (Some 0x01) false = "AAEAULPA"%string.
  Proof. reflexivity. Qed.

Example decode_SXIOPO h :
    decode h "SXIOPO" = Some (mkPatch 0xad 0x11d9 false None).
  Proof. reflexivity. Qed.

  (** ** Letters and digits *)

Definition letter_ok (d : Z) : bool :=
    match toLetter d with
    | String c EmptyString =>
        (toDigit (upper_char c) =? d) && negb (Ascii.eqb c ":")
    | _ => false
    end.

Lemma letter_ok_all d : 0 <= d < 16 -> letter_ok d = true.
  Proof. apply (JS.forall_below_spec 16). vm_compute. reflexivity. Qed.

Lemma toLetter_inv d :
    0 <= d < 16 ->
    exists c, toLetter d = String c EmptyString
              /\ toDigit (upper_char c) = d /\ Ascii.eqb c ":" = false.
  Proof.
    intros Hd. pose proof (letter_ok_all d Hd) as H. unfold letter_ok in H.
    destruct (toLetter d) as [| c [| ? ?]]; try discriminate.
    apply andb_true_iff in H as [H1 H2]. exists c.
    repeat split; [by apply Z.eqb_eq | by destruct (Ascii.eqb c ":")].
  Qed.

Lemma indexOf_from_cons c s x i :
    Ascii.eqb c x = false ->
    indexOf_from (String c s) x i = indexOf_from s x (i + 1).
  Proof. intros H. simpl. by rewrite H. Qed.

Lemma indexOf_from_absent s x i j :
    indexOf_from s x i = -1 -> 0 <= i -> 0 <= j -> indexOf_from s x j = -1.
  Proof.
    revert i j. induction s as [| c s IH]; intros i j H Hi Hj; [done |].
    simpl in *. destruct (Ascii.eqb c x); [lia |].
    apply (IH (i + 1)); [done | lia | lia].
  Qed.

  (** The letters of a digit list contain no colon and map back, after
      upper-casing, to the same digits. *)
Lemma letters_roundtrip (ds : list Z) :
    Forall (fun d => 0 <= d < 16) ds ->
    let s := String.concat "" (map toLetter ds) in
    indexOf s ":" = -1
    /\ map toDigit (String.list_ascii_of_string (toUpperCase s)) = ds.
  Proof.
    induction 1 as [| d ds Hd Hds IH]; [done |].
    destruct (toLetter_inv d Hd) as (c & Hc & Hdig & Hne).
    simpl in IH. destruct IH as [IH1 IH2].
    cbn [map String.concat]. rewrite Hc.
    destruct ds as [| d' ds'].
    - cbn [map String.concat toUpperCase String.list_ascii_of_string].
      unfold indexOf. cbn [indexOf_from]. by rewrite Hne, Hdig.
    - change (map toLetter (d' :: ds')) with (toLetter d' :: map toLetter ds').
      set (rest := String.concat "" _) in *.
      change (String c "" +:+ "" +:+ rest) with (String c rest).
      split.
      + unfold indexOf in *. rewrite indexOf_from_cons by done.
        by apply (indexOf_from_absent rest ":" 0 (0 + 1)).
      + cbn [toUpperCase String.list_ascii_of_string map].
        by rewrite Hdig, IH2.
  Qed.

  (** ** Reassembling the fields *)

Definition value_bits (v : Z) : Z :=
    Z.shiftl (Z.land (Z.shiftr v 4) 8) 4 + Z.shiftl (Z.land (Z.shiftr v 4) 7) 4
    + Z.land v 7 + Z.land v 8.

Definition addr_bits (a : Z) : Z :=
    Z.shiftl (Z.shiftr a 12) 12 + Z.shiftl (Z.land (Z.shiftr a 8) 8) 8
    + Z.shiftl (Z.land (Z.shiftr a 8) 7) 8 + Z.shiftl (Z.land (Z.shiftr a 4) 8) 4
    + Z.shiftl (Z.land (Z.shiftr a 4) 7) 4 + Z.land a 8 + Z.land a 7.

Definition key_bits (k : Z) : Z :=
    Z.shiftl (Z.land (Z.shiftr k 4) 8) 4 + Z.shiftl (Z.land (Z.shiftr k 4) 7) 4
    + Z.land k 8 + Z.land k 7.

Lemma value_bits_id v : 0 <= v < 256 -> value_bits v = v.
  Proof.
    intros H. apply Z.eqb_eq.
    apply (JS.forall_below_spec 256 (fun v => value_bits v =? v)); [| done].
    vm_compute. reflexivity.
  Qed.

Lemma key_bits_id k : 0 <= k < 256 -> key_bits k = k.
  Proof.
    intros H. apply Z.eqb_eq.
    apply (JS.forall_below_spec 256 (fun k => key_bits k =? k)); [| done].
    vm_compute. reflexivity.
  Qed.

Lemma addr_bits_id a : 0 <= a < 0x8000 -> addr_bits a = a.
  Proof.
    intros H. apply Z.eqb_eq.
    apply (JS.forall_below_spec (Z.to_nat 0x8000) (fun a => addr_bits a =? a));
      [| done].
    vm_compute. reflexivity.
  Qed.

Lemma shiftr_12_bounds a : 0 <= a < 0x8000 -> 0 <= Z.shiftr a 12 <= 7.
  Proof.
    intros H. rewrite Z.shiftr_div_pow2 by lia. change (2 ^ 12) with 4096.
    split; [apply Z.div_pos; lia |].
    assert (a / 4096 < 8) by (apply Z.div_lt_upper_bound; lia). lia.
  Qed.

Lemma shiftr_3_small x : 0 <= x <= 7 -> Z.shiftr x 3 = 0.
  Proof.
    intros H. rewrite Z.shiftr_div_pow2 by lia. change (2 ^ 3) with 8.
    apply Z.div_small. lia.
  Qed.

Lemma shiftr_3_bit x : 0 <= x <= 7 -> Z.shiftr (x + 8) 3 = 1.
  Proof.
    intros H. rewrite Z.shiftr_div_pow2 by lia. change (2 ^ 3) with 8.
    symmetry. apply (Z.div_unique _ _ _ x); lia.
  Qed.

  Section RoundTrip.
    Variables (addr value : Z) (key : option Z) (wantskey : bool).
    Hypothesis addr_range : 0 <= addr < 0x8000.
    Hypothesis value_range : 0 <= value < 256.
    Hypothesis key_range : forall k, key = Some k -> 0 <= k < 256.

Ltac nibble a b :=
      let E1 := fresh "E" in
      let E2 := fresh "E" in
      let R := fresh "R" in
      assert (Z.land (a + b) 7 = a /\ Z.land (a + b) 8 = b /\ 0 <= a + b < 16)
        as (E1 & E2 & R)
        by (apply JS.nibble_split;
            auto using JS.land_7_bounds, JS.land_8_cases, shiftr_12_bounds).

Ltac rewrite_nibbles :=
      repeat match goal with
             | E : Z.land (_ + _) _ = _ |- _ => progress rewrite E
             end.

Lemma encode_digits_range :
      Forall (fun d => 0 <= d < 16) (encode_digits addr value key wantskey).
    Proof.
      unfold encode_digits.
      nibble (Z.land value 7) (Z.land (Z.shiftr value 4) 8).
      nibble (Z.land (Z.shiftr value 4) 7) (Z.land (Z.shiftr addr 4) 8).
      nibble (Z.land (Z.shiftr addr 4) 7) 8.
      nibble (Z.shiftr addr 12) (Z.land addr 8).
      nibble (Z.land addr 7) (Z.land (Z.shiftr addr 8) 8).
      pose proof (JS.land_7_bounds (Z.shiftr addr 4)).
      destruct key as [k |].
      - nibble (Z.land (Z.shiftr addr 8) 7) (Z.land k 8).
        nibble (Z.land k 7) (Z.land (Z.shiftr k 4) 8).
        nibble (Z.land (Z.shiftr k 4) 7) (Z.land value 8).
        repeat constructor; lia.
      - nibble (Z.land (Z.shiftr addr 8) 7) (Z.land value 8).
        destruct wantskey; repeat constructor; lia.
    Qed.

Lemma decode_encode_digits :
      decode_digits (encode_digits addr value key wantskey)
      = mkPatch value addr (wantskey || bool_decide (is_Some key)) key.
    Proof.
      unfold encode_digits, decode_digits.
      nibble (Z.land value 7) (Z.land (Z.shiftr value 4) 8).
      nibble (Z.land (Z.shiftr value 4) 7) (Z.land (Z.shiftr addr 4) 8).
      nibble (Z.land (Z.shiftr addr 4) 7) 8.
      nibble (Z.shiftr addr 12) (Z.land addr 8).
      nibble (Z.land addr 7) (Z.land (Z.shiftr addr 8) 8).
      pose proof (JS.land_7_bounds (Z.shiftr addr 4)) as B2.
      pose proof (JS.nibble_split _ 0 B2 (or_introl eq_refl)) as (E2' & _).
      rewrite Z.add_0_r in E2'.
      pose proof (addr_bits_id addr addr_range) as HA.
      pose proof (value_bits_id value value_range) as HV.
      unfold addr_bits, value_bits in *.
      destruct key as [k |].
      - nibble (Z.land (Z.shiftr addr 8) 7) (Z.land k 8).
        nibble (Z.land k 7) (Z.land (Z.shiftr k 4) 8).
        nibble (Z.land (Z.shiftr k 4) 7) (Z.land value 8).
        pose proof (key_bits_id k (key_range k eq_refl)) as HK.
        unfold key_bits in HK.
        cbn [length Nat.eqb lookup list_lookup JS.toInt default id].
        rewrite shiftr_3_bit by done. rewrite_nibbles.
        rewrite orb_true_r.
        f_equal; [| | f_equal]; lia.
      - nibble (Z.land (Z.shiftr addr 8) 7) (Z.land value 8).
        destruct wantskey;
          cbn [length Nat.eqb lookup list_lookup JS.toInt default id];
          rewrite ?shiftr_3_bit, ?shiftr_3_small by done; rewrite_nibbles;
          rewrite ?E2'; f_equal; lia.
    Qed.

    (** The code produced by [encode] has six letters without a key and
        eight with one. *)
Lemma encode_digits_length :
      length (encode_digits addr value key wantskey)
      = if key is Some _ then 8%nat else 6%nat.
    Proof. unfold encode_digits. by destruct key. Qed.
  End RoundTrip.

  (** C9. For an address below 0x8000, a value byte and an optional key
      byte (the fields a six- or eight-letter code can hold), decoding the
      code produced by [encode] gives back the same address, value and
      key; [wantskey] comes back set exactly when a key was given or
      [wantskey] was passed. *)
Theorem decode_encode_roundtrip decodeHex addr value key wantskey :
    0 <= addr < 0x8000 -> 0 <= value < 256 ->
    (forall k, key = Some k -> 0 <= k < 256) ->
    decode decodeHex (encode addr value key wantskey)
    = Some (mkPatch value addr (wantskey || bool_decide (is_Some key)) key).
  Proof.
    intros Ha Hv Hk. unfold decode, encode.
    assert (R : Forall (fun d => 0 <= d < 16)
                  (encode_digits addr value key wantskey))
      by (apply encode_digits_range; done).
    destruct (letters_roundtrip _ R) as [Hcolon Hdigits].
    rewrite Hcolon, Hdigits. cbn [Z.eqb negb].
    by rewrite decode_encode_digits.
  Qed.

Lemma decode_encode_roundtrip_witness :
    decode (fun _ => None) (encode 0x11d9 0xad (Some 0x5a) false)
    = Some (mkPatch 0xad 0x11d9 true (Some 0x5a)).
  Proof.
    apply (decode_encode_roundtrip (fun _ => None) 0x11d9 0xad (Some 0x5a) false).
    - lia.
    - lia.
    - intros k [= <-]. lia.
  Defined.

End GameGenie.

(* ===================================================================== *)
(** * Controller ports of the base mapper ([mapper0.js])                  *)
(* ===================================================================== *)

Module Joypad.

  (** The mapper fields behind $4016/$4017. *)
Record t := mk
    { joy1StrobeState : Z; joy2StrobeState : Z; joypadLastWrite : Z }.

  (** [Mapper0.reset] *)
Definition reset : t := mk 0 0 0.

  (** [regWrite], case 0x4016: a 1 -> 0 transition of bit 0 reloads both
      shift registers. *)
Definition write4016 (value : Z) (m : t) : t :=
    let m :=
      if (Z.land value 1 =? 0) && (Z.land (joypadLastWrite m) 1 =? 1)
      then mk 0 0 (joypadLastWrite m) else m in
    mk (joy1StrobeState m) (joy2StrobeState m) value.

  Section Read.
    (** [nes.controllers[1].state]: the eight button states, A first.  The
        [Controller] object only stores this array. *)
    Variable state : list Z.

    (** [joy1Read]; the result is [None] when it is [undefined]. *)
Definition joy1Read (m : t) : option Z * t :=
      if negb (Z.land (joypadLastWrite m) 1 =? 0) then (state !! 0%nat, m)
      else
        let ret :=
          if joy1StrobeState m <? 8 then JS.ta_get state (joy1StrobeState m)
          else Some 1 in
        let n := joy1StrobeState m + 1 in
        let n := if n =? 24 then 0 else n in
        (ret, mk n (joy2StrobeState m) (joypadLastWrite m)).

    (** The mapper state after [n] reads, and the value of read [n + 1]. *)
Fixpoint after_reads (n : nat) (m : t) : t :=
      match n with
      | O => m
      | S n' => snd (joy1Read (after_reads n' m))
      end.

Lemma after_reads_S n m :
      after_reads (S n) m = snd (joy1Read (after_reads n m)).
    Proof. reflexivity. Qed.

Definition nth_read (n : nat) (m : t) : option Z :=
      fst (joy1Read (after_reads n m)).

    (** [regLoad], case 0x4016, given the CPU data bus. *)
Definition load4016 (dataBus : Z) (m : t) : Z * t :=
      let '(r, m') := joy1Read m in
      (Z.lor (Z.land (JS.toInt r) 0x1f) (Z.land dataBus 0xe0), m').

    (** A strobe: a write with bit 0 set followed by one with bit 0 clear. *)
Definition strobe (hi lo : Z) (m : t) : t := write4016 lo (write4016 hi m).

Lemma strobe_state hi lo m :
      Z.land hi 1 = 1 -> Z.land lo 1 = 0 ->
      strobe hi lo m = mk 0 0 lo.
    Proof.
      intros Hhi Hlo. unfold strobe, write4016.
      destruct ((Z.land hi 1 =? 0) && (Z.land (joypadLastWrite m) 1 =? 1));
        cbn [joypadLastWrite joy1StrobeState joy2StrobeState];
        by rewrite Hhi, Hlo.
    Qed.

    (** Between strobes the counter runs through a cycle of 24 reads. *)
Lemma after_reads_counter lo (n : nat) :
      Z.land lo 1 = 0 -> (n < 24)%nat ->
      after_reads n (mk 0 0 lo) = mk (Z.of_nat n) 0 lo.
    Proof.
      intros Hlo. induction n as [| n IH]; intros Hn; [done |].
      cbn [after_reads]. rewrite IH by lia. unfold joy1Read.
      cbn [joypadLastWrite joy1StrobeState joy2StrobeState].
      rewrite Hlo. cbn [Z.eqb negb snd].
      destruct (Z.eqb_spec (Z.of_nat n + 1) 24); [lia |].
      f_equal. lia.
    Qed.

Lemma nth_read_value lo (n : nat) :
      Z.land lo 1 = 0 -> (n < 24)%nat ->
      nth_read n (mk 0 0 lo)
      = if (n <? 8)%nat then state !! n else Some 1.
    Proof.
      intros Hlo Hn. unfold nth_read. rewrite after_reads_counter by done.
      unfold joy1Read. cbn [joypadLastWrite joy1StrobeState].
      rewrite Hlo. cbn [Z.eqb negb fst].
      destruct (Nat.ltb_spec n 8), (Z.ltb_spec (Z.of_nat n) 8); try lia; [| done].
      unfold JS.ta_get. destruct (Z.leb_spec 0 (Z.of_nat n)); [| lia].
      by rewrite Nat2Z.id.
    Qed.

Lemma after_24_reads lo :
      Z.land lo 1 = 0 -> after_reads 24 (mk 0 0 lo) = mk 0 0 lo.
    Proof.
      intros Hlo. rewrite (after_reads_S 23).
      rewrite after_reads_counter by (done || lia). unfold joy1Read.
      cbn [joypadLastWrite joy1StrobeState joy2StrobeState].
      by rewrite Hlo.
    Qed.

    (** The value of read [n + 1] once the counter has wrapped. *)
Lemma nth_read_24 lo :
      Z.land lo 1 = 0 -> nth_read 24 (mk 0 0 lo) = state !! 0%nat.
    Proof.
      intros Hlo. unfold nth_read. rewrite after_24_reads by done.
      unfold joy1Read. cbn [joypadLastWrite joy1StrobeState].
      by rewrite Hlo.
    Qed.

    (** Reads of $4016 one after the other: [buses] gives the CPU data
        bus at each read, and the result lists the values read, the first
        read first. *)
Fixpoint loads4016 (buses : list Z) (m : t) : list Z * t :=
      match buses with
      | [] => ([], m)
      | b :: bs =>
          let '(v, m1) := load4016 b m in
          let '(vs, m2) := loads4016 bs m1 in
          (v :: vs, m2)
      end.

Lemma load4016_joy1Read b m :
      load4016 b m
      = (Z.lor (Z.land (JS.toInt (fst (joy1Read m))) 0x1f) (Z.land b 0xe0),
         snd (joy1Read m)).
    Proof. unfold load4016. by destruct (joy1Read m). Qed.

Lemma after_reads_shift n m :
      after_reads (S n) m = after_reads n (snd (joy1Read m)).
    Proof.
      induction n as [| n IH]; [done |].
      rewrite (after_reads_S (S n)), IH. done.
    Qed.

    (** Read [n + 1] of $4016 is [joy1Read] after [n] reads, with bits 5
        to 7 of the data bus. *)
Lemma loads4016_lookup buses :
      forall m (n : nat) b,
        buses !! n = Some b ->
        fst (loads4016 buses m) !! n
        = Some (Z.lor (Z.land (JS.toInt (nth_read n m)) 0x1f)
                      (Z.land b 0xe0)).
    Proof.
      induction buses as [| b0 bs IH]; intros m n b Hb; [done |].
      cbn [loads4016]. rewrite load4016_joy1Read.
      destruct (loads4016 bs (snd (joy1Read m))) as [vs m2] eqn:E.
      destruct n as [| n]; cbn [fst] in *.
      - injection Hb as ->. done.
      - change ((b0 :: bs) !! S n) with (bs !! n) in Hb.
        specialize (IH (snd (joy1Read m)) n b Hb).
        rewrite E in IH. cbn [fst] in IH.
        unfold nth_read in *. rewrite after_reads_shift. exact IH.
    Qed.
  End Read.

  (** C7.  After a strobe, reads 1 to 8 of $4016 return the button states
      A, B, SELECT, START, UP, DOWN, LEFT, RIGHT in bits 0 to 4 (bits 5
      to 7 come from the data bus) and reads 9 to 24 return 1 there.
      [joy1Read] then sets its counter back to 0, so read 25 does not
      return 1: it returns the state of button A again. *)
Theorem reads_4016_after_strobe (state buses : list Z) hi lo m
      (n : nat) (b : Z) :
    Z.land hi 1 = 1 -> Z.land lo 1 = 0 ->
    (n <= 24)%nat -> buses !! n = Some b ->
    fst (loads4016 state buses (strobe hi lo m)) !! n
    = Some (Z.lor
              (Z.land
                 (JS.toInt (if (n <? 8)%nat then state !! n
                            else if (n <? 24)%nat then Some 1
                                 else state !! 0%nat))
                 0x1f)
              (Z.land b 0xe0)).
  Proof.
    intros Hhi Hlo Hn Hb.
    rewrite (loads4016_lookup state buses _ n b Hb).
    rewrite strobe_state by done. do 3 f_equal.
    destruct (Nat.ltb_spec n 24) as [H24 | H24].
    - rewrite nth_read_value by done.
      by destruct (n <? 8)%nat.
    - assert (n = 24%nat) as -> by lia.
      by rewrite nth_read_24.
  Qed.

  (** With every button released, the 25th read of $4016 after the strobe
      has bit 0 clear: the value is $40, the data bus bits alone. *)
Lemma reads_4016_after_strobe_witness :
    fst (loads4016 [0; 0; 0; 0; 0; 0; 0; 0] (replicate 25 0x40)
                   (strobe 1 0 reset)) !! 24%nat
    = Some 0x40.
  Proof.
    apply (reads_4016_after_strobe [0; 0; 0; 0; 0; 0; 0; 0]
             (replicate 25 0x40) 1 0 reset 24 0x40);
      [reflexivity | reflexivity | lia | reflexivity].
  Defined.

End Joypad.

(* ===================================================================== *)
(** * PPU register interface ([ppu/index.js])                             *)
(* ===================================================================== *)

Module PPU.

(** The fields of the PPU behind the VRAM and OAM data ports.  The
    decoded caches kept beside them (pattern tiles, name tables, the two
    palettes, sprite coordinates, sprite-0 hit position, frame buffers)
    are rebuilt from these fields by [triggerRendering], [patternWrite],
    [nameTableWrite], [attribTableWrite], [updatePalettes],
    [spriteRamWriteUpdate] and [checkSprite0]; none of those assigns a
    field listed here, and they are left out. *)
Record t := mk
  { vramMem : list Z;
    spriteMem : list Z;
    vramMirrorTable : list Z;
    vramAddress : Z;
    vramTmpAddress : Z;
    vramBufferedReadValue : option Z;
    firstWrite : bool;
    openBusLatch : Z;
    openBusDecayFrames : Z;
    sramAddress : Z;
    f_addrInc : Z;
    cntFV : Z;
    cntV : Z;
    cntH : Z;
    cntVT : Z;
    cntHT : Z;
    regFV : Z;
    regV : Z;
    regH : Z;
    regVT : Z;
    regHT : Z;
    regFH : Z }.

Definition set_vramMem (v : list Z) (x : t) : t :=
  mk v (spriteMem x) (vramMirrorTable x) (vramAddress x) (vramTmpAddress x) (vramBufferedReadValue x) (firstWrite x) (openBusLatch x) (openBusDecayFrames x) (sramAddress x) (f_addrInc x) (cntFV x) (cntV x) (cntH x) (cntVT x) (cntHT x) (regFV x) (regV x) (regH x) (regVT x) (regHT x) (regFH x).
Definition set_spriteMem (v : list Z) (x : t) : t :=
  mk (vramMem x) v (vramMirrorTable x) (vramAddress x) (vramTmpAddress x) (vramBufferedReadValue x) (firstWrite x) (openBusLatch x) (openBusDecayFrames x) (sramAddress x) (f_addrInc x) (cntFV x) (cntV x) (cntH x) (cntVT x) (cntHT x) (regFV x) (regV x) (regH x) (regVT x) (regHT x) (regFH x).
Definition set_vramMirrorTable (v : list Z) (x : t) : t :=
  mk (vramMem x) (spriteMem x) v (vramAddress x) (vramTmpAddress x) (vramBufferedReadValue x) (firstWrite x) (openBusLatch x) (openBusDecayFrames x) (sramAddress x) (f_addrInc x) (cntFV x) (cntV x) (cntH x) (cntVT x) (cntHT x) (regFV x) (regV x) (regH x) (regVT x) (regHT x) (regFH x).
Definition set_vramAddress (v : Z) (x : t) : t :=
  mk (vramMem x) (spriteMem x) (vramMirrorTable x) v (vramTmpAddress x) (vramBufferedReadValue x) (firstWrite x) (openBusLatch x) (openBusDecayFrames x) (sramAddress x) (f_addrInc x) (cntFV x) (cntV x) (cntH x) (cntVT x) (cntHT x) (regFV x) (regV x) (regH x) (regVT x) (regHT x) (regFH x).
Definition set_vramTmpAddress (v : Z) (x : t) : t :=
  mk (vramMem x) (spriteMem x) (vramMirrorTable x) (vramAddress x) v (vramBufferedReadValue x) (firstWrite x) (openBusLatch x) (openBusDecayFrames x) (sramAddress x) (f_addrInc x) (cntFV x) (cntV x) (cntH x) (cntVT x) (cntHT x) (regFV x) (regV x) (regH x) (regVT x) (regHT x) (regFH x).
Definition set_vramBufferedReadValue (v : option Z) (x : t) : t :=
  mk (vramMem x) (spriteMem x) (vramMirrorTable x) (vramAddress x) (vramTmpAddress x) v (firstWrite x) (openBusLatch x) (openBusDecayFrames x) (sramAddress x) (f_addrInc x) (cntFV x) (cntV x) (cntH x) (cntVT x) (cntHT x) (regFV x) (regV x) (regH x) (regVT x) (regHT x) (regFH x).
Definition set_firstWrite (v : bool) (x : t) : t :=
  mk (vramMem x) (spriteMem x) (vramMirrorTable x) (vramAddress x) (vramTmpAddress x) (vramBufferedReadValue x) v (openBusLatch x) (openBusDecayFrames x) (sramAddress x) (f_addrInc x) (cntFV x) (cntV x) (cntH x) (cntVT x) (cntHT x) (regFV x) (regV x) (regH x) (regVT x) (regHT x) (regFH x).
Definition set_openBusLatch (v : Z) (x : t) : t :=
  mk (vramMem x) (spriteMem x) (vramMirrorTable x) (vramAddress x) (vramTmpAddress x) (vramBufferedReadValue x) (firstWrite x) v (openBusDecayFrames x) (sramAddress x) (f_addrInc x) (cntFV x) (cntV x) (cntH x) (cntVT x) (cntHT x) (regFV x) (regV x) (regH x) (regVT x) (regHT x) (regFH x).
Definition set_openBusDecayFrames (v : Z) (x : t) : t :=
  mk (vramMem x) (spriteMem x) (vramMirrorTable x) (vramAddress x) (vramTmpAddress x) (vramBufferedReadValue x) (firstWrite x) (openBusLatch x) v (sramAddress x) (f_addrInc x) (cntFV x) (cntV x) (cntH x) (cntVT x) (cntHT x) (regFV x) (regV x) (regH x) (regVT x) (regHT x) (regFH x).
Definition set_sramAddress (v : Z) (x : t) : t :=
  mk (vramMem x) (spriteMem x) (vramMirrorTable x) (vramAddress x) (vramTmpAddress x) (vramBufferedReadValue x) (firstWrite x) (openBusLatch x) (openBusDecayFrames x) v (f_addrInc x) (cntFV x) (cntV x) (cntH x) (cntVT x) (cntHT x) (regFV x) (regV x) (regH x) (regVT x) (regHT x) (regFH x).
Definition set_f_addrInc (v : Z) (x : t) : t :=
  mk (vramMem x) (spriteMem x) (vramMirrorTable x) (vramAddress x) (vramTmpAddress x) (vramBufferedReadValue x) (firstWrite x) (openBusLatch x) (openBusDecayFrames x) (sramAddress x) v (cntFV x) (cntV x) (cntH x) (cntVT x) (cntHT x) (regFV x) (regV x) (regH x) (regVT x) (regHT x) (regFH x).
Definition set_cntFV (v : Z) (x : t) : t :=
  mk (vramMem x) (spriteMem x) (vramMirrorTable x) (vramAddress x) (vramTmpAddress x) (vramBufferedReadValue x) (firstWrite x) (openBusLatch x) (openBusDecayFrames x) (sramAddress x) (f_addrInc x) v (cntV x) (cntH x) (cntVT x) (cntHT x) (regFV x) (regV x) (regH x) (regVT x) (regHT x) (regFH x).
Definition set_cntV (v : Z) (x : t) : t :=
  mk (vramMem x) (spriteMem x) (vramMirrorTable x) (vramAddress x) (vramTmpAddress x) (vramBufferedReadValue x) (firstWrite x) (openBusLatch x) (openBusDecayFrames x) (sramAddress x) (f_addrInc x) (cntFV x) v (cntH x) (cntVT x) (cntHT x) (regFV x) (regV x) (regH x) (regVT x) (regHT x) (regFH x).
Definition set_cntH (v : Z) (x : t) : t :=
  mk (vramMem x) (spriteMem x) (vramMirrorTable x) (vramAddress x) (vramTmpAddress x) (vramBufferedReadValue x) (firstWrite x) (openBusLatch x) (openBusDecayFrames x) (sramAddress x) (f_addrInc x) (cntFV x) (cntV x) v (cntVT x) (cntHT x) (regFV x) (regV x) (regH x) (regVT x) (regHT x) (regFH x).
Definition set_cntVT (v : Z) (x : t) : t :=
  mk (vramMem x) (spriteMem x) (vramMirrorTable x) (vramAddress x) (vramTmpAddress x) (vramBufferedReadValue x) (firstWrite x) (openBusLatch x) (openBusDecayFrames x) (sramAddress x) (f_addrInc x) (cntFV x) (cntV x) (cntH x) v (cntHT x) (regFV x) (regV x) (regH x) (regVT x) (regHT x) (regFH x).
Definition set_cntHT (v : Z) (x : t) : t :=
  mk (vramMem x) (spriteMem x) (vramMirrorTable x) (vramAddress x) (vramTmpAddress x) (vramBufferedReadValue x) (firstWrite x) (openBusLatch x) (openBusDecayFrames x) (sramAddress x) (f_addrInc x) (cntFV x) (cntV x) (cntH x) (cntVT x) v (regFV x) (regV x) (regH x) (regVT x) (regHT x) (regFH x).
Definition set_regFV (v : Z) (x : t) : t :=
  mk (vramMem x) (spriteMem x) (vramMirrorTable x) (vramAddress x) (vramTmpAddress x) (vramBufferedReadValue x) (firstWrite x) (openBusLatch x) (openBusDecayFrames x) (sramAddress x) (f_addrInc x) (cntFV x) (cntV x) (cntH x) (cntVT x) (cntHT x) v (regV x) (regH x) (regVT x) (regHT x) (regFH x).
Definition set_regV (v : Z) (x : t) : t :=
  mk (vramMem x) (spriteMem x) (vramMirrorTable x) (vramAddress x) (vramTmpAddress x) (vramBufferedReadValue x) (firstWrite x) (openBusLatch x) (openBusDecayFrames x) (sramAddress x) (f_addrInc x) (cntFV x) (cntV x) (cntH x) (cntVT x) (cntHT x) (regFV x) v (regH x) (regVT x) (regHT x) (regFH x).
Definition set_regH (v : Z) (x : t) : t :=
  mk (vramMem x) (spriteMem x) (vramMirrorTable x) (vramAddress x) (vramTmpAddress x) (vramBufferedReadValue x) (firstWrite x) (openBusLatch x) (openBusDecayFrames x) (sramAddress x) (f_addrInc x) (cntFV x) (cntV x) (cntH x) (cntVT x) (cntHT x) (regFV x) (regV x) v (regVT x) (regHT x) (regFH x).
Definition set_regVT (v : Z) (x : t) : t :=
  mk (vramMem x) (spriteMem x) (vramMirrorTable x) (vramAddress x) (vramTmpAddress x) (vramBufferedReadValue x) (firstWrite x) (openBusLatch x) (openBusDecayFrames x) (sramAddress x) (f_addrInc x) (cntFV x) (cntV x) (cntH x) (cntVT x) (cntHT x) (regFV x) (regV x) (regH x) v (regHT x) (regFH x).
Definition set_regHT (v : Z) (x : t) : t :=
  mk (vramMem x) (spriteMem x) (vramMirrorTable x) (vramAddress x) (vramTmpAddress x) (vramBufferedReadValue x) (firstWrite x) (openBusLatch x) (openBusDecayFrames x) (sramAddress x) (f_addrInc x) (cntFV x) (cntV x) (cntH x) (cntVT x) (cntHT x) (regFV x) (regV x) (regH x) (regVT x) v (regFH x).
Definition set_regFH (v : Z) (x : t) : t :=
  mk (vramMem x) (spriteMem x) (vramMirrorTable x) (vramAddress x) (vramTmpAddress x) (vramBufferedReadValue x) (firstWrite x) (openBusLatch x) (openBusDecayFrames x) (sramAddress x) (f_addrInc x) (cntFV x) (cntV x) (cntH x) (cntVT x) (cntHT x) (regFV x) (regV x) (regH x) (regVT x) (regHT x) v.

(** ** VRAM address counters *)

Definition regsFromAddress (p : t) : t :=
  let address := Z.land (Z.shiftr (vramTmpAddress p) 8) 0xff in
  let p := set_regFV (Z.land (Z.shiftr address 4) 7) p in
  let p := set_regV (Z.land (Z.shiftr address 3) 1) p in
  let p := set_regH (Z.land (Z.shiftr address 2) 1) p in
  let p := set_regVT (Z.lor (Z.land (regVT p) 7) (Z.shiftl (Z.land address 3) 3)) p in
  let address := Z.land (vramTmpAddress p) 0xff in
  let p := set_regVT (Z.lor (Z.land (regVT p) 24) (Z.land (Z.shiftr address 5) 7)) p in
  set_regHT (Z.land address 31) p.

Definition cntsFromAddress (p : t) : t :=
  let address := Z.land (Z.shiftr (vramAddress p) 8) 0xff in
  let p := set_cntFV (Z.land (Z.shiftr address 4) 3) p in
  let p := set_cntV (Z.land (Z.shiftr address 3) 1) p in
  let p := set_cntH (Z.land (Z.shiftr address 2) 1) p in
  let p := set_cntVT (Z.lor (Z.land (cntVT p) 7) (Z.shiftl (Z.land address 3) 3)) p in
  let address := Z.land (vramAddress p) 0xff in
  let p := set_cntVT (Z.lor (Z.land (cntVT p) 24) (Z.land (Z.shiftr address 5) 7)) p in
  set_cntHT (Z.land address 31) p.

Definition regsToAddress (p : t) : t :=
  let b1 := Z.shiftl (Z.land (regFV p) 7) 4 in
  let b1 := Z.lor b1 (Z.shiftl (Z.land (regV p) 1) 3) in
  let b1 := Z.lor b1 (Z.shiftl (Z.land (regH p) 1) 2) in
  let b1 := Z.lor b1 (Z.land (Z.shiftr (regVT p) 3) 3) in
  let b2 := Z.shiftl (Z.land (regVT p) 7) 5 in
  let b2 := Z.lor b2 (Z.land (regHT p) 31) in
  set_vramTmpAddress (Z.land (Z.lor (Z.shiftl b1 8) b2) 0x7fff) p.

(** The address held by the counters, as [cntsToAddress] computes it. *)
Definition cnts_address (p : t) : Z :=
  let b1 := Z.shiftl (Z.land (cntFV p) 7) 4 in
  let b1 := Z.lor b1 (Z.shiftl (Z.land (cntV p) 1) 3) in
  let b1 := Z.lor b1 (Z.shiftl (Z.land (cntH p) 1) 2) in
  let b1 := Z.lor b1 (Z.land (Z.shiftr (cntVT p) 3) 3) in
  let b2 := Z.shiftl (Z.land (cntVT p) 7) 5 in
  let b2 := Z.lor b2 (Z.land (cntHT p) 31) in
  Z.land (Z.lor (Z.shiftl b1 8) b2) 0x7fff.

Definition cntsToAddress (p : t) : t := set_vramAddress (cnts_address p) p.

(** ** VRAM access *)

(** [mirroredLoad]: [vramMem[vramMirrorTable[address]]]. *)
Definition mirroredLoad (address : Z) (p : t) : option Z :=
  match JS.ta_get (vramMirrorTable p) address with
  | Some a => JS.ta_get (vramMem p) a
  | None => None
  end.

(** [writeMem]: the store into [vramMem]; the rest of the function
    refreshes the decoded caches. *)
Definition writeMem (address value : Z) (p : t) : t :=
  set_vramMem (JS.ta_set (vramMem p) address value) p.

(** [mirroredWrite]; [None] when it throws "Invalid VRAM address". *)
Definition mirroredWrite (address value : Z) (p : t) : option t :=
  if (0x3f00 <=? address) && (address <? 0x3f20) then
    if (address =? 0x3f00) || (address =? 0x3f10) then
      Some (writeMem 0x3f10 value (writeMem 0x3f00 value p))
    else if (address =? 0x3f04) || (address =? 0x3f14) then
      Some (writeMem 0x3f14 value (writeMem 0x3f04 value p))
    else if (address =? 0x3f08) || (address =? 0x3f18) then
      Some (writeMem 0x3f18 value (writeMem 0x3f08 value p))
    else if (address =? 0x3f0c) || (address =? 0x3f1c) then
      Some (writeMem 0x3f1c value (writeMem 0x3f0c value p))
    else Some (writeMem address value p)
  else if address <? Z.of_nat (length (vramMirrorTable p)) then
    match JS.ta_get (vramMirrorTable p) address with
    | Some a => Some (writeMem a value p)
    | None => Some p
    end
  else None.

Definition increment (p : t) : t :=
  set_vramAddress (vramAddress p + (if f_addrInc p =? 1 then 32 else 1)) p.

(** [vramLoad], CPU register $2007 (read).  The value is [None] when it
    is [undefined]. *)
Definition vramLoad (p : t) : option Z * t :=
  let p := regsToAddress (cntsToAddress p) in
  if vramAddress p <=? 0x3eff then
    let tmp := vramBufferedReadValue p in
    let p :=
      if vramAddress p <? 0x2000
      then set_vramBufferedReadValue (JS.ta_get (vramMem p) (vramAddress p)) p
      else set_vramBufferedReadValue (mirroredLoad (vramAddress p) p) p in
    let p := increment p in
    (tmp, regsFromAddress (cntsFromAddress p))
  else
    let palIdx := Z.land (vramAddress p) 0x1f in
    let palIdx := if Z.land palIdx 0x13 =? 0x10 then Z.land palIdx 0x0f else palIdx in
    let tmp :=
      Z.lor (Z.land (JS.toInt (JS.ta_get (vramMem p) (0x3f00 + palIdx))) 0x3f)
            (Z.land (openBusLatch p) 0xc0) in
    let p :=
      set_vramBufferedReadValue (mirroredLoad (Z.land (vramAddress p) 0x2fff) p) p in
    let p := increment p in
    (Some tmp, regsFromAddress (cntsFromAddress p)).

(** [vramWrite], CPU register $2007 (write); [vromCount] is
    [nes.rom.vromCount].  [None] when [mirroredWrite] throws. *)
Definition vramWrite (vromCount : Z) (value : Z) (p : t) : option t :=
  let p := regsToAddress (cntsToAddress p) in
  let r :=
    if 0x2000 <=? vramAddress p then mirroredWrite (vramAddress p) value p
    else if vromCount =? 0 then Some (writeMem (vramAddress p) value p)
    else Some p in
  match r with
  | Some p => Some (cntsFromAddress (regsFromAddress (increment p)))
  | None => None
  end.

(** [writeVRAMAddress], CPU register $2006. *)
Definition writeVRAMAddress (address : Z) (p : t) : t :=
  let p :=
    if firstWrite p then
      let p := set_regFV (Z.land (Z.shiftr address 4) 3) p in
      let p := set_regV (Z.land (Z.shiftr address 3) 1) p in
      let p := set_regH (Z.land (Z.shiftr address 2) 1) p in
      set_regVT (Z.lor (Z.land (regVT p) 7) (Z.shiftl (Z.land address 3) 3)) p
    else
      let p := set_regVT (Z.lor (Z.land (regVT p) 24) (Z.land (Z.shiftr address 5) 7)) p in
      let p := set_regHT (Z.land address 31) p in
      let p := set_cntFV (regFV p) p in
      let p := set_cntV (regV p) p in
      let p := set_cntH (regH p) p in
      let p := set_cntVT (regVT p) p in
      set_cntHT (regHT p) p in
  let p := set_firstWrite (negb (firstWrite p)) p in
  cntsToAddress p.

(** ** OAM access *)

(** [writeSRAMAddress], CPU register $2003. *)
Definition writeSRAMAddress (address : Z) (p : t) : t := set_sramAddress address p.

(** [sramLoad], CPU register $2004 (read). *)
Definition sramLoad (p : t) : option Z := JS.ta_get (spriteMem p) (sramAddress p).

(** [sramWrite], CPU register $2004 (write). *)
Definition sramWrite (value : Z) (p : t) : t :=
  let p := set_spriteMem (JS.ta_set (spriteMem p) (sramAddress p) value) p in
  set_sramAddress (Z.rem (sramAddress p + 1) 0x100) p.

(** The body of the copy loop of [sramDMA] for [count] iterations from
    index [i]; [mem] is [nes.cpu.mem]. *)
Fixpoint sramDMA_loop (mem : gmap Z Z) (baseAddress : Z)
    (count : nat) (i : Z) (p : t) : t :=
  match count with
  | O => p
  | S count' =>
      let data := mem !! (baseAddress + i) in
      let oamAddr := Z.land (sramAddress p + i) 0xff in
      let p := set_spriteMem (JS.ta_set (spriteMem p) oamAddr (JS.toInt data)) p in
      sramDMA_loop mem baseAddress count' (i + 1) p
  end.

(** [sramDMA], CPU register $4014: the PPU after the copy and the cycles
    passed to [cpu.haltCycles]. *)
Definition sramDMA (mem : gmap Z Z) (value : Z) (p : t) : t * Z :=
  let baseAddress := value * 0x100 in
  (sramDMA_loop mem baseAddress 256 0 p, 513).

(** ** The mapper's dispatch to the ports ([Mapper0.regWrite], [regLoad]) *)

(** Every write to $2000-$3FFF first refreshes the open-bus latch. *)
Definition latch_write (value : Z) (p : t) : t :=
  set_openBusDecayFrames 36 (set_openBusLatch value p).

Definition regWrite_2003 (value : Z) (p : t) : t :=
  writeSRAMAddress value (latch_write value p).

Definition regWrite_2004 (value : Z) (p : t) : t :=
  sramWrite value (latch_write value p).

Definition regWrite_2006 (value : Z) (p : t) : t :=
  writeVRAMAddress value (latch_write value p).

Definition regWrite_2007 (vromCount value : Z) (p : t) : option t :=
  vramWrite vromCount value (latch_write value p).

Definition regLoad_2007 (p : t) : option Z * t := vramLoad p.

(** $4014 is outside $2000-$3FFF: the latch is not touched. *)
Definition regWrite_4014 (mem : gmap Z Z) (value : Z) (p : t) : t * Z :=
  sramDMA mem value p.

(** ** Typed-array lemmas *)

Lemma ta_get_set_eq arr i v :
  0 <= i < Z.of_nat (length arr) ->
  JS.ta_get (JS.ta_set arr i v) i = Some (v mod 256).
Proof.
  intros Hi. unfold JS.ta_get, JS.ta_set.
  destruct (Z.leb_spec 0 i); [| lia].
  apply list_lookup_insert_eq. lia.
Qed.

Lemma ta_get_set_ne arr i j v :
  i <> j -> JS.ta_get (JS.ta_set arr i v) j = JS.ta_get arr j.
Proof.
  intros Hne. unfold JS.ta_get, JS.ta_set.
  destruct (Z.leb_spec 0 i), (Z.leb_spec 0 j); try done.
  apply list_lookup_insert_ne. lia.
Qed.

Lemma ta_set_length arr i v : length (JS.ta_set arr i v) = length arr.
Proof. unfold JS.ta_set. destruct (0 <=? i); [apply length_insert | done]. Qed.

(** ** OAM DMA *)

Lemma land_ff_mod x : Z.land x 0xff = x mod 256.
Proof. apply (Z.land_ones x 8). lia. Qed.

Lemma sramDMA_loop_sramAddress mem base count :
  forall i p, sramAddress (sramDMA_loop mem base count i p) = sramAddress p.
Proof.
  induction count as [| count IH]; intros i p; [done |].
  cbn [sramDMA_loop]. by rewrite IH.
Qed.

Lemma sramDMA_loop_other mem base count :
  forall i p,
    vramMem (sramDMA_loop mem base count i p) = vramMem p
    /\ openBusLatch (sramDMA_loop mem base count i p) = openBusLatch p
    /\ length (spriteMem (sramDMA_loop mem base count i p)) = length (spriteMem p).
Proof.
  induction count as [| count IH]; intros i p; [done |].
  cbn [sramDMA_loop]. destruct (IH (i + 1) (set_spriteMem
    (JS.ta_set (spriteMem p) (Z.land (sramAddress p + i) 255)
       (JS.toInt (mem !! (base + i)))) p)) as (-> & -> & ->).
  cbn. by rewrite ta_set_length.
Qed.

(** Bytes [i0 .. i0 + count - 1] of the page land at OAM offsets
    [(sramAddress + i) & 0xff]; the other offsets keep their value. *)
Lemma sramDMA_loop_spec mem base count :
  forall i0 p,
    length (spriteMem p) = 256%nat ->
    0 <= i0 -> i0 + Z.of_nat count <= 256 ->
    forall i, 0 <= i < 256 ->
      JS.ta_get (spriteMem (sramDMA_loop mem base count i0 p))
                (Z.land (sramAddress p + i) 0xff)
      = if (i0 <=? i) && (i <? i0 + Z.of_nat count)
        then Some (JS.toInt (mem !! (base + i)) mod 256)
        else JS.ta_get (spriteMem p) (Z.land (sramAddress p + i) 0xff).
Proof.
  induction count as [| count IH]; intros i0 p Hlen Hi0 Hend i Hi.
  - cbn [sramDMA_loop]. destruct (Z.leb_spec i0 i), (Z.ltb_spec i (i0 + Z.of_nat 0));
      cbn [andb]; try done; lia.
  - cbn [sramDMA_loop].
    set (p1 := set_spriteMem _ p).
    assert (Hs1 : sramAddress p1 = sramAddress p) by done.
    assert (Hlen1 : length (spriteMem p1) = 256%nat)
      by (subst p1; cbn [spriteMem set_spriteMem]; by rewrite ta_set_length).
    rewrite <- Hs1. rewrite IH; [| done | lia | lia | done].
    rewrite Hs1. subst p1. cbn [spriteMem set_spriteMem].
    rewrite !land_ff_mod.
    destruct (Z.eq_dec i i0) as [-> | Hne].
    + destruct (Z.leb_spec (i0 + 1) i0), (Z.ltb_spec i0 (i0 + 1 + Z.of_nat count));
        destruct (Z.leb_spec i0 i0), (Z.ltb_spec i0 (i0 + Z.of_nat (S count)));
        cbn [andb]; try lia.
      apply ta_get_set_eq. rewrite Hlen.
      pose proof (Z.mod_pos_bound (sramAddress p + i0) 256). lia.
    + assert ((sramAddress p + i0) mod 256 <> (sramAddress p + i) mod 256).
      { intros E. apply Hne.
        assert (H : (i - i0) mod 256 = 0).
        { replace (i - i0) with ((sramAddress p + i) - (sramAddress p + i0)) by lia.
          rewrite Zminus_mod, E, Z.sub_diag. done. }
        apply Z.mod_divide in H; [| lia]. destruct H as [k Hk].
        assert (k = 0) by lia. lia. }
      rewrite ta_get_set_ne by done.
      destruct (Z.leb_spec (i0 + 1) i), (Z.ltb_spec i (i0 + 1 + Z.of_nat count));
        destruct (Z.leb_spec i0 i), (Z.ltb_spec i (i0 + Z.of_nat (S count)));
        cbn [andb]; try lia; done.
Qed.

(** C10. An OAM DMA leaves the OAM address register as it found it; the
    256 bytes of CPU page [value] are stored at the OAM offsets
    [(sramAddress + i) & 0xff], [i = 0 .. 255], wrapping inside OAM. *)
Theorem sramDMA_keeps_sramAddress mem value p :
  length (spriteMem p) = 256%nat ->
  sramAddress (fst (regWrite_4014 mem value p)) = sramAddress p
  /\ snd (regWrite_4014 mem value p) = 513
  /\ forall i, 0 <= i < 256 ->
       JS.ta_get (spriteMem (fst (regWrite_4014 mem value p)))
                 (Z.land (sramAddress p + i) 0xff)
       = Some (JS.toInt (mem !! (value * 0x100 + i)) mod 256).
Proof.
  intros Hlen. unfold regWrite_4014, sramDMA. cbn [fst snd].
  split; [apply sramDMA_loop_sramAddress |]. split; [done |].
  intros i Hi.
  rewrite (sramDMA_loop_spec mem (value * 256) 256 0 p Hlen) by (done || lia).
  destruct (Z.leb_spec 0 i), (Z.ltb_spec i (0 + Z.of_nat 256)); cbn [andb]; try lia.
  done.
Qed.

(** ** Power-on state and name-table mirroring *)

Fixpoint iota (n : nat) (z : Z) : list Z :=
  match n with
  | O => []
  | S n' => z :: iota n' (z + 1)
  end.

Fixpoint zimap {A B} (f : Z -> A -> B) (i : Z) (l : list A) : list B :=
  match l with
  | [] => []
  | x :: l' => f i x :: zimap f (i + 1) l'
  end.

(** [defineMirrorRegion]: [table[fromStart + i] = toStart + i] for every
    [i] below [size], written as one pass over the [Uint16Array]. *)
Definition defineMirrorRegion (fromStart toStart size : Z) (table : list Z)
  : list Z :=
  zimap (fun i x =>
           if (fromStart <=? i) && (i <? fromStart + size)
           then Z.land (toStart + (i - fromStart)) 0xffff else x)
        0 table.

(** [setMirroring] for horizontal mirroring: the identity table, the
    palette mirrors, the mirrors of $2000 and $0000, and the two
    name-table mirrors. *)
Definition horizontal_mirror_table : list Z :=
  let t := iota (Z.to_nat 0x8000) 0 in
  let t := defineMirrorRegion 0x3f20 0x3f00 0x20 t in
  let t := defineMirrorRegion 0x3f40 0x3f00 0x20 t in
  let t := defineMirrorRegion 0x3f80 0x3f00 0x20 t in
  let t := defineMirrorRegion 0x3fc0 0x3f00 0x20 t in
  let t := defineMirrorRegion 0x3000 0x2000 0xf00 t in
  let t := defineMirrorRegion 0x4000 0x0000 0x4000 t in
  let t := defineMirrorRegion 0x2400 0x2000 0x400 t in
  defineMirrorRegion 0x2c00 0x2800 0x400 t.

(** The PPU as its constructor leaves it, after [setMirroring]. *)
Definition power_on : t :=
  mk (replicate (Z.to_nat 0x8000) 0) (replicate (Z.to_nat 0x100) 0)
     horizontal_mirror_table 0 0 (Some 0) true 0 0 0 0
     0 0 0 0 0 0 0 0 0 0 0.

Ltac ppu_simpl :=
  cbn [
    vramMem spriteMem vramMirrorTable vramAddress vramTmpAddress
    vramBufferedReadValue firstWrite openBusLatch openBusDecayFrames
    sramAddress f_addrInc cntFV cntV cntH cntVT cntHT regFV regV regH regVT
    regHT regFH set_vramMem set_spriteMem set_vramMirrorTable
    set_vramAddress set_vramTmpAddress set_vramBufferedReadValue
    set_firstWrite set_openBusLatch set_openBusDecayFrames set_sramAddress
    set_f_addrInc set_cntFV set_cntV set_cntH set_cntVT set_cntHT set_regFV
    set_regV set_regH set_regVT set_regHT set_regFH
  ] in *.

Lemma sramDMA_keeps_sramAddress_witness :
  sramAddress (fst (regWrite_4014 {[ 0x0203 := 0x55 ]} 2
                      (writeSRAMAddress 0xfe power_on))) = 0xfe
  /\ snd (regWrite_4014 {[ 0x0203 := 0x55 ]} 2
            (writeSRAMAddress 0xfe power_on)) = 513
  /\ forall i, 0 <= i < 256 ->
       JS.ta_get (spriteMem (fst (regWrite_4014 {[ 0x0203 := 0x55 ]} 2
                                    (writeSRAMAddress 0xfe power_on))))
                 (Z.land (0xfe + i) 0xff)
       = Some (JS.toInt (({[ 0x0203 := 0x55 ]} : gmap Z Z) !! (2 * 0x100 + i))
               mod 256).
Proof.
  apply (sramDMA_keeps_sramAddress {[ 0x0203 := 0x55 ]} 2
           (writeSRAMAddress 0xfe power_on)).
  reflexivity.
Defined.

(** Byte 3 of the page lands at OAM offset 1 when the copy starts at
    offset $FE. *)
Example sramDMA_wraps :
  JS.ta_get (spriteMem (fst (regWrite_4014 {[ 0x0203 := 0x55 ]} 2
                               (writeSRAMAddress 0xfe power_on)))) 1
  = Some 0x55.
Proof. vm_compute. reflexivity. Qed.

(** ** Palette mirrors *)

Definition backdrop_addresses : list Z :=
  [0x3f00; 0x3f04; 0x3f08; 0x3f0c; 0x3f10; 0x3f14; 0x3f18; 0x3f1c].

(** $3F10/$3F14/$3F18/$3F1C against $3F00/$3F04/$3F08/$3F0C. *)
Definition mirror_of (a : Z) : Z := Z.lxor a 0x10.

Lemma cnts_address_latch_write v p :
  cnts_address (latch_write v p) = cnts_address p.
Proof. reflexivity. Qed.

Definition backdrop_low : list Z := [0x3f00; 0x3f04; 0x3f08; 0x3f0c].

Lemma vramWrite_backdrop vromCount v p lo :
  In lo backdrop_low -> cnts_address p = lo \/ cnts_address p = lo + 0x10 ->
  exists p1, vramWrite vromCount v p = Some p1
             /\ vramMem p1 = JS.ta_set (JS.ta_set (vramMem p) lo v) (lo + 0x10) v.
Proof.
  intros Hlo Ha. unfold vramWrite. cbv zeta.
  assert (E : vramAddress (regsToAddress (cntsToAddress p)) = cnts_address p)
    by reflexivity.
  rewrite !E. unfold mirroredWrite.
  repeat (destruct Hlo as [<- | Hlo];
          [destruct Ha as [-> | ->]; (eexists; split; reflexivity) |]).
  destruct Hlo.
Qed.

Lemma vramLoad_backdrop p lo :
  In lo backdrop_low -> cnts_address p = lo \/ cnts_address p = lo + 0x10 ->
  fst (vramLoad p)
  = Some (Z.lor (Z.land (JS.toInt (JS.ta_get (vramMem p) lo)) 0x3f)
                (Z.land (openBusLatch p) 0xc0)).
Proof.
  intros Hlo Ha. unfold vramLoad. cbv zeta.
  assert (E : vramAddress (regsToAddress (cntsToAddress p)) = cnts_address p)
    by reflexivity.
  rewrite !E.
  repeat (destruct Hlo as [<- | Hlo];
          [destruct Ha as [-> | ->]; reflexivity |]).
  destruct Hlo.
Qed.

Lemma backdrop_pair a :
  In a backdrop_addresses ->
  exists lo, In lo backdrop_low
             /\ (a = lo \/ a = lo + 0x10)
             /\ (mirror_of a = lo \/ mirror_of a = lo + 0x10)
             /\ 0 <= lo < 0x8000 /\ lo <> lo + 0x10.
Proof.
  unfold backdrop_addresses, backdrop_low, mirror_of. cbn [In].
  intros H.
  repeat (destruct H as [<- | H];
          [first [ exists 0x3f00; cbn; intuition lia
                 | exists 0x3f04; cbn; intuition lia
                 | exists 0x3f08; cbn; intuition lia
                 | exists 0x3f0c; cbn; intuition lia ] |]).
  destruct H.
Qed.

(** C5 (as amended). After a write of [v] through $2007 to one of the
    backdrop palette addresses, a read through $2007 of its mirror, with
    no store into VRAM in between, returns the low six bits of [v]
    together with bits 7 and 6 of the PPU open-bus latch. *)
Theorem palette_mirror_read vromCount v a p :
  In a backdrop_addresses ->
  length (vramMem p) = Z.to_nat 0x8000 ->
  cnts_address p = a ->
  exists p1,
    regWrite_2007 vromCount v p = Some p1
    /\ forall p2,
         vramMem p2 = vramMem p1 -> cnts_address p2 = mirror_of a ->
         fst (regLoad_2007 p2)
         = Some (Z.lor (Z.land (v mod 256) 0x3f)
                       (Z.land (openBusLatch p2) 0xc0)).
Proof.
  intros Ha Hlen Hp.
  destruct (backdrop_pair a Ha) as (lo & Hlo & Hpair & Hmir & Hrange & Hne).
  destruct (vramWrite_backdrop vromCount v (latch_write v p) lo Hlo)
    as (p1 & Hw & Hmem); [by rewrite cnts_address_latch_write, Hp |].
  exists p1. split; [done |]. intros p2 Hmem2 Hp2.
  unfold regLoad_2007. rewrite (vramLoad_backdrop p2 lo Hlo) by (by rewrite Hp2).
  rewrite Hmem2, Hmem. cbn [vramMem latch_write set_openBusLatch
    set_openBusDecayFrames].
  rewrite ta_get_set_ne by lia.
  rewrite ta_get_set_eq by lia. done.
Qed.

Lemma palette_mirror_read_witness :
  exists p1,
    regWrite_2007 0 0x2a (regWrite_2006 0x10 (regWrite_2006 0x3f power_on))
    = Some p1
    /\ forall p2,
         vramMem p2 = vramMem p1 -> cnts_address p2 = mirror_of 0x3f10 ->
         fst (regLoad_2007 p2)
         = Some (Z.lor (Z.land (0x2a mod 256) 0x3f)
                       (Z.land (openBusLatch p2) 0xc0)).
Proof.
  apply (palette_mirror_read 0 0x2a 0x3f10
           (regWrite_2006 0x10 (regWrite_2006 0x3f power_on))).
  - cbn. tauto.
  - exact (length_replicate (Z.to_nat 0x8000) 0).
  - reflexivity.
Defined.

(** Writing $FF to $3F10 and reading $3F00 back through the registers
    returns $3F: the two writes to $2006 that select $3F00 leave $00 in
    the latch. *)
Lemma palette_read_counterexample :
  (regWrite_2007 0 0xff (regWrite_2006 0x10 (regWrite_2006 0x3f power_on))
   ≫= fun p1 =>
     fst (regLoad_2007 (regWrite_2006 0x00 (regWrite_2006 0x3f p1))))
  = Some 0x3f
  /\ 0x3f <> 0xff.
Proof. split; [vm_compute; reflexivity | lia]. Qed.

(** ** The VRAM address port ($2006 and $2007) *)

(** The address that two writes to $2006 select: six bits of the first
    byte above the eight bits of the second. *)
Definition port_address (hi lo : Z) : Z :=
  Z.lor (Z.shiftl (Z.land hi 0x3f) 8) lo.

(** Two writes to $2006. *)
Definition select (hi lo : Z) (p : t) : t :=
  regWrite_2006 lo (regWrite_2006 hi p).

(** The step of the address after an access through $2007. *)
Definition port_step (p : t) : Z := if f_addrInc p =? 1 then 32 else 1.

(** The address the counters hold, from their five fields. *)
Definition address_of (fv v h vt ht : Z) : Z :=
  let b1 := Z.shiftl (Z.land fv 7) 4 in
  let b1 := Z.lor b1 (Z.shiftl (Z.land v 1) 3) in
  let b1 := Z.lor b1 (Z.shiftl (Z.land h 1) 2) in
  let b1 := Z.lor b1 (Z.land (Z.shiftr vt 3) 3) in
  let b2 := Z.shiftl (Z.land vt 7) 5 in
  let b2 := Z.lor b2 (Z.land ht 31) in
  Z.land (Z.lor (Z.shiftl b1 8) b2) 0x7fff.

Lemma cnts_address_of p :
  cnts_address p = address_of (cntFV p) (cntV p) (cntH p) (cntVT p) (cntHT p).
Proof. reflexivity. Qed.

Lemma cnts_address_range p : 0 <= cnts_address p < 0x8000.
Proof.
  unfold cnts_address. cbv zeta. change 0x7fff with (Z.ones 15).
  rewrite Z.land_ones by lia. apply Z.mod_pos_bound. lia.
Qed.

Lemma latch_high_bits hi r :
  0 <= hi <= 255 -> 0 <= r <= 7 ->
  Z.land (Z.lor r (Z.shiftl (Z.land hi 3) 3)) 24 = Z.shiftl (Z.land hi 3) 3.
Proof.
  intros Hh Hr.
  assert (A : JS.forall_below 256 (fun hi => JS.forall_below 8 (fun r =>
            Z.land (Z.lor r (Z.shiftl (Z.land hi 3) 3)) 24
            =? Z.shiftl (Z.land hi 3) 3)) = true)
    by (vm_compute; reflexivity).
  pose proof (JS.forall_below_spec _ _ A hi ltac:(lia)) as B. cbv beta in B.
  pose proof (JS.forall_below_spec _ _ B r ltac:(lia)) as C. cbv beta in C.
  apply Z.eqb_eq in C. exact C.
Qed.

Lemma latch_check hi lo r :
  0 <= hi <= 255 -> 0 <= lo <= 255 -> 0 <= r <= 7 ->
  address_of (Z.land (Z.shiftr hi 4) 3) (Z.land (Z.shiftr hi 3) 1)
    (Z.land (Z.shiftr hi 2) 1)
    (Z.lor (Z.land (Z.lor r (Z.shiftl (Z.land hi 3) 3)) 24)
           (Z.land (Z.shiftr lo 5) 7))
    (Z.land lo 31)
  = port_address hi lo.
Proof.
  intros Hh Hl Hr. rewrite latch_high_bits by assumption.
  assert (A : JS.forall_below 256 (fun hi => JS.forall_below 256 (fun lo =>
              address_of (Z.land (Z.shiftr hi 4) 3) (Z.land (Z.shiftr hi 3) 1)
                (Z.land (Z.shiftr hi 2) 1)
                (Z.lor (Z.shiftl (Z.land hi 3) 3) (Z.land (Z.shiftr lo 5) 7))
                (Z.land lo 31)
              =? port_address hi lo)) = true)
    by (vm_compute; reflexivity).
  pose proof (JS.forall_below_spec _ _ A hi ltac:(lia)) as B. cbv beta in B.
  pose proof (JS.forall_below_spec _ _ B lo ltac:(lia)) as C. cbv beta in C.
  apply Z.eqb_eq in C. exact C.
Qed.

(** X16.  Two writes to $2006, the first with the write toggle clear,
    select a 14-bit VRAM address: six bits of the first byte and the
    eight bits of the second; the toggle is clear again afterwards and
    VRAM is untouched. *)
Theorem vram_address_latch (hi lo : Z) (p : t) :
  firstWrite p = true -> 0 <= hi <= 255 -> 0 <= lo <= 255 ->
  vramAddress (select hi lo p) = port_address hi lo
  /\ cnts_address (select hi lo p) = port_address hi lo
  /\ firstWrite (select hi lo p) = true
  /\ vramMem (select hi lo p) = vramMem p
  /\ vramBufferedReadValue (select hi lo p) = vramBufferedReadValue p.
Proof.
  intros Hf Hh Hl.
  destruct p as [vm sm tbl va vta buf fw obl obd sa inc cfv cv ch cvt cht
                 rfv rv rh rvt rht rfh].
  cbn [firstWrite] in Hf. subst fw.
  pose proof (latch_check hi lo (Z.land rvt 7) Hh Hl (JS.land_7_bounds rvt))
    as K.
  cbv -[Z.land Z.lor Z.shiftl Z.shiftr] in K |- *.
  repeat split; try reflexivity; exact K.
Qed.

Lemma vram_address_latch_witness :
  vramAddress (select 0x23 0xc0 power_on) = port_address 0x23 0xc0
  /\ cnts_address (select 0x23 0xc0 power_on) = port_address 0x23 0xc0
  /\ firstWrite (select 0x23 0xc0 power_on) = true
  /\ vramMem (select 0x23 0xc0 power_on) = vramMem power_on
  /\ vramBufferedReadValue (select 0x23 0xc0 power_on)
     = vramBufferedReadValue power_on.
Proof.
  apply (vram_address_latch 0x23 0xc0 power_on); [reflexivity | lia | lia].
Defined.

Ltac ppu_cbv :=
  cbv -[Z.land Z.lor Z.shiftl Z.shiftr Z.add Z.sub Z.modulo Z.rem Z.leb
        Z.ltb Z.eqb Z.of_nat Z.to_nat length JS.ta_get JS.ta_set JS.toInt].

(** The address that [cntsFromAddress] leaves in the counters, from
    [vramAddress] and the low three bits of the old [cntVT]. *)
Definition counted (va r : Z) : Z :=
  let address := Z.land (Z.shiftr va 8) 0xff in
  let address2 := Z.land va 0xff in
  address_of (Z.land (Z.shiftr address 4) 3) (Z.land (Z.shiftr address 3) 1)
    (Z.land (Z.shiftr address 2) 1)
    (Z.lor (Z.land (Z.lor r (Z.shiftl (Z.land address 3) 3)) 24)
           (Z.land (Z.shiftr address2 5) 7))
    (Z.land address2 31).

Lemma land_ff_bounds x : 0 <= Z.land x 0xff <= 255.
Proof.
  rewrite land_ff_mod. pose proof (Z.mod_pos_bound x 256 ltac:(lia)). lia.
Qed.

Lemma counted_spec va r :
  0 <= va < 0x8020 -> 0 <= r <= 7 -> counted va r = va mod 0x4000.
Proof.
  intros Hv Hr. unfold counted. cbv zeta.
  rewrite latch_high_bits by (apply land_ff_bounds || assumption).
  apply Z.eqb_eq.
  apply (JS.forall_below_spec (Z.to_nat 0x8020) (fun va =>
    address_of (Z.land (Z.shiftr (Z.land (Z.shiftr va 8) 0xff) 4) 3)
      (Z.land (Z.shiftr (Z.land (Z.shiftr va 8) 0xff) 3) 1)
      (Z.land (Z.shiftr (Z.land (Z.shiftr va 8) 0xff) 2) 1)
      (Z.lor (Z.shiftl (Z.land (Z.land (Z.shiftr va 8) 0xff) 3) 3)
             (Z.land (Z.shiftr (Z.land va 0xff) 5) 7))
      (Z.land (Z.land va 0xff) 31)
    =? va mod 0x4000)); [vm_compute; reflexivity | lia].
Qed.

Lemma cnts_after_step q :
  0 <= vramAddress q < 0x8000 ->
  cnts_address (cntsFromAddress (increment q))
  = (vramAddress q + port_step q) mod 0x4000.
Proof.
  intros Hq.
  destruct q as [vm sm tbl va vta buf fw obl obd sa inc cfv cv ch cvt cht
                 rfv rv rh rvt rht rfh].
  cbn [vramAddress] in Hq. unfold port_step, increment.
  cbn [f_addrInc vramAddress].
  destruct (inc =? 1).
  - pose proof (counted_spec (va + 32) (Z.land cvt 7) ltac:(lia)
                  (JS.land_7_bounds cvt)) as K.
    cbv -[Z.land Z.lor Z.shiftl Z.shiftr Z.add Z.modulo] in K |- *. exact K.
  - pose proof (counted_spec (va + 1) (Z.land cvt 7) ltac:(lia)
                  (JS.land_7_bounds cvt)) as K.
    cbv -[Z.land Z.lor Z.shiftl Z.shiftr Z.add Z.modulo] in K |- *. exact K.
Qed.

Lemma cnts_address_regsFromAddress q :
  cnts_address (regsFromAddress q) = cnts_address q.
Proof. destruct q. reflexivity. Qed.

Lemma cntsFromAddress_regsFromAddress q :
  cnts_address (cntsFromAddress (regsFromAddress q))
  = cnts_address (cntsFromAddress q).
Proof. destruct q. reflexivity. Qed.

(** The state in which [vramLoad] leaves the PPU: the read buffer
    refilled, the address stepped. *)
Lemma vramLoad_state p :
  exists b,
    snd (vramLoad p)
    = regsFromAddress
        (cntsFromAddress
           (increment (set_vramBufferedReadValue b
                         (regsToAddress (cntsToAddress p))))).
Proof.
  destruct p as [vm sm tbl va vta buf fw obl obd sa inc cfv cv ch cvt cht
                 rfv rv rh rvt rht rfh].
  unfold vramLoad. cbv zeta.
  match goal with
  | |- context [if ?c <=? 0x3eff then _ else _] =>
      destruct (c <=? 0x3eff); [destruct (c <? 0x2000)|]
  end; eexists; ppu_cbv; reflexivity.
Qed.

(** A store into VRAM changes [vramMem] only. *)
Lemma mirroredWrite_vramMem a v q q' :
  mirroredWrite a v q = Some q' -> q' = set_vramMem (vramMem q') q.
Proof.
  unfold mirroredWrite, writeMem. intros E.
  destruct q as [vm sm tbl va vta buf fw obl obd sa inc cfv cv ch cvt cht
                 rfv rv rh rvt rht rfh].
  repeat match type of E with
         | (if ?b then _ else _) = _ => destruct b
         | match ?o with Some _ => _ | None => _ end = _ => destruct o
         end; try discriminate; injection E as <-; reflexivity.
Qed.

Lemma vramWrite_state vromCount v p p' :
  vramWrite vromCount v p = Some p' ->
  exists m,
    p' = cntsFromAddress
           (regsFromAddress
              (increment (set_vramMem m (regsToAddress (cntsToAddress p))))).
Proof.
  unfold vramWrite. cbv zeta. intros E.
  set (q := regsToAddress (cntsToAddress p)) in *.
  destruct (0x2000 <=? vramAddress q).
  - destruct (mirroredWrite (vramAddress q) v q) as [q'|] eqn:Ew;
      [|discriminate].
    injection E as <-. exists (vramMem q').
    rewrite <- (mirroredWrite_vramMem _ _ _ _ Ew). reflexivity.
  - destruct (vromCount =? 0); injection E as <-.
    + eexists. reflexivity.
    + exists (vramMem q). destruct p. reflexivity.
Qed.

Lemma mirroredWrite_total a v q :
  0 <= a < 0x8000 -> length (vramMirrorTable q) = Z.to_nat 0x8000 ->
  exists q', mirroredWrite a v q = Some q'.
Proof.
  intros Ha Hl. unfold mirroredWrite.
  repeat match goal with
         | |- context [if ?b then _ else _] => destruct b eqn:?
         | |- context [match ?o with Some _ => _ | None => _ end] => destruct o
         end; try (eexists; reflexivity).
  exfalso.
  match goal with
  | E : (_ <? Z.of_nat _) = false |- _ =>
      apply Z.ltb_ge in E; rewrite Hl, Z2Nat.id in E by lia; lia
  end.
Qed.

(** X17.  Every access through $2007, read or write, steps the VRAM
    address by 1, or by 32 when bit 2 of $2000 is set, and keeps it
    within 14 bits: past $3FFF it wraps to $0000. *)
Theorem vram_address_steps (vromCount v : Z) (p : t) :
  length (vramMirrorTable p) = Z.to_nat 0x8000 ->
  cnts_address (snd (regLoad_2007 p))
  = (cnts_address p + port_step p) mod 0x4000
  /\ exists p', regWrite_2007 vromCount v p = Some p'
       /\ cnts_address p' = (cnts_address p + port_step p) mod 0x4000.
Proof.
  intros Hl. split.
  - unfold regLoad_2007. destruct (vramLoad_state p) as [b ->].
    rewrite cnts_address_regsFromAddress, cnts_after_step.
    + destruct p. reflexivity.
    + pose proof (cnts_address_range p). destruct p. exact H.
  - unfold regWrite_2007.
    assert (T : exists p', vramWrite vromCount v (latch_write v p) = Some p').
    { unfold vramWrite. cbv zeta.
      set (q := regsToAddress (cntsToAddress (latch_write v p))).
      destruct (0x2000 <=? vramAddress q).
      - destruct (mirroredWrite_total (vramAddress q) v q) as [q' ->].
        + pose proof (cnts_address_range p). destruct p. exact H.
        + destruct p. exact Hl.
        + eexists. reflexivity.
      - destruct (vromCount =? 0); eexists; reflexivity. }
    destruct T as [p' E]. exists p'. split; [exact E|].
    destruct (vramWrite_state _ _ _ _ E) as [m ->].
    rewrite cntsFromAddress_regsFromAddress, cnts_after_step.
    + destruct p. reflexivity.
    + pose proof (cnts_address_range p). destruct p. exact H.
Qed.

Lemma zimap_length {A B} (f : Z -> A -> B) l :
  forall i, length (zimap f i l) = length l.
Proof.
  induction l as [| x l IH]; intros i; cbn [zimap length]; [reflexivity|].
  rewrite IH. reflexivity.
Qed.

Lemma iota_length n : forall z, length (iota n z) = n.
Proof.
  induction n as [| n IH]; intros z; cbn [iota length]; [reflexivity|].
  rewrite IH. reflexivity.
Qed.

Lemma power_on_table_length :
  length (vramMirrorTable power_on) = Z.to_nat 0x8000.
Proof.
  cbn [power_on vramMirrorTable]. unfold horizontal_mirror_table. cbv zeta.
  unfold defineMirrorRegion. rewrite !zimap_length. apply iota_length.
Qed.

Lemma vram_address_steps_witness :
  cnts_address (snd (regLoad_2007 power_on))
  = (cnts_address power_on + port_step power_on) mod 0x4000
  /\ exists p', regWrite_2007 0 0x12 power_on = Some p'
       /\ cnts_address p'
          = (cnts_address power_on + port_step power_on) mod 0x4000.
Proof.
  apply (vram_address_steps 0 0x12 power_on).
  exact power_on_table_length.
Defined.

(** The cell of [vramMem] behind the VRAM address [a] below $3F00:
    pattern memory is written only when the cartridge has no CHR ROM,
    name tables go through the mirror table. *)
Definition vram_cell (vromCount : Z) (p : t) (a : Z) : option Z :=
  if a <? 0x2000 then (if vromCount =? 0 then Some a else None)
  else JS.ta_get (vramMirrorTable p) a.

Lemma select_frame hi lo p :
  vramMem (select hi lo p) = vramMem p
  /\ vramMirrorTable (select hi lo p) = vramMirrorTable p
  /\ f_addrInc (select hi lo p) = f_addrInc p
  /\ vramBufferedReadValue (select hi lo p) = vramBufferedReadValue p.
Proof.
  destruct p as [vm sm tbl va vta buf fw obl obd sa inc cfv cv ch cvt cht
                 rfv rv rh rvt rht rfh].
  destruct fw; ppu_cbv; repeat split; reflexivity.
Qed.

Lemma latch_write_frame v q :
  vramMem (latch_write v q) = vramMem q
  /\ vramMirrorTable (latch_write v q) = vramMirrorTable q
  /\ f_addrInc (latch_write v q) = f_addrInc q
  /\ firstWrite (latch_write v q) = firstWrite q
  /\ vramBufferedReadValue (latch_write v q) = vramBufferedReadValue q.
Proof. destruct q. repeat split; reflexivity. Qed.

Lemma vramWrite_at vromCount v q a cell :
  cnts_address q = a -> 0 <= a < 0x3f00 ->
  length (vramMirrorTable q) = Z.to_nat 0x8000 ->
  vram_cell vromCount q a = Some cell ->
  exists p1,
    vramWrite vromCount v q = Some p1
    /\ vramMem p1 = JS.ta_set (vramMem q) cell v
    /\ firstWrite p1 = firstWrite q
    /\ vramMirrorTable p1 = vramMirrorTable q
    /\ f_addrInc p1 = f_addrInc q
    /\ vramBufferedReadValue p1 = vramBufferedReadValue q.
Proof.
  intros Ha Hr Hl Hc.
  assert (E : vramAddress (regsToAddress (cntsToAddress q)) = a)
    by (rewrite <- Ha; destruct q; reflexivity).
  unfold vramWrite. cbv zeta. rewrite !E. unfold vram_cell in Hc.
  destruct (Z.ltb_spec a 0x2000) as [Hlt | Hge].
  - assert (E1 : (0x2000 <=? a) = false) by lia. rewrite E1.
    destruct (vromCount =? 0); [|discriminate]. injection Hc as <-.
    eexists. split; [reflexivity|].
    destruct q. ppu_cbv. repeat split; reflexivity.
  - assert (E1 : (0x2000 <=? a) = true) by lia. rewrite E1.
    unfold mirroredWrite.
    assert (E2 : ((0x3f00 <=? a) && (a <? 0x3f20)) = false) by lia.
    assert (E3 : (a <? Z.of_nat (length (vramMirrorTable
                     (regsToAddress (cntsToAddress q))))) = true).
    { replace (vramMirrorTable (regsToAddress (cntsToAddress q)))
        with (vramMirrorTable q) by (destruct q; reflexivity).
      rewrite Hl, Z2Nat.id by lia. lia. }
    rewrite E2, E3.
    replace (vramMirrorTable (regsToAddress (cntsToAddress q)))
      with (vramMirrorTable q) by (destruct q; reflexivity).
    rewrite Hc.
    eexists. split; [reflexivity|].
    destruct q. ppu_cbv. repeat split; reflexivity.
Qed.

Lemma vramLoad_at q a :
  cnts_address q = a -> 0 <= a <= 0x3eff ->
  fst (vramLoad q) = vramBufferedReadValue q
  /\ vramBufferedReadValue (snd (vramLoad q))
     = (if a <? 0x2000 then JS.ta_get (vramMem q) a
        else match JS.ta_get (vramMirrorTable q) a with
             | Some c => JS.ta_get (vramMem q) c
             | None => None
             end)
  /\ cnts_address (snd (vramLoad q)) = (a + port_step q) mod 0x4000.
Proof.
  intros Ha Hr.
  assert (E : vramAddress (regsToAddress (cntsToAddress q)) = a)
    by (rewrite <- Ha; destruct q; reflexivity).
  split; [|split].
  - unfold vramLoad. cbv zeta. rewrite !E.
    assert (E1 : (a <=? 0x3eff) = true) by lia. rewrite E1.
    destruct q. reflexivity.
  - unfold vramLoad. cbv zeta. rewrite !E.
    assert (E1 : (a <=? 0x3eff) = true) by lia. rewrite E1.
    destruct (a <? 0x2000); destruct q; reflexivity.
  - destruct (vramLoad_state q) as [b ->].
    rewrite cnts_address_regsFromAddress, cnts_after_step.
    + rewrite <- Ha. destruct q. reflexivity.
    + pose proof (cnts_address_range q). destruct q. exact H.
Qed.

(** X18.  A byte written through $2007 is read back through $2007: after
    selecting an address below $3F00 with $2006 and writing [v], selecting
    the same address again and reading twice gives [v] on the second
    read (the first read returns the stale read buffer), provided the
    address maps to a cell of VRAM and the stepped address is still below
    $3F00. *)
Theorem vram_port_round_trip (vromCount hi lo v cell : Z) (p : t) :
  firstWrite p = true -> 0 <= hi <= 255 -> 0 <= lo <= 255 ->
  port_address hi lo + port_step p <= 0x3eff ->
  length (vramMirrorTable p) = Z.to_nat 0x8000 ->
  vram_cell vromCount p (port_address hi lo) = Some cell ->
  0 <= cell < Z.of_nat (length (vramMem p)) ->
  exists p1 p2,
    regWrite_2007 vromCount v (select hi lo p) = Some p1
    /\ regLoad_2007 (select hi lo p1)
       = (vramBufferedReadValue p, p2)
    /\ fst (regLoad_2007 p2) = Some (v mod 256).
Proof.
  intros Hf Hh Hl Hstep Hlen Hcell Hc.
  set (a := port_address hi lo) in *.
  assert (Hstep0 : 1 <= port_step p)
    by (unfold port_step; destruct (f_addrInc p =? 1); lia).
  destruct (vram_address_latch hi lo p Hf Hh Hl) as (_ & A0 & F0 & M0 & B0).
  destruct (select_frame hi lo p) as (_ & T0 & I0 & _).
  fold a in A0.
  assert (Ha : 0 <= a < 0x3f00).
  { pose proof (cnts_address_range (select hi lo p)). rewrite A0 in H. lia. }
  destruct (latch_write_frame v (select hi lo p))
    as (LM & LT & LI & LF & LB).
  destruct (vramWrite_at vromCount v (latch_write v (select hi lo p)) a cell)
    as (p1 & W & M1 & F1 & T1 & I1 & B1).
  { rewrite cnts_address_latch_write. exact A0. }
  { exact Ha. }
  { rewrite LT, T0. exact Hlen. }
  { unfold vram_cell in *. rewrite LT, T0. exact Hcell. }
  rewrite LF, F0 in F1. rewrite LM, M0 in M1. rewrite LT, T0 in T1.
  rewrite LI, I0 in I1. rewrite LB, B0 in B1.
  destruct (vram_address_latch hi lo p1 F1 Hh Hl) as (_ & A2 & F2 & M2 & B2).
  destruct (select_frame hi lo p1) as (_ & T2 & I2 & _).
  fold a in A2.
  destruct (vramLoad_at (select hi lo p1) a A2 ltac:(lia)) as (R1 & R2 & R3).
  exists p1, (snd (vramLoad (select hi lo p1))).
  split; [exact W|]. split.
  - unfold regLoad_2007. rewrite (surjective_pairing (vramLoad _)) at 1.
    rewrite R1, B2, B1. reflexivity.
  - unfold regLoad_2007.
    assert (Hs : port_step (select hi lo p1) = port_step p)
      by (unfold port_step; rewrite I2, I1; reflexivity).
    rewrite Hs in R3. rewrite Z.mod_small in R3 by lia.
    destruct (vramLoad_at _ _ R3 ltac:(lia)) as (R4 & _ & _).
    rewrite R4, R2, M2, T2, T1, M1.
    unfold vram_cell in Hcell.
    destruct (a <? 0x2000).
    + destruct (vromCount =? 0); [|discriminate]. injection Hcell as <-.
      apply ta_get_set_eq. exact Hc.
    + rewrite Hcell. apply ta_get_set_eq. exact Hc.
Qed.

Lemma vram_port_round_trip_witness :
  exists p1 p2,
    regWrite_2007 0 0x5a (select 0x24 0x10 power_on) = Some p1
    /\ regLoad_2007 (select 0x24 0x10 p1)
       = (vramBufferedReadValue power_on, p2)
    /\ fst (regLoad_2007 p2) = Some (0x5a mod 256).
Proof.
  apply (vram_port_round_trip 0 0x24 0x10 0x5a 0x2010 power_on).
  - reflexivity.
  - lia.
  - lia.
  - vm_compute. discriminate.
  - exact power_on_table_length.
  - vm_compute. reflexivity.
  - vm_compute. split; [discriminate | reflexivity].
Defined.

(** ** The OAM port ($2003 and $2004) *)

(** X19.  A byte written through $2004 is read back through $2004 once
    $2003 points at it again, and each write moves the OAM address to
    the next byte, from 255 back to 0. *)
Theorem oam_port_round_trip (k v : Z) (p : t) :
  0 <= k <= 255 -> length (spriteMem p) = 256%nat ->
  sramLoad (regWrite_2003 k (regWrite_2004 v (regWrite_2003 k p)))
  = Some (v mod 256)
  /\ sramAddress (regWrite_2004 v (regWrite_2003 k p)) = (k + 1) mod 256.
Proof.
  intros Hk Hl.
  destruct p as [vm sm tbl va vta buf fw obl obd sa inc cfv cv ch cvt cht
                 rfv rv rh rvt rht rfh].
  cbn [spriteMem] in Hl.
  unfold regWrite_2003, regWrite_2004, writeSRAMAddress, sramWrite, sramLoad,
    latch_write. cbv zeta. ppu_simpl.
  split.
  - apply ta_get_set_eq. rewrite Hl. lia.
  - rewrite Z.rem_mod_nonneg by lia. reflexivity.
Qed.

Lemma oam_port_round_trip_witness :
  sramLoad (regWrite_2003 0xff (regWrite_2004 0x7e (regWrite_2003 0xff power_on)))
  = Some (0x7e mod 256)
  /\ sramAddress (regWrite_2004 0x7e (regWrite_2003 0xff power_on))
     = (0xff + 1) mod 256.
Proof.
  apply (oam_port_round_trip 0xff 0x7e power_on); [lia | reflexivity].
Defined.

(** ** The status register ($2002) and the open-bus latch *)

Definition STATUS_VBLANK : Z := 7.

(** [setStatusFlag]; [mem] is [nes.cpu.mem]. *)
Definition setStatusFlag (flag : Z) (value : bool) (mem : gmap Z Z)
  : gmap Z Z :=
  let n := Z.shiftl 1 flag in
  <[ 0x2002 := Z.lor (Z.land (JS.toInt (mem !! 0x2002)) (255 - n))
                     (if value then n else 0) ]> mem.

(** [readStatusRegister], CPU register $2002: the value read, [cpu.mem]
    and the PPU afterwards. *)
Definition readStatusRegister (mem : gmap Z Z) (p : t) : Z * gmap Z Z * t :=
  let tmp := JS.toInt (mem !! 0x2002) in
  let p := set_firstWrite true p in
  let mem := setStatusFlag STATUS_VBLANK false mem in
  let tmp := Z.lor (Z.land tmp 0xe0) (Z.land (openBusLatch p) 0x1f) in
  let p := set_openBusLatch tmp p in
  let p := set_openBusDecayFrames 36 p in
  (tmp, mem, p).

(** The part of [startVBlank] that ages the open-bus latch, once per
    frame. *)
Definition decay (p : t) : t :=
  if 0 <? openBusDecayFrames p then
    let p := set_openBusDecayFrames (openBusDecayFrames p - 1) p in
    if openBusDecayFrames p =? 0 then set_openBusLatch 0 p else p
  else p.

Lemma status_read_check s l :
  0 <= s <= 255 -> 0 <= l <= 255 ->
  let r1 := Z.lor (Z.land s 0xe0) (Z.land l 0x1f) in
  let s1 := Z.lor (Z.land s (255 - Z.shiftl 1 7)) 0 in
  let r2 := Z.lor (Z.land s1 0xe0) (Z.land r1 0x1f) in
  Z.land r1 0xe0 = Z.land s 0xe0 /\ Z.land r1 0x1f = Z.land l 0x1f
  /\ Z.land r2 0x80 = 0 /\ Z.land r2 0x7f = Z.land r1 0x7f.
Proof.
  intros Hs Hl.
  assert (A : JS.forall_below 256 (fun s => JS.forall_below 256 (fun l =>
    let r1 := Z.lor (Z.land s 0xe0) (Z.land l 0x1f) in
    let s1 := Z.lor (Z.land s (255 - Z.shiftl 1 7)) 0 in
    let r2 := Z.lor (Z.land s1 0xe0) (Z.land r1 0x1f) in
    (Z.land r1 0xe0 =? Z.land s 0xe0) && (Z.land r1 0x1f =? Z.land l 0x1f)
    && (Z.land r2 0x80 =? 0) && (Z.land r2 0x7f =? Z.land r1 0x7f))) = true)
    by (vm_compute; reflexivity).
  pose proof (JS.forall_below_spec _ _ A s ltac:(lia)) as B. cbv beta in B.
  pose proof (JS.forall_below_spec _ _ B l ltac:(lia)) as C.
  cbv beta zeta in C. cbv zeta.
  repeat (apply andb_prop in C as [C ?]).
  repeat match goal with
         | E : (_ =? _) = true |- _ => apply Z.eqb_eq in E
         end.
  auto.
Qed.

(** X20.  A read of $2002 returns bits 7 to 5 of the status byte over
    bits 4 to 0 of the open-bus latch, and clears the VBlank flag: a
    second read returns the same byte with bit 7 clear.  It also clears
    the write toggle, so that the next two writes to $2006 select an
    address whatever the toggle was before. *)
Theorem status_read_clears (mem : gmap Z Z) (p : t) (hi lo : Z) :
  let s := JS.toInt (mem !! 0x2002) in
  0 <= s <= 255 -> 0 <= openBusLatch p <= 255 ->
  0 <= hi <= 255 -> 0 <= lo <= 255 ->
  let '(r1, mem1, p1) := readStatusRegister mem p in
  let '(r2, mem2, p2) := readStatusRegister mem1 p1 in
  Z.land r1 0xe0 = Z.land s 0xe0
  /\ Z.land r1 0x1f = Z.land (openBusLatch p) 0x1f
  /\ Z.land r2 0x80 = 0 /\ Z.land r2 0x7f = Z.land r1 0x7f
  /\ cnts_address (select hi lo p1) = port_address hi lo.
Proof.
  intros s Hs Hl Hh Hlo. subst s.
  unfold readStatusRegister, setStatusFlag, STATUS_VBLANK. cbv zeta.
  rewrite lookup_insert_eq. cbn [JS.toInt default].
  destruct (status_read_check _ _ Hs Hl) as (A & B & C & D).
  cbv zeta in A, B, C, D.
  cbn [openBusLatch set_firstWrite set_openBusLatch set_openBusDecayFrames].
  split; [exact A|]. split; [exact B|]. split; [exact C|].
  split; [exact D|].
  apply vram_address_latch; [destruct p; reflexivity | assumption ..].
Qed.

Lemma status_read_clears_witness :
  let '(r1, mem1, p1) := readStatusRegister {[ 0x2002 := 0x80 ]}
                           (regWrite_2006 0x3f power_on) in
  let '(r2, mem2, p2) := readStatusRegister mem1 p1 in
  Z.land r1 0xe0 = Z.land (JS.toInt (({[ 0x2002 := 0x80 ]} : gmap Z Z)
                                        !! 0x2002)) 0xe0
  /\ Z.land r1 0x1f = Z.land (openBusLatch (regWrite_2006 0x3f power_on)) 0x1f
  /\ Z.land r2 0x80 = 0 /\ Z.land r2 0x7f = Z.land r1 0x7f
  /\ cnts_address (select 0x21 0x08 p1) = port_address 0x21 0x08.
Proof.
  apply (status_read_clears {[ 0x2002 := 0x80 ]}
           (regWrite_2006 0x3f power_on) 0x21 0x08).
  - vm_compute. split; discriminate.
  - vm_compute. split; discriminate.
  - lia.
  - lia.
Defined.

Lemma decay_frames n : forall p,
  0 <= openBusDecayFrames p ->
  openBusDecayFrames (Nat.iter n decay p)
  = Z.max 0 (openBusDecayFrames p - Z.of_nat n)
  /\ openBusLatch (Nat.iter n decay p)
     = (if (0 <? openBusDecayFrames p)
           && (openBusDecayFrames p <=? Z.of_nat n)
        then 0 else openBusLatch p).
Proof.
  induction n as [| n IH]; intros p Hp.
  - change (Nat.iter 0 decay p) with p. split; [lia|].
    destruct (Z.ltb_spec 0 (openBusDecayFrames p));
      destruct (Z.leb_spec (openBusDecayFrames p) (Z.of_nat 0));
      cbn [andb]; try reflexivity; lia.
  - rewrite Nat.iter_succ_r.
    assert (Hd : 0 <= openBusDecayFrames (decay p)).
    { unfold decay. cbv zeta. destruct (0 <? openBusDecayFrames p) eqn:E.
      - cbn [openBusDecayFrames set_openBusDecayFrames].
        destruct (openBusDecayFrames p - 1 =? 0); destruct p;
          cbn [openBusDecayFrames set_openBusDecayFrames set_openBusLatch]
            in *; lia.
      - exact Hp. }
    destruct (IH (decay p) Hd) as [IH1 IH2]. rewrite IH1, IH2.
    unfold decay. cbv zeta.
    destruct p as [vm sm tbl va vta buf fw obl obd sa inc cfv cv ch cvt cht
                   rfv rv rh rvt rht rfh].
    cbn [openBusDecayFrames set_openBusDecayFrames openBusLatch
         set_openBusLatch] in *.
    destruct (Z.ltb_spec 0 obd).
    + cbn [openBusDecayFrames set_openBusDecayFrames openBusLatch
           set_openBusLatch].
      destruct (Z.eqb_spec (obd - 1) 0);
        cbn [openBusDecayFrames set_openBusDecayFrames openBusLatch
             set_openBusLatch];
        (split; [lia|]);
        destruct (Z.ltb_spec 0 (obd - 1));
        destruct (Z.leb_spec (obd - 1) (Z.of_nat n));
        destruct (Z.leb_spec obd (Z.of_nat (S n)));
        cbn [andb]; try reflexivity; lia.
    + cbn [openBusDecayFrames openBusLatch]. split; [lia|].
      destruct (Z.ltb_spec 0 obd); cbn [andb]; [lia | reflexivity].
Qed.

(** X21.  The open-bus latch holds the last byte written to a PPU
    register for 35 frames and reads 0 from the 36th [startVBlank] on. *)
Theorem open_bus_decays (v : Z) (n : nat) (p : t) :
  openBusLatch (Nat.iter n decay (latch_write v p))
  = (if (n <? 36)%nat then v else 0).
Proof.
  destruct (decay_frames n (latch_write v p)) as [_ E].
  { destruct p. cbn. lia. }
  rewrite E.
  replace (openBusDecayFrames (latch_write v p)) with 36
    by (destruct p; reflexivity).
  replace (openBusLatch (latch_write v p)) with v by (destruct p; reflexivity).
  destruct (Nat.ltb_spec n 36); destruct (Z.leb_spec 36 (Z.of_nat n));
    cbn [andb Z.ltb Z.compare]; try reflexivity; lia.
Qed.

End PPU.

(* ===================================================================== *)
(** * APU frame counter ([PAPU] in [ppu/index.js])                        *)
(* ===================================================================== *)

Module APU.

(** Frame counter step positions, in CPU cycles. *)
Definition FRAME_STEPS_4 : list Z := [7457; 14913; 22371; 29829].
Definition FRAME_STEPS_5 : list Z := [7457; 14913; 22371; 29829; 37281].
Definition FRAME_PERIOD_4 : Z := 29830.
Definition FRAME_PERIOD_5 : Z := 37282.

(** The frame-counter fields of [PAPU]; [chan] holds the five channel
    objects with their timers, the DMC reader, and the sample
    accumulators and sample timer of the mixer. *)
Record t (Chan : Type) := mk
  { frameCycleCounter : Z;
    frameStep : Z;
    countSequence : Z;
    frameIrqEnabled : bool;
    frameIrqActive : bool;
    chan : Chan }.

Arguments mk {Chan}.
Arguments frameCycleCounter {Chan}.
Arguments frameStep {Chan}.
Arguments countSequence {Chan}.
Arguments frameIrqEnabled {Chan}.
Arguments frameIrqActive {Chan}.
Arguments chan {Chan}.

(** What the frame counter needs from the channels.  The methods of the
    channel objects assign fields of those objects only. *)
Class Channels (Chan : Type) := {
  (** [PAPU.clockQuarterFrame]: envelopes and the linear counter. *)
  clockQuarterFrame : Chan -> Chan;
  (** [PAPU.clockHalfFrame]: length counters and sweep units. *)
  clockHalfFrame : Chan -> Chan;
  (** [getLengthStatus] of square 1, square 2, triangle, noise and DMC. *)
  lengthStatus : Chan -> bool * bool * bool * bool * bool;
  (** [dmc.getIrqStatus] *)
  dmcIrqStatus : Chan -> bool;
  (** The channel registers $4000-$4013, and for $4015
      [updateChannelEnable] followed by [dmc.writeReg]. *)
  channelWriteReg : Z -> Z -> Chan -> Chan;
  (** The first part of [clockFrameCounter]: channel timers, DMC,
      [accSample] and the sample timer, for [nCycles] cycles. *)
  clockTimers : Z -> Chan -> Chan;
  (** [PAPU.reset] on the channels and the mixer. *)
  resetChannels : Chan -> Chan
}.

Section FrameCounter.
Context {Chan : Type} `{Channels Chan}.

Definition set_frameCycleCounter (v : Z) (a : t Chan) : t Chan :=
  mk v (frameStep a) (countSequence a) (frameIrqEnabled a) (frameIrqActive a) (chan a).
Definition set_frameStep (v : Z) (a : t Chan) : t Chan :=
  mk (frameCycleCounter a) v (countSequence a) (frameIrqEnabled a) (frameIrqActive a) (chan a).
Definition set_countSequence (v : Z) (a : t Chan) : t Chan :=
  mk (frameCycleCounter a) (frameStep a) v (frameIrqEnabled a) (frameIrqActive a) (chan a).
Definition set_frameIrqEnabled (v : bool) (a : t Chan) : t Chan :=
  mk (frameCycleCounter a) (frameStep a) (countSequence a) v (frameIrqActive a) (chan a).
Definition set_frameIrqActive (v : bool) (a : t Chan) : t Chan :=
  mk (frameCycleCounter a) (frameStep a) (countSequence a) (frameIrqEnabled a) v (chan a).
Definition set_chan (v : Chan) (a : t Chan) : t Chan :=
  mk (frameCycleCounter a) (frameStep a) (countSequence a) (frameIrqEnabled a) (frameIrqActive a) v.

(** [readReg], the read of $4015; [dataBus] is [nes.cpu.dataBus]. *)
Definition readReg (dataBus : Z) (a : t Chan) : Z * t Chan :=
  let '(s1, s2, tr, no, dm) := lengthStatus (chan a) in
  let tmp := 0 in
  let tmp := Z.lor tmp (JS.b2z s1) in
  let tmp := Z.lor tmp (Z.shiftl (JS.b2z s2) 1) in
  let tmp := Z.lor tmp (Z.shiftl (JS.b2z tr) 2) in
  let tmp := Z.lor tmp (Z.shiftl (JS.b2z no) 3) in
  let tmp := Z.lor tmp (Z.shiftl (JS.b2z dm) 4) in
  let tmp := Z.lor tmp (Z.land dataBus 0x20) in
  let tmp := Z.lor tmp (Z.shiftl (JS.b2z (frameIrqActive a)) 6) in
  let tmp := Z.lor tmp (Z.shiftl (JS.b2z (dmcIrqStatus (chan a))) 7) in
  (Z.land tmp 0xff, set_frameIrqActive false a).

(** [writeReg] *)
Definition writeReg (address value : Z) (a : t Chan) : t Chan :=
  if (0x4000 <=? address) && (address <? 0x4014) || (address =? 0x4015) then
    set_chan (channelWriteReg address value (chan a)) a
  else if address =? 0x4017 then
    let a := set_countSequence (Z.land (Z.shiftr value 7) 1) a in
    let a := set_frameCycleCounter (-6) a in
    let a := set_frameStep 0 a in
    let a :=
      if negb (Z.land value 0x40 =? 0)
      then set_frameIrqActive false (set_frameIrqEnabled false a)
      else set_frameIrqEnabled true a in
    if countSequence a =? 1
    then set_chan (clockHalfFrame (clockQuarterFrame (chan a))) a
    else a
  else a.

(** [fireFrameStep] *)
Definition fireFrameStep (step : Z) (a : t Chan) : t Chan :=
  let quarter a := set_chan (clockQuarterFrame (chan a)) a in
  let half a := set_chan (clockHalfFrame (chan a)) a in
  if countSequence a =? 0 then
    if step =? 0 then quarter a
    else if step =? 1 then half (quarter a)
    else if step =? 2 then quarter a
    else if step =? 3 then
      let a := half (quarter a) in
      if frameIrqEnabled a then set_frameIrqActive true a else a
    else a
  else
    if step =? 0 then quarter a
    else if step =? 1 then half (quarter a)
    else if step =? 2 then quarter a
    else if step =? 3 then a
    else if step =? 4 then half (quarter a)
    else a.

Definition steps_of (a : t Chan) : list Z :=
  if countSequence a =? 0 then FRAME_STEPS_4 else FRAME_STEPS_5.

Definition period_of (a : t Chan) : Z :=
  if countSequence a =? 0 then FRAME_PERIOD_4 else FRAME_PERIOD_5.

(** The test of the [while] loop shared by [clockFrameCounter] and
    [advanceFrameCounter]: [frameCycleCounter >= steps[frameStep]],
    false when [steps[frameStep]] is [undefined]. *)
Definition step_due (a : t Chan) : bool :=
  match JS.ta_get (steps_of a) (frameStep a) with
  | Some s => s <=? frameCycleCounter a
  | None => false
  end.

(** One iteration of the loop body. *)
Definition step_once (a : t Chan) : t Chan :=
  let a := fireFrameStep (frameStep a) a in
  let a := set_frameStep (frameStep a + 1) a in
  if Z.of_nat (length (steps_of a)) <=? frameStep a
  then set_frameCycleCounter (frameCycleCounter a - period_of a)
         (set_frameStep 0 a)
  else a.

Fixpoint step_loop (fuel : nat) (a : t Chan) : t Chan :=
  match fuel with
  | O => a
  | S fuel' => if step_due a then step_loop fuel' (step_once a) else a
  end.

(** A bound on the iterations left: every iteration either moves to the
    next step or takes a whole period off the counter. *)
Definition steps_left (a : t Chan) : nat :=
  Z.to_nat (5 * Z.max 0 (frameCycleCounter a) + (5 - frameStep a)).

Definition run_steps (a : t Chan) : t Chan := step_loop (steps_left a) a.

(** [advanceFrameCounter] *)
Definition advanceFrameCounter (nCycles : Z) (a : t Chan) : t Chan :=
  run_steps (set_frameCycleCounter (frameCycleCounter a + nCycles) a).

(** [clockFrameCounter]: the new state and whether
    [cpu.requestIrq(IRQ_NORMAL)] is called; [frameCounterAlreadyAdvanced]
    is [None] when the argument is missing or [undefined]. *)
Definition clockFrameCounter (nCycles : Z)
    (frameCounterAlreadyAdvanced : option Z) (a : t Chan) : t Chan * bool :=
  let frameCounterCycles := nCycles - JS.toInt frameCounterAlreadyAdvanced in
  let a := set_chan (clockTimers nCycles (chan a)) a in
  let irq := frameIrqEnabled a && frameIrqActive a in
  let a := set_frameCycleCounter (frameCycleCounter a + frameCounterCycles) a in
  (run_steps a, irq).

(** [reset] *)
Definition reset (a : t Chan) : t Chan :=
  mk 0 0 0 false false (resetChannels (chan a)).

(** ** Runs of the APU *)

(** The operations the rest of the console performs on the APU: register
    writes, reads of $4015, the per-instruction clock, the mid-instruction
    catch-up, and a console reset. *)
Inductive op :=
| Write (address value : Z)
| Read4015 (dataBus : Z)
| Clock (nCycles : Z) (frameCounterAlreadyAdvanced : option Z)
| Advance (nCycles : Z)
| Reset.

Definition apply_op (o : op) (a : t Chan) : option Z * t Chan :=
  match o with
  | Write address value => (None, writeReg address value a)
  | Read4015 dataBus => let '(r, a') := readReg dataBus a in (Some r, a')
  | Clock n already => (None, fst (clockFrameCounter n already a))
  | Advance n => (None, advanceFrameCounter n a)
  | Reset => (None, reset a)
  end.

(** The value returned and the state reached by each operation in turn. *)
Fixpoint run (ops : list op) (a : t Chan) : list (option Z * t Chan) :=
  match ops with
  | [] => []
  | o :: ops' =>
      let r := apply_op o a in r :: run ops' (snd r)
  end.

(** A write to $4017 with bit 6 clear lifts the inhibit. *)
Definition lifts_inhibit (o : op) : bool :=
  match o with
  | Write address value => (address =? 0x4017) && (Z.land value 0x40 =? 0)
  | _ => false
  end.


(** ** The step loop terminates *)

Lemma fireFrameStep_counter step a :
  frameCycleCounter (fireFrameStep step a) = frameCycleCounter a
  /\ frameStep (fireFrameStep step a) = frameStep a
  /\ countSequence (fireFrameStep step a) = countSequence a
  /\ frameIrqEnabled (fireFrameStep step a) = frameIrqEnabled a.
Proof.
  unfold fireFrameStep.
  repeat match goal with
         | |- context [if ?b then _ else _] => destruct b
         end; done.
Qed.

Lemma step_due_inv a :
  step_due a = true ->
  0 <= frameStep a < Z.of_nat (length (steps_of a))
  /\ 7457 <= frameCycleCounter a
  /\ (frameStep a = Z.of_nat (length (steps_of a)) - 1 ->
      period_of a - 1 <= frameCycleCounter a).
Proof.
  unfold step_due, JS.ta_get, steps_of, period_of.
  destruct (Z.leb_spec 0 (frameStep a)) as [Hk |]; [| done].
  destruct (countSequence a =? 0).
  - destruct (Z.to_nat (frameStep a)) as [| [| [| [| n]]]] eqn:E;
      cbn; intros Hd; try done; apply Z.leb_le in Hd;
      unfold FRAME_PERIOD_4; lia.
  - destruct (Z.to_nat (frameStep a)) as [| [| [| [| [| n]]]]] eqn:E;
      cbn; intros Hd; try done; apply Z.leb_le in Hd;
      unfold FRAME_PERIOD_5; lia.
Qed.

Lemma step_once_measure a :
  step_due a = true -> (steps_left (step_once a) < steps_left a)%nat.
Proof.
  intros Hd. destruct (step_due_inv a Hd) as (Hk & Hc & Hlast).
  unfold steps_left, step_once. cbv zeta.
  destruct (fireFrameStep_counter (frameStep a) a) as (Ec & Ek & Es & _).
  set (a1 := fireFrameStep (frameStep a) a) in *.
  assert (Hs : steps_of (set_frameStep (frameStep a1 + 1) a1) = steps_of a)
    by (unfold steps_of; cbn; by rewrite Es).
  assert (Hp : period_of (set_frameStep (frameStep a1 + 1) a1) = period_of a)
    by (unfold period_of; cbn; by rewrite Es).
  rewrite Hs, Hp. cbn [frameStep set_frameStep].
  assert (Hlen : (length (steps_of a) <= 5)%nat)
    by (unfold steps_of; destruct (countSequence a =? 0); cbn; lia).
  destruct (Z.leb_spec (Z.of_nat (length (steps_of a))) (frameStep a1 + 1));
    cbn [frameCycleCounter frameStep set_frameStep set_frameCycleCounter];
    rewrite ?Ec, ?Ek in *.
  - assert (period_of a - 1 <= frameCycleCounter a) by (apply Hlast; lia).
    assert (29830 <= period_of a)
      by (unfold period_of, FRAME_PERIOD_4, FRAME_PERIOD_5;
          destruct (countSequence a =? 0); lia).
    lia.
  - lia.
Qed.

Lemma step_loop_done n : forall a,
  (steps_left a <= n)%nat -> step_due (step_loop n a) = false.
Proof.
  induction n as [| n IH]; intros a Hn; cbn [step_loop].
  - destruct (step_due a) eqn:Hd; [| done].
    pose proof (step_once_measure a Hd). lia.
  - destruct (step_due a) eqn:Hd; [| done].
    apply IH. pose proof (step_once_measure a Hd). lia.
Qed.

(** X4.  The [while] loop of [advanceFrameCounter] and
    [clockFrameCounter] ends: with [steps_left] passes it reaches a state
    in which no step is due any more. *)
Lemma run_steps_done a : step_due (run_steps a) = false.
Proof. apply step_loop_done. done. Qed.

(** ** The frame interrupt under IRQ inhibit *)

(** IRQ inhibit in force: bit 6 of the last $4017 write was set. *)
Definition inhibited (a : t Chan) : Prop :=
  frameIrqEnabled a = false /\ frameIrqActive a = false.

Lemma fireFrameStep_inhibited step a :
  inhibited a -> inhibited (fireFrameStep step a).
Proof.
  intros [He Ha]. unfold inhibited, fireFrameStep. cbv zeta.
  repeat match goal with
         | |- context [if ?b then _ else _] => destruct b eqn:?
         end; cbn in *; try done; congruence.
Qed.

Lemma step_once_inhibited a : inhibited a -> inhibited (step_once a).
Proof.
  intros Hi. unfold step_once. cbv zeta.
  pose proof (fireFrameStep_inhibited (frameStep a) a Hi) as [He Ha].
  by destruct (_ <=? _).
Qed.

Lemma step_loop_inhibited n : forall a,
  inhibited a -> inhibited (step_loop n a).
Proof.
  induction n as [| n IH]; intros a Hi; cbn [step_loop]; [done |].
  destruct (step_due a); [| done]. by apply IH, step_once_inhibited.
Qed.

Lemma advanceFrameCounter_inhibited n a :
  inhibited a -> inhibited (advanceFrameCounter n a).
Proof. intros [He Ha]. by apply step_loop_inhibited. Qed.

Lemma clockFrameCounter_inhibited n already a :
  inhibited a ->
  inhibited (fst (clockFrameCounter n already a))
  /\ snd (clockFrameCounter n already a) = false.
Proof.
  intros [He Ha]. unfold clockFrameCounter. cbv zeta. cbn [fst snd].
  split; [by apply step_loop_inhibited |].
  cbn. by rewrite He.
Qed.

Lemma writeReg_inhibits value a :
  Z.land value 0x40 <> 0 -> inhibited (writeReg 0x4017 value a).
Proof.
  intros Hv. unfold writeReg. cbn [Z.leb Z.ltb Z.eqb Z.compare Pos.compare
    Pos.compare_cont andb orb]. cbv zeta.
  destruct (Z.eqb_spec (Z.land value 0x40) 0) as [| _]; [done |].
  cbn [negb]. by destruct (_ =? 1).
Qed.

Lemma writeReg_inhibited address value a :
  ~ (address = 0x4017 /\ Z.land value 0x40 = 0) ->
  inhibited a -> inhibited (writeReg address value a).
Proof.
  intros Hw [He Ha]. unfold writeReg.
  destruct ((0x4000 <=? address) && (address <? 0x4014) || (address =? 0x4015));
    [done |].
  destruct (Z.eqb_spec address 0x4017) as [-> | _]; [| done].
  apply writeReg_inhibits. intros E. by apply Hw.
Qed.

Lemma readReg_inhibited dataBus a :
  inhibited a -> inhibited (snd (readReg dataBus a)).
Proof.
  intros [He Ha]. unfold readReg.
  by destruct (lengthStatus (chan a)) as [[[[? ?] ?] ?] ?].
Qed.

Lemma land_bit x k : 0 <= k -> Z.land x (2 ^ k) = 0 \/ Z.land x (2 ^ k) = 2 ^ k.
Proof.
  intros Hk.
  destruct (Z.testbit x k) eqn:E; [right | left];
    apply Z.bits_inj'; intros n Hn;
    rewrite Z.land_spec, ?Z.bits_0, Z.pow2_bits_eqb by lia;
    destruct (Z.eqb_spec k n) as [<- | Hne];
    rewrite ?E, ?andb_false_r; reflexivity.
Qed.

(** Bit 6 of the value read from $4015 is the frame interrupt flag. *)
Lemma readReg_bit6 dataBus a :
  Z.land (fst (readReg dataBus a)) 0x40
  = if frameIrqActive a then 0x40 else 0.
Proof.
  unfold readReg.
  destruct (lengthStatus (chan a)) as [[[[s1 s2] tr] no] dm].
  cbv zeta. cbn [fst].
  destruct (land_bit dataBus 5 ltac:(lia)) as [E | E];
    change (2 ^ 5) with 32 in E; rewrite E;
    destruct s1, s2, tr, no, dm, (frameIrqActive a), (dmcIrqStatus (chan a));
    reflexivity.
Qed.



Lemma apply_op_inhibited o a :
  lifts_inhibit o = false -> inhibited a -> inhibited (snd (apply_op o a)).
Proof.
  intros Ho Hi. destruct o as [address value | dataBus | n already | n |];
    cbn [apply_op lifts_inhibit] in *.
  - apply writeReg_inhibited; [| done].
    intros [-> E]. rewrite E in Ho. done.
  - pose proof (readReg_inhibited dataBus a Hi).
    by destruct (readReg dataBus a).
  - by apply clockFrameCounter_inhibited.
  - by apply advanceFrameCounter_inhibited.
  - done.
Qed.

(** C4. After a write to $4017 with bit 6 set, [frameIrqActive] is false
    and stays false through every later operation on the APU, and every
    read of $4015 returns bit 6 clear, as long as no write to $4017 with
    bit 6 clear occurs. *)
Theorem frame_irq_stays_clear value ops a :
  Z.land value 0x40 <> 0 ->
  forallb (fun o => negb (lifts_inhibit o)) ops = true ->
  frameIrqActive (writeReg 0x4017 value a) = false
  /\ Forall (fun r : option Z * t Chan =>
               frameIrqActive (snd r) = false
               /\ forall x, fst r = Some x -> Z.land x 0x40 = 0)
            (run ops (writeReg 0x4017 value a)).
Proof.
  intros Hv Hops.
  pose proof (writeReg_inhibits value a Hv) as Hi.
  split; [apply Hi |].
  generalize dependent (writeReg 0x4017 value a). clear a.
  induction ops as [| o ops IH]; intros a Hi; cbn [run]; [constructor |].
  cbn [forallb] in Hops. apply andb_true_iff in Hops as [Ho Hops].
  apply negb_true_iff in Ho.
  pose proof (apply_op_inhibited o a Ho Hi) as Hi'.
  constructor; [| by apply IH].
  split; [apply Hi' |].
  intros x Hx. destruct o; cbn [apply_op] in Hx; try discriminate.
  pose proof (readReg_bit6 dataBus a) as Hb.
  destruct (readReg dataBus a) as [r a'].
  cbn [fst] in *. injection Hx as <-.
  rewrite Hb. destruct Hi as [_ ->]. done.
Qed.

End FrameCounter.

(** A console without sound channels: every channel reports a length
    counter of zero and no DMC interrupt. *)
#[export] Instance silent : Channels unit :=
  {| clockQuarterFrame := fun c => c;
     clockHalfFrame := fun c => c;
     lengthStatus := fun _ => (false, false, false, false, false);
     dmcIrqStatus := fun _ => false;
     channelWriteReg := fun _ _ c => c;
     clockTimers := fun _ c => c;
     resetChannels := fun c => c |}.

(** The frame counter as the constructor leaves it. *)
Definition power_on : t unit := mk 0 0 0 false false tt.

(** Without the inhibit, one 4-step sequence raises the flag. *)
Example frame_irq_raised :
  map fst (run [Clock 29836 None; Read4015 0; Read4015 0]
               (writeReg 0x4017 0x00 power_on))
  = [None; Some 0x40; Some 0].
Proof. vm_compute. reflexivity. Qed.

Lemma frame_irq_stays_clear_witness :
  frameIrqActive (writeReg 0x4017 0x40 power_on) = false
  /\ Forall (fun r : option Z * t unit =>
               frameIrqActive (snd r) = false
               /\ forall x, fst r = Some x -> Z.land x 0x40 = 0)
            (run [Clock 29836 None; Advance 3; Read4015 0xff; Write 0x4017 0xc0;
                  Clock 37282 (Some 3); Read4015 0]
                 (writeReg 0x4017 0x40 power_on)).
Proof.
  apply (frame_irq_stays_clear 0x40
           [Clock 29836 None; Advance 3; Read4015 0xff; Write 0x4017 0xc0;
            Clock 37282 (Some 3); Read4015 0] power_on).
  - reflexivity || discriminate.
  - reflexivity.
Defined.

(** ** Cycles add up *)

Section FrameCounterRuns.
Context {Chan : Type} `{Channels Chan}.

(** [frameCycleCounter += k] *)
Definition add_cycles (k : Z) (a : t Chan) : t Chan :=
  set_frameCycleCounter (frameCycleCounter a + k) a.

(** The frame-counter fields, without the channels. *)
Definition frame_of (a : t Chan) : Z * Z * Z * bool * bool :=
  (frameCycleCounter a, frameStep a, countSequence a, frameIrqEnabled a,
   frameIrqActive a).

Ltac apu_simpl :=
  unfold set_frameCycleCounter, set_frameStep, set_countSequence,
    set_frameIrqEnabled, set_frameIrqActive, set_chan;
  cbn [frameCycleCounter frameStep countSequence frameIrqEnabled
       frameIrqActive chan].

Lemma step_loop_fuel n : forall m a,
  (steps_left a <= n)%nat -> (steps_left a <= m)%nat ->
  step_loop n a = step_loop m a.
Proof.
  induction n as [| n IH]; intros m a Hn Hm.
  - destruct m as [| m]; [reflexivity|]. cbn [step_loop].
    destruct (step_due a) eqn:Hd; [|reflexivity].
    pose proof (step_once_measure a Hd). lia.
  - cbn [step_loop]. destruct (step_due a) eqn:Hd.
    + pose proof (step_once_measure a Hd) as Hlt.
      destruct m as [| m]; [lia|]. cbn [step_loop]. rewrite Hd.
      apply IH; lia.
    + destruct m; cbn [step_loop]; rewrite ?Hd; reflexivity.
Qed.

Lemma run_steps_due a :
  step_due a = true -> run_steps a = run_steps (step_once a).
Proof.
  intros Hd. unfold run_steps.
  pose proof (step_once_measure a Hd) as Hlt.
  destruct (steps_left a) as [| n] eqn:E; [lia|].
  cbn [step_loop]. rewrite Hd. apply step_loop_fuel; lia.
Qed.

Lemma run_steps_idle a : step_due a = false -> run_steps a = a.
Proof.
  intros Hd. unfold run_steps.
  destruct (steps_left a); cbn [step_loop]; rewrite ?Hd; reflexivity.
Qed.

Lemma fireFrameStep_add k step a :
  fireFrameStep step (add_cycles k a) = add_cycles k (fireFrameStep step a).
Proof.
  unfold fireFrameStep, add_cycles. cbv zeta.
  destruct a as [c s q e f ch].
  cbn [countSequence set_frameCycleCounter].
  repeat match goal with
         | |- context [if ?b =? ?x then _ else _] => destruct (b =? x)
         end; try reflexivity; destruct e; reflexivity.
Qed.

Lemma step_once_add k a :
  step_once (add_cycles k a) = add_cycles k (step_once a).
Proof.
  unfold step_once. cbv zeta.
  replace (frameStep (add_cycles k a)) with (frameStep a) by reflexivity.
  rewrite fireFrameStep_add.
  destruct (fireFrameStep_counter (frameStep a) a) as (Ec & Ek & Es & _).
  destruct (fireFrameStep (frameStep a) a) as [c s q e f ch].
  unfold add_cycles, steps_of, period_of.
  cbn [countSequence set_frameCycleCounter set_frameStep frameCycleCounter
       frameStep frameIrqEnabled frameIrqActive chan].
  destruct (_ <=? _); apu_simpl; f_equal; lia.
Qed.

Lemma step_due_add k a :
  0 <= k -> step_due a = true -> step_due (add_cycles k a) = true.
Proof.
  intros Hk. unfold step_due, add_cycles, steps_of.
  destruct a as [c s q e f ch].
  cbn [countSequence set_frameCycleCounter frameCycleCounter frameStep].
  destruct (JS.ta_get _ s); [|discriminate].
  rewrite !Z.leb_le. lia.
Qed.

Lemma run_steps_add k n : forall a,
  0 <= k -> (steps_left a <= n)%nat ->
  run_steps (add_cycles k a) = run_steps (add_cycles k (step_loop n a)).
Proof.
  induction n as [| n IH]; intros a Hk Hn.
  - cbn [step_loop]. reflexivity.
  - cbn [step_loop]. destruct (step_due a) eqn:Hd; [|reflexivity].
    rewrite (run_steps_due _ (step_due_add k a Hk Hd)), step_once_add.
    apply IH; [exact Hk|].
    pose proof (step_once_measure a Hd). lia.
Qed.

(** X22.  Cycles given to the frame counter add up: advancing it by [n]
    and then by [m] cycles leaves the APU, channels included, as
    advancing it once by [n + m] cycles does. *)
Theorem advance_adds (n m : Z) (a : t Chan) :
  0 <= m ->
  advanceFrameCounter m (advanceFrameCounter n a)
  = advanceFrameCounter (n + m) a.
Proof.
  intros Hm. unfold advanceFrameCounter.
  fold (add_cycles n a). fold (add_cycles m (run_steps (add_cycles n a))).
  fold (add_cycles (n + m) a).
  unfold run_steps at 2.
  rewrite <- (run_steps_add m _ (add_cycles n a) Hm (le_n _)).
  f_equal. unfold add_cycles. destruct a. apu_simpl. f_equal. lia.
Qed.

(** The frame-counter fields evolve on their own: the channels never
    feed back into them. *)
Lemma fireFrameStep_frame step a b :
  frame_of a = frame_of b ->
  frame_of (fireFrameStep step a) = frame_of (fireFrameStep step b).
Proof.
  unfold frame_of. intros E. injection E as E1 E2 E3 E4 E5.
  destruct a as [c s q e f ch], b as [c' s' q' e' f' ch'].
  cbn [frameCycleCounter frameStep countSequence frameIrqEnabled
       frameIrqActive] in *. subst c' s' q' e' f'.
  unfold fireFrameStep. cbv zeta.
  cbn [countSequence].
  repeat match goal with
         | |- context [if ?b =? ?x then _ else _] => destruct (b =? x)
         end; try reflexivity; destruct e; reflexivity.
Qed.

Lemma step_once_frame a b :
  frame_of a = frame_of b -> frame_of (step_once a) = frame_of (step_once b).
Proof.
  intros E. unfold step_once. cbv zeta.
  assert (Es : frameStep a = frameStep b)
    by (unfold frame_of in E; congruence).
  rewrite Es.
  pose proof (fireFrameStep_frame (frameStep b) a b E) as E'.
  destruct (fireFrameStep (frameStep b) a) as [c s q e f ch].
  destruct (fireFrameStep (frameStep b) b) as [c' s' q' e' f' ch'].
  unfold frame_of in E'. cbn in E'. injection E' as -> -> -> -> ->.
  unfold steps_of, period_of, frame_of. cbn.
  destruct (_ <=? _); reflexivity.
Qed.

Lemma step_due_frame a b : frame_of a = frame_of b -> step_due a = step_due b.
Proof.
  unfold frame_of, step_due, steps_of. intros E.
  injection E as -> -> -> _ _. reflexivity.
Qed.

Lemma steps_left_frame a b :
  frame_of a = frame_of b -> steps_left a = steps_left b.
Proof.
  unfold frame_of, steps_left. intros E. injection E as -> -> _ _ _.
  reflexivity.
Qed.

Lemma step_loop_frame n : forall a b,
  frame_of a = frame_of b ->
  frame_of (step_loop n a) = frame_of (step_loop n b).
Proof.
  induction n as [| n IH]; intros a b E; cbn [step_loop]; [exact E|].
  rewrite (step_due_frame a b E). destruct (step_due b); [|exact E].
  apply IH, step_once_frame, E.
Qed.

Lemma run_steps_frame a b :
  frame_of a = frame_of b -> frame_of (run_steps a) = frame_of (run_steps b).
Proof.
  intros E. unfold run_steps. rewrite (steps_left_frame a b E).
  apply step_loop_frame, E.
Qed.

(** X23.  The catch-up before a read of $4015 is not counted twice: when
    [k] of the [n] cycles of an instruction were already given to the
    frame counter by [advanceFrameCounter], [clockFrameCounter] with [k]
    as its second argument leaves the counter, the step and the interrupt
    flag where [clockFrameCounter] alone would have left them. *)
Theorem catch_up_counted_once (n k : Z) (a : t Chan) :
  0 <= k <= n ->
  frame_of (fst (clockFrameCounter n (Some k) (advanceFrameCounter k a)))
  = frame_of (fst (clockFrameCounter n None a)).
Proof.
  intros Hk.
  transitivity (frame_of (advanceFrameCounter n a)).
  - replace (advanceFrameCounter n a)
      with (advanceFrameCounter (n - k) (advanceFrameCounter k a))
      by (rewrite advance_adds by lia; f_equal; lia).
    unfold clockFrameCounter. cbv zeta. cbn [fst JS.toInt default].
    unfold advanceFrameCounter at 3. apply run_steps_frame. reflexivity.
  - unfold clockFrameCounter, advanceFrameCounter. cbv zeta.
    cbn [fst JS.toInt default]. apply run_steps_frame.
    unfold frame_of. apu_simpl. repeat f_equal. lia.
Qed.

(** ** When the frame interrupt is raised *)

Lemma fireFrameStep_flag step a :
  frameIrqActive a = true -> frameIrqActive (fireFrameStep step a) = true.
Proof.
  intros Hf. destruct a as [c s q e f ch]. cbn in Hf. subst f.
  unfold fireFrameStep. cbv zeta. cbn [countSequence].
  repeat match goal with
         | |- context [if ?b =? ?x then _ else _] => destruct (b =? x)
         end; try reflexivity; destruct e; reflexivity.
Qed.

Lemma step_once_flag a :
  frameIrqActive a = true -> frameIrqActive (step_once a) = true.
Proof.
  intros Hf. unfold step_once. cbv zeta.
  pose proof (fireFrameStep_flag (frameStep a) a Hf) as E.
  destruct (fireFrameStep (frameStep a) a) as [c s q e f ch].
  cbn in E. subst f. destruct (_ <=? _); reflexivity.
Qed.

Lemma step_loop_flag n : forall a,
  frameIrqActive a = true -> frameIrqActive (step_loop n a) = true.
Proof.
  induction n as [| n IH]; intros a Hf; cbn [step_loop]; [exact Hf|].
  destruct (step_due a); [|exact Hf]. apply IH, step_once_flag, Hf.
Qed.

(** Before step 3 of the 4-step sequence is due, and in the 5-step
    sequence, a pass of the loop leaves the flag clear. *)
Definition flag_stays_clear (a : t Chan) : Prop :=
  frameIrqActive a = false
  /\ (countSequence a = 1
      \/ countSequence a = 0 /\ frameCycleCounter a < 29829).

Lemma step_once_clear a :
  step_due a = true -> flag_stays_clear a -> flag_stays_clear (step_once a).
Proof.
  intros Hd (Hf & Hq). destruct (step_due_inv a Hd) as (Hk & _ & _).
  destruct a as [c s q e f ch]. cbn in Hf. subst f.
  unfold step_due, steps_of in Hd.
  cbn [countSequence frameCycleCounter frameStep] in *.
  unfold flag_stays_clear, step_once, fireFrameStep, steps_of, period_of.
  cbv zeta. cbn [countSequence frameStep].
  destruct Hq as [-> | [-> Hc]]; cbn [Z.eqb].
  - repeat match goal with
           | |- context [if ?b =? ?x then _ else _] => destruct (b =? x)
           end; apu_simpl; cbn [Z.eqb]; destruct (_ <=? _); apu_simpl;
      (split; [reflexivity | left; reflexivity]).
  - unfold steps_of in Hk. cbn in Hk. unfold FRAME_STEPS_4, JS.ta_get in Hd.
    assert (Hs : s = 0 \/ s = 1 \/ s = 2 \/ s = 3) by lia.
    destruct Hs as [-> | [-> | [-> | ->]]]; cbn in Hd;
      try (apply Z.leb_le in Hd; lia);
      cbn; (split; [reflexivity | right; split; [reflexivity | exact Hc]]).
Qed.

Lemma step_loop_clear n : forall a,
  flag_stays_clear a -> flag_stays_clear (step_loop n a).
Proof.
  induction n as [| n IH]; intros a Hc; cbn [step_loop]; [exact Hc|].
  destruct (step_due a) eqn:Hd; [|exact Hc].
  apply IH, step_once_clear; assumption.
Qed.

Lemma control_bits v :
  0 <= v <= 255 ->
  Z.land (Z.shiftr v 7) 1 = (if Z.land v 0x80 =? 0 then 0 else 1)
  /\ (Z.land v 0xc0 =? 0) = (Z.land v 0x80 =? 0) && (Z.land v 0x40 =? 0).
Proof.
  intros Hv.
  assert (A : JS.forall_below 256 (fun v =>
    (Z.land (Z.shiftr v 7) 1 =? (if Z.land v 0x80 =? 0 then 0 else 1))
    && Bool.eqb (Z.land v 0xc0 =? 0)
                ((Z.land v 0x80 =? 0) && (Z.land v 0x40 =? 0))) = true)
    by (vm_compute; reflexivity).
  pose proof (JS.forall_below_spec _ _ A v ltac:(lia)) as B. cbv beta in B.
  apply andb_prop in B as [B1 B2].
  apply Z.eqb_eq in B1. apply eqb_prop in B2. split; assumption.
Qed.

(** X24.  After a write of [v] to $4017 with the frame interrupt flag
    clear, the frame counter raises the flag in the 4-step sequence with
    interrupts enabled only (bits 7 and 6 of [v] clear), and then exactly
    when 29835 cycles or more have been counted since the write. *)
Theorem frame_irq_time (v n : Z) (a : t Chan) :
  0 <= v <= 255 -> 0 <= n -> frameIrqActive a = false ->
  frameIrqActive (advanceFrameCounter n (writeReg 0x4017 v a))
  = (Z.land v 0xc0 =? 0) && (29835 <=? n).
Proof.
  intros Hv Hn Hf.
  destruct (control_bits v Hv) as [B7 B].
  destruct a as [c s q e f ch]. cbn in Hf. subst f.
  rewrite B.
  destruct (Z.eqb_spec (Z.land v 0x40) 0) as [E6 | N6].
  - (* interrupts enabled *)
    destruct (Z.eqb_spec (Z.land v 0x80) 0) as [E7 | N7]; cbn [andb].
    + assert (W : writeReg 0x4017 v (mk c s q e false ch)
                  = mk (-6) 0 0 true false ch).
      { unfold writeReg. cbn [Z.leb Z.ltb Z.eqb Z.compare Pos.compare
          Pos.compare_cont andb orb]. cbv zeta. apu_simpl.
        rewrite B7, E6. cbn [Z.eqb negb]. apu_simpl. reflexivity. }
      rewrite W. clear W.
      destruct (Z.leb_spec 29835 n) as [Hge | Hlt].
      * replace n with (29835 + (n - 29835)) by lia.
        rewrite <- advance_adds by lia.
        apply step_loop_flag.
        unfold advanceFrameCounter. apu_simpl.
        rewrite run_steps_due by reflexivity.
        unfold step_once at 1. cbn.
        rewrite run_steps_due by reflexivity.
        unfold step_once at 1. cbn.
        rewrite run_steps_due by reflexivity.
        unfold step_once at 1. cbn.
        rewrite run_steps_due by reflexivity.
        unfold step_once at 1. cbn.
        rewrite run_steps_idle by reflexivity. reflexivity.
      * assert (K : flag_stays_clear
                      (advanceFrameCounter n (mk (-6) 0 0 true false ch))).
        { apply step_loop_clear. split; [reflexivity|]. right.
          apu_simpl. split; [reflexivity | lia]. }
        exact (proj1 K).
    + assert (K : flag_stays_clear
                    (advanceFrameCounter n
                       (writeReg 0x4017 v (mk c s q e false ch)))).
      { apply step_loop_clear. unfold writeReg.
        cbn [Z.leb Z.ltb Z.eqb Z.compare Pos.compare Pos.compare_cont andb
             orb]. cbv zeta. apu_simpl. rewrite B7, E6.
        destruct (Z.eqb_spec (Z.land v 0x80) 0) as [|_]; [contradiction|].
        cbn [Z.eqb negb]. apu_simpl.
        split; [reflexivity | left; reflexivity]. }
      exact (proj1 K).
  - rewrite andb_false_r. cbn [andb].
    apply (advanceFrameCounter_inhibited n), writeReg_inhibits, N6.
Qed.

End FrameCounterRuns.

Lemma advance_adds_witness :
  advanceFrameCounter 20000 (advanceFrameCounter 10000 power_on)
  = advanceFrameCounter (10000 + 20000) power_on.
Proof. apply (advance_adds 10000 20000 power_on). lia. Defined.

Lemma catch_up_counted_once_witness :
  frame_of (fst (clockFrameCounter 4 (Some 3)
                   (advanceFrameCounter 3 (writeReg 0x4017 0 power_on))))
  = frame_of (fst (clockFrameCounter 4 None (writeReg 0x4017 0 power_on))).
Proof.
  apply (catch_up_counted_once 4 3 (writeReg 0x4017 0 power_on)). lia.
Defined.

Lemma frame_irq_time_witness :
  frameIrqActive (advanceFrameCounter 29835 (writeReg 0x4017 0 power_on))
  = (Z.land 0 0xc0 =? 0) && (29835 <=? 29835).
Proof.
  apply (frame_irq_time 0 29835 power_on); [lia | lia | reflexivity].
Defined.

End APU.

(* ===================================================================== *)
(** * The CPU and the console ([CPU] and [NES])                           *)
(* ===================================================================== *)

Module Console.

Local Infix ".&" := Z.land (at level 40, left associativity) : Z_scope.
Local Infix ".|" := Z.lor (at level 40, left associativity) : Z_scope.
Local Infix ".^" := Z.lxor (at level 40, left associativity) : Z_scope.
Local Infix ">>" := Z.shiftr (at level 40, left associativity) : Z_scope.
Local Infix "<<" := Z.shiftl (at level 40, left associativity) : Z_scope.

(** ** State *)

(** One access of the CPU to memory, in program order: the address and
    the byte read or written. *)
Inductive BusEvent :=
| BusRead (addr value : Z)
| BusWrite (addr value : Z).

(** One call of a method of [nes.mmap] by the CPU. *)
Inductive MapperCall :=
| MapLoad (addr : Z)
| MapWrite (addr value : Z).

(** The [CPU] object.  [irqType] is [None] while it is [null];
    [apuCatchupCycles] is the property the frame loop keeps on the CPU
    object, [None] while it is [undefined]. *)
Record CPU := mkCPU
  { mem : gmap Z Z;
    REG_ACC : Z;
    REG_X : Z;
    REG_Y : Z;
    REG_SP : Z;
    REG_PC : Z;
    REG_PC_NEW : Z;
    F_CARRY : Z;
    F_DECIMAL : Z;
    F_INTERRUPT : Z;
    F_INTERRUPT_NEW : Z;
    F_OVERFLOW : Z;
    F_SIGN : Z;
    F_ZERO : Z;
    F_NOTUSED : Z;
    F_BRK : Z;
    F_BRK_NEW : Z;
    cyclesToHalt : Z;
    irqRequested : bool;
    irqType : option Z;
    dataBus : Z;
    instrBusCycles : Z;
    ppuCatchupDots : Z;
    ppuFrameEnded : bool;
    _dmcFetchCycles : Z;
    apuCatchupCycles : option Z }.

Definition set_mem (v : gmap Z Z) (x : CPU) : CPU :=
  mkCPU v (REG_ACC x) (REG_X x) (REG_Y x) (REG_SP x) (REG_PC x) (REG_PC_NEW x) (F_CARRY x) (F_DECIMAL x) (F_INTERRUPT x) (F_INTERRUPT_NEW x) (F_OVERFLOW x) (F_SIGN x) (F_ZERO x) (F_NOTUSED x) (F_BRK x) (F_BRK_NEW x) (cyclesToHalt x) (irqRequested x) (irqType x) (dataBus x) (instrBusCycles x) (ppuCatchupDots x) (ppuFrameEnded x) (_dmcFetchCycles x) (apuCatchupCycles x).
Definition set_REG_ACC (v : Z) (x : CPU) : CPU :=
  mkCPU (mem x) v (REG_X x) (REG_Y x) (REG_SP x) (REG_PC x) (REG_PC_NEW x) (F_CARRY x) (F_DECIMAL x) (F_INTERRUPT x) (F_INTERRUPT_NEW x) (F_OVERFLOW x) (F_SIGN x) (F_ZERO x) (F_NOTUSED x) (F_BRK x) (F_BRK_NEW x) (cyclesToHalt x) (irqRequested x) (irqType x) (dataBus x) (instrBusCycles x) (ppuCatchupDots x) (ppuFrameEnded x) (_dmcFetchCycles x) (apuCatchupCycles x).
Definition set_REG_X (v : Z) (x : CPU) : CPU :=
  mkCPU (mem x) (REG_ACC x) v (REG_Y x) (REG_SP x) (REG_PC x) (REG_PC_NEW x) (F_CARRY x) (F_DECIMAL x) (F_INTERRUPT x) (F_INTERRUPT_NEW x) (F_OVERFLOW x) (F_SIGN x) (F_ZERO x) (F_NOTUSED x) (F_BRK x) (F_BRK_NEW x) (cyclesToHalt x) (irqRequested x) (irqType x) (dataBus x) (instrBusCycles x) (ppuCatchupDots x) (ppuFrameEnded x) (_dmcFetchCycles x) (apuCatchupCycles x).
Definition set_REG_Y (v : Z) (x : CPU) : CPU :=
  mkCPU (mem x) (REG_ACC x) (REG_X x) v (REG_SP x) (REG_PC x) (REG_PC_NEW x) (F_CARRY x) (F_DECIMAL x) (F_INTERRUPT x) (F_INTERRUPT_NEW x) (F_OVERFLOW x) (F_SIGN x) (F_ZERO x) (F_NOTUSED x) (F_BRK x) (F_BRK_NEW x) (cyclesToHalt x) (irqRequested x) (irqType x) (dataBus x) (instrBusCycles x) (ppuCatchupDots x) (ppuFrameEnded x) (_dmcFetchCycles x) (apuCatchupCycles x).
Definition set_REG_SP (v : Z) (x : CPU) : CPU :=
  mkCPU (mem x) (REG_ACC x) (REG_X x) (REG_Y x) v (REG_PC x) (REG_PC_NEW x) (F_CARRY x) (F_DECIMAL x) (F_INTERRUPT x) (F_INTERRUPT_NEW x) (F_OVERFLOW x) (F_SIGN x) (F_ZERO x) (F_NOTUSED x) (F_BRK x) (F_BRK_NEW x) (cyclesToHalt x) (irqRequested x) (irqType x) (dataBus x) (instrBusCycles x) (ppuCatchupDots x) (ppuFrameEnded x) (_dmcFetchCycles x) (apuCatchupCycles x).
Definition set_REG_PC (v : Z) (x : CPU) : CPU :=
  mkCPU (mem x) (REG_ACC x) (REG_X x) (REG_Y x) (REG_SP x) v (REG_PC_NEW x) (F_CARRY x) (F_DECIMAL x) (F_INTERRUPT x) (F_INTERRUPT_NEW x) (F_OVERFLOW x) (F_SIGN x) (F_ZERO x) (F_NOTUSED x) (F_BRK x) (F_BRK_NEW x) (cyclesToHalt x) (irqRequested x) (irqType x) (dataBus x) (instrBusCycles x) (ppuCatchupDots x) (ppuFrameEnded x) (_dmcFetchCycles x) (apuCatchupCycles x).
Definition set_REG_PC_NEW (v : Z) (x : CPU) : CPU :=
  mkCPU (mem x) (REG_ACC x) (REG_X x) (REG_Y x) (REG_SP x) (REG_PC x) v (F_CARRY x) (F_DECIMAL x) (F_INTERRUPT x) (F_INTERRUPT_NEW x) (F_OVERFLOW x) (F_SIGN x) (F_ZERO x) (F_NOTUSED x) (F_BRK x) (F_BRK_NEW x) (cyclesToHalt x) (irqRequested x) (irqType x) (dataBus x) (instrBusCycles x) (ppuCatchupDots x) (ppuFrameEnded x) (_dmcFetchCycles x) (apuCatchupCycles x).
Definition set_F_CARRY (v : Z) (x : CPU) : CPU :=
  mkCPU (mem x) (REG_ACC x) (REG_X x) (REG_Y x) (REG_SP x) (REG_PC x) (REG_PC_NEW x) v (F_DECIMAL x) (F_INTERRUPT x) (F_INTERRUPT_NEW x) (F_OVERFLOW x) (F_SIGN x) (F_ZERO x) (F_NOTUSED x) (F_BRK x) (F_BRK_NEW x) (cyclesToHalt x) (irqRequested x) (irqType x) (dataBus x) (instrBusCycles x) (ppuCatchupDots x) (ppuFrameEnded x) (_dmcFetchCycles x) (apuCatchupCycles x).
Definition set_F_DECIMAL (v : Z) (x : CPU) : CPU :=
  mkCPU (mem x) (REG_ACC x) (REG_X x) (REG_Y x) (REG_SP x) (REG_PC x) (REG_PC_NEW x) (F_CARRY x) v (F_INTERRUPT x) (F_INTERRUPT_NEW x) (F_OVERFLOW x) (F_SIGN x) (F_ZERO x) (F_NOTUSED x) (F_BRK x) (F_BRK_NEW x) (cyclesToHalt x) (irqRequested x) (irqType x) (dataBus x) (instrBusCycles x) (ppuCatchupDots x) (ppuFrameEnded x) (_dmcFetchCycles x) (apuCatchupCycles x).
Definition set_F_INTERRUPT (v : Z) (x : CPU) : CPU :=
  mkCPU (mem x) (REG_ACC x) (REG_X x) (REG_Y x) (REG_SP x) (REG_PC x) (REG_PC_NEW x) (F_CARRY x) (F_DECIMAL x) v (F_INTERRUPT_NEW x) (F_OVERFLOW x) (F_SIGN x) (F_ZERO x) (F_NOTUSED x) (F_BRK x) (F_BRK_NEW x) (cyclesToHalt x) (irqRequested x) (irqType x) (dataBus x) (instrBusCycles x) (ppuCatchupDots x) (ppuFrameEnded x) (_dmcFetchCycles x) (apuCatchupCycles x).
Definition set_F_INTERRUPT_NEW (v : Z) (x : CPU) : CPU :=
  mkCPU (mem x) (REG_ACC x) (REG_X x) (REG_Y x) (REG_SP x) (REG_PC x) (REG_PC_NEW x) (F_CARRY x) (F_DECIMAL x) (F_INTERRUPT x) v (F_OVERFLOW x) (F_SIGN x) (F_ZERO x) (F_NOTUSED x) (F_BRK x) (F_BRK_NEW x) (cyclesToHalt x) (irqRequested x) (irqType x) (dataBus x) (instrBusCycles x) (ppuCatchupDots x) (ppuFrameEnded x) (_dmcFetchCycles x) (apuCatchupCycles x).
Definition set_F_OVERFLOW (v : Z) (x : CPU) : CPU :=
  mkCPU (mem x) (REG_ACC x) (REG_X x) (REG_Y x) (REG_SP x) (REG_PC x) (REG_PC_NEW x) (F_CARRY x) (F_DECIMAL x) (F_INTERRUPT x) (F_INTERRUPT_NEW x) v (F_SIGN x) (F_ZERO x) (F_NOTUSED x) (F_BRK x) (F_BRK_NEW x) (cyclesToHalt x) (irqRequested x) (irqType x) (dataBus x) (instrBusCycles x) (ppuCatchupDots x) (ppuFrameEnded x) (_dmcFetchCycles x) (apuCatchupCycles x).
Definition set_F_SIGN (v : Z) (x : CPU) : CPU :=
  mkCPU (mem x) (REG_ACC x) (REG_X x) (REG_Y x) (REG_SP x) (REG_PC x) (REG_PC_NEW x) (F_CARRY x) (F_DECIMAL x) (F_INTERRUPT x) (F_INTERRUPT_NEW x) (F_OVERFLOW x) v (F_ZERO x) (F_NOTUSED x) (F_BRK x) (F_BRK_NEW x) (cyclesToHalt x) (irqRequested x) (irqType x) (dataBus x) (instrBusCycles x) (ppuCatchupDots x) (ppuFrameEnded x) (_dmcFetchCycles x) (apuCatchupCycles x).
Definition set_F_ZERO (v : Z) (x : CPU) : CPU :=
  mkCPU (mem x) (REG_ACC x) (REG_X x) (REG_Y x) (REG_SP x) (REG_PC x) (REG_PC_NEW x) (F_CARRY x) (F_DECIMAL x) (F_INTERRUPT x) (F_INTERRUPT_NEW x) (F_OVERFLOW x) (F_SIGN x) v (F_NOTUSED x) (F_BRK x) (F_BRK_NEW x) (cyclesToHalt x) (irqRequested x) (irqType x) (dataBus x) (instrBusCycles x) (ppuCatchupDots x) (ppuFrameEnded x) (_dmcFetchCycles x) (apuCatchupCycles x).
Definition set_F_NOTUSED (v : Z) (x : CPU) : CPU :=
  mkCPU (mem x) (REG_ACC x) (REG_X x) (REG_Y x) (REG_SP x) (REG_PC x) (REG_PC_NEW x) (F_CARRY x) (F_DECIMAL x) (F_INTERRUPT x) (F_INTERRUPT_NEW x) (F_OVERFLOW x) (F_SIGN x) (F_ZERO x) v (F_BRK x) (F_BRK_NEW x) (cyclesToHalt x) (irqRequested x) (irqType x) (dataBus x) (instrBusCycles x) (ppuCatchupDots x) (ppuFrameEnded x) (_dmcFetchCycles x) (apuCatchupCycles x).
Definition set_F_BRK (v : Z) (x : CPU) : CPU :=
  mkCPU (mem x) (REG_ACC x) (REG_X x) (REG_Y x) (REG_SP x) (REG_PC x) (REG_PC_NEW x) (F_CARRY x) (F_DECIMAL x) (F_INTERRUPT x) (F_INTERRUPT_NEW x) (F_OVERFLOW x) (F_SIGN x) (F_ZERO x) (F_NOTUSED x) v (F_BRK_NEW x) (cyclesToHalt x) (irqRequested x) (irqType x) (dataBus x) (instrBusCycles x) (ppuCatchupDots x) (ppuFrameEnded x) (_dmcFetchCycles x) (apuCatchupCycles x).
Definition set_F_BRK_NEW (v : Z) (x : CPU) : CPU :=
  mkCPU (mem x) (REG_ACC x) (REG_X x) (REG_Y x) (REG_SP x) (REG_PC x) (REG_PC_NEW x) (F_CARRY x) (F_DECIMAL x) (F_INTERRUPT x) (F_INTERRUPT_NEW x) (F_OVERFLOW x) (F_SIGN x) (F_ZERO x) (F_NOTUSED x) (F_BRK x) v (cyclesToHalt x) (irqRequested x) (irqType x) (dataBus x) (instrBusCycles x) (ppuCatchupDots x) (ppuFrameEnded x) (_dmcFetchCycles x) (apuCatchupCycles x).
Definition set_cyclesToHalt (v : Z) (x : CPU) : CPU :=
  mkCPU (mem x) (REG_ACC x) (REG_X x) (REG_Y x) (REG_SP x) (REG_PC x) (REG_PC_NEW x) (F_CARRY x) (F_DECIMAL x) (F_INTERRUPT x) (F_INTERRUPT_NEW x) (F_OVERFLOW x) (F_SIGN x) (F_ZERO x) (F_NOTUSED x) (F_BRK x) (F_BRK_NEW x) v (irqRequested x) (irqType x) (dataBus x) (instrBusCycles x) (ppuCatchupDots x) (ppuFrameEnded x) (_dmcFetchCycles x) (apuCatchupCycles x).
Definition set_irqRequested (v : bool) (x : CPU) : CPU :=
  mkCPU (mem x) (REG_ACC x) (REG_X x) (REG_Y x) (REG_SP x) (REG_PC x) (REG_PC_NEW x) (F_CARRY x) (F_DECIMAL x) (F_INTERRUPT x) (F_INTERRUPT_NEW x) (F_OVERFLOW x) (F_SIGN x) (F_ZERO x) (F_NOTUSED x) (F_BRK x) (F_BRK_NEW x) (cyclesToHalt x) v (irqType x) (dataBus x) (instrBusCycles x) (ppuCatchupDots x) (ppuFrameEnded x) (_dmcFetchCycles x) (apuCatchupCycles x).
Definition set_irqType (v : option Z) (x : CPU) : CPU :=
  mkCPU (mem x) (REG_ACC x) (REG_X x) (REG_Y x) (REG_SP x) (REG_PC x) (REG_PC_NEW x) (F_CARRY x) (F_DECIMAL x) (F_INTERRUPT x) (F_INTERRUPT_NEW x) (F_OVERFLOW x) (F_SIGN x) (F_ZERO x) (F_NOTUSED x) (F_BRK x) (F_BRK_NEW x) (cyclesToHalt x) (irqRequested x) v (dataBus x) (instrBusCycles x) (ppuCatchupDots x) (ppuFrameEnded x) (_dmcFetchCycles x) (apuCatchupCycles x).
Definition set_dataBus (v : Z) (x : CPU) : CPU :=
  mkCPU (mem x) (REG_ACC x) (REG_X x) (REG_Y x) (REG_SP x) (REG_PC x) (REG_PC_NEW x) (F_CARRY x) (F_DECIMAL x) (F_INTERRUPT x) (F_INTERRUPT_NEW x) (F_OVERFLOW x) (F_SIGN x) (F_ZERO x) (F_NOTUSED x) (F_BRK x) (F_BRK_NEW x) (cyclesToHalt x) (irqRequested x) (irqType x) v (instrBusCycles x) (ppuCatchupDots x) (ppuFrameEnded x) (_dmcFetchCycles x) (apuCatchupCycles x).
Definition set_instrBusCycles (v : Z) (x : CPU) : CPU :=
  mkCPU (mem x) (REG_ACC x) (REG_X x) (REG_Y x) (REG_SP x) (REG_PC x) (REG_PC_NEW x) (F_CARRY x) (F_DECIMAL x) (F_INTERRUPT x) (F_INTERRUPT_NEW x) (F_OVERFLOW x) (F_SIGN x) (F_ZERO x) (F_NOTUSED x) (F_BRK x) (F_BRK_NEW x) (cyclesToHalt x) (irqRequested x) (irqType x) (dataBus x) v (ppuCatchupDots x) (ppuFrameEnded x) (_dmcFetchCycles x) (apuCatchupCycles x).
Definition set_ppuCatchupDots (v : Z) (x : CPU) : CPU :=
  mkCPU (mem x) (REG_ACC x) (REG_X x) (REG_Y x) (REG_SP x) (REG_PC x) (REG_PC_NEW x) (F_CARRY x) (F_DECIMAL x) (F_INTERRUPT x) (F_INTERRUPT_NEW x) (F_OVERFLOW x) (F_SIGN x) (F_ZERO x) (F_NOTUSED x) (F_BRK x) (F_BRK_NEW x) (cyclesToHalt x) (irqRequested x) (irqType x) (dataBus x) (instrBusCycles x) v (ppuFrameEnded x) (_dmcFetchCycles x) (apuCatchupCycles x).
Definition set_ppuFrameEnded (v : bool) (x : CPU) : CPU :=
  mkCPU (mem x) (REG_ACC x) (REG_X x) (REG_Y x) (REG_SP x) (REG_PC x) (REG_PC_NEW x) (F_CARRY x) (F_DECIMAL x) (F_INTERRUPT x) (F_INTERRUPT_NEW x) (F_OVERFLOW x) (F_SIGN x) (F_ZERO x) (F_NOTUSED x) (F_BRK x) (F_BRK_NEW x) (cyclesToHalt x) (irqRequested x) (irqType x) (dataBus x) (instrBusCycles x) (ppuCatchupDots x) v (_dmcFetchCycles x) (apuCatchupCycles x).
Definition set__dmcFetchCycles (v : Z) (x : CPU) : CPU :=
  mkCPU (mem x) (REG_ACC x) (REG_X x) (REG_Y x) (REG_SP x) (REG_PC x) (REG_PC_NEW x) (F_CARRY x) (F_DECIMAL x) (F_INTERRUPT x) (F_INTERRUPT_NEW x) (F_OVERFLOW x) (F_SIGN x) (F_ZERO x) (F_NOTUSED x) (F_BRK x) (F_BRK_NEW x) (cyclesToHalt x) (irqRequested x) (irqType x) (dataBus x) (instrBusCycles x) (ppuCatchupDots x) (ppuFrameEnded x) v (apuCatchupCycles x).
Definition set_apuCatchupCycles (v : option Z) (x : CPU) : CPU :=
  mkCPU (mem x) (REG_ACC x) (REG_X x) (REG_Y x) (REG_SP x) (REG_PC x) (REG_PC_NEW x) (F_CARRY x) (F_DECIMAL x) (F_INTERRUPT x) (F_INTERRUPT_NEW x) (F_OVERFLOW x) (F_SIGN x) (F_ZERO x) (F_NOTUSED x) (F_BRK x) (F_BRK_NEW x) (cyclesToHalt x) (irqRequested x) (irqType x) (dataBus x) (instrBusCycles x) (ppuCatchupDots x) (ppuFrameEnded x) (_dmcFetchCycles x) v.

(** The fields of the [PPU] object that the dot loops of [frame] and
    [_ppuCatchUp] read and assign. *)
Record Timing := mkTiming
  { curX : Z;
    scanline : Z;
    spr0HitX : Z;
    spr0HitY : Z;
    f_spVisibility : Z;
    requestEndFrame : bool;
    nmiCounter : Z }.

Definition set_curX (v : Z) (x : Timing) : Timing :=
  mkTiming v (scanline x) (spr0HitX x) (spr0HitY x) (f_spVisibility x) (requestEndFrame x) (nmiCounter x).
Definition set_scanline (v : Z) (x : Timing) : Timing :=
  mkTiming (curX x) v (spr0HitX x) (spr0HitY x) (f_spVisibility x) (requestEndFrame x) (nmiCounter x).
Definition set_spr0HitX (v : Z) (x : Timing) : Timing :=
  mkTiming (curX x) (scanline x) v (spr0HitY x) (f_spVisibility x) (requestEndFrame x) (nmiCounter x).
Definition set_spr0HitY (v : Z) (x : Timing) : Timing :=
  mkTiming (curX x) (scanline x) (spr0HitX x) v (f_spVisibility x) (requestEndFrame x) (nmiCounter x).
Definition set_f_spVisibility (v : Z) (x : Timing) : Timing :=
  mkTiming (curX x) (scanline x) (spr0HitX x) (spr0HitY x) v (requestEndFrame x) (nmiCounter x).
Definition set_requestEndFrame (v : bool) (x : Timing) : Timing :=
  mkTiming (curX x) (scanline x) (spr0HitX x) (spr0HitY x) (f_spVisibility x) v (nmiCounter x).
Definition set_nmiCounter (v : Z) (x : Timing) : Timing :=
  mkTiming (curX x) (scanline x) (spr0HitX x) (spr0HitY x) (f_spVisibility x) (requestEndFrame x) v.

(** [nes.gameGenie] *)
Record Genie := mkGenie { enabled : bool; patches : list GameGenie.Patch }.

(** The [NES] object.  [mmap_loaded] is [nes.mmap !== null]; [world] is
    everything else the console owns: the rest of the PPU, the APU, the
    mapper state and the controllers. *)
Record NES (W : Type) := mkNES
  { cpu : CPU;
    ppu : Timing;
    gameGenie : Genie;
    mmap_loaded : bool;
    crashed : bool;
    fpsFrameCount : Z;
    world : W }.


Arguments mkNES {W}.
Arguments cpu {W}.
Arguments ppu {W}.
Arguments gameGenie {W}.
Arguments mmap_loaded {W}.
Arguments crashed {W}.
Arguments fpsFrameCount {W}.
Arguments world {W}.

Definition set_cpu {W} (v : CPU) (x : NES W) : NES W :=
  mkNES v (ppu x) (gameGenie x) (mmap_loaded x) (crashed x) (fpsFrameCount x) (world x).
Definition set_ppu {W} (v : Timing) (x : NES W) : NES W :=
  mkNES (cpu x) v (gameGenie x) (mmap_loaded x) (crashed x) (fpsFrameCount x) (world x).
Definition set_gameGenie {W} (v : Genie) (x : NES W) : NES W :=
  mkNES (cpu x) (ppu x) v (mmap_loaded x) (crashed x) (fpsFrameCount x) (world x).
Definition set_mmap_loaded {W} (v : bool) (x : NES W) : NES W :=
  mkNES (cpu x) (ppu x) (gameGenie x) v (crashed x) (fpsFrameCount x) (world x).
Definition set_crashed {W} (v : bool) (x : NES W) : NES W :=
  mkNES (cpu x) (ppu x) (gameGenie x) (mmap_loaded x) v (fpsFrameCount x) (world x).
Definition set_fpsFrameCount {W} (v : Z) (x : NES W) : NES W :=
  mkNES (cpu x) (ppu x) (gameGenie x) (mmap_loaded x) (crashed x) v (world x).
Definition set_world {W} (v : W) (x : NES W) : NES W :=
  mkNES (cpu x) (ppu x) (gameGenie x) (mmap_loaded x) (crashed x) (fpsFrameCount x) v.

(** Bookkeeping that is not part of the program: the memory accesses of
    the CPU so far, and its calls of [mmap.load] and [mmap.write];
    [dots], the PPU dots advanced ([ppu.curX++], and the
    jump of [curX] on the fast path of [frame]); [dropped], the dots that
    were owed and never advanced (the VBlank step of [_ppuCatchUp], which
    counts a dot without moving [curX], and what is left of [cycles] when
    [frame] leaves its loop); [excess], the dots by which catch-up ran
    ahead of the cycle count of its instruction; the cycles returned by
    [emulate]; and the halt cycles consumed. *)
Record Ghost := mkGhost
  { trace : list BusEvent;
    mapper : list MapperCall;
    dots : Z;
    dropped : Z;
    excess : Z;
    cpuCycles : Z;
    stallCycles : Z }.

Definition set_trace (v : list BusEvent) (x : Ghost) : Ghost :=
  mkGhost v (mapper x) (dots x) (dropped x) (excess x) (cpuCycles x) (stallCycles x).
Definition set_mapper (v : list MapperCall) (x : Ghost) : Ghost :=
  mkGhost (trace x) v (dots x) (dropped x) (excess x) (cpuCycles x) (stallCycles x).
Definition set_dots (v : Z) (x : Ghost) : Ghost :=
  mkGhost (trace x) (mapper x) v (dropped x) (excess x) (cpuCycles x) (stallCycles x).
Definition set_dropped (v : Z) (x : Ghost) : Ghost :=
  mkGhost (trace x) (mapper x) (dots x) v (excess x) (cpuCycles x) (stallCycles x).
Definition set_excess (v : Z) (x : Ghost) : Ghost :=
  mkGhost (trace x) (mapper x) (dots x) (dropped x) v (cpuCycles x) (stallCycles x).
Definition set_cpuCycles (v : Z) (x : Ghost) : Ghost :=
  mkGhost (trace x) (mapper x) (dots x) (dropped x) (excess x) v (stallCycles x).
Definition set_stallCycles (v : Z) (x : Ghost) : Ghost :=
  mkGhost (trace x) (mapper x) (dots x) (dropped x) (excess x) (cpuCycles x) v.

Record St (W : Type) := mkSt { nes : NES W; ghost : Ghost }.
Arguments mkSt {W}.
Arguments nes {W}.
Arguments ghost {W}.

Definition set_nes {W} (v : NES W) (s : St W) : St W := mkSt v (ghost s).
Definition set_ghost {W} (v : Ghost) (s : St W) : St W := mkSt (nes s) v.

(** The fields of the DMC channel read by [_cyclesToNextDmcFetch]. *)
Record DmcView := mkDmcView
  { isEnabled : bool; hasSample : bool; dmaFrequency : Z;
    shiftCounter : Z; dmaCounter : Z }.

(** The part of the console that no code outside the [CPU] and [NES]
    objects assigns: everything but [cpu.mem], [cpu.cyclesToHalt] (through
    [haltCycles]), [cpu.irqRequested] and [cpu.irqType] (through
    [requestIrq]), the PPU fields and [world]. *)
Definition private {W} (n : NES W) : CPU * Genie * bool * bool * Z :=
  (set_mem ∅ (set_cyclesToHalt 0 (set_irqRequested false
     (set_irqType None (cpu n)))),
   gameGenie n, mmap_loaded n, crashed n, fpsFrameCount n).

(** The devices behind the CPU: the mapper ([nes.mmap], whatever its
    class), the PPU and the APU.  Their methods take the whole console,
    as the JavaScript objects do through [this.nes], and leave [private]
    as it is. *)
Class Devices (W : Type) := {
  (** [nes.mmap.load(address)] *)
  mmap_load : Z -> NES W -> Z * NES W;
  (** [nes.mmap.write(address, value)] *)
  mmap_write : Z -> Z -> NES W -> NES W;
  (** [nes.mmap.reset()] *)
  mmap_reset : NES W -> NES W;
  (** [ppu.startVBlank()] *)
  ppu_startVBlank : NES W -> NES W;
  (** [ppu.endScanline()] *)
  ppu_endScanline : NES W -> NES W;
  (** [ppu.startFrame()] *)
  ppu_startFrame : NES W -> NES W;
  (** [ppu.reset()]: [None] when the PPU object defines no [reset]
      method, as the class [PPU] of [ppu/index.js], which sets its
      fields up in the constructor; the call then throws a
      [TypeError]. *)
  ppu_reset : option (NES W -> NES W);
  (** [papu.clockFrameCounter(nCycles, frameCounterAlreadyAdvanced)];
      an argument is [None] when it is [NaN] or [undefined]. *)
  papu_clockFrameCounter : option Z -> option Z -> NES W -> NES W;
  (** [papu.reset()], [None] when the APU object defines no [reset]
      method. *)
  papu_reset : option (NES W -> NES W);
  (** [nes.papu.dmc], [None] when [nes.papu] or [papu.dmc] is missing. *)
  papu_dmc : NES W -> option DmcView;
  (** [rom.createMapper()], [mmap.loadROM()] and [ppu.setMirroring(...)]
      at the end of [loadROM]. *)
  rom_install : NES W -> NES W;
  mmap_load_private : forall a n, private (snd (mmap_load a n)) = private n;
  mmap_write_private : forall a v n, private (mmap_write a v n) = private n;
  mmap_reset_private : forall n, private (mmap_reset n) = private n;
  ppu_startVBlank_private : forall n, private (ppu_startVBlank n) = private n;
  ppu_endScanline_private : forall n, private (ppu_endScanline n) = private n;
  ppu_startFrame_private : forall n, private (ppu_startFrame n) = private n;
  ppu_reset_private :
    forall f n, ppu_reset = Some f -> private (f n) = private n;
  papu_clockFrameCounter_private :
    forall c a n, private (papu_clockFrameCounter c a n) = private n;
  papu_reset_private :
    forall f n, papu_reset = Some f -> private (f n) = private n;
  rom_install_private : forall n, private (rom_install n) = private n
}.

(** ** A state and exception monad *)

Inductive Error :=
| InvalidOpcode (opaddr : Z)
| GameCrashed
| TypeError.

Inductive Res (S A : Type) :=
| Ok (a : A) (s : S)
| Throw (e : Error) (s : S).
Arguments Ok {S A}.
Arguments Throw {S A}.

Definition M (W A : Type) : Type := St W -> Res (St W) A.

#[export] Instance M_ret {W} : MRet (M W) := fun A a s => Ok a s.

#[export] Instance M_bind {W} : MBind (M W) :=
  fun A B k m s =>
    match m s with
    | Ok a s' => k a s'
    | Throw e s' => Throw e s'
    end.

Definition throw {W A} (e : Error) : M W A := fun s => Throw e s.

(** ** Opcode table ([OpData]) *)

Inductive Instr :=
  | ADC | AND | ASL | BCC | BCS | BEQ | BIT | BMI | BNE | BPL | BRK | BVC
  | BVS | CLC | CLD | CLI | CLV | CMP | CPX | CPY | DEC | DEX | DEY | EOR
  | INC | INX | INY | JMP | JSR | LDA | LDX | LDY | LSR | NOP | ORA | PHA
  | PHP | PLA | PLP | ROL | ROR | RTI | RTS | SBC | SEC | SED | SEI | STA
  | STX | STY | TAX | TAY | TSX | TXA | TXS | TYA | ALR | ANC | ARR | AXS
  | LAX | SAX | DCP | ISC | RLA | RRA | SLO | SRE | SKB | IGN | DUMMY | SHA
  | SHS | SHY | SHX | LAE | ANE | LXA.

Inductive Mode :=
  | ADDR_ZP | ADDR_REL | ADDR_IMP | ADDR_ABS | ADDR_ACC | ADDR_IMM
  | ADDR_ZPX | ADDR_ZPY | ADDR_ABSX | ADDR_ABSY | ADDR_PREIDXIND
  | ADDR_POSTIDXIND | ADDR_INDABS.

(** The number of an instruction ([INS_ADC] is 0, ...). *)
Definition INS (i : Instr) : Z :=
  match i with
  | ADC => 0 | AND => 1 | ASL => 2 | BCC => 3 | BCS => 4 | BEQ => 5
  | BIT => 6 | BMI => 7 | BNE => 8 | BPL => 9 | BRK => 10 | BVC => 11
  | BVS => 12 | CLC => 13 | CLD => 14 | CLI => 15 | CLV => 16 | CMP => 17
  | CPX => 18 | CPY => 19 | DEC => 20 | DEX => 21 | DEY => 22 | EOR => 23
  | INC => 24 | INX => 25 | INY => 26 | JMP => 27 | JSR => 28 | LDA => 29
  | LDX => 30 | LDY => 31 | LSR => 32 | NOP => 33 | ORA => 34 | PHA => 35
  | PHP => 36 | PLA => 37 | PLP => 38 | ROL => 39 | ROR => 40 | RTI => 41
  | RTS => 42 | SBC => 43 | SEC => 44 | SED => 45 | SEI => 46 | STA => 47
  | STX => 48 | STY => 49 | TAX => 50 | TAY => 51 | TSX => 52 | TXA => 53
  | TXS => 54 | TYA => 55 | ALR => 56 | ANC => 57 | ARR => 58 | AXS => 59
  | LAX => 60 | SAX => 61 | DCP => 62 | ISC => 63 | RLA => 64 | RRA => 65
  | SLO => 66 | SRE => 67 | SKB => 68 | IGN => 69 | DUMMY => 70 | SHA => 71
  | SHS => 72 | SHY => 73 | SHX => 74 | LAE => 75 | ANE => 76 | LXA => 77
  end.

(** The number of an addressing mode ([ADDR_ZP] is 0, ...). *)
Definition ADDR (m : Mode) : Z :=
  match m with
  | ADDR_ZP => 0 | ADDR_REL => 1 | ADDR_IMP => 2 | ADDR_ABS => 3
  | ADDR_ACC => 4 | ADDR_IMM => 5 | ADDR_ZPX => 6 | ADDR_ZPY => 7
  | ADDR_ABSX => 8 | ADDR_ABSY => 9 | ADDR_PREIDXIND => 10
  | ADDR_POSTIDXIND => 11 | ADDR_INDABS => 12
  end.

Definition instructions : list Instr :=
  [ADC; AND; ASL; BCC; BCS; BEQ; BIT; BMI; BNE; BPL; BRK; BVC; BVS; CLC;
   CLD; CLI; CLV; CMP; CPX; CPY; DEC; DEX; DEY; EOR; INC; INX; INY; JMP;
   JSR; LDA; LDX; LDY; LSR; NOP; ORA; PHA; PHP; PLA; PLP; ROL; ROR; RTI;
   RTS; SBC; SEC; SED; SEI; STA; STX; STY; TAX; TAY; TSX; TXA; TXS; TYA;
   ALR; ANC; ARR; AXS; LAX; SAX; DCP; ISC; RLA; RRA; SLO; SRE; SKB; IGN;
   DUMMY; SHA; SHS; SHY; SHX; LAE; ANE; LXA].

Definition modes : list Mode :=
  [ADDR_ZP; ADDR_REL; ADDR_IMP; ADDR_ABS; ADDR_ACC; ADDR_IMM; ADDR_ZPX;
   ADDR_ZPY; ADDR_ABSX; ADDR_ABSY; ADDR_PREIDXIND; ADDR_POSTIDXIND;
   ADDR_INDABS].

(** [array[i]] on a plain array. *)
Definition array_get {A} (arr : list A) (i : Z) : option A :=
  if 0 <=? i then arr !! Z.to_nat i else None.

Definition instr_of (n : Z) : option Instr := array_get instructions n.
Definition mode_of (n : Z) : option Mode := array_get modes n.

(** [setOp] *)
Definition setOp (opdata : list Z) (e : Instr * Z * Mode * Z * Z) : list Z :=
  let '(inst, op, addr, size, cycles) := e in
  <[ Z.to_nat op :=
       Z.lor (Z.lor (Z.lor (Z.land (INS inst) 0xff)
                           (Z.shiftl (Z.land (ADDR addr) 0xff) 8))
                    (Z.shiftl (Z.land size 0xff) 16))
             (Z.shiftl (Z.land cycles 0xff) 24) ]> opdata.

(** The calls of [setOp] in the constructor of [OpData], in order. *)
Definition setOp_calls : list (Instr * Z * Mode * Z * Z) :=
  [(ADC, 0x69, ADDR_IMM, 2, 2); (ADC, 0x65, ADDR_ZP, 2, 3);
   (ADC, 0x75, ADDR_ZPX, 2, 4); (ADC, 0x6d, ADDR_ABS, 3, 4);
   (ADC, 0x7d, ADDR_ABSX, 3, 4); (ADC, 0x79, ADDR_ABSY, 3, 4);
   (ADC, 0x61, ADDR_PREIDXIND, 2, 6); (ADC, 0x71, ADDR_POSTIDXIND, 2, 5);
   (AND, 0x29, ADDR_IMM, 2, 2); (AND, 0x25, ADDR_ZP, 2, 3);
   (AND, 0x35, ADDR_ZPX, 2, 4); (AND, 0x2d, ADDR_ABS, 3, 4);
   (AND, 0x3d, ADDR_ABSX, 3, 4); (AND, 0x39, ADDR_ABSY, 3, 4);
   (AND, 0x21, ADDR_PREIDXIND, 2, 6); (AND, 0x31, ADDR_POSTIDXIND, 2, 5);
   (ASL, 0x0a, ADDR_ACC, 1, 2); (ASL, 0x06, ADDR_ZP, 2, 5);
   (ASL, 0x16, ADDR_ZPX, 2, 6); (ASL, 0x0e, ADDR_ABS, 3, 6);
   (ASL, 0x1e, ADDR_ABSX, 3, 7); (BCC, 0x90, ADDR_REL, 2, 2);
   (BCS, 0xb0, ADDR_REL, 2, 2); (BEQ, 0xf0, ADDR_REL, 2, 2);
   (BIT, 0x24, ADDR_ZP, 2, 3); (BIT, 0x2c, ADDR_ABS, 3, 4);
   (BMI, 0x30, ADDR_REL, 2, 2); (BNE, 0xd0, ADDR_REL, 2, 2);
   (BPL, 0x10, ADDR_REL, 2, 2); (BRK, 0x00, ADDR_IMP, 1, 7);
   (BVC, 0x50, ADDR_REL, 2, 2); (BVS, 0x70, ADDR_REL, 2, 2);
   (CLC, 0x18, ADDR_IMP, 1, 2); (CLD, 0xd8, ADDR_IMP, 1, 2);
   (CLI, 0x58, ADDR_IMP, 1, 2); (CLV, 0xb8, ADDR_IMP, 1, 2);
   (CMP, 0xc9, ADDR_IMM, 2, 2); (CMP, 0xc5, ADDR_ZP, 2, 3);
   (CMP, 0xd5, ADDR_ZPX, 2, 4); (CMP, 0xcd, ADDR_ABS, 3, 4);
   (CMP, 0xdd, ADDR_ABSX, 3, 4); (CMP, 0xd9, ADDR_ABSY, 3, 4);
   (CMP, 0xc1, ADDR_PREIDXIND, 2, 6); (CMP, 0xd1, ADDR_POSTIDXIND, 2, 5);
   (CPX, 0xe0, ADDR_IMM, 2, 2); (CPX, 0xe4, ADDR_ZP, 2, 3);
   (CPX, 0xec, ADDR_ABS, 3, 4); (CPY, 0xc0, ADDR_IMM, 2, 2);
   (CPY, 0xc4, ADDR_ZP, 2, 3); (CPY, 0xcc, ADDR_ABS, 3, 4);
   (DEC, 0xc6, ADDR_ZP, 2, 5); (DEC, 0xd6, ADDR_ZPX, 2, 6);
   (DEC, 0xce, ADDR_ABS, 3, 6); (DEC, 0xde, ADDR_ABSX, 3, 7);
   (DEX, 0xca, ADDR_IMP, 1, 2); (DEY, 0x88, ADDR_IMP, 1, 2);
   (EOR, 0x49, ADDR_IMM, 2, 2); (EOR, 0x45, ADDR_ZP, 2, 3);
   (EOR, 0x55, ADDR_ZPX, 2, 4); (EOR, 0x4d, ADDR_ABS, 3, 4);
   (EOR, 0x5d, ADDR_ABSX, 3, 4); (EOR, 0x59, ADDR_ABSY, 3, 4);
   (EOR, 0x41, ADDR_PREIDXIND, 2, 6); (EOR, 0x51, ADDR_POSTIDXIND, 2, 5);
   (INC, 0xe6, ADDR_ZP, 2, 5); (INC, 0xf6, ADDR_ZPX, 2, 6);
   (INC, 0xee, ADDR_ABS, 3, 6); (INC, 0xfe, ADDR_ABSX, 3, 7);
   (INX, 0xe8, ADDR_IMP, 1, 2); (INY, 0xc8, ADDR_IMP, 1, 2);
   (JMP, 0x4c, ADDR_ABS, 3, 3); (JMP, 0x6c, ADDR_INDABS, 3, 5);
   (JSR, 0x20, ADDR_ABS, 3, 6); (LDA, 0xa9, ADDR_IMM, 2, 2);
   (LDA, 0xa5, ADDR_ZP, 2, 3); (LDA, 0xb5, ADDR_ZPX, 2, 4);
   (LDA, 0xad, ADDR_ABS, 3, 4); (LDA, 0xbd, ADDR_ABSX, 3, 4);
   (LDA, 0xb9, ADDR_ABSY, 3, 4); (LDA, 0xa1, ADDR_PREIDXIND, 2, 6);
   (LDA, 0xb1, ADDR_POSTIDXIND, 2, 5); (LDX, 0xa2, ADDR_IMM, 2, 2);
   (LDX, 0xa6, ADDR_ZP, 2, 3); (LDX, 0xb6, ADDR_ZPY, 2, 4);
   (LDX, 0xae, ADDR_ABS, 3, 4); (LDX, 0xbe, ADDR_ABSY, 3, 4);
   (LDY, 0xa0, ADDR_IMM, 2, 2); (LDY, 0xa4, ADDR_ZP, 2, 3);
   (LDY, 0xb4, ADDR_ZPX, 2, 4); (LDY, 0xac, ADDR_ABS, 3, 4);
   (LDY, 0xbc, ADDR_ABSX, 3, 4); (LSR, 0x4a, ADDR_ACC, 1, 2);
   (LSR, 0x46, ADDR_ZP, 2, 5); (LSR, 0x56, ADDR_ZPX, 2, 6);
   (LSR, 0x4e, ADDR_ABS, 3, 6); (LSR, 0x5e, ADDR_ABSX, 3, 7);
   (NOP, 0x1a, ADDR_IMP, 1, 2); (NOP, 0x3a, ADDR_IMP, 1, 2);
   (NOP, 0x5a, ADDR_IMP, 1, 2); (NOP, 0x7a, ADDR_IMP, 1, 2);
   (NOP, 0xda, ADDR_IMP, 1, 2); (NOP, 0xea, ADDR_IMP, 1, 2);
   (NOP, 0xfa, ADDR_IMP, 1, 2); (ORA, 0x09, ADDR_IMM, 2, 2);
   (ORA, 0x05, ADDR_ZP, 2, 3); (ORA, 0x15, ADDR_ZPX, 2, 4);
   (ORA, 0x0d, ADDR_ABS, 3, 4); (ORA, 0x1d, ADDR_ABSX, 3, 4);
   (ORA, 0x19, ADDR_ABSY, 3, 4); (ORA, 0x01, ADDR_PREIDXIND, 2, 6);
   (ORA, 0x11, ADDR_POSTIDXIND, 2, 5); (PHA, 0x48, ADDR_IMP, 1, 3);
   (PHP, 0x08, ADDR_IMP, 1, 3); (PLA, 0x68, ADDR_IMP, 1, 4);
   (PLP, 0x28, ADDR_IMP, 1, 4); (ROL, 0x2a, ADDR_ACC, 1, 2);
   (ROL, 0x26, ADDR_ZP, 2, 5); (ROL, 0x36, ADDR_ZPX, 2, 6);
   (ROL, 0x2e, ADDR_ABS, 3, 6); (ROL, 0x3e, ADDR_ABSX, 3, 7);
   (ROR, 0x6a, ADDR_ACC, 1, 2); (ROR, 0x66, ADDR_ZP, 2, 5);
   (ROR, 0x76, ADDR_ZPX, 2, 6); (ROR, 0x6e, ADDR_ABS, 3, 6);
   (ROR, 0x7e, ADDR_ABSX, 3, 7); (RTI, 0x40, ADDR_IMP, 1, 6);
   (RTS, 0x60, ADDR_IMP, 1, 6); (SBC, 0xe9, ADDR_IMM, 2, 2);
   (SBC, 0xeb, ADDR_IMM, 2, 2); (SBC, 0xe5, ADDR_ZP, 2, 3);
   (SBC, 0xf5, ADDR_ZPX, 2, 4); (SBC, 0xed, ADDR_ABS, 3, 4);
   (SBC, 0xfd, ADDR_ABSX, 3, 4); (SBC, 0xf9, ADDR_ABSY, 3, 4);
   (SBC, 0xe1, ADDR_PREIDXIND, 2, 6); (SBC, 0xf1, ADDR_POSTIDXIND, 2, 5);
   (SEC, 0x38, ADDR_IMP, 1, 2); (SED, 0xf8, ADDR_IMP, 1, 2);
   (SEI, 0x78, ADDR_IMP, 1, 2); (STA, 0x85, ADDR_ZP, 2, 3);
   (STA, 0x95, ADDR_ZPX, 2, 4); (STA, 0x8d, ADDR_ABS, 3, 4);
   (STA, 0x9d, ADDR_ABSX, 3, 5); (STA, 0x99, ADDR_ABSY, 3, 5);
   (STA, 0x81, ADDR_PREIDXIND, 2, 6); (STA, 0x91, ADDR_POSTIDXIND, 2, 6);
   (STX, 0x86, ADDR_ZP, 2, 3); (STX, 0x96, ADDR_ZPY, 2, 4);
   (STX, 0x8e, ADDR_ABS, 3, 4); (STY, 0x84, ADDR_ZP, 2, 3);
   (STY, 0x94, ADDR_ZPX, 2, 4); (STY, 0x8c, ADDR_ABS, 3, 4);
   (TAX, 0xaa, ADDR_IMP, 1, 2); (TAY, 0xa8, ADDR_IMP, 1, 2);
   (TSX, 0xba, ADDR_IMP, 1, 2); (TXA, 0x8a, ADDR_IMP, 1, 2);
   (TXS, 0x9a, ADDR_IMP, 1, 2); (TYA, 0x98, ADDR_IMP, 1, 2);
   (ALR, 0x4b, ADDR_IMM, 2, 2); (ANC, 0x0b, ADDR_IMM, 2, 2);
   (ANC, 0x2b, ADDR_IMM, 2, 2); (ARR, 0x6b, ADDR_IMM, 2, 2);
   (AXS, 0xcb, ADDR_IMM, 2, 2); (LAX, 0xa3, ADDR_PREIDXIND, 2, 6);
   (LAX, 0xa7, ADDR_ZP, 2, 3); (LAX, 0xaf, ADDR_ABS, 3, 4);
   (LAX, 0xb3, ADDR_POSTIDXIND, 2, 5); (LAX, 0xb7, ADDR_ZPY, 2, 4);
   (LAX, 0xbf, ADDR_ABSY, 3, 4); (SAX, 0x83, ADDR_PREIDXIND, 2, 6);
   (SAX, 0x87, ADDR_ZP, 2, 3); (SAX, 0x8f, ADDR_ABS, 3, 4);
   (SAX, 0x97, ADDR_ZPY, 2, 4); (DCP, 0xc3, ADDR_PREIDXIND, 2, 8);
   (DCP, 0xc7, ADDR_ZP, 2, 5); (DCP, 0xcf, ADDR_ABS, 3, 6);
   (DCP, 0xd3, ADDR_POSTIDXIND, 2, 8); (DCP, 0xd7, ADDR_ZPX, 2, 6);
   (DCP, 0xdb, ADDR_ABSY, 3, 7); (DCP, 0xdf, ADDR_ABSX, 3, 7);
   (ISC, 0xe3, ADDR_PREIDXIND, 2, 8); (ISC, 0xe7, ADDR_ZP, 2, 5);
   (ISC, 0xef, ADDR_ABS, 3, 6); (ISC, 0xf3, ADDR_POSTIDXIND, 2, 8);
   (ISC, 0xf7, ADDR_ZPX, 2, 6); (ISC, 0xfb, ADDR_ABSY, 3, 7);
   (ISC, 0xff, ADDR_ABSX, 3, 7); (RLA, 0x23, ADDR_PREIDXIND, 2, 8);
   (RLA, 0x27, ADDR_ZP, 2, 5); (RLA, 0x2f, ADDR_ABS, 3, 6);
   (RLA, 0x33, ADDR_POSTIDXIND, 2, 8); (RLA, 0x37, ADDR_ZPX, 2, 6);
   (RLA, 0x3b, ADDR_ABSY, 3, 7); (RLA, 0x3f, ADDR_ABSX, 3, 7);
   (RRA, 0x63, ADDR_PREIDXIND, 2, 8); (RRA, 0x67, ADDR_ZP, 2, 5);
   (RRA, 0x6f, ADDR_ABS, 3, 6); (RRA, 0x73, ADDR_POSTIDXIND, 2, 8);
   (RRA, 0x77, ADDR_ZPX, 2, 6); (RRA, 0x7b, ADDR_ABSY, 3, 7);
   (RRA, 0x7f, ADDR_ABSX, 3, 7); (SLO, 0x03, ADDR_PREIDXIND, 2, 8);
   (SLO, 0x07, ADDR_ZP, 2, 5); (SLO, 0x0f, ADDR_ABS, 3, 6);
   (SLO, 0x13, ADDR_POSTIDXIND, 2, 8); (SLO, 0x17, ADDR_ZPX, 2, 6);
   (SLO, 0x1b, ADDR_ABSY, 3, 7); (SLO, 0x1f, ADDR_ABSX, 3, 7);
   (SRE, 0x43, ADDR_PREIDXIND, 2, 8); (SRE, 0x47, ADDR_ZP, 2, 5);
   (SRE, 0x4f, ADDR_ABS, 3, 6); (SRE, 0x53, ADDR_POSTIDXIND, 2, 8);
   (SRE, 0x57, ADDR_ZPX, 2, 6); (SRE, 0x5b, ADDR_ABSY, 3, 7);
   (SRE, 0x5f, ADDR_ABSX, 3, 7); (SKB, 0x80, ADDR_IMM, 2, 2);
   (SKB, 0x82, ADDR_IMM, 2, 2); (SKB, 0x89, ADDR_IMM, 2, 2);
   (SKB, 0xc2, ADDR_IMM, 2, 2); (SKB, 0xe2, ADDR_IMM, 2, 2);
   (IGN, 0x0c, ADDR_ABS, 3, 4); (IGN, 0x1c, ADDR_ABSX, 3, 4);
   (IGN, 0x3c, ADDR_ABSX, 3, 4); (IGN, 0x5c, ADDR_ABSX, 3, 4);
   (IGN, 0x7c, ADDR_ABSX, 3, 4); (IGN, 0xdc, ADDR_ABSX, 3, 4);
   (IGN, 0xfc, ADDR_ABSX, 3, 4); (IGN, 0x04, ADDR_ZP, 2, 3);
   (IGN, 0x44, ADDR_ZP, 2, 3); (IGN, 0x64, ADDR_ZP, 2, 3);
   (IGN, 0x14, ADDR_ZPX, 2, 4); (IGN, 0x34, ADDR_ZPX, 2, 4);
   (IGN, 0x54, ADDR_ZPX, 2, 4); (IGN, 0x74, ADDR_ZPX, 2, 4);
   (IGN, 0xd4, ADDR_ZPX, 2, 4); (IGN, 0xf4, ADDR_ZPX, 2, 4);
   (SHA, 0x93, ADDR_POSTIDXIND, 2, 6); (SHA, 0x9f, ADDR_ABSY, 3, 5);
   (SHS, 0x9b, ADDR_ABSY, 3, 5); (SHY, 0x9c, ADDR_ABSX, 3, 5);
   (SHX, 0x9e, ADDR_ABSY, 3, 5); (LAE, 0xbb, ADDR_ABSY, 3, 4);
   (ANE, 0x8b, ADDR_IMM, 2, 2); (LXA, 0xab, ADDR_IMM, 2, 2)].

(** [new OpData().opdata]: every entry starts as the invalid
    instruction 0xff. *)
Definition opdata : list Z :=
  Eval vm_compute in fold_left setOp setOp_calls (replicate 256 0xff).

Section Machine.
Context {W : Type} `{Devices W}.

Definition getc {A} (f : CPU -> A) : M W A := fun s => Ok (f (cpu (nes s))) s.

Definition setc (f : CPU -> CPU) : M W unit :=
  fun s => Ok tt (set_nes (set_cpu (f (cpu (nes s))) (nes s)) s).

Definition getp {A} (f : Timing -> A) : M W A := fun s => Ok (f (ppu (nes s))) s.

Definition setp (f : Timing -> Timing) : M W unit :=
  fun s => Ok tt (set_nes (set_ppu (f (ppu (nes s))) (nes s)) s).

Definition getn {A} (f : NES W -> A) : M W A := fun s => Ok (f (nes s)) s.

Definition setn (f : NES W -> NES W) : M W unit :=
  fun s => Ok tt (set_nes (f (nes s)) s).

Definition note (f : Ghost -> Ghost) : M W unit :=
  fun s => Ok tt (set_ghost (f (ghost s)) s).

Definition log (e : BusEvent) : M W unit :=
  note (fun g => set_trace (trace g ++ [e]) g).

Definition when (b : bool) (m : M W unit) : M W unit := if b then m else mret tt.

(** A method of a device that returns a value. *)
Definition calln {A} (f : NES W -> A * NES W) : M W A :=
  fun s => let '(v, n) := f (nes s) in Ok v (set_nes n s).

(** A method call on [nes.mmap] throws when no ROM is loaded. *)
Definition mmap_do_load (addr : Z) : M W Z :=
  loaded ← getn mmap_loaded;
  if (loaded : bool) then
    note (fun g => set_mapper (mapper g ++ [MapLoad addr]) g);;
    calln (mmap_load addr)
  else throw TypeError.

Definition mmap_do_write (addr value : Z) : M W unit :=
  loaded ← getn mmap_loaded;
  if (loaded : bool) then
    note (fun g => set_mapper (mapper g ++ [MapWrite addr value]) g);;
    setn (mmap_write addr value)
  else throw TypeError.

(** [cpu.mem[i]] *)
Definition mem_at (i : Z) : M W Z := getc (fun c => JS.toInt (mem c !! i)).

(** ** Game Genie substitution *)

(** [GameGenie.applyCodes] *)
Fixpoint applyCodes_loop (ps : list GameGenie.Patch) (addr value : Z) : Z :=
  match ps with
  | [] => value
  | p :: ps' =>
      if (GameGenie.addr p =? Z.land addr 0x7fff)
         && match GameGenie.key p with
            | None => true
            | Some k => k =? value
            end
      then GameGenie.value p
      else applyCodes_loop ps' addr value
  end.

Definition applyCodes (g : Genie) (addr value : Z) : Z :=
  if enabled g then applyCodes_loop (patches g) addr value else value.

(** [loadFromCartridge] *)
Definition loadFromCartridge (addr : Z) : M W Z :=
  value ← mmap_do_load addr;
  g ← getn gameGenie;
  if enabled g && (0 <? Z.of_nat (length (patches g)))
  then mret (applyCodes g addr value)
  else mret value.

(** ** PPU catch-up *)

(** [ppu.setStatusFlag(flag, value)] *)
Definition setStatusFlag (flag : Z) (value : bool) : M W unit :=
  let n := Z.shiftl 1 flag in
  setc (fun c =>
    set_mem (<[ 0x2002 :=
                Z.lor (Z.land (JS.toInt (mem c !! 0x2002)) (255 - n))
                      (if value then n else 0) ]> (mem c)) c).

Definition STATUS_SPRITE0HIT : Z := 6.

(** The test and flag update that opens the body of both dot loops. *)
Definition sprite0_check : M W unit :=
  p ← getp (fun p => p);
  when ((curX p =? spr0HitX p) && (f_spVisibility p =? 1)
        && (scanline p - 21 =? spr0HitY p))
       (setStatusFlag STATUS_SPRITE0HIT true).

(** [ppu.curX++] and the end of the scanline at dot 341. *)
Definition advance_dot : M W unit :=
  setp (fun p => set_curX (curX p + 1) p);;
  note (fun g => set_dots (dots g + 1) g);;
  x ← getp curX;
  when (x =? 341)
       (setp (set_curX 0) ;; setn ppu_endScanline).

(** [if (ppu.requestEndFrame) { ppu.nmiCounter--; ... }], shared by both
    dot loops: the countdown, and whether it has reached 0. *)
Definition nmi_countdown : M W bool :=
  ending ← getp requestEndFrame;
  if (ending : bool) then
    setp (fun p => set_nmiCounter (nmiCounter p - 1) p);;
    n ← getp nmiCounter;
    mret (n =? 0)
  else mret false.

(** The [while] loop of [_ppuCatchUp]; the fuel is the number of dots
    still owed when the loop is entered. *)
Fixpoint ppuCatchUp_loop (fuel : nat) (targetDots : Z) : M W unit :=
  match fuel with
  | O => mret tt
  | S fuel' =>
      done ← getc ppuCatchupDots;
      if done <? targetDots then
        sprite0_check;;
        fired ← nmi_countdown;
        if (fired : bool) then
          setp (set_requestEndFrame false);;
          setn ppu_startVBlank;;
          setc (set_ppuFrameEnded true);;
          setc (fun c => set_ppuCatchupDots (ppuCatchupDots c + 1) c);;
          note (fun g => set_dropped (dropped g + 1) g)
        else
          advance_dot;;
          setc (fun c => set_ppuCatchupDots (ppuCatchupDots c + 1) c);;
          ppuCatchUp_loop fuel' targetDots
      else mret tt
  end.

(** [_ppuCatchUp] *)
Definition ppuCatchUp : M W unit :=
  n ← getc instrBusCycles;
  let targetDots := n * 3 in
  done ← getc ppuCatchupDots;
  ppuCatchUp_loop (Z.to_nat (targetDots - done)) targetDots.

(** ** Bus cycles *)

Definition in_ppu_range (addr : Z) : bool := (0x2000 <=? addr) && (addr <? 0x4000).

Definition bump : M W unit :=
  setc (fun c => set_instrBusCycles (instrBusCycles c + 1) c).

(** [load] *)
Definition load (addr : Z) : M W Z :=
  when (in_ppu_range addr) ppuCatchUp;;
  v ← (if addr <? 0x2000 then mem_at (Z.land addr 0x7ff)
        else loadFromCartridge addr);
  setc (set_dataBus v);;
  log (BusRead addr v);;
  bump;;
  mret v.

(** [load16bit] *)
Definition load16bit (addr : Z) : M W Z :=
  if addr <? 0x1fff then
    lo ← mem_at (Z.land addr 0x7ff);
    setc (set_dataBus lo);;
    log (BusRead addr lo);;
    hi ← mem_at (Z.land (addr + 1) 0x7ff);
    setc (set_dataBus hi);;
    log (BusRead (addr + 1) hi);;
    setc (fun c => set_instrBusCycles (instrBusCycles c + 2) c);;
    mret (Z.lor lo (Z.shiftl hi 8))
  else
    lo ← loadFromCartridge addr;
    setc (set_dataBus lo);;
    log (BusRead addr lo);;
    hi ← loadFromCartridge (addr + 1);
    setc (set_dataBus hi);;
    log (BusRead (addr + 1) hi);;
    setc (fun c => set_instrBusCycles (instrBusCycles c + 2) c);;
    mret (Z.lor lo (Z.shiftl hi 8)).

(** [write] *)
Definition write (addr val : Z) : M W unit :=
  setc (set_dataBus val);;
  when (in_ppu_range addr) ppuCatchUp;;
  (if addr <? 0x2000
   then setc (fun c => set_mem (<[ Z.land addr 0x7ff := val ]> (mem c)) c)
   else mmap_do_write addr val);;
  log (BusWrite addr val);;
  bump.

(** [push] *)
Definition push (value : Z) : M W unit :=
  setc (set_dataBus value);;
  sp ← getc REG_SP;
  mmap_do_write (Z.lor sp 0x100) value;;
  log (BusWrite (Z.lor sp 0x100) value);;
  setc (fun c => set_REG_SP (Z.land (REG_SP c - 1) 0xff) c);;
  bump.

(** [pull] *)
Definition pull : M W Z :=
  setc (fun c => set_REG_SP (Z.land (REG_SP c + 1) 0xff) c);;
  sp ← getc REG_SP;
  v ← mmap_do_load (Z.lor 0x100 sp);
  setc (set_dataBus v);;
  log (BusRead (Z.lor 0x100 sp) v);;
  bump;;
  mret v.

(** [haltCycles] *)
Definition haltCycles (cycles : Z) (c : CPU) : CPU :=
  set_cyclesToHalt (cyclesToHalt c + cycles) c.

(** [requestIrq] *)
Definition requestIrq (type : Z) (c : CPU) : CPU :=
  if irqRequested c && (type =? 0) then c
  else set_irqType (Some type) (set_irqRequested true c).

(** [_cyclesToNextDmcFetch] *)
Definition cyclesToNextDmcFetch (n : NES W) : Z :=
  match papu_dmc n with
  | None => 0x7fffffff
  | Some dmc =>
      if negb (isEnabled dmc) || (dmaFrequency dmc <=? 0) then 0x7fffffff
      else if negb (hasSample dmc) then 0x7fffffff
      else
        let cyclesPerClock := Z.shiftr (dmaFrequency dmc) 3 in
        let cyclesToFirstClock := Z.shiftr (shiftCounter dmc + 7) 3 in
        let cyclesToFirstClock :=
          if cyclesToFirstClock <=? 0 then cyclesPerClock
          else cyclesToFirstClock in
        cyclesToFirstClock + (dmaCounter dmc - 1) * cyclesPerClock
  end.


(** ** Interrupts *)

(** [getStatus]; [emulate], BRK and PHP spell out the same expression. *)
Definition getStatus (c : CPU) : Z :=
  F_CARRY c
  .| ((if F_ZERO c =? 0 then 1 else 0) << 1)
  .| (F_INTERRUPT c << 2)
  .| (F_DECIMAL c << 3)
  .| (F_BRK c << 4)
  .| (F_NOTUSED c << 5)
  .| (F_OVERFLOW c << 6)
  .| (F_SIGN c << 7).

(** The two reads of an interrupt vector and the assignment of
    [REG_PC_NEW] that end the three interrupt handlers. *)
Definition vector_fetch (vector : Z) : M W unit :=
  lo ← loadFromCartridge vector;
  setc (set_dataBus lo);;
  log (BusRead vector lo);;
  hi ← loadFromCartridge (vector + 1);
  setc (set_dataBus hi);;
  log (BusRead (vector + 1) hi);;
  setc (set_REG_PC_NEW (lo .| (hi << 8)));;
  setc (fun c => set_REG_PC_NEW (REG_PC_NEW c - 1) c).

(** The three pushes that open [doNonMaskableInterrupt] and [doIrq]. *)
Definition push_return (status : Z) : M W unit :=
  setc (fun c => set_REG_PC_NEW (REG_PC_NEW c + 1) c);;
  pc ← getc REG_PC_NEW;
  push ((pc >> 8) .& 0xff);;
  push (pc .& 0xff);;
  push status.

(** [doNonMaskableInterrupt] *)
Definition doNonMaskableInterrupt (status : Z) : M W unit :=
  loaded ← getn mmap_loaded;
  when loaded (push_return status;; vector_fetch 0xfffa).

(** [doResetInterrupt] *)
Definition doResetInterrupt : M W unit := vector_fetch 0xfffc.

(** [doIrq] *)
Definition doIrq (status : Z) : M W unit :=
  push_return status;;
  setc (set_F_INTERRUPT_NEW 1);;
  setc (set_F_BRK_NEW 0);;
  vector_fetch 0xfffe.

(** The interrupt check that opens [emulate]. *)
Definition check_interrupts : M W unit :=
  requested ← getc irqRequested;
  when requested
    (temp ← getc getStatus;
     setc (fun c => set_REG_PC_NEW (REG_PC c) c);;
     setc (fun c => set_F_INTERRUPT_NEW (F_INTERRUPT c) c);;
     type ← getc irqType;
     match type with
     | Some 0 =>
         masked ← getc F_INTERRUPT;
         if negb (masked =? 0) then mret tt else doIrq (temp .& 0xef)
     | Some 1 => doNonMaskableInterrupt (temp .& 0xef)
     | Some 2 => doResetInterrupt
     | _ => mret tt
     end;;
     setc (fun c => set_REG_PC (REG_PC_NEW c) c);;
     setc (fun c => set_F_INTERRUPT (F_INTERRUPT_NEW c) c);;
     setc (fun c => set_F_BRK (F_BRK_NEW c) c);;
     setc (set_irqRequested false)).

(** ** Instruction fetch and addressing *)

(** The reset of the PPU catch-up counters. *)
Definition reset_counters : M W unit :=
  setc (set_instrBusCycles 0);;
  setc (set_ppuCatchupDots 0);;
  setc (set_ppuFrameEnded false).

(** [emulate] from the reset of the catch-up counters to the opcode
    fetch. *)
Definition fetch : M W Z :=
  reset_counters;;
  d ← getn cyclesToNextDmcFetch;
  setc (set__dmcFetchCycles d);;
  pc ← getc REG_PC;
  opcode ← loadFromCartridge (pc + 1);
  setc (set_dataBus opcode);;
  log (BusRead (pc + 1) opcode);;
  setc (set_instrBusCycles 1);;
  mret opcode.

(** The index addition of the modes 8, 9 and 11, with the read at the
    uncorrected address when a page boundary is crossed.  The result is
    [addr], [cycleAdd] and [baseHigh]. *)
Definition indexed (base index : Z) : M W (Z * Z * Z) :=
  let baseHigh := (base >> 8) .& 0xff in
  if negb ((base .& 0xff00) =? ((base + index) .& 0xff00)) then
    load ((base .& 0xff00) .| ((base + index) .& 0xff));;
    mret (base + index, 1, baseHigh)
  else mret (base + index, 0, baseHigh).

(** [switch (addrMode)]: the result is [addr], [cycleAdd] and
    [baseHigh]. *)
Definition addressing (addrMode opaddr : Z) : M W (Z * Z * Z) :=
  match mode_of addrMode with
  | Some ADDR_ZP =>
      addr ← load (opaddr + 2);
      mret (addr, 0, 0)
  | Some ADDR_REL =>
      addr ← load (opaddr + 2);
      pc ← getc REG_PC;
      if addr <? 0x80 then mret (addr + pc, 0, 0)
      else mret (addr + (pc - 256), 0, 0)
  | Some ADDR_IMP => mret (0, 0, 0)
  | Some ADDR_ABS =>
      addr ← load16bit (opaddr + 2);
      mret (addr, 0, 0)
  | Some ADDR_ACC =>
      a ← getc REG_ACC;
      mret (a, 0, 0)
  | Some ADDR_IMM =>
      pc ← getc REG_PC;
      mret (pc, 0, 0)
  | Some ADDR_ZPX =>
      zpBase6 ← load (opaddr + 2);
      load zpBase6;;
      x ← getc REG_X;
      mret ((zpBase6 + x) .& 0xff, 0, 0)
  | Some ADDR_ZPY =>
      zpBase7 ← load (opaddr + 2);
      load zpBase7;;
      y ← getc REG_Y;
      mret ((zpBase7 + y) .& 0xff, 0, 0)
  | Some ADDR_ABSX =>
      addr ← load16bit (opaddr + 2);
      x ← getc REG_X;
      indexed addr x
  | Some ADDR_ABSY =>
      addr ← load16bit (opaddr + 2);
      y ← getc REG_Y;
      indexed addr y
  | Some ADDR_PREIDXIND =>
      zpPtr10 ← load (opaddr + 2);
      load zpPtr10;;
      x ← getc REG_X;
      let zpAddr10 := (zpPtr10 + x) .& 0xff in
      lo ← load zpAddr10;
      hi ← load ((zpAddr10 + 1) .& 0xff);
      mret (lo .| (hi << 8), 0, 0)
  | Some ADDR_POSTIDXIND =>
      zpAddr ← load (opaddr + 2);
      lo ← load zpAddr;
      hi ← load ((zpAddr + 1) .& 0xff);
      y ← getc REG_Y;
      indexed (lo .| (hi << 8)) y
  | Some ADDR_INDABS =>
      addr ← load16bit (opaddr + 2);
      let next := (addr .& 0xff00) .| (((addr .& 0xff) + 1) .& 0xff) in
      if addr <? 0x1fff then
        lo ← mem_at addr;
        log (BusRead addr lo);;
        hi ← mem_at next;
        log (BusRead next hi);;
        mret (lo + (hi << 8), 0, 0)
      else
        lo ← loadFromCartridge addr;
        log (BusRead addr lo);;
        hi ← loadFromCartridge next;
        log (BusRead next hi);;
        mret (lo + (hi << 8), 0, 0)
  | None => mret (0, 0, 0)
  end.

(** ** Instructions *)

(** A taken branch. *)
Definition branch (opaddr addr cycleCount : Z) : M W (option Z) :=
  setc (set_REG_PC addr);;
  mret (Some (cycleCount
              + (if negb ((opaddr .& 0xff00) =? (addr .& 0xff00))
                 then 2 else 1))).

(** The read that opens the read-modify-write instructions and STA:
    [if (cycleAdd === 0 && (addrMode === 8 || addrMode === 9 ||
    addrMode === 11)) this.load(addr)]. *)
Definition indexed_dummy_read (addrMode cycleAdd addr : Z) : M W unit :=
  when ((cycleAdd =? 0)
        && ((addrMode =? 8) || (addrMode =? 9) || (addrMode =? 11)))
       (load addr;; mret tt).

(** [_dmcFetchCycles > 0 && _dmcFetchCycles <= instrBusCycles] *)
Definition dmaDuringInstr : M W bool :=
  d ← getc _dmcFetchCycles;
  n ← getc instrBusCycles;
  mret ((0 <? d) && (d <=? n)).

(** The end of SHA, SHS, SHY and SHX: the address glitch on a page
    crossing, and the store. *)
Definition glitch_store (cycleAdd addr val : Z) : M W unit :=
  write (if cycleAdd =? 1 then (val << 8) .| (addr .& 0xff) else addr) val.

Definition sign (v : Z) : Z := (v >> 7) .& 1.

(** [switch (opinf & 0xff)].  The result is the cycle count, or [None]
    where the case leaves [emulate] by a bare [return]. *)
Definition exec (i : Instr)
    (addrMode opaddr addr cycleAdd baseHigh cycleCount : Z)
    : M W (option Z) :=
  match i with
  | ADC =>
      a ← getc REG_ACC;
      v ← load addr;
      carry ← getc F_CARRY;
      let temp := a + v + carry in
      a1 ← getc REG_ACC;
      v1 ← load addr;
      a2 ← getc REG_ACC;
      setc (set_F_OVERFLOW
              (if (((a1 .^ v1) .& 0x80) =? 0)
                  && negb (((a2 .^ temp) .& 0x80) =? 0)
               then 1 else 0));;
      setc (set_F_CARRY (if 255 <? temp then 1 else 0));;
      setc (set_F_SIGN (sign temp));;
      setc (set_F_ZERO (temp .& 0xff));;
      setc (set_REG_ACC (temp .& 255));;
      mret (Some (cycleCount + cycleAdd))
  | AND =>
      a ← getc REG_ACC;
      v ← load addr;
      setc (set_REG_ACC (a .& v));;
      setc (fun c => set_F_SIGN (sign (REG_ACC c)) c);;
      setc (fun c => set_F_ZERO (REG_ACC c) c);;
      mret (Some (cycleCount + cycleAdd))
  | ASL =>
      if addrMode =? 4 then
        setc (fun c => set_F_CARRY (sign (REG_ACC c)) c);;
        setc (fun c => set_REG_ACC ((REG_ACC c << 1) .& 255) c);;
        setc (fun c => set_F_SIGN (sign (REG_ACC c)) c);;
        setc (fun c => set_F_ZERO (REG_ACC c) c);;
        mret (Some cycleCount)
      else
        indexed_dummy_read addrMode cycleAdd addr;;
        temp ← load addr;
        write addr temp;;
        setc (set_F_CARRY (sign temp));;
        let temp := (temp << 1) .& 255 in
        setc (set_F_SIGN (sign temp));;
        setc (set_F_ZERO temp);;
        write addr temp;;
        mret (Some cycleCount)
  | BCC =>
      f ← getc F_CARRY;
      if f =? 0 then branch opaddr addr cycleCount
      else mret (Some cycleCount)
  | BCS =>
      f ← getc F_CARRY;
      if f =? 1 then branch opaddr addr cycleCount
      else mret (Some cycleCount)
  | BEQ =>
      f ← getc F_ZERO;
      if f =? 0 then branch opaddr addr cycleCount
      else mret (Some cycleCount)
  | BIT =>
      temp ← load addr;
      setc (set_F_SIGN (sign temp));;
      setc (set_F_OVERFLOW ((temp >> 6) .& 1));;
      setc (fun c => set_F_ZERO (temp .& REG_ACC c) c);;
      mret (Some cycleCount)
  | BMI =>
      f ← getc F_SIGN;
      if f =? 1 then branch opaddr addr cycleCount
      else mret (Some cycleCount)
  | BNE =>
      f ← getc F_ZERO;
      if negb (f =? 0) then branch opaddr addr cycleCount
      else mret (Some cycleCount)
  | BPL =>
      f ← getc F_SIGN;
      if f =? 0 then branch opaddr addr cycleCount
      else mret (Some cycleCount)
  | BRK =>
      setc (fun c => set_REG_PC (REG_PC c + 2) c);;
      pc ← getc REG_PC;
      push ((pc >> 8) .& 255);;
      push (pc .& 255);;
      setc (set_F_BRK 1);;
      status ← getc getStatus;
      push status;;
      setc (set_F_INTERRUPT 1);;
      target ← load16bit 0xfffe;
      setc (set_REG_PC target);;
      setc (fun c => set_REG_PC (REG_PC c - 1) c);;
      mret (Some cycleCount)
  | BVC =>
      f ← getc F_OVERFLOW;
      if f =? 0 then branch opaddr addr cycleCount
      else mret (Some cycleCount)
  | BVS =>
      f ← getc F_OVERFLOW;
      if f =? 1 then branch opaddr addr cycleCount
      else mret (Some cycleCount)
  | CLC => setc (set_F_CARRY 0);; mret (Some cycleCount)
  | CLD => setc (set_F_DECIMAL 0);; mret (Some cycleCount)
  | CLI => setc (set_F_INTERRUPT 0);; mret (Some cycleCount)
  | CLV => setc (set_F_OVERFLOW 0);; mret (Some cycleCount)
  | CMP =>
      a ← getc REG_ACC;
      v ← load addr;
      let temp := a - v in
      setc (set_F_CARRY (if 0 <=? temp then 1 else 0));;
      setc (set_F_SIGN (sign temp));;
      setc (set_F_ZERO (temp .& 0xff));;
      mret (Some (cycleCount + cycleAdd))
  | CPX =>
      x ← getc REG_X;
      v ← load addr;
      let temp := x - v in
      setc (set_F_CARRY (if 0 <=? temp then 1 else 0));;
      setc (set_F_SIGN (sign temp));;
      setc (set_F_ZERO (temp .& 0xff));;
      mret (Some cycleCount)
  | CPY =>
      y ← getc REG_Y;
      v ← load addr;
      let temp := y - v in
      setc (set_F_CARRY (if 0 <=? temp then 1 else 0));;
      setc (set_F_SIGN (sign temp));;
      setc (set_F_ZERO (temp .& 0xff));;
      mret (Some cycleCount)
  | DEC =>
      indexed_dummy_read addrMode cycleAdd addr;;
      temp ← load addr;
      write addr temp;;
      let temp := (temp - 1) .& 0xff in
      setc (set_F_SIGN (sign temp));;
      setc (set_F_ZERO temp);;
      write addr temp;;
      mret (Some cycleCount)
  | DEX =>
      setc (fun c => set_REG_X ((REG_X c - 1) .& 0xff) c);;
      setc (fun c => set_F_SIGN (sign (REG_X c)) c);;
      setc (fun c => set_F_ZERO (REG_X c) c);;
      mret (Some cycleCount)
  | DEY =>
      setc (fun c => set_REG_Y ((REG_Y c - 1) .& 0xff) c);;
      setc (fun c => set_F_SIGN (sign (REG_Y c)) c);;
      setc (fun c => set_F_ZERO (REG_Y c) c);;
      mret (Some cycleCount)
  | EOR =>
      v ← load addr;
      setc (fun c => set_REG_ACC ((v .^ REG_ACC c) .& 0xff) c);;
      setc (fun c => set_F_SIGN (sign (REG_ACC c)) c);;
      setc (fun c => set_F_ZERO (REG_ACC c) c);;
      mret (Some (cycleCount + cycleAdd))
  | INC =>
      indexed_dummy_read addrMode cycleAdd addr;;
      temp ← load addr;
      write addr temp;;
      let temp := (temp + 1) .& 0xff in
      setc (set_F_SIGN (sign temp));;
      setc (set_F_ZERO temp);;
      write addr temp;;
      mret (Some cycleCount)
  | INX =>
      setc (fun c => set_REG_X ((REG_X c + 1) .& 0xff) c);;
      setc (fun c => set_F_SIGN (sign (REG_X c)) c);;
      setc (fun c => set_F_ZERO (REG_X c) c);;
      mret (Some cycleCount)
  | INY =>
      setc (fun c => set_REG_Y (REG_Y c + 1) c);;
      setc (fun c => set_REG_Y (REG_Y c .& 0xff) c);;
      setc (fun c => set_F_SIGN (sign (REG_Y c)) c);;
      setc (fun c => set_F_ZERO (REG_Y c) c);;
      mret (Some cycleCount)
  | JMP =>
      setc (set_REG_PC (addr - 1));;
      mret (Some cycleCount)
  | JSR =>
      pc ← getc REG_PC;
      push ((pc >> 8) .& 255);;
      push (pc .& 255);;
      v ← load (opaddr + 3);
      setc (set_dataBus v);;
      setc (set_REG_PC (addr - 1));;
      mret (Some cycleCount)
  | LDA =>
      v ← load addr;
      setc (set_REG_ACC v);;
      setc (fun c => set_F_SIGN (sign (REG_ACC c)) c);;
      setc (fun c => set_F_ZERO (REG_ACC c) c);;
      mret (Some (cycleCount + cycleAdd))
  | LDX =>
      v ← load addr;
      setc (set_REG_X v);;
      setc (fun c => set_F_SIGN (sign (REG_X c)) c);;
      setc (fun c => set_F_ZERO (REG_X c) c);;
      mret (Some (cycleCount + cycleAdd))
  | LDY =>
      v ← load addr;
      setc (set_REG_Y v);;
      setc (fun c => set_F_SIGN (sign (REG_Y c)) c);;
      setc (fun c => set_F_ZERO (REG_Y c) c);;
      mret (Some (cycleCount + cycleAdd))
  | LSR =>
      temp ←
        (if addrMode =? 4 then
           a ← getc REG_ACC;
           let temp := a .& 0xff in
           setc (set_F_CARRY (temp .& 1));;
           let temp := temp >> 1 in
           setc (set_REG_ACC temp);;
           mret temp
         else
           indexed_dummy_read addrMode cycleAdd addr;;
           v ← load addr;
           let temp := v .& 0xff in
           write addr temp;;
           setc (set_F_CARRY (temp .& 1));;
           let temp := temp >> 1 in
           write addr temp;;
           mret temp);
      setc (set_F_SIGN 0);;
      setc (set_F_ZERO temp);;
      mret (Some cycleCount)
  | NOP => mret (Some cycleCount)
  | ORA =>
      v ← load addr;
      a ← getc REG_ACC;
      let temp := (v .| a) .& 255 in
      setc (set_F_SIGN (sign temp));;
      setc (set_F_ZERO temp);;
      setc (set_REG_ACC temp);;
      mret (Some (cycleCount + cycleAdd))
  | PHA =>
      a ← getc REG_ACC;
      push a;;
      mret (Some cycleCount)
  | PHP =>
      setc (set_F_BRK 1);;
      status ← getc getStatus;
      push status;;
      mret (Some cycleCount)
  | PLA =>
      v ← pull;
      setc (set_REG_ACC v);;
      setc (fun c => set_F_SIGN (sign (REG_ACC c)) c);;
      setc (fun c => set_F_ZERO (REG_ACC c) c);;
      mret (Some cycleCount)
  | PLP =>
      temp ← pull;
      setc (set_F_CARRY (temp .& 1));;
      setc (set_F_ZERO (if ((temp >> 1) .& 1) =? 1 then 0 else 1));;
      setc (set_F_INTERRUPT ((temp >> 2) .& 1));;
      setc (set_F_DECIMAL ((temp >> 3) .& 1));;
      setc (set_F_OVERFLOW ((temp >> 6) .& 1));;
      setc (set_F_SIGN (sign temp));;
      mret (Some cycleCount)
  | ROL =>
      temp ←
        (if addrMode =? 4 then
           temp ← getc REG_ACC;
           add ← getc F_CARRY;
           setc (set_F_CARRY (sign temp));;
           let temp := ((temp << 1) .& 0xff) + add in
           setc (set_REG_ACC temp);;
           mret temp
         else
           indexed_dummy_read addrMode cycleAdd addr;;
           temp ← load addr;
           write addr temp;;
           add ← getc F_CARRY;
           setc (set_F_CARRY (sign temp));;
           let temp := ((temp << 1) .& 0xff) + add in
           write addr temp;;
           mret temp);
      setc (set_F_SIGN (sign temp));;
      setc (set_F_ZERO temp);;
      mret (Some cycleCount)
  | ROR =>
      temp ←
        (if addrMode =? 4 then
           carry ← getc F_CARRY;
           let add := carry << 7 in
           setc (fun c => set_F_CARRY (REG_ACC c .& 1) c);;
           a ← getc REG_ACC;
           let temp := (a >> 1) + add in
           setc (set_REG_ACC temp);;
           mret temp
         else
           indexed_dummy_read addrMode cycleAdd addr;;
           temp ← load addr;
           write addr temp;;
           carry ← getc F_CARRY;
           let add := carry << 7 in
           setc (set_F_CARRY (temp .& 1));;
           let temp := (temp >> 1) + add in
           write addr temp;;
           mret temp);
      setc (set_F_SIGN (sign temp));;
      setc (set_F_ZERO temp);;
      mret (Some cycleCount)
  | RTI =>
      temp ← pull;
      setc (set_F_CARRY (temp .& 1));;
      setc (set_F_ZERO (if ((temp >> 1) .& 1) =? 0 then 1 else 0));;
      setc (set_F_INTERRUPT ((temp >> 2) .& 1));;
      setc (set_F_DECIMAL ((temp >> 3) .& 1));;
      setc (set_F_OVERFLOW ((temp >> 6) .& 1));;
      setc (set_F_SIGN (sign temp));;
      lo ← pull;
      setc (set_REG_PC lo);;
      hi ← pull;
      setc (fun c => set_REG_PC (REG_PC c + (hi << 8)) c);;
      pc ← getc REG_PC;
      if pc =? 0xffff then mret None
      else
        setc (fun c => set_REG_PC (REG_PC c - 1) c);;
        mret (Some cycleCount)
  | RTS =>
      lo ← pull;
      setc (set_REG_PC lo);;
      hi ← pull;
      setc (fun c => set_REG_PC (REG_PC c + (hi << 8)) c);;
      pc ← getc REG_PC;
      if pc =? 0xffff then mret None
      else mret (Some cycleCount)
  | SBC =>
      a ← getc REG_ACC;
      v ← load addr;
      carry ← getc F_CARRY;
      let temp := a - v - (1 - carry) in
      setc (set_F_SIGN (sign temp));;
      setc (set_F_ZERO (temp .& 0xff));;
      a1 ← getc REG_ACC;
      overflow ←
        (if negb (((a1 .^ temp) .& 0x80) =? 0) then
           a2 ← getc REG_ACC;
           v2 ← load addr;
           mret (negb (((a2 .^ v2) .& 0x80) =? 0))
         else mret false);
      setc (set_F_OVERFLOW (if (overflow : bool) then 1 else 0));;
      setc (set_F_CARRY (if temp <? 0 then 0 else 1));;
      setc (set_REG_ACC (temp .& 0xff));;
      mret (Some (cycleCount + cycleAdd))
  | SEC => setc (set_F_CARRY 1);; mret (Some cycleCount)
  | SED => setc (set_F_DECIMAL 1);; mret (Some cycleCount)
  | SEI => setc (set_F_INTERRUPT 1);; mret (Some cycleCount)
  | STA =>
      indexed_dummy_read addrMode cycleAdd addr;;
      a ← getc REG_ACC;
      write addr a;;
      mret (Some cycleCount)
  | STX =>
      x ← getc REG_X;
      write addr x;;
      mret (Some cycleCount)
  | STY =>
      y ← getc REG_Y;
      write addr y;;
      mret (Some cycleCount)
  | TAX =>
      setc (fun c => set_REG_X (REG_ACC c) c);;
      setc (fun c => set_F_SIGN (sign (REG_ACC c)) c);;
      setc (fun c => set_F_ZERO (REG_ACC c) c);;
      mret (Some cycleCount)
  | TAY =>
      setc (fun c => set_REG_Y (REG_ACC c) c);;
      setc (fun c => set_F_SIGN (sign (REG_ACC c)) c);;
      setc (fun c => set_F_ZERO (REG_ACC c) c);;
      mret (Some cycleCount)
  | TSX =>
      setc (fun c => set_REG_X (REG_SP c .& 0xff) c);;
      setc (fun c => set_F_SIGN (sign (REG_SP c)) c);;
      setc (fun c => set_F_ZERO (REG_X c) c);;
      mret (Some cycleCount)
  | TXA =>
      setc (fun c => set_REG_ACC (REG_X c) c);;
      setc (fun c => set_F_SIGN (sign (REG_X c)) c);;
      setc (fun c => set_F_ZERO (REG_X c) c);;
      mret (Some cycleCount)
  | TXS =>
      setc (fun c => set_REG_SP (REG_X c .& 0xff) c);;
      mret (Some cycleCount)
  | TYA =>
      setc (fun c => set_REG_ACC (REG_Y c) c);;
      setc (fun c => set_F_SIGN (sign (REG_Y c)) c);;
      setc (fun c => set_F_ZERO (REG_Y c) c);;
      mret (Some cycleCount)
  | ALR =>
      a ← getc REG_ACC;
      v ← load addr;
      let temp := a .& v in
      setc (set_F_CARRY (temp .& 1));;
      setc (set_F_ZERO (temp >> 1));;
      setc (set_REG_ACC (temp >> 1));;
      setc (set_F_SIGN 0);;
      mret (Some cycleCount)
  | ANC =>
      a ← getc REG_ACC;
      v ← load addr;
      setc (set_F_ZERO (a .& v));;
      setc (set_REG_ACC (a .& v));;
      setc (fun c => set_F_SIGN (sign (REG_ACC c)) c);;
      setc (fun c => set_F_CARRY (sign (REG_ACC c)) c);;
      mret (Some cycleCount)
  | ARR =>
      a ← getc REG_ACC;
      v ← load addr;
      let temp := a .& v in
      carry ← getc F_CARRY;
      setc (set_F_ZERO ((temp >> 1) + (carry << 7)));;
      setc (set_REG_ACC ((temp >> 1) + (carry << 7)));;
      setc (fun c => set_F_SIGN (F_CARRY c) c);;
      setc (set_F_CARRY (sign temp));;
      setc (set_F_OVERFLOW (((temp >> 7) .^ (temp >> 6)) .& 1));;
      mret (Some cycleCount)
  | AXS =>
      x ← getc REG_X;
      a ← getc REG_ACC;
      v ← load addr;
      let temp := (x .& a) - v in
      setc (set_F_SIGN (sign temp));;
      setc (set_F_ZERO (temp .& 0xff));;
      setc (set_F_CARRY (if temp <? 0 then 0 else 1));;
      setc (set_REG_X (temp .& 0xff));;
      mret (Some cycleCount)
  | LAX =>
      v ← load addr;
      setc (set_F_ZERO v);;
      setc (set_REG_X v);;
      setc (set_REG_ACC v);;
      setc (fun c => set_F_SIGN (sign (REG_ACC c)) c);;
      mret (Some (cycleCount + cycleAdd))
  | SAX =>
      a ← getc REG_ACC;
      x ← getc REG_X;
      write addr (a .& x);;
      mret (Some cycleCount)
  | DCP =>
      indexed_dummy_read addrMode cycleAdd addr;;
      temp ← load addr;
      write addr temp;;
      let temp := (temp - 1) .& 0xff in
      write addr temp;;
      a ← getc REG_ACC;
      let temp := a - temp in
      setc (set_F_CARRY (if 0 <=? temp then 1 else 0));;
      setc (set_F_SIGN (sign temp));;
      setc (set_F_ZERO (temp .& 0xff));;
      mret (Some cycleCount)
  | ISC =>
      indexed_dummy_read addrMode cycleAdd addr;;
      temp ← load addr;
      write addr temp;;
      let temp := (temp + 1) .& 0xff in
      write addr temp;;
      let isb_val := temp in
      a ← getc REG_ACC;
      carry ← getc F_CARRY;
      let temp := a - isb_val - (1 - carry) in
      setc (set_F_SIGN (sign temp));;
      setc (set_F_ZERO (temp .& 0xff));;
      setc (fun c =>
              set_F_OVERFLOW
                (if negb (((REG_ACC c .^ temp) .& 0x80) =? 0)
                    && negb (((REG_ACC c .^ isb_val) .& 0x80) =? 0)
                 then 1 else 0) c);;
      setc (set_F_CARRY (if temp <? 0 then 0 else 1));;
      setc (set_REG_ACC (temp .& 0xff));;
      mret (Some cycleCount)
  | RLA =>
      indexed_dummy_read addrMode cycleAdd addr;;
      temp ← load addr;
      write addr temp;;
      add ← getc F_CARRY;
      setc (set_F_CARRY (sign temp));;
      let temp := ((temp << 1) .& 0xff) + add in
      write addr temp;;
      setc (fun c => set_REG_ACC (REG_ACC c .& temp) c);;
      setc (fun c => set_F_SIGN (sign (REG_ACC c)) c);;
      setc (fun c => set_F_ZERO (REG_ACC c) c);;
      mret (Some cycleCount)
  | RRA =>
      indexed_dummy_read addrMode cycleAdd addr;;
      temp ← load addr;
      write addr temp;;
      carry ← getc F_CARRY;
      let add := carry << 7 in
      setc (set_F_CARRY (temp .& 1));;
      let temp := (temp >> 1) + add in
      write addr temp;;
      let rra_val := temp in
      a ← getc REG_ACC;
      carry ← getc F_CARRY;
      let temp := a + rra_val + carry in
      setc (fun c =>
              set_F_OVERFLOW
                (if (((REG_ACC c .^ rra_val) .& 0x80) =? 0)
                    && negb (((REG_ACC c .^ temp) .& 0x80) =? 0)
                 then 1 else 0) c);;
      setc (set_F_CARRY (if 255 <? temp then 1 else 0));;
      setc (set_F_SIGN (sign temp));;
      setc (set_F_ZERO (temp .& 0xff));;
      setc (set_REG_ACC (temp .& 255));;
      mret (Some cycleCount)
  | SLO =>
      indexed_dummy_read addrMode cycleAdd addr;;
      temp ← load addr;
      write addr temp;;
      setc (set_F_CARRY (sign temp));;
      let temp := (temp << 1) .& 255 in
      write addr temp;;
      setc (fun c => set_REG_ACC (REG_ACC c .| temp) c);;
      setc (fun c => set_F_SIGN (sign (REG_ACC c)) c);;
      setc (fun c => set_F_ZERO (REG_ACC c) c);;
      mret (Some cycleCount)
  | SRE =>
      indexed_dummy_read addrMode cycleAdd addr;;
      v ← load addr;
      let temp := v .& 0xff in
      write addr temp;;
      setc (set_F_CARRY (temp .& 1));;
      let temp := temp >> 1 in
      write addr temp;;
      setc (fun c => set_REG_ACC (REG_ACC c .^ temp) c);;
      setc (fun c => set_F_SIGN (sign (REG_ACC c)) c);;
      setc (fun c => set_F_ZERO (REG_ACC c) c);;
      mret (Some cycleCount)
  | SKB => mret (Some cycleCount)
  | IGN =>
      load addr;;
      mret (Some (cycleCount + cycleAdd))
  | SHA =>
      when (cycleAdd =? 0) (load addr;; mret tt);;
      dma ← dmaDuringInstr;
      a ← getc REG_ACC;
      x ← getc REG_X;
      let shaVal :=
        if (dma : bool) then a .& x
        else (a .& x) .& (((baseHigh + 1) .& 0xff) .| 0) in
      glitch_store cycleAdd addr shaVal;;
      mret (Some cycleCount)
  | SHS =>
      when (cycleAdd =? 0) (load addr;; mret tt);;
      dma ← dmaDuringInstr;
      setc (fun c => set_REG_SP (0x0100 .| (REG_ACC c .& REG_X c)) c);;
      sp ← getc REG_SP;
      let shsVal :=
        if (dma : bool) then sp .& 0xff
        else (sp .& 0xff) .& ((baseHigh + 1) .& 0xff) in
      glitch_store cycleAdd addr shsVal;;
      mret (Some cycleCount)
  | SHY =>
      when (cycleAdd =? 0) (load addr;; mret tt);;
      dma ← dmaDuringInstr;
      y ← getc REG_Y;
      let shyVal :=
        if (dma : bool) then y else y .& ((baseHigh + 1) .& 0xff) in
      glitch_store cycleAdd addr shyVal;;
      mret (Some cycleCount)
  | SHX =>
      when (cycleAdd =? 0) (load addr;; mret tt);;
      dma ← dmaDuringInstr;
      x ← getc REG_X;
      let shxVal :=
        if (dma : bool) then x else x .& ((baseHigh + 1) .& 0xff) in
      glitch_store cycleAdd addr shxVal;;
      mret (Some cycleCount)
  | LAE =>
      v ← load addr;
      sp ← getc REG_SP;
      let temp := v .& (sp .& 0xff) in
      setc (set_F_ZERO temp);;
      setc (set_REG_X temp);;
      setc (set_REG_ACC temp);;
      setc (set_REG_SP (0x0100 .| temp));;
      setc (set_F_SIGN (sign temp));;
      mret (Some (cycleCount + cycleAdd))
  | ANE =>
      a ← getc REG_ACC;
      x ← getc REG_X;
      v ← load addr;
      setc (set_F_ZERO (((a .| 0xff) .& x) .& v));;
      setc (set_REG_ACC (((a .| 0xff) .& x) .& v));;
      setc (fun c => set_F_SIGN (sign (REG_ACC c)) c);;
      mret (Some cycleCount)
  | LXA =>
      a ← getc REG_ACC;
      v ← load addr;
      setc (set_F_ZERO ((a .| 0xff) .& v));;
      setc (set_REG_X ((a .| 0xff) .& v));;
      setc (set_REG_ACC ((a .| 0xff) .& v));;
      setc (fun c => set_F_SIGN (sign (REG_ACC c)) c);;
      mret (Some cycleCount)
  | DUMMY => throw (InvalidOpcode opaddr)
  end.

(** [emulate] from the table lookup on: decoding, addressing and the
    instruction.  An entry that [setOp] never assigned is 0xff, which no
    [case] matches, as is the number of [DUMMY]. *)
Definition execute (opcode : Z) : M W (option Z) :=
  let opinf := JS.toInt (array_get opdata opcode) in
  let cycleCount := opinf >> 24 in
  let addrMode := (opinf >> 8) .& 0xff in
  opaddr ← getc REG_PC;
  setc (fun c => set_REG_PC (REG_PC c + ((opinf >> 16) .& 0xff)) c);;
  '(addr, cycleAdd, baseHigh) ← addressing addrMode opaddr;
  let addr := addr .& 0xffff in
  match instr_of (opinf .& 0xff) with
  | Some i => exec i addrMode opaddr addr cycleAdd baseHigh cycleCount
  | None => throw (InvalidOpcode opaddr)
  end.

(** [emulate]: the cycle count, [None] for [undefined]. *)
Definition emulate : M W (option Z) :=
  check_interrupts;;
  loaded ← getn mmap_loaded;
  if (loaded : bool) then
    opcode ← fetch;
    execute opcode
  else mret (Some 32).

(** ** The frame loop ([NES.frame]) *)

(** What one pass of the frame loop has found before it advances the
    PPU: it leaves the loop, or [cycles] dots are owed ([None] when
    [cycles] is [NaN], after [emulate] returned [undefined]). *)
Inductive Owed :=
| Leave
| Dots (cycles : option Z).

(** Bookkeeping for the dots owed after an instruction or a stall:
    [done] dots were advanced by catch-up, [cycles] are still owed, and
    [leaving] tells whether the frame loop ends here. *)
Definition settle (cycles : option Z) (done : Z) (leaving : bool)
    (g : Ghost) : Ghost :=
  match cycles with
  | None => set_excess (excess g + done) g
  | Some r =>
      if r <? 0 then set_excess (excess g - r) g
      else if leaving then set_dropped (dropped g + r) g
      else g
  end.

(** The branch [cpu.cyclesToHalt === 0]. *)
Definition run_instruction : M W Owed :=
  c ← emulate;
  already ← getc apuCatchupCycles;
  setn (papu_clockFrameCounter c already);;
  setc (set_apuCatchupCycles (Some 0));;
  done ← getc ppuCatchupDots;
  let cycles := (fun c => c * 3 - done) <$> c in
  setc (set_ppuCatchupDots 0);;
  note (fun g => set_cpuCycles (cpuCycles g + default 0 c) g);;
  ended ← getc ppuFrameEnded;
  note (settle cycles done ended);;
  if (ended : bool) then
    setc (set_ppuFrameEnded false);;
    mret Leave
  else mret (Dots cycles).

(** The branch [cpu.cyclesToHalt !== 0]. *)
Definition run_stall : M W Owed :=
  halt ← getc cyclesToHalt;
  if 8 <? halt then
    setn (papu_clockFrameCounter (Some 8) None);;
    setc (fun c => set_cyclesToHalt (cyclesToHalt c - 8) c);;
    note (fun g => set_stallCycles (stallCycles g + 8) g);;
    mret (Dots (Some 24))
  else
    setn (papu_clockFrameCounter (Some halt) None);;
    setc (set_cyclesToHalt 0);;
    note (fun g => set_stallCycles (stallCycles g + halt) g);;
    note (settle (Some (halt * 3)) 0 false);;
    mret (Dots (Some (halt * 3))).

(** The [for (; cycles > 0; cycles--)] loop; the result is [true] when
    it leaves the frame loop. *)
Fixpoint dot_loop (fuel : nat) (cycles : Z) : M W bool :=
  match fuel with
  | O => mret false
  | S fuel' =>
      if 0 <? cycles then
        sprite0_check;;
        fired ← nmi_countdown;
        if (fired : bool) then
          setp (set_requestEndFrame false);;
          setn ppu_startVBlank;;
          note (fun g => set_dropped (dropped g + cycles) g);;
          mret true
        else
          advance_dot;;
          dot_loop fuel' (cycles - 1)
      else mret false
  end.

(** The PPU part of one pass: the jump of [curX] when nothing can happen
    on the way, the dot loop otherwise. *)
Definition advance_ppu (cycles : Z) : M W bool :=
  p ← getp (fun p => p);
  let finalCurX := curX p + cycles in
  if negb (requestEndFrame p) && (finalCurX <? 341)
     && ((spr0HitX p <? curX p) || (finalCurX <=? spr0HitX p))
  then
    setp (set_curX finalCurX);;
    note (fun g => set_dots (dots g + Z.max 0 cycles) g);;
    mret false
  else dot_loop (Z.to_nat cycles) cycles.

(** One pass of [FRAMELOOP]; the result is [true] when the loop ends. *)
Definition frame_pass : M W bool :=
  halt ← getc cyclesToHalt;
  owed ← (if halt =? 0 then run_instruction else run_stall);
  match owed with
  | Leave => mret true
  | Dots None => mret false
  | Dots (Some cycles) => advance_ppu cycles
  end.

(** [FRAMELOOP: for (;;)], for at most [fuel] passes; the result is
    [false] when the loop is still running after them. *)
Fixpoint frame_loop (fuel : nat) : M W bool :=
  match fuel with
  | O => mret false
  | S fuel' =>
      ended ← frame_pass;
      if (ended : bool) then mret true else frame_loop fuel'
  end.

(** [frame] past the test of [crashed]: [ppu.startFrame()], the loop
    inside [try], and the frame count. *)
Definition frame_run (fuel : nat) : M W bool :=
  fun s =>
    match (setn ppu_startFrame;; frame_loop fuel) s with
    | Ok true s' =>
        Ok true
           (set_nes (set_fpsFrameCount (fpsFrameCount (nes s') + 1)
                                       (nes s')) s')
    | Ok false s' => Ok false s'
    | Throw e s' => Throw e (set_nes (set_crashed true (nes s')) s')
    end.

(** [frame], cut off after [fuel] passes of its loop: [Ok true] when the
    call returns, [Ok false] when the loop is still running, [Throw]
    when the call throws. *)
Definition frame (fuel : nat) : M W bool :=
  fun s =>
    if crashed (nes s) then Throw GameCrashed s else frame_run fuel s.

(** ** Reset and ROM loading *)

Fixpoint fill (n : nat) (from value : Z) (m : gmap Z Z) : gmap Z Z :=
  match n with
  | O => m
  | S n' => fill n' (from + 1) value (<[ from := value ]> m)
  end.

(** [cpu.mem] after [CPU.reset]: cell 0x2000 is left unassigned. *)
Definition reset_mem : gmap Z Z :=
  let m := fill (Z.to_nat 0x2000) 0 0xff ∅ in
  let m :=
    foldl (fun m p =>
             let j := p * 0x800 in
             <[ j + 0x00f := 0xbf ]>
               (<[ j + 0x00a := 0xdf ]>
                  (<[ j + 0x009 := 0xef ]>
                     (<[ j + 0x008 := 0xf7 ]> m))))
          m [0; 1; 2; 3] in
  fill (Z.to_nat (0x10000 - 0x2001)) 0x2001 0 m.

(** [CPU.reset] *)
Definition CPU_reset (c : CPU) : CPU :=
  let c := set_mem reset_mem c in
  let c := set_REG_ACC 0 c in
  let c := set_REG_X 0 c in
  let c := set_REG_Y 0 c in
  let c := set_REG_SP 0x01ff c in
  let c := set_REG_PC (0x8000 - 1) c in
  let c := set_REG_PC_NEW (0x8000 - 1) c in
  let c := set_F_CARRY 0 c in
  let c := set_F_DECIMAL 0 c in
  let c := set_F_INTERRUPT 1 c in
  let c := set_F_INTERRUPT_NEW 1 c in
  let c := set_F_OVERFLOW 0 c in
  let c := set_F_SIGN 0 c in
  let c := set_F_ZERO 1 c in
  let c := set_F_NOTUSED 1 c in
  let c := set_F_BRK 1 c in
  let c := set_F_BRK_NEW 1 c in
  let c := set_cyclesToHalt 0 c in
  let c := set_irqRequested false c in
  let c := set_irqType None c in
  let c := set_dataBus 0 c in
  let c := set_instrBusCycles 0 c in
  let c := set_ppuCatchupDots 0 c in
  set_ppuFrameEnded false c.

(** A call of a method that the object may not define: calling
    [undefined] throws a [TypeError]. *)
Definition call_method (method : option (NES W -> NES W)) : M W unit :=
  match method with
  | Some f => setn f
  | None => throw TypeError
  end.

(** [NES.reset] *)
Definition reset : M W unit :=
  loaded ← getn mmap_loaded;
  when loaded (setn mmap_reset);;
  setc CPU_reset;;
  call_method ppu_reset;;
  call_method papu_reset;;
  setn (set_fpsFrameCount 0);;
  setn (set_crashed false).

(** [NES.loadROM], for data that [rom.load] accepts. *)
Definition loadROM : M W unit :=
  reset;;
  setn (set_mmap_loaded true);;
  setn rom_install.

(** The state in which a computation ends. *)
Definition final {A} (r : Res (St W) A) : St W :=
  match r with
  | Ok _ s => s
  | Throw _ s => s
  end.

End Machine.

(** ** A small console for closed examples *)

(** Mapper0's address decoding over [cpu.mem], with the APU frame counter
    behind $4000-$4017 and a PPU reduced to its dot and scanline counters
    with rendering and the VBlank NMI disabled.  The PPU ports
    $2000-$3FFF and the controller ports are not part of it: a read there
    gives the data bus and a write is ignored, except that $2000 and
    $2001 are still recorded in [cpu.mem] and $4014 still halts the CPU
    for 513 cycles.  Like the class [PPU], the PPU has no [reset]
    method; the APU has the one of the [PAPU] object that goes with the
    [NES] object. *)
Module Bench.

#[local] Existing Instance APU.silent.

Abbreviation W := (APU.t unit).

Definition mem_get (n : NES W) (i : Z) : Z := JS.toInt (mem (cpu n) !! i).

Definition mem_put (i v : Z) (n : NES W) : NES W :=
  set_cpu (set_mem (<[ i := v ]> (mem (cpu n))) (cpu n)) n.

(** [Mapper0.regLoad] *)
Definition regLoad (address : Z) (n : NES W) : Z * NES W :=
  if ((address >> 12) =? 4) && (address - 0x4015 =? 0) then
    let '(v, a) := APU.readReg (dataBus (cpu n)) (world n) in
    (v, set_world a n)
  else (dataBus (cpu n), n).

(** [Mapper0.load] *)
Definition load (address : Z) (n : NES W) : Z * NES W :=
  let address := address .& 0xffff in
  if 0x4017 <? address then
    if address <? 0x6000 then (dataBus (cpu n), n)
    else (mem_get n address, n)
  else if 0x2000 <=? address then regLoad address n
  else (mem_get n (address .& 0x7ff), n).

(** [Mapper0.regWrite] *)
Definition regWrite (address value : Z) (n : NES W) : NES W :=
  if (address =? 0x2000) || (address =? 0x2001) then mem_put address value n
  else if address =? 0x4014 then set_cpu (haltCycles 513 (cpu n)) n
  else if address =? 0x4016 then n
  else if (0x4000 <=? address) && (address <=? 0x4017) then
    set_world (APU.writeReg address value (world n)) n
  else n.

(** [Mapper0.write] *)
Definition write (address value : Z) (n : NES W) : NES W :=
  if address <? 0x2000 then mem_put (address .& 0x7ff) value n
  else if 0x8000 <=? address then n
  else if 0x6000 <=? address then mem_put address value n
  else if 0x4017 <? address then mem_put address value n
  else if (0x2007 <? address) && (address <? 0x4000) then
    regWrite (0x2000 + (address .& 0x7)) value n
  else regWrite address value n.

(** [PPU.setStatusFlag] *)
Definition setStatusFlag (flag : Z) (value : bool) (n : NES W) : NES W :=
  let bit := 1 << flag in
  mem_put 0x2002
    ((mem_get n 0x2002 .& (255 - bit)) .| (if value then bit else 0)) n.

(** [PPU.endScanline] with [f_bgVisibility] and [f_spVisibility] 0. *)
Definition endScanline (n : NES W) : NES W :=
  let n :=
    if scanline (ppu n) =? 20 then
      let n := setStatusFlag 7 false n in
      let n := setStatusFlag 6 false n in
      set_ppu (set_spr0HitY (-1) (set_spr0HitX (-1) (ppu n))) n
    else if scanline (ppu n) =? 261 then
      let n := setStatusFlag 7 true n in
      set_ppu (set_scanline (-1)
                 (set_nmiCounter 9 (set_requestEndFrame true (ppu n)))) n
    else n in
  set_ppu (set_scanline (scanline (ppu n) + 1) (ppu n)) n.

(** [papu.clockFrameCounter] with the interrupt request that ends it. *)
Definition clockFrameCounter (nCycles already : option Z) (n : NES W)
    : NES W :=
  match nCycles with
  | Some k =>
      let '(a, irq) := APU.clockFrameCounter k already (world n) in
      let n := set_world a n in
      if (irq : bool) then set_cpu (requestIrq 0 (cpu n)) n else n
  | None => n
  end.

Lemma mem_put_private i v n : private (mem_put i v n) = private n.
Proof. reflexivity. Qed.

Lemma regWrite_private a v n : private (regWrite a v n) = private n.
Proof. unfold regWrite. repeat case_match; reflexivity. Qed.

Lemma write_private a v n : private (write a v n) = private n.
Proof.
  unfold write.
  repeat case_match; auto using mem_put_private, regWrite_private.
Qed.

Lemma load_private a n : private (load a n).2 = private n.
Proof.
  unfold load, regLoad.
  repeat case_match; reflexivity.
Qed.

Lemma endScanline_private n : private (endScanline n) = private n.
Proof. unfold endScanline. repeat case_match; reflexivity. Qed.

Lemma clockFrameCounter_private c a n :
  private (clockFrameCounter c a n) = private n.
Proof.
  unfold clockFrameCounter, requestIrq.
  repeat case_match; reflexivity.
Qed.

(** [PAPU.reset] on the frame counter. *)
Definition apu_reset (n : NES W) : NES W :=
  set_world (APU.reset (world n)) n.

Lemma no_reset_private (f : NES W -> NES W) n :
  None = Some f -> private (f n) = private n.
Proof. discriminate. Qed.

Lemma apu_reset_private (f : NES W -> NES W) n :
  Some apu_reset = Some f -> private (f n) = private n.
Proof. intros [= <-]. reflexivity. Qed.

#[export] Instance devices : Devices W :=
  {| mmap_load := load;
     mmap_write := write;
     mmap_reset := fun n => n;
     ppu_startVBlank := fun n => n;
     ppu_endScanline := endScanline;
     ppu_startFrame := fun n => n;
     ppu_reset := None;
     papu_clockFrameCounter := clockFrameCounter;
     papu_reset := Some apu_reset;
     papu_dmc := fun _ => None;
     rom_install := fun n => n;
     mmap_load_private := load_private;
     mmap_write_private := write_private;
     mmap_reset_private := fun _ => eq_refl;
     ppu_startVBlank_private := fun _ => eq_refl;
     ppu_endScanline_private := endScanline_private;
     ppu_startFrame_private := fun _ => eq_refl;
     ppu_reset_private := no_reset_private;
     papu_clockFrameCounter_private := clockFrameCounter_private;
     papu_reset_private := apu_reset_private;
     rom_install_private := fun _ => eq_refl |}.

(** The CPU as [CPU.reset] leaves it, with the bytes [cells] in memory. *)
Definition cpu0 (cells : list (Z * Z)) : CPU :=
  mkCPU (list_to_map cells) 0 0 0 0x01ff 0x7fff 0x7fff 0 0 1 1 0 0 1 1 1 1
        0 false None 0 0 0 false 0 None.

Lemma cpu0_reset cells c :
  cpu0 cells
  = set_apuCatchupCycles None
      (set__dmcFetchCycles 0 (set_mem (list_to_map cells) (CPU_reset c))).
Proof. reflexivity. Qed.

(** A console with a ROM loaded, before the reset interrupt. *)
Definition console (cells : list (Z * Z)) : St W :=
  mkSt (mkNES (cpu0 cells) (mkTiming 0 0 0 0 0 false 0)
              (mkGenie true []) true false 0 APU.power_on)
       (mkGhost [] [] 0 0 0 0 0).

(** [JMP ($0200)] at $8000, with the pointer $1234 at $0200. *)
Definition jmp_indirect : St W :=
  console [(0x8000, 0x6c); (0x8001, 0x00); (0x8002, 0x02);
           (0x0200, 0x34); (0x0201, 0x12)].

(** [INC $10] at $8000, with $41 at $0010. *)
Definition inc_ram : St W :=
  console [(0x8000, 0xe6); (0x8001, 0x10); (0x0010, 0x41)].

(** [LDA $2002] at $8000. *)
Definition lda_status : St W :=
  console [(0x8000, 0xad); (0x8001, 0x02); (0x8002, 0x20)].

(** The unassigned opcode $02 at $8000. *)
Definition crash_rom : St W := console [(0x8000, 0x02)].

(** [NOP; JMP $8000] at $8000, six dots before the end of scanline 261. *)
Definition nop_loop : St W :=
  mkSt (mkNES (cpu0 [(0x8000, 0xea); (0x8001, 0x4c); (0x8002, 0x00);
                     (0x8003, 0x80)])
              (mkTiming 330 261 (-1) (-1) 0 false 0)
              (mkGenie true []) true false 0 APU.power_on)
       (mkGhost [] [] 0 0 0 0 0).

(** The third bus cycle of an instruction, one cycle before the first
    step of the frame counter is due. *)
Definition step_due : St W :=
  mkSt (mkNES (set_instrBusCycles 3 (cpu0 []))
              (mkTiming 0 0 0 0 0 false 0)
              (mkGenie true []) true false 0
              (APU.mk 7456 0 0 true false tt))
       (mkGhost [] [] 0 0 0 0 0).

End Bench.

(** ** Facts about the embedding *)

Section Facts.
Context {W : Type} `{Devices W}.

(** *** The monad *)

Lemma bind_ok {A B} (m : M W A) (k : A -> M W B) s a s1 :
  m s = Ok a s1 -> (m ≫= k) s = k a s1.
Proof. intros E. unfold mbind, M_bind. rewrite E. reflexivity. Qed.


Lemma bind_inv {A B} (m : M W A) (k : A -> M W B) s b s2 :
  (m ≫= k) s = Ok b s2 -> exists a s1, m s = Ok a s1 /\ k a s1 = Ok b s2.
Proof.
  unfold mbind, M_bind. destruct (m s) as [a s1|e s1]; [eauto | discriminate].
Qed.

(** *** What the devices leave alone *)

Lemma private_cpu {A} (f : CPU -> A) (n1 n2 : NES W) :
  (forall c, f (set_mem ∅ (set_cyclesToHalt 0 (set_irqRequested false
                  (set_irqType None c)))) = f c) ->
  private n1 = private n2 -> f (cpu n1) = f (cpu n2).
Proof.
  intros Hf E. unfold private in E.
  rewrite <- (Hf (cpu n1)), <- (Hf (cpu n2)). congruence.
Qed.

Lemma private_loaded (n1 n2 : NES W) :
  private n1 = private n2 -> mmap_loaded n1 = mmap_loaded n2.
Proof. unfold private. congruence. Qed.

Lemma private_crashed (n1 n2 : NES W) :
  private n1 = private n2 -> crashed n1 = crashed n2.
Proof. unfold private. congruence. Qed.

Lemma private_genie (n1 n2 : NES W) :
  private n1 = private n2 -> gameGenie n1 = gameGenie n2.
Proof. unfold private. congruence. Qed.

(** *** Invariants *)

(** [hoare I m J]: when [m] returns from a state in [I], it returns in
    a state in [J]. *)
Definition hoare (I : St W -> Prop) {A} (m : M W A) (J : St W -> Prop)
    : Prop :=
  forall s, I s ->
    match m s with
    | Ok _ s' => J s'
    | Throw _ _ => True
    end.

Definition keeps (I : St W -> Prop) {A} (m : M W A) : Prop := hoare I m I.

Lemma hoare_bind (I J K : St W -> Prop) {A B} (m : M W A)
    (k : A -> M W B) :
  hoare I m J -> (forall a, hoare J (k a) K) -> hoare I (m ≫= k) K.
Proof.
  intros Hm Hk s Hs. specialize (Hm s Hs).
  unfold mbind, M_bind. destruct (m s) as [a s1|e s1]; [|exact Logic.I].
  apply Hk, Hm.
Qed.

Lemma keeps_ret I {A} (a : A) : keeps I (mret a).
Proof. intros s Hs. exact Hs. Qed.

Lemma keeps_throw I {A} e : keeps I (throw (A:=A) e).
Proof. intros s Hs. exact Logic.I. Qed.

Lemma keeps_bind I {A B} (m : M W A) (k : A -> M W B) :
  keeps I m -> (forall a, keeps I (k a)) -> keeps I (m ≫= k).
Proof. apply hoare_bind. Qed.

Lemma keeps_when I (b : bool) m : keeps I m -> keeps I (when b m).
Proof. destruct b; [auto | intros _; apply keeps_ret]. Qed.

Lemma keeps_getc I {A} (f : CPU -> A) : keeps I (getc f).
Proof. intros s Hs. exact Hs. Qed.

Lemma keeps_getp I {A} (f : Timing -> A) : keeps I (getp f).
Proof. intros s Hs. exact Hs. Qed.

Lemma keeps_getn I {A} (f : NES W -> A) : keeps I (getn f).
Proof. intros s Hs. exact Hs. Qed.

(** What the accounting of PPU dots looks at. *)
Definition view (s : St W) : Z * bool * bool * (Z * Z * Z * Z * Z) :=
  (ppuCatchupDots (cpu (nes s)), ppuFrameEnded (cpu (nes s)),
   mmap_loaded (nes s),
   (dots (ghost s), dropped (ghost s), excess (ghost s),
    cpuCycles (ghost s), stallCycles (ghost s))).

(** An invariant that only looks at [view]. *)
Definition on_view (P : Z * bool * bool * (Z * Z * Z * Z * Z) -> Prop)
    (s : St W) : Prop := P (view s).

(** [quiet m]: [m] leaves [view] as it is. *)
Definition quiet {A} (m : M W A) : Prop :=
  forall s,
    match m s with
    | Ok _ s' => view s' = view s
    | Throw _ _ => True
    end.

Lemma quiet_keeps P {A} (m : M W A) : quiet m -> keeps (on_view P) m.
Proof.
  intros Hm s Hs. specialize (Hm s). unfold on_view in *.
  destruct (m s); [rewrite Hm; exact Hs | exact Logic.I].
Qed.

Lemma quiet_ret {A} (a : A) : quiet (mret a).
Proof. intros s. reflexivity. Qed.

Lemma quiet_throw {A} e : quiet (throw (A:=A) e).
Proof. intros s. exact Logic.I. Qed.

Lemma quiet_bind {A B} (m : M W A) (k : A -> M W B) :
  quiet m -> (forall a, quiet (k a)) -> quiet (m ≫= k).
Proof.
  intros Hm Hk s. specialize (Hm s).
  unfold mbind, M_bind. destruct (m s) as [a s1|e s1]; [|exact Logic.I].
  specialize (Hk a s1). destruct (k a s1); congruence.
Qed.

Lemma quiet_when (b : bool) m : quiet m -> quiet (when b m).
Proof. destruct b; [auto | intros _; apply quiet_ret]. Qed.

Lemma quiet_getc {A} (f : CPU -> A) : quiet (getc f).
Proof. intros s. reflexivity. Qed.

Lemma quiet_getp {A} (f : Timing -> A) : quiet (getp f).
Proof. intros s. reflexivity. Qed.

Lemma quiet_getn {A} (f : NES W -> A) : quiet (getn f).
Proof. intros s. reflexivity. Qed.

Lemma quiet_setc f :
  (forall c, ppuCatchupDots (f c) = ppuCatchupDots c
             /\ ppuFrameEnded (f c) = ppuFrameEnded c) ->
  quiet (setc f).
Proof.
  intros Hf s. unfold view. cbn.
  destruct (Hf (cpu (nes s))) as [-> ->]. reflexivity.
Qed.

Lemma quiet_setp f : quiet (setp f).
Proof. intros s. reflexivity. Qed.

Lemma quiet_log e : quiet (log e).
Proof. intros s. reflexivity. Qed.

(** A device method that leaves [private] as it is. *)
Lemma quiet_setn (f : NES W -> NES W) :
  (forall n, private (f n) = private n) -> quiet (setn f).
Proof.
  intros Hf s. unfold view. cbn.
  rewrite (private_cpu ppuCatchupDots _ _ (fun _ => eq_refl) (Hf (nes s))).
  rewrite (private_cpu ppuFrameEnded _ _ (fun _ => eq_refl) (Hf (nes s))).
  rewrite (private_loaded _ _ (Hf (nes s))). reflexivity.
Qed.

Lemma quiet_calln {A} (f : NES W -> A * NES W) :
  (forall n, private (f n).2 = private n) -> quiet (calln f).
Proof.
  intros Hf s. unfold calln. specialize (Hf (nes s)).
  destruct (f (nes s)) as [v n]. cbn in *. unfold view. cbn.
  rewrite (private_cpu ppuCatchupDots _ _ (fun _ => eq_refl) Hf).
  rewrite (private_cpu ppuFrameEnded _ _ (fun _ => eq_refl) Hf).
  rewrite (private_loaded _ _ Hf). reflexivity.
Qed.

Lemma quiet_mmap_do_load addr : quiet (mmap_do_load addr).
Proof.
  unfold mmap_do_load.
  apply quiet_bind; [apply quiet_getn | intros [|]].
  - apply quiet_bind; [intros s; reflexivity | intros _].
    apply quiet_calln, mmap_load_private.
  - apply quiet_throw.
Qed.

Lemma quiet_mmap_do_write addr value : quiet (mmap_do_write addr value).
Proof.
  unfold mmap_do_write.
  apply quiet_bind; [apply quiet_getn | intros [|]].
  - apply quiet_bind; [intros s; reflexivity | intros _].
    apply quiet_setn, mmap_write_private.
  - apply quiet_throw.
Qed.

End Facts.

(** *** Code that leaves the dot accounting alone *)

Create HintDb quiet discriminated.

Ltac quiet_step :=
  lazymatch goal with
  | |- quiet (mret _) => apply quiet_ret
  | |- quiet (throw _) => apply quiet_throw
  | |- quiet (_ ≫= _) => apply quiet_bind; [| intros ?]
  | |- quiet (when _ _) => apply quiet_when
  | |- quiet (getc _) => apply quiet_getc
  | |- quiet (getp _) => apply quiet_getp
  | |- quiet (getn _) => apply quiet_getn
  | |- quiet (setp _) => apply quiet_setp
  | |- quiet (log _) => apply quiet_log
  | |- quiet (setc _) => apply quiet_setc; intros ?; split; reflexivity
  | |- quiet (mmap_do_load _) => apply quiet_mmap_do_load
  | |- quiet (mmap_do_write _ _) => apply quiet_mmap_do_write
  | |- quiet (if ?b then _ else _) => destruct b
  | |- quiet (match ?x with _ => _ end) => destruct x
  | |- quiet (let _ := _ in _) => cbv zeta
  | |- quiet _ => solve [auto 1 with quiet nocore]
  end.

Ltac quiet_auto := repeat quiet_step.

Section Quiet.
Context {W : Type} `{Devices W}.

Lemma quiet_mem_at i : quiet (W:=W) (mem_at i).
Proof. apply quiet_getc. Qed.
#[local] Hint Resolve quiet_mem_at : quiet.

Lemma quiet_loadFromCartridge addr : quiet (loadFromCartridge addr).
Proof. unfold loadFromCartridge. quiet_auto. Qed.
#[local] Hint Resolve quiet_loadFromCartridge : quiet.

Lemma quiet_load16bit addr : quiet (load16bit addr).
Proof. unfold load16bit. quiet_auto. Qed.

Lemma quiet_bump : quiet (W:=W) bump.
Proof. unfold bump. quiet_auto. Qed.
#[local] Hint Resolve quiet_bump : quiet.

Lemma quiet_push value : quiet (push value).
Proof. unfold push. quiet_auto. Qed.
#[local] Hint Resolve quiet_push : quiet.

Lemma quiet_pull : quiet pull.
Proof. unfold pull. quiet_auto. Qed.

Lemma quiet_vector_fetch vector : quiet (vector_fetch vector).
Proof. unfold vector_fetch. quiet_auto. Qed.
#[local] Hint Resolve quiet_vector_fetch : quiet.

Lemma quiet_push_return status : quiet (push_return status).
Proof. unfold push_return. quiet_auto. Qed.
#[local] Hint Resolve quiet_push_return : quiet.

Lemma quiet_check_interrupts : quiet check_interrupts.
Proof.
  unfold check_interrupts, doIrq, doNonMaskableInterrupt, doResetInterrupt.
  quiet_auto.
Qed.

Lemma quiet_sprite0_check : quiet (W:=W) sprite0_check.
Proof. unfold sprite0_check, setStatusFlag. quiet_auto. Qed.

Lemma quiet_nmi_countdown : quiet (W:=W) nmi_countdown.
Proof. unfold nmi_countdown. quiet_auto. Qed.

Lemma quiet_dmaDuringInstr : quiet (W:=W) dmaDuringInstr.
Proof. unfold dmaDuringInstr. quiet_auto. Qed.

End Quiet.

#[local] Hint Resolve quiet_mem_at quiet_loadFromCartridge quiet_load16bit
  quiet_bump quiet_push quiet_pull quiet_vector_fetch quiet_push_return
  quiet_check_interrupts quiet_sprite0_check quiet_nmi_countdown
  quiet_dmaDuringInstr : quiet.

(** *** The dots advanced by catch-up *)

Section CatchUp.
Context {W : Type} `{Devices W}.

(** What holds of the counters while [emulate] runs: [P] is the number
    of dots advanced or dropped before the instruction, [D] a bound on
    [dropped] that is passed when catch-up reaches VBlank, and [E], [C],
    [S] the values of the other three counters. *)
Definition acc (P D E C S : Z) (v : Z * bool * bool * (Z * Z * Z * Z * Z))
    : Prop :=
  let '(done, ended, loaded, (dt, dr, ex, cc, st)) := v in
  loaded = true /\ dt + dr - done = P /\ D <= dr
  /\ (ended = true -> D + 1 <= dr) /\ ex = E /\ cc = C /\ st = S
  /\ 0 <= done.

Definition Acc (P D E C S : Z) : St W -> Prop := on_view (acc P D E C S).

Lemma Acc_vblank P D E C S :
  hoare (Acc P D E C S)
    (setc (set_ppuFrameEnded true);;
     setc (fun c => set_ppuCatchupDots (ppuCatchupDots c + 1) c);;
     note (fun g => set_dropped (dropped g + 1) g))
    (Acc P D E C S).
Proof.
  intros s. unfold Acc, on_view, view, acc. cbn. intros (?&?&?&?&?&?&?&?).
  repeat split; cbn; try assumption; try lia.
Qed.

Lemma Acc_advance P D E C S :
  hoare (Acc P D E C S)
    (setp (fun p => set_curX (curX p + 1) p);;
     note (fun g => set_dots (dots g + 1) g))
    (Acc (P + 1) D E C S).
Proof.
  intros s. unfold Acc, on_view, view, acc. cbn. intros (?&?&?&?&?&?&?&?).
  repeat split; cbn; try assumption; try lia.
Qed.

Lemma Acc_counted P D E C S :
  hoare (Acc (P + 1) D E C S)
    (setc (fun c => set_ppuCatchupDots (ppuCatchupDots c + 1) c))
    (Acc P D E C S).
Proof.
  intros s. unfold Acc, on_view, view, acc. cbn. intros (?&?&?&?&?&?&?&?).
  repeat split; cbn; try assumption; try lia.
Qed.

Lemma Acc_note_dots P D E C S :
  hoare (Acc P D E C S) (note (fun g => set_dots (dots g + 1) g))
        (Acc (P + 1) D E C S).
Proof.
  intros s. unfold Acc, on_view, view, acc. cbn. intros (?&?&?&?&?&?&?&?).
  repeat split; cbn; try assumption; try lia.
Qed.

Lemma quiet_Acc P D E C S {A} (m : M W A) :
  quiet m -> keeps (Acc P D E C S) m.
Proof. apply quiet_keeps. Qed.

Lemma Acc_advance_dot P D E C S :
  hoare (Acc P D E C S) advance_dot (Acc (P + 1) D E C S).
Proof.
  unfold advance_dot.
  eapply hoare_bind; [apply quiet_Acc, quiet_setp | intros _].
  eapply hoare_bind; [apply Acc_note_dots | intros _].
  apply quiet_Acc.
  apply quiet_bind; [apply quiet_getp | intros x].
  apply quiet_when.
  apply quiet_bind; [apply quiet_setp | intros _].
  apply quiet_setn, ppu_endScanline_private.
Qed.

Lemma Acc_ppuCatchUp_loop P D E C S fuel :
  forall targetDots,
    keeps (Acc P D E C S) (ppuCatchUp_loop fuel targetDots).
Proof.
  induction fuel as [|fuel IH]; intros targetDots; cbn [ppuCatchUp_loop].
  - apply keeps_ret.
  - apply keeps_bind; [apply keeps_getc | intros done].
    destruct (done <? targetDots); [|apply keeps_ret].
    apply keeps_bind; [apply quiet_Acc, quiet_sprite0_check | intros _].
    apply keeps_bind; [apply quiet_Acc, quiet_nmi_countdown | intros fired].
    destruct fired.
    + apply keeps_bind; [apply quiet_Acc, quiet_setp | intros _].
      apply keeps_bind;
        [apply quiet_Acc, quiet_setn, ppu_startVBlank_private | intros _].
      apply Acc_vblank.
    + eapply hoare_bind; [apply Acc_advance_dot | intros _].
      eapply hoare_bind; [apply Acc_counted | intros _].
      apply IH.
Qed.

Lemma Acc_ppuCatchUp P D E C S : keeps (Acc P D E C S) ppuCatchUp.
Proof.
  unfold ppuCatchUp.
  apply keeps_bind; [apply keeps_getc | intros n].
  apply keeps_bind; [apply keeps_getc | intros done].
  apply Acc_ppuCatchUp_loop.
Qed.

End CatchUp.

Create HintDb acc discriminated.

#[local] Hint Resolve Acc_ppuCatchUp : acc.

Ltac acc_step :=
  lazymatch goal with
  | |- keeps _ (mret _) => apply keeps_ret
  | |- keeps _ (throw _) => apply keeps_throw
  | |- keeps _ (_ ≫= _) => apply keeps_bind; [| intros ?]
  | |- keeps _ (when _ _) => apply keeps_when
  | |- keeps _ (if ?b then _ else _) => destruct b
  | |- keeps _ (match ?x with _ => _ end) => destruct x
  | |- keeps _ (let _ := _ in _) => cbv zeta
  | |- keeps _ _ =>
      first [ solve [auto 1 with acc nocore]
            | apply quiet_Acc; solve [quiet_auto] ]
  end.

Ltac acc_auto := repeat acc_step.

Section Instructions.
Context {W : Type} `{Devices W}.
Variables P D E C S : Z.

Lemma Acc_load addr : keeps (Acc P D E C S) (load addr).
Proof. unfold load. acc_auto. Qed.
#[local] Hint Resolve Acc_load : acc.

Lemma Acc_write addr val : keeps (Acc P D E C S) (write addr val).
Proof. unfold write. acc_auto. Qed.
#[local] Hint Resolve Acc_write : acc.

Lemma Acc_indexed base index : keeps (Acc P D E C S) (indexed base index).
Proof. unfold indexed. acc_auto. Qed.
#[local] Hint Resolve Acc_indexed : acc.

Lemma Acc_addressing addrMode opaddr :
  keeps (Acc P D E C S) (addressing addrMode opaddr).
Proof. unfold addressing. acc_auto. Qed.

Lemma Acc_indexed_dummy_read addrMode cycleAdd addr :
  keeps (Acc P D E C S) (indexed_dummy_read addrMode cycleAdd addr).
Proof. unfold indexed_dummy_read. acc_auto. Qed.
#[local] Hint Resolve Acc_indexed_dummy_read : acc.

Lemma Acc_glitch_store cycleAdd addr val :
  keeps (Acc P D E C S) (glitch_store cycleAdd addr val).
Proof. unfold glitch_store. acc_auto. Qed.
#[local] Hint Resolve Acc_glitch_store : acc.

Lemma Acc_branch opaddr addr cycleCount :
  keeps (W:=W) (Acc P D E C S) (branch opaddr addr cycleCount).
Proof. unfold branch. acc_auto. Qed.
#[local] Hint Resolve Acc_branch : acc.

Lemma Acc_exec i addrMode opaddr addr cycleAdd baseHigh cycleCount :
  keeps (Acc P D E C S)
        (exec i addrMode opaddr addr cycleAdd baseHigh cycleCount).
Proof. unfold exec. destruct i; cbv beta iota; acc_auto. Qed.

End Instructions.

#[local] Hint Resolve Acc_load Acc_write Acc_indexed Acc_addressing
  Acc_indexed_dummy_read Acc_glitch_store Acc_branch Acc_exec : acc.

(** *** The dots of one instruction *)

Section Emulate.
Context {W : Type} `{Devices W}.
Variables P D E C S : Z.

Lemma Acc_execute opcode : keeps (Acc P D E C S) (execute opcode).
Proof. unfold execute. acc_auto. Qed.

(** The counters between two instructions. *)
Definition idle : St W -> Prop :=
  on_view (fun v =>
    let '(_, _, loaded, (dt, dr, ex, cc, st)) := v in
    loaded = true /\ dt + dr = P /\ dr = D /\ ex = E /\ cc = C /\ st = S).

Lemma idle_loaded s : idle s -> mmap_loaded (nes s) = true.
Proof. unfold idle, on_view, view. tauto. Qed.

Lemma Acc_reset_counters : hoare idle reset_counters (Acc P D E C S).
Proof.
  intros s. unfold idle, Acc, on_view, view, acc. cbn.
  intros (?&?&?&?&?&?).
  repeat split; cbn; try assumption; try lia; discriminate.
Qed.

Lemma Acc_fetch : hoare idle fetch (Acc P D E C S).
Proof.
  unfold fetch.
  eapply hoare_bind; [apply Acc_reset_counters | intros _].
  apply quiet_Acc. quiet_auto.
Qed.

Lemma hoare_loaded (I J : St W -> Prop) {A} (k : bool -> M W A) :
  (forall s, I s -> mmap_loaded (nes s) = true) ->
  hoare I (k true) J -> hoare I (getn mmap_loaded ≫= k) J.
Proof.
  intros HI Hk s Hs. unfold mbind, M_bind, getn. rewrite (HI s Hs).
  apply Hk, Hs.
Qed.

(** When [emulate] returns, the dots that catch-up advanced or dropped
    during the instruction are the dots that [ppuCatchupDots] counts. *)
Lemma Acc_emulate : hoare idle emulate (Acc P D E C S).
Proof.
  unfold emulate.
  eapply hoare_bind;
    [apply (quiet_keeps _ _ quiet_check_interrupts) | intros _].
  apply hoare_loaded; [apply idle_loaded |].
  eapply hoare_bind; [apply Acc_fetch | intros opcode].
  apply Acc_execute.
Qed.

End Emulate.

Section EmulateDots.
Context {W : Type} `{Devices W}.

(** X2.  When [emulate] returns, [ppuCatchupDots] is the number of dots
    that catch-up advanced or dropped during the instruction, so that
    [frame] subtracts from the dots of the instruction exactly the dots
    that are already accounted for. *)
Theorem catch_up_dots_counted (s s' : St W) (c : option Z) :
  mmap_loaded (nes s) = true ->
  emulate s = Ok c s' ->
  (dots (ghost s') - dots (ghost s))
  + (dropped (ghost s') - dropped (ghost s))
  = ppuCatchupDots (cpu (nes s'))
  /\ dropped (ghost s) <= dropped (ghost s')
  /\ (ppuFrameEnded (cpu (nes s')) = true ->
      dropped (ghost s) + 1 <= dropped (ghost s')).
Proof.
  intros Hl E.
  pose proof (Acc_emulate (dots (ghost s) + dropped (ghost s))
                (dropped (ghost s)) (excess (ghost s))
                (cpuCycles (ghost s)) (stallCycles (ghost s)) s) as HA.
  rewrite E in HA.
  destruct HA as (_ & A2 & A3 & A4 & _).
  - unfold idle, on_view, view. repeat split; auto.
  - repeat split; try assumption; lia.
Qed.

End EmulateDots.

(** *** The dots of a frame *)

Section FrameAcc.
Context {W : Type} `{Devices W}.

(** [balanced k g0 g]: since [g0], the dots advanced or dropped, with
    [k] dots still owed, are three times the cycles executed and stalled,
    plus the dots by which catch-up ran ahead. *)
Definition balanced (k : Z) (g0 g : Ghost) : Prop :=
  dots g + dropped g + k - (dots g0 + dropped g0)
  = 3 * (cpuCycles g - cpuCycles g0) + 3 * (stallCycles g - stallCycles g0)
    + (excess g - excess g0)
  /\ dropped g0 <= dropped g /\ excess g0 <= excess g.

Definition owes (o : Owed) : Z :=
  match o with
  | Dots (Some r) => Z.max 0 r
  | _ => 0
  end.

Lemma run_instruction_balanced s o s' :
  mmap_loaded (nes s) = true ->
  run_instruction s = Ok o s' ->
  mmap_loaded (nes s') = true
  /\ balanced (owes o) (ghost s) (ghost s')
  /\ (o = Leave -> dropped (ghost s) + 1 <= dropped (ghost s')).
Proof.
  intros Hl E. unfold run_instruction in E.
  apply bind_inv in E as (c & s1 & Ee & E).
  assert (HA : Acc (dots (ghost s) + dropped (ghost s)) (dropped (ghost s))
                   (excess (ghost s)) (cpuCycles (ghost s))
                   (stallCycles (ghost s)) s1).
  { pose proof (Acc_emulate (dots (ghost s) + dropped (ghost s))
                  (dropped (ghost s)) (excess (ghost s))
                  (cpuCycles (ghost s)) (stallCycles (ghost s)) s) as HA.
    rewrite Ee in HA. apply HA. unfold idle, on_view, view.
    repeat split; auto. }
  unfold mbind, M_bind, getc, setn, setc, note in E. cbn in E.
  pose proof (papu_clockFrameCounter_private c
                (apuCatchupCycles (cpu (nes s1))) (nes s1)) as Hp.
  set (n2 := papu_clockFrameCounter c (apuCatchupCycles (cpu (nes s1)))
               (nes s1)) in *.
  pose proof (private_cpu ppuCatchupDots _ _ (fun _ => eq_refl) Hp) as Hd.
  pose proof (private_cpu ppuFrameEnded _ _ (fun _ => eq_refl) Hp) as He.
  pose proof (private_loaded _ _ Hp) as Hm.
  unfold Acc, on_view, view, acc in HA.
  destruct HA as (A1 & A2 & A3 & A4 & A5 & A6 & A7 & A8).
  rewrite Hd, He in E. clearbody n2.
  unfold balanced.
  destruct (ppuFrameEnded (cpu (nes s1))) eqn:En;
    destruct c as [c|]; cbn in E; unfold settle in E;
    try destruct (c * 3 - ppuCatchupDots (cpu (nes s1)) <? 0) eqn:Er;
    injection E as <- <-; cbn;
    repeat split; try congruence; try discriminate; try lia.
Qed.

Lemma quiet_inv {A} (m : M W A) s a s1 :
  quiet m -> m s = Ok a s1 -> view s1 = view s.
Proof. intros Hq E. specialize (Hq s). rewrite E in Hq. exact Hq. Qed.

Lemma run_stall_balanced s o s' :
  mmap_loaded (nes s) = true ->
  run_stall s = Ok o s' ->
  mmap_loaded (nes s') = true
  /\ balanced (owes o) (ghost s) (ghost s')
  /\ o <> Leave.
Proof.
  intros Hl E. unfold run_stall in E.
  unfold mbind, M_bind, getc, setn, setc, note in E. cbn in E.
  unfold balanced.
  destruct (8 <? cyclesToHalt (cpu (nes s))) eqn:E8.
  - pose proof (private_loaded _ _
      (papu_clockFrameCounter_private (Some 8) None (nes s))) as Hm.
    injection E as <- <-. cbn.
    repeat split; try congruence; try discriminate; try lia.
  - pose proof (private_loaded _ _
      (papu_clockFrameCounter_private
         (Some (cyclesToHalt (cpu (nes s)))) None (nes s))) as Hm.
    unfold settle in E.
    destruct (cyclesToHalt (cpu (nes s)) * 3 <? 0) eqn:Er;
      injection E as <- <-; cbn;
      repeat split; try congruence; try discriminate; try lia.
Qed.

(** What the PPU part of a pass does to the counters: every dot owed is
    advanced or dropped, and leaving the loop drops at least one. *)
Definition spent (k : Z) (b : bool) (s s' : St W) : Prop :=
  mmap_loaded (nes s') = mmap_loaded (nes s)
  /\ dots (ghost s') + dropped (ghost s')
     = dots (ghost s) + dropped (ghost s) + k
  /\ dropped (ghost s) <= dropped (ghost s')
  /\ (b = true -> dropped (ghost s) + 1 <= dropped (ghost s'))
  /\ excess (ghost s') = excess (ghost s)
  /\ cpuCycles (ghost s') = cpuCycles (ghost s)
  /\ stallCycles (ghost s') = stallCycles (ghost s).

Lemma advance_dot_spent s u s' :
  advance_dot s = Ok u s' -> spent 1 false s s'.
Proof.
  unfold advance_dot. intros E.
  unfold mbind at 1 2, M_bind at 1 2, setp at 1, note at 1 in E. cbn in E.
  apply quiet_inv in E.
  - unfold view in E. cbn in E. unfold spent.
    injection E as E1 E2 E3 E4 E5 E6 E7 E8.
    repeat split; try congruence; try lia.
  - quiet_auto. apply quiet_setn, ppu_endScanline_private.
Qed.

Lemma dot_loop_spent fuel :
  forall cycles s b s',
    Z.to_nat cycles = fuel ->
    dot_loop fuel cycles s = Ok b s' ->
    spent (Z.max 0 cycles) b s s'.
Proof.
  induction fuel as [|fuel IH]; intros cycles s b s' Hf E;
    cbn [dot_loop] in E.
  - injection E as <- <-. unfold spent.
    repeat split; try congruence; try lia.
  - destruct (0 <? cycles) eqn:Ec; [|lia].
    apply bind_inv in E as (u1 & s1 & E1 & E).
    apply quiet_inv in E1; [|apply quiet_sprite0_check].
    apply bind_inv in E as (fired & s2 & E2 & E).
    apply quiet_inv in E2; [|apply quiet_nmi_countdown].
    rewrite E1 in E2. clear E1 u1 s1.
    unfold view in E2. injection E2 as V1 V2 V3 V4 V5 V6 V7 V8.
    destruct fired.
    + unfold mbind, M_bind, setp, setn, note in E. cbn in E.
      pose proof (private_loaded _ _ (ppu_startVBlank_private
        (set_ppu (set_requestEndFrame false (ppu (nes s2))) (nes s2))))
        as Hm.
      cbn in Hm.
      injection E as <- <-. unfold spent. cbn.
      repeat split; try congruence; try lia.
    + apply bind_inv in E as (u3 & s3 & E3 & E).
      apply advance_dot_spent in E3.
      apply IH in E; [|lia].
      unfold spent in *.
      destruct E3 as (?&?&?&?&?&?&?), E as (?&?&?&Hb&?&?&?).
      repeat split; try congruence; try lia.
      intros ->. specialize (Hb eq_refl). lia.
Qed.

Lemma advance_ppu_spent cycles s b s' :
  advance_ppu cycles s = Ok b s' -> spent (Z.max 0 cycles) b s s'.
Proof.
  unfold advance_ppu. intros E.
  unfold mbind at 1, M_bind at 1, getp at 1 in E.
  match type of E with
  | (if ?c then _ else _) _ = _ => destruct c
  end.
  - unfold mbind, M_bind, setp, note in E. cbn in E.
    injection E as <- <-. unfold spent. cbn.
    repeat split; try congruence; try lia.
  - apply dot_loop_spent in E; [exact E | reflexivity].
Qed.

Lemma balanced_spent k g0 s b s' :
  balanced k g0 (ghost s) -> spent k b s s' -> balanced 0 g0 (ghost s').
Proof.
  unfold balanced, spent. intros (?&?&?) (?&?&?&?&?&?&?).
  repeat split; try lia.
Qed.

Lemma frame_pass_balanced s b s' :
  mmap_loaded (nes s) = true ->
  frame_pass s = Ok b s' ->
  mmap_loaded (nes s') = true
  /\ balanced 0 (ghost s) (ghost s')
  /\ (b = true -> dropped (ghost s) + 1 <= dropped (ghost s')).
Proof.
  intros Hl E. unfold frame_pass in E.
  unfold mbind at 1, M_bind at 1, getc at 1 in E.
  apply bind_inv in E as (o & s1 & E1 & E).
  assert (H1 : mmap_loaded (nes s1) = true
               /\ balanced (owes o) (ghost s) (ghost s1)
               /\ (o = Leave -> dropped (ghost s) + 1 <= dropped (ghost s1))).
  { destruct (cyclesToHalt (cpu (nes s)) =? 0).
    - apply run_instruction_balanced; assumption.
    - destruct (run_stall_balanced s o s1 Hl E1) as (L & B & N).
      split; [exact L|]. split; [exact B|]. intros Ho. contradiction. }
  destruct H1 as (L1 & B1 & D1).
  destruct o as [|[r|]].
  - injection E as <- <-. auto.
  - pose proof (advance_ppu_spent _ _ _ _ E) as Sp.
    split; [|split].
    + destruct Sp as (-> & _). exact L1.
    + eapply balanced_spent; eassumption.
    + intros ->. unfold balanced, spent in *.
      destruct B1 as (?&?&?), Sp as (?&?&?&?&?&?&?). lia.
  - injection E as <- <-.
    split; [exact L1|]. split; [exact B1|]. discriminate.
Qed.

Lemma balanced_trans g0 g1 g2 :
  balanced 0 g0 g1 -> balanced 0 g1 g2 -> balanced 0 g0 g2.
Proof. unfold balanced. intros (?&?&?) (?&?&?). repeat split; lia. Qed.

Lemma frame_loop_balanced fuel :
  forall s b s',
    mmap_loaded (nes s) = true ->
    frame_loop fuel s = Ok b s' ->
    mmap_loaded (nes s') = true
    /\ balanced 0 (ghost s) (ghost s')
    /\ (b = true -> dropped (ghost s) + 1 <= dropped (ghost s')).
Proof.
  induction fuel as [|fuel IH]; intros s b s' Hl E; cbn [frame_loop] in E.
  - injection E as <- <-.
    split; [exact Hl|]. split; [|discriminate].
    unfold balanced. repeat split; lia.
  - apply bind_inv in E as (e & s1 & E1 & E).
    destruct (frame_pass_balanced _ _ _ Hl E1) as (L1 & B1 & D1).
    destruct e.
    + injection E as <- <-. auto.
    + destruct (IH _ _ _ L1 E) as (L2 & B2 & D2).
      split; [exact L2|]. split; [eapply balanced_trans; eassumption|].
      intros Hb. specialize (D2 Hb). unfold balanced in B1. lia.
Qed.

Lemma frame_balanced fuel s b s' :
  mmap_loaded (nes s) = true ->
  frame fuel s = Ok b s' ->
  balanced 0 (ghost s) (ghost s')
  /\ (b = true -> dropped (ghost s) + 1 <= dropped (ghost s')).
Proof.
  intros Hl E. unfold frame in E.
  destruct (crashed (nes s)); [discriminate|].
  unfold frame_run in E.
  destruct ((setn ppu_startFrame;; frame_loop fuel) s) as [r s1|] eqn:E1;
    [|discriminate].
  unfold mbind, M_bind, setn in E1.
  apply frame_loop_balanced in E1.
  - cbn in E1. destruct E1 as (_ & B & Dr).
    destruct r; injection E as <- <-; cbn; auto.
  - cbn. rewrite (private_loaded _ _ (ppu_startFrame_private (nes s))).
    exact Hl.
Qed.

(** C2.  When a call of [frame] returns and no instruction in it let
    catch-up run ahead of its own cycle count, the dots it advanced and
    the dots it dropped add up to three times the cycles executed plus
    three times the halt cycles consumed.  At least one dot is dropped, at
    the step that ends the frame, so the dots advanced stay below that
    sum. *)
Theorem frame_dots_accounted (fuel : nat) (s s' : St W) :
  mmap_loaded (nes s) = true ->
  frame fuel s = Ok true s' ->
  excess (ghost s') = excess (ghost s) ->
  (dots (ghost s') - dots (ghost s))
  + (dropped (ghost s') - dropped (ghost s))
  = 3 * (cpuCycles (ghost s') - cpuCycles (ghost s))
    + 3 * (stallCycles (ghost s') - stallCycles (ghost s))
  /\ 1 <= dropped (ghost s') - dropped (ghost s)
  /\ dots (ghost s') - dots (ghost s)
     < 3 * (cpuCycles (ghost s') - cpuCycles (ghost s))
       + 3 * (stallCycles (ghost s') - stallCycles (ghost s)).
Proof.
  intros Hl E Hx.
  destruct (frame_balanced _ _ _ _ Hl E) as ((B & _ & _) & Dr).
  specialize (Dr eq_refl). lia.
Qed.

End FrameAcc.

(** *** Bus cycles *)

Section Bus.
Context {W : Type} `{Devices W}.

(** What a bus cycle is seen by: the accesses and mapper calls logged,
    the cycle counter, the data bus, the carry flag, and whether a ROM is
    loaded. *)
Definition busview (s : St W)
    : list BusEvent * list MapperCall * Z * Z * Z * bool :=
  (trace (ghost s), mapper (ghost s), instrBusCycles (cpu (nes s)),
   dataBus (cpu (nes s)), F_CARRY (cpu (nes s)), mmap_loaded (nes s)).

(** [calm m]: [m] returns and leaves [busview] as it is. *)
Definition calm {A} (m : M W A) : Prop :=
  forall s, exists a s', m s = Ok a s' /\ busview s' = busview s.

Lemma calm_ret {A} (a : A) : calm (mret a).
Proof. intros s. exists a, s. auto. Qed.

Lemma calm_bind {A B} (m : M W A) (k : A -> M W B) :
  calm m -> (forall a, calm (k a)) -> calm (m ≫= k).
Proof.
  intros Hm Hk s. destruct (Hm s) as (a & s1 & E1 & V1).
  destruct (Hk a s1) as (b & s2 & E2 & V2).
  exists b, s2. rewrite (bind_ok _ _ _ _ _ E1). split; congruence.
Qed.

Lemma calm_when (b : bool) m : calm m -> calm (when b m).
Proof. destruct b; [auto | intros _; apply calm_ret]. Qed.

Lemma calm_getc {A} (f : CPU -> A) : calm (getc f).
Proof. intros s. eexists _, s. split; reflexivity. Qed.

Lemma calm_getp {A} (f : Timing -> A) : calm (getp f).
Proof. intros s. eexists _, s. split; reflexivity. Qed.

Lemma calm_setp f : calm (setp f).
Proof. intros s. eexists _, _. split; reflexivity. Qed.

Lemma calm_setc f :
  (forall c, instrBusCycles (f c) = instrBusCycles c
             /\ dataBus (f c) = dataBus c /\ F_CARRY (f c) = F_CARRY c) ->
  calm (setc f).
Proof.
  intros Hf s. eexists _, _. split; [reflexivity|].
  unfold busview. cbn. destruct (Hf (cpu (nes s))) as (-> & -> & ->).
  reflexivity.
Qed.

Lemma calm_note f :
  (forall g, trace (f g) = trace g /\ mapper (f g) = mapper g) ->
  calm (note f).
Proof.
  intros Hf s. eexists _, _. split; [reflexivity|].
  unfold busview. cbn. destruct (Hf (ghost s)) as (-> & ->). reflexivity.
Qed.

Lemma calm_setn (f : NES W -> NES W) :
  (forall n, private (f n) = private n) -> calm (setn f).
Proof.
  intros Hf s. eexists _, _. split; [reflexivity|].
  unfold busview. cbn.
  rewrite (private_cpu instrBusCycles _ _ (fun _ => eq_refl) (Hf (nes s))).
  rewrite (private_cpu dataBus _ _ (fun _ => eq_refl) (Hf (nes s))).
  rewrite (private_cpu F_CARRY _ _ (fun _ => eq_refl) (Hf (nes s))).
  rewrite (private_loaded _ _ (Hf (nes s))). reflexivity.
Qed.

End Bus.

Ltac calm_step :=
  lazymatch goal with
  | |- calm (mret _) => apply calm_ret
  | |- calm (_ ≫= _) => apply calm_bind; [| intros ?]
  | |- calm (when _ _) => apply calm_when
  | |- calm (getc _) => apply calm_getc
  | |- calm (getp _) => apply calm_getp
  | |- calm (setp _) => apply calm_setp
  | |- calm (setc _) =>
      apply calm_setc; intros ?; split; [|split]; reflexivity
  | |- calm (note _) => apply calm_note; intros ?; split; reflexivity
  | |- calm (if ?b then _ else _) => destruct b
  | |- calm (match ?x with _ => _ end) => destruct x
  | |- calm (let _ := _ in _) => cbv zeta
  end.

Section BusCycles.
Context {W : Type} `{Devices W}.

Lemma calm_ppuCatchUp_loop fuel :
  forall targetDots, calm (ppuCatchUp_loop fuel targetDots).
Proof.
  induction fuel as [|fuel IH]; intros targetDots; cbn [ppuCatchUp_loop].
  - apply calm_ret.
  - unfold sprite0_check, setStatusFlag, nmi_countdown, advance_dot.
    repeat first [ apply IH
                 | apply calm_setn, ppu_startVBlank_private
                 | apply calm_setn, ppu_endScanline_private
                 | calm_step ].
Qed.

Lemma calm_ppuCatchUp : calm ppuCatchUp.
Proof.
  unfold ppuCatchUp. repeat first [apply calm_ppuCatchUp_loop | calm_step].
Qed.

(** [bus evs calls s s']: from [s] to [s'] the CPU made the accesses
    [evs], each a bus cycle, and the mapper calls [calls]. *)
Definition bus (evs : list BusEvent) (calls : list MapperCall)
    (s s' : St W) : Prop :=
  trace (ghost s') = trace (ghost s) ++ evs
  /\ mapper (ghost s') = mapper (ghost s) ++ calls
  /\ instrBusCycles (cpu (nes s'))
     = instrBusCycles (cpu (nes s)) + Z.of_nat (length evs)
  /\ mmap_loaded (nes s') = mmap_loaded (nes s).

(** The mapper call behind an access: none below $2000. *)
Definition through_mapper (addr : Z) (call : MapperCall)
    : list MapperCall :=
  if addr <? 0x2000 then [] else [call].

Lemma mmap_do_load_spec addr s :
  mmap_loaded (nes s) = true ->
  exists v s',
    mmap_do_load addr s = Ok v s'
    /\ private (nes s') = private (nes s)
    /\ ghost s' = set_mapper (mapper (ghost s) ++ [MapLoad addr]) (ghost s).
Proof.
  intros Hl. unfold mmap_do_load, mbind, M_bind, getn, note, calln. cbn.
  rewrite Hl. pose proof (mmap_load_private addr (nes s)) as Hp.
  destruct (mmap_load addr (nes s)) as [v n]. cbn in Hp.
  eexists _, _. split; [reflexivity|]. cbn. auto.
Qed.

Lemma mmap_do_write_spec addr value s :
  mmap_loaded (nes s) = true ->
  exists s',
    mmap_do_write addr value s = Ok tt s'
    /\ private (nes s') = private (nes s)
    /\ ghost s'
       = set_mapper (mapper (ghost s) ++ [MapWrite addr value]) (ghost s).
Proof.
  intros Hl. unfold mmap_do_write, mbind, M_bind, getn, note, setn. cbn.
  rewrite Hl. eexists. split; [reflexivity|]. cbn.
  split; [apply mmap_write_private | reflexivity].
Qed.

Lemma loadFromCartridge_spec addr s :
  mmap_loaded (nes s) = true ->
  exists v s',
    loadFromCartridge addr s = Ok v s'
    /\ private (nes s') = private (nes s)
    /\ ghost s' = set_mapper (mapper (ghost s) ++ [MapLoad addr]) (ghost s).
Proof.
  intros Hl. unfold loadFromCartridge.
  destruct (mmap_do_load_spec addr s Hl) as (v & s1 & E1 & Hp & Hg).
  rewrite (bind_ok _ _ _ _ _ E1).
  unfold mbind, M_bind, getn. cbn.
  destruct (enabled (gameGenie (nes s1))
            && (0 <? Z.of_nat (length (patches (gameGenie (nes s1))))));
    eexists _, _; (split; [reflexivity|]); auto.
Qed.

Lemma load_bus addr s :
  mmap_loaded (nes s) = true ->
  exists v s',
    load addr s = Ok v s'
    /\ bus [BusRead addr v] (through_mapper addr (MapLoad addr)) s s'
    /\ dataBus (cpu (nes s')) = v
    /\ F_CARRY (cpu (nes s')) = F_CARRY (cpu (nes s)).
Proof.
  intros Hl. unfold load.
  destruct (calm_when (in_ppu_range addr) _ calm_ppuCatchUp s)
    as (u & s1 & E1 & V1).
  rewrite (bind_ok _ _ _ _ _ E1).
  unfold busview in V1. injection V1 as V1 V2 V3 V4 V5 V6.
  unfold through_mapper, bus.
  destruct (addr <? 0x2000).
  - unfold mbind, M_bind, mem_at, getc, setc, log, note, bump. cbn.
    eexists _, _. split; [reflexivity|]. cbn.
    rewrite app_nil_r. repeat split; try congruence; try lia.
  - destruct (loadFromCartridge_spec addr s1) as (v & s2 & E2 & Hp & Hg);
      [congruence|].
    rewrite (bind_ok _ _ _ _ _ E2).
    unfold mbind, M_bind, setc, log, note, bump. cbn.
    eexists _, _. split; [reflexivity|]. cbn. rewrite Hg. cbn.
    rewrite (private_cpu instrBusCycles _ _ (fun _ => eq_refl) Hp).
    rewrite (private_cpu F_CARRY _ _ (fun _ => eq_refl) Hp).
    rewrite (private_loaded _ _ Hp).
    repeat split; try congruence; try lia.
Qed.

Lemma write_bus addr val s :
  mmap_loaded (nes s) = true ->
  exists s',
    write addr val s = Ok tt s'
    /\ bus [BusWrite addr val] (through_mapper addr (MapWrite addr val))
           s s'
    /\ dataBus (cpu (nes s')) = val
    /\ F_CARRY (cpu (nes s')) = F_CARRY (cpu (nes s)).
Proof.
  intros Hl. unfold write.
  unfold mbind at 1, M_bind at 1, setc at 1.
  set (s0 := set_nes _ s).
  destruct (calm_when (in_ppu_range addr) _ calm_ppuCatchUp s0)
    as (u & s1 & E1 & V1).
  rewrite (bind_ok _ _ _ _ _ E1).
  unfold busview in V1. injection V1 as V1 V2 V3 V4 V5 V6.
  subst s0. cbn in V1, V2, V3, V4, V5, V6.
  unfold through_mapper, bus.
  destruct (addr <? 0x2000).
  - unfold mbind, M_bind, setc, log, note, bump. cbn.
    eexists. split; [reflexivity|]. cbn.
    rewrite app_nil_r. repeat split; try congruence; try lia.
  - destruct (mmap_do_write_spec addr val s1) as (s2 & E2 & Hp & Hg);
      [congruence|].
    rewrite (bind_ok _ _ _ _ _ E2).
    unfold mbind, M_bind, setc, log, note, bump. cbn.
    eexists. split; [reflexivity|]. cbn. rewrite Hg. cbn.
    rewrite (private_cpu instrBusCycles _ _ (fun _ => eq_refl) Hp).
    rewrite (private_cpu F_CARRY _ _ (fun _ => eq_refl) Hp).
    rewrite (private_cpu dataBus _ _ (fun _ => eq_refl) Hp).
    rewrite (private_loaded _ _ Hp).
    repeat split; try congruence; try lia.
Qed.
End BusCycles.

(** *** Read-modify-write instructions *)

Definition is_rmw (i : Instr) : bool :=
  match i with
  | ASL | LSR | ROL | ROR | INC | DEC | SLO | SRE | RLA | RRA | DCP | ISC =>
      true
  | _ => false
  end.

(** The value that the first of the two writes puts back. *)
Definition written_back (i : Instr) (v : Z) : Z :=
  match i with
  | LSR | SRE => v .& 0xff
  | _ => v
  end.

(** The value that the second write stores; [carry] is the carry flag
    before the instruction. *)
Definition modified (i : Instr) (carry v : Z) : Z :=
  match i with
  | ASL | SLO => (v << 1) .& 255
  | LSR | SRE => (v .& 0xff) >> 1
  | ROL | RLA => ((v << 1) .& 0xff) + carry
  | ROR | RRA => (v >> 1) + (carry << 7)
  | INC | ISC => (v + 1) .& 0xff
  | DEC | DCP => (v - 1) .& 0xff
  | _ => v
  end.

(** Whether the instruction opens with the extra read of an indexed mode
    that crossed no page. *)
Definition dummy_read (addrMode cycleAdd : Z) : bool :=
  (cycleAdd =? 0) && ((addrMode =? 8) || (addrMode =? 9) || (addrMode =? 11)).

Section ReadModifyWrite.
Context {W : Type} `{Devices W}.

Lemma bind_assoc {A B C} (m : M W A) (f : A -> M W B) (g : B -> M W C) s :
  ((m ≫= f) ≫= g) s = (m ≫= (fun x => f x ≫= g)) s.
Proof. unfold mbind, M_bind. destruct (m s); reflexivity. Qed.

Lemma bind_ret {A B} (a : A) (k : A -> M W B) s : (mret a ≫= k) s = k a s.
Proof. reflexivity. Qed.

Lemma bind_setc {B} f (k : unit -> M W B) s :
  (setc f ≫= k) s = k tt (set_nes (set_cpu (f (cpu (nes s))) (nes s)) s).
Proof. reflexivity. Qed.

Lemma bind_getc {A B} (f : CPU -> A) (k : A -> M W B) s :
  (getc f ≫= k) s = k (f (cpu (nes s))) s.
Proof. reflexivity. Qed.

Lemma bus_refl (s : St W) : bus [] [] s s.
Proof. unfold bus. rewrite !app_nil_r. cbn. repeat split; lia. Qed.

Lemma bus_trans evs1 calls1 evs2 calls2 (s s1 s2 : St W) :
  bus evs1 calls1 s s1 -> bus evs2 calls2 s1 s2 ->
  bus (evs1 ++ evs2) (calls1 ++ calls2) s s2.
Proof.
  unfold bus. intros (T1 & M1 & C1 & L1) (T2 & M2 & C2 & L2).
  rewrite T2, T1, M2, M1, C2, C1, L2, L1, !app_assoc, length_app.
  repeat split; lia.
Qed.

Lemma bus_eq evs calls evs' calls' (s s' : St W) :
  bus evs calls s s' -> evs = evs' -> calls = calls' -> bus evs' calls' s s'.
Proof. intros B <- <-. exact B. Qed.

(** A change of registers other than the ones a bus cycle is seen by. *)
Lemma bus_setc f evs calls (s s1 : St W) :
  (forall c, instrBusCycles (f c) = instrBusCycles c) ->
  bus evs calls s s1 ->
  bus evs calls s (set_nes (set_cpu (f (cpu (nes s1))) (nes s1)) s1).
Proof.
  unfold bus. cbn. intros Hf (T1 & M1 & C1 & L1). rewrite Hf. auto.
Qed.

Lemma indexed_dummy_read_bus addrMode cycleAdd addr s :
  mmap_loaded (nes s) = true ->
  exists d s',
    indexed_dummy_read addrMode cycleAdd addr s = Ok tt s'
    /\ bus (if dummy_read addrMode cycleAdd then [BusRead addr d] else [])
           (if dummy_read addrMode cycleAdd
            then through_mapper addr (MapLoad addr) else [])
           s s'
    /\ F_CARRY (cpu (nes s')) = F_CARRY (cpu (nes s)).
Proof.
  intros Hl. unfold indexed_dummy_read.
  fold (dummy_read addrMode cycleAdd).
  destruct (dummy_read addrMode cycleAdd); cbn.
  - destruct (load_bus addr s Hl) as (d & s1 & E & B & _ & F).
    exists d, s1. rewrite (bind_ok _ _ _ _ _ E). auto.
  - exists 0, s. split; [reflexivity|]. split; [apply bus_refl | reflexivity].
Qed.


(** The accesses of a read-modify-write instruction. *)
Definition rmw_pattern (i : Instr) (addr carry v : Z) : list BusEvent :=
  [BusRead addr v; BusWrite addr (written_back i v);
   BusWrite addr (modified i carry v)].

Definition rmw_calls (i : Instr) (addr carry v : Z) : list MapperCall :=
  through_mapper addr (MapLoad addr)
  ++ through_mapper addr (MapWrite addr (written_back i v))
  ++ through_mapper addr (MapWrite addr (modified i carry v)).

(** C6.  A read-modify-write instruction with a memory operand makes
    these accesses at the effective address, in this order: the extra
    read of an indexed mode that crossed no page, the read of the value, a
    write of that value, a write of the modified value.  Each is a bus
    cycle, the data bus ends with the modified value, and the read and
    both writes go through the mapper when the address is $2000 or
    above; below it [load] and [write] use [cpu.mem] themselves. *)
Theorem rmw_bus_cycles i addrMode opaddr addr cycleAdd baseHigh
    cycleCount s :
  is_rmw i = true -> addrMode <> 4 ->
  mmap_loaded (nes s) = true ->
  exists r s' v d,
    exec i addrMode opaddr addr cycleAdd baseHigh cycleCount s = Ok r s'
    /\ bus ((if dummy_read addrMode cycleAdd then [BusRead addr d] else [])
            ++ rmw_pattern i addr (F_CARRY (cpu (nes s))) v)
           ((if dummy_read addrMode cycleAdd
             then through_mapper addr (MapLoad addr) else [])
            ++ rmw_calls i addr (F_CARRY (cpu (nes s))) v)
           s s'
    /\ dataBus (cpu (nes s')) = modified i (F_CARRY (cpu (nes s))) v.
Proof.
  intros Hi Hm Hl. apply Z.eqb_neq in Hm.
  destruct (indexed_dummy_read_bus addrMode cycleAdd addr s Hl)
    as (d & s1 & E1 & B1 & F1).
  assert (L1 : mmap_loaded (nes s1) = true)
    by (unfold bus in B1; intuition congruence).
  destruct (load_bus addr s1 L1) as (v & s2 & E2 & B2 & D2 & F2).
  assert (L2 : mmap_loaded (nes s2) = true)
    by (unfold bus in B2; intuition congruence).
  destruct (write_bus addr (written_back i v) s2 L2)
    as (s3 & E3 & B3 & D3 & F3).
  assert (L3 : mmap_loaded (nes s3) = true)
    by (unfold bus in B3; intuition congruence).
  pose proof (bus_trans _ _ _ _ _ _ _ (bus_trans _ _ _ _ _ _ _ B1 B2) B3)
    as B.
  assert (F : F_CARRY (cpu (nes s3)) = F_CARRY (cpu (nes s)))
    by congruence.
  clear B1 B2 B3 F1 F2 F3.
  destruct i; try discriminate Hi; cbv beta iota delta [exec];
    rewrite ?Hm;
    rewrite ?bind_assoc, (bind_ok _ _ _ _ _ E1);
    rewrite ?bind_assoc, (bind_ok _ _ _ _ _ E2);
    cbv zeta;
    rewrite ?bind_assoc, (bind_ok _ _ _ _ _ E3);
    repeat (progress (rewrite ?bind_assoc, ?bind_setc, ?bind_getc;
                      cbv beta zeta));
    (match goal with
     | |- context [(write addr ?w ≫= _) ?S] =>
         destruct (write_bus addr w S L3) as (s4 & E4 & B4 & D4 & _);
         rewrite (bind_ok _ _ _ _ _ E4);
         pose proof (bus_trans _ _ _ _ _ _ _ B (B4 : bus _ _ s3 s4)) as B'
     end);
    repeat (progress (rewrite ?bind_assoc, ?bind_ret, ?bind_setc,
                        ?bind_getc; cbv beta zeta));
    (eexists _, _, v, d; split; [reflexivity|]);
    (split; [refine (bus_eq _ _ _ _ _ _ B' _ _ : bus _ _ s s4)
            | cbn; rewrite D4; cbn; rewrite ?F; reflexivity ]);
    unfold rmw_pattern, rmw_calls; rewrite <- ?app_assoc; cbn;
    rewrite ?F; reflexivity.
Qed.
End ReadModifyWrite.

(** *** Crashes *)

Section Crash.
Context {W : Type} `{Devices W}.






(** [NES.reset] up to the call of [ppu.reset()]. *)
Definition reset_cpu (n : NES W) : NES W :=
  let n := if mmap_loaded n then mmap_reset n else n in
  set_cpu (CPU_reset (cpu n)) n.


Lemma reset_split s :
  reset s
  = (call_method ppu_reset;; call_method papu_reset;;
     setn (set_fpsFrameCount 0);; setn (set_crashed false))
      (set_nes (reset_cpu (nes s)) s).
Proof.
  unfold reset, reset_cpu.
  unfold mbind at 1 2 3, M_bind at 1 2 3, getn, when, setn at 1, setc.
  destruct (mmap_loaded (nes s)); reflexivity.
Qed.



(** With a [reset] method on the PPU and on the APU, [NES.reset] and
    [NES.loadROM] return and clear [crashed], and [frame] passes its
    test of [crashed] again. *)
Lemma reset_clears f g s :
  ppu_reset = Some f -> papu_reset = Some g ->
  exists s',
    reset s = Ok tt s' /\ crashed (nes s') = false
    /\ forall fuel, frame fuel s' = frame_run fuel s'.
Proof.
  intros Hf Hg. rewrite reset_split, Hf, Hg.
  eexists. split; [reflexivity|]. split; [reflexivity|].
  intros fuel. reflexivity.
Qed.

Lemma loadROM_clears f g s :
  ppu_reset = Some f -> papu_reset = Some g ->
  exists s',
    loadROM s = Ok tt s' /\ crashed (nes s') = false
    /\ forall fuel, frame fuel s' = frame_run fuel s'.
Proof.
  intros Hf Hg. destruct (reset_clears f g s Hf Hg) as (s1 & E1 & C1 & _).
  unfold loadROM. rewrite (bind_ok _ _ _ _ _ E1).
  assert (C : crashed (rom_install (set_mmap_loaded true (nes s1)))
              = false).
  { rewrite (private_crashed _ _ (rom_install_private _)). exact C1. }
  eexists. split; [reflexivity|]. split; [exact C|].
  intros fuel. unfold frame. cbn [nes set_nes]. rewrite C. reflexivity.
Qed.


End Crash.

(** *** The data bus *)

Section DataBus.
Context {W : Type} `{Devices W}.

(** The byte of an access. *)
Definition event_value (e : BusEvent) : Z :=
  match e with
  | BusRead _ v => v
  | BusWrite _ v => v
  end.

(** [dataBus] holds the byte of the last access, and a ROM is loaded. *)
Definition synced (s : St W) : Prop :=
  mmap_loaded (nes s) = true
  /\ match last (trace (ghost s)) with
     | Some e => dataBus (cpu (nes s)) = event_value e
     | None => True
     end.

(** [still m]: [m] leaves the accesses logged, [dataBus] and the loaded
    ROM as they are. *)
Definition still {A} (m : M W A) : Prop :=
  forall s,
    match m s with
    | Ok _ s' =>
        trace (ghost s') = trace (ghost s)
        /\ dataBus (cpu (nes s')) = dataBus (cpu (nes s))
        /\ mmap_loaded (nes s') = mmap_loaded (nes s)
    | Throw _ _ => True
    end.

Lemma still_keeps {A} (m : M W A) : still m -> keeps synced m.
Proof.
  intros Hm s Hs. specialize (Hm s). unfold synced in *.
  destruct (m s); [|exact Logic.I].
  destruct Hm as (-> & -> & ->). exact Hs.
Qed.

Lemma still_ret {A} (a : A) : still (mret a).
Proof. intros s. cbn. auto. Qed.

Lemma still_throw {A} e : still (throw (A:=A) e).
Proof. intros s. exact Logic.I. Qed.

Lemma still_bind {A B} (m : M W A) (k : A -> M W B) :
  still m -> (forall a, still (k a)) -> still (m ≫= k).
Proof.
  intros Hm Hk s. specialize (Hm s).
  unfold mbind, M_bind. destruct (m s) as [a s1|e s1]; [|exact Logic.I].
  specialize (Hk a s1). destruct (k a s1); [|exact Logic.I].
  destruct Hm as (? & ? & ?), Hk as (? & ? & ?).
  repeat split; congruence.
Qed.

Lemma still_when (b : bool) m : still m -> still (when b m).
Proof. destruct b; [auto | intros _; apply still_ret]. Qed.

Lemma still_getc {A} (f : CPU -> A) : still (getc f).
Proof. intros s. cbn. auto. Qed.

Lemma still_getp {A} (f : Timing -> A) : still (getp f).
Proof. intros s. cbn. auto. Qed.

Lemma still_getn {A} (f : NES W -> A) : still (getn f).
Proof. intros s. cbn. auto. Qed.

Lemma still_setp f : still (setp f).
Proof. intros s. cbn. auto. Qed.

Lemma still_setc f :
  (forall c, dataBus (f c) = dataBus c) -> still (setc f).
Proof. intros Hf s. cbn. rewrite Hf. auto. Qed.

Lemma still_calm {A} (m : M W A) : calm m -> still m.
Proof.
  intros Hm s. destruct (Hm s) as (a & s' & -> & V).
  unfold busview in V. injection V as ? ? ? ? ? ?. auto.
Qed.

Lemma still_setn (f : NES W -> NES W) :
  (forall n, private (f n) = private n) -> still (setn f).
Proof.
  intros Hf s. cbn.
  rewrite (private_cpu dataBus _ _ (fun _ => eq_refl) (Hf (nes s))).
  rewrite (private_loaded _ _ (Hf (nes s))). auto.
Qed.

Lemma still_note_mapper f :
  (forall g, trace (f g) = trace g) -> still (note f).
Proof. intros Hf s. cbn. rewrite Hf. auto. Qed.

Lemma still_mmap_do_load addr : still (mmap_do_load addr).
Proof.
  unfold mmap_do_load.
  apply still_bind; [apply still_getn | intros [|]]; [|apply still_throw].
  apply still_bind; [apply still_note_mapper; reflexivity | intros _].
  intros s. unfold calln.
  pose proof (mmap_load_private addr (nes s)) as Hp.
  destruct (mmap_load addr (nes s)) as [v n]. cbn in *.
  rewrite (private_cpu dataBus _ _ (fun _ => eq_refl) Hp).
  rewrite (private_loaded _ _ Hp). auto.
Qed.

Lemma still_mmap_do_write addr value : still (mmap_do_write addr value).
Proof.
  unfold mmap_do_write.
  apply still_bind; [apply still_getn | intros [|]]; [|apply still_throw].
  apply still_bind; [apply still_note_mapper; reflexivity | intros _].
  apply still_setn, mmap_write_private.
Qed.

(** A ROM is loaded. *)
Definition loaded (s : St W) : Prop := mmap_loaded (nes s) = true.

(** [dataBus] holds [v], the byte of the access about to be logged. *)
Definition pending (v : Z) (s : St W) : Prop :=
  mmap_loaded (nes s) = true /\ dataBus (cpu (nes s)) = v.

Lemma still_loaded {A} (m : M W A) : still m -> keeps loaded m.
Proof.
  intros Hm s Hs. specialize (Hm s). unfold loaded in *.
  destruct (m s); [|exact Logic.I]. destruct Hm as (_ & _ & ->). exact Hs.
Qed.

Lemma still_pending v {A} (m : M W A) : still m -> keeps (pending v) m.
Proof.
  intros Hm s Hs. specialize (Hm s). unfold pending in *.
  destruct (m s); [|exact Logic.I]. destruct Hm as (_ & -> & ->). exact Hs.
Qed.

Lemma synced_loaded s : synced s -> mmap_loaded (nes s) = true.
Proof. intros (? & _). assumption. Qed.

Lemma pending_loaded v s : pending v s -> mmap_loaded (nes s) = true.
Proof. intros (? & _). assumption. Qed.

Lemma loaded_loaded s : loaded s -> mmap_loaded (nes s) = true.
Proof. auto. Qed.

(** The assignment of [dataBus] that comes with an access. *)
Lemma hoare_set_dataBus (I : St W -> Prop) v :
  (forall s, I s -> mmap_loaded (nes s) = true) ->
  hoare I (setc (set_dataBus v)) (pending v).
Proof. intros HI s Hs. split; [exact (HI s Hs) | reflexivity]. Qed.

(** The log entry of that access. *)
Lemma hoare_log e : hoare (pending (event_value e)) (log e) synced.
Proof.
  intros s (Hl & Hd). split; [exact Hl|]. cbn.
  rewrite last_snoc. exact Hd.
Qed.

End DataBus.

Create HintDb sync discriminated.

#[local] Hint Resolve synced_loaded pending_loaded loaded_loaded : sync.

Ltac still_step :=
  lazymatch goal with
  | |- still (mret _) => apply still_ret
  | |- still (throw _) => apply still_throw
  | |- still (_ ≫= _) => apply still_bind; [| intros ?]
  | |- still (when _ _) => apply still_when
  | |- still (getc _) => apply still_getc
  | |- still (getp _) => apply still_getp
  | |- still (getn _) => apply still_getn
  | |- still (setp _) => apply still_setp
  | |- still (setc _) => apply still_setc; intros ?; reflexivity
  | |- still (mmap_do_load _) => apply still_mmap_do_load
  | |- still (mmap_do_write _ _) => apply still_mmap_do_write
  | |- still (if ?b then _ else _) => destruct b
  | |- still (match ?x with _ => _ end) => destruct x
  | |- still (let _ := _ in _) => cbv zeta
  | |- still _ => solve [auto 1 with sync nocore]
  end.

Ltac still_auto := repeat still_step.

(** One step of a proof that code keeps [dataBus] in step with the
    accesses it logs. *)
Ltac sync_step :=
  unfold keeps;
  lazymatch goal with
  | |- hoare _ (mret _) _ => apply keeps_ret
  | |- hoare _ (throw _) _ => apply keeps_throw
  | |- hoare _ (setc (set_dataBus ?v) ≫= _) _ =>
      eapply hoare_bind;
      [apply hoare_set_dataBus; solve [eauto 3 with sync nocore]
      | intros ?]
  | |- hoare (pending _) (log ?e ≫= _) _ =>
      eapply hoare_bind; [apply (hoare_log e) | intros ?]
  | |- hoare (pending _) (log ?e) _ => apply (hoare_log e)
  | |- hoare ?I (_ ≫= _) _ =>
      eapply (hoare_bind I I); [| intros ?]
  | |- hoare _ (when _ _) _ => apply keeps_when
  | |- hoare _ (if ?b then _ else _) _ => destruct b
  | |- hoare _ (match ?x with _ => _ end) _ => destruct x
  | |- hoare _ (let _ := _ in _) _ => cbv zeta
  | |- hoare synced _ synced =>
      first [ solve [auto 1 with sync nocore]
            | apply still_keeps; solve [still_auto] ]
  | |- hoare loaded _ loaded => apply still_loaded; solve [still_auto]
  | |- hoare (pending _) _ (pending _) =>
      apply still_pending; solve [still_auto]
  end.

Ltac sync_auto := repeat sync_step.

Section DataBusCycles.
Context {W : Type} `{Devices W}.

Lemma still_loadFromCartridge addr : still (loadFromCartridge addr).
Proof. unfold loadFromCartridge. still_auto. Qed.
#[local] Hint Resolve still_loadFromCartridge : sync.

Lemma still_ppuCatchUp : still ppuCatchUp.
Proof. apply still_calm, calm_ppuCatchUp. Qed.
#[local] Hint Resolve still_ppuCatchUp : sync.

Lemma still_mem_at i : still (W:=W) (mem_at i).
Proof. apply still_getc. Qed.
#[local] Hint Resolve still_mem_at : sync.

Lemma still_bump : still (W:=W) bump.
Proof. unfold bump. still_auto. Qed.
#[local] Hint Resolve still_bump : sync.

Lemma still_dmaDuringInstr : still (W:=W) dmaDuringInstr.
Proof. unfold dmaDuringInstr. still_auto. Qed.
#[local] Hint Resolve still_dmaDuringInstr : sync.

Lemma synced_load addr : hoare synced (load addr) synced.
Proof. unfold load. sync_auto. Qed.
#[local] Hint Resolve synced_load : sync.

Lemma synced_write addr val : hoare synced (write addr val) synced.
Proof. unfold write. sync_auto. Qed.
#[local] Hint Resolve synced_write : sync.

Lemma synced_push value : hoare synced (push value) synced.
Proof. unfold push. sync_auto. Qed.
#[local] Hint Resolve synced_push : sync.

Lemma synced_pull : hoare synced pull synced.
Proof. unfold pull. sync_auto. Qed.
#[local] Hint Resolve synced_pull : sync.

Lemma synced_load16bit addr : hoare synced (load16bit addr) synced.
Proof. unfold load16bit. sync_auto. Qed.
#[local] Hint Resolve synced_load16bit : sync.

Lemma synced_indexed base index : hoare synced (indexed base index) synced.
Proof. unfold indexed. sync_auto. Qed.
#[local] Hint Resolve synced_indexed : sync.

Lemma synced_indexed_dummy_read addrMode cycleAdd addr :
  hoare synced (indexed_dummy_read addrMode cycleAdd addr) synced.
Proof. unfold indexed_dummy_read. sync_auto. Qed.
#[local] Hint Resolve synced_indexed_dummy_read : sync.

Lemma synced_glitch_store cycleAdd addr val :
  hoare synced (glitch_store cycleAdd addr val) synced.
Proof. unfold glitch_store. sync_auto. Qed.
#[local] Hint Resolve synced_glitch_store : sync.

Lemma synced_branch opaddr addr cycleCount :
  hoare (W:=W) synced (branch opaddr addr cycleCount) synced.
Proof. unfold branch. sync_auto. Qed.
#[local] Hint Resolve synced_branch : sync.

(** Every addressing mode but the indirect one of JMP. *)
Lemma synced_addressing addrMode opaddr :
  mode_of addrMode <> Some ADDR_INDABS ->
  hoare synced (addressing addrMode opaddr) synced.
Proof.
  intros Hm. unfold addressing.
  destruct (mode_of addrMode) as [[]|]; try congruence; sync_auto.
Qed.

Lemma synced_fetch : hoare loaded fetch synced.
Proof. unfold fetch, reset_counters. sync_auto. Qed.

(** [this.dataBus = this.load(addr)], as in JSR: the assignment repeats
    the one that [load] has made. *)
Lemma synced_load_again addr {A} (k : M W A) :
  hoare synced k synced ->
  hoare synced (v ← load addr; setc (set_dataBus v);; k) synced.
Proof.
  intros Hk s Hs.
  destruct (load_bus addr s (synced_loaded s Hs))
    as (v & s1 & E & (T & _ & _ & L) & D & _).
  rewrite (bind_ok _ _ _ _ _ E), bind_setc.
  apply Hk. split; cbn.
  - rewrite L. exact (synced_loaded s Hs).
  - rewrite T, last_snoc. reflexivity.
Qed.

Lemma synced_exec i addrMode opaddr addr cycleAdd baseHigh cycleCount :
  hoare synced (exec i addrMode opaddr addr cycleAdd baseHigh cycleCount)
        synced.
Proof.
  unfold exec. destruct i; cbv beta iota;
    try (sync_auto; fail).
  eapply (hoare_bind synced synced); [sync_auto | intros pc].
  eapply (hoare_bind synced synced); [sync_auto | intros _].
  eapply (hoare_bind synced synced); [sync_auto | intros _].
  apply synced_load_again. sync_auto.
Qed.

(** The opcode of [JMP (addr)] is the only one with the indirect
    addressing mode. *)
Lemma indabs_only_6c opcode :
  opcode <> 0x6c ->
  mode_of ((JS.toInt (array_get opdata opcode) >> 8) .& 0xff)
  <> Some ADDR_INDABS.
Proof.
  intros Ho.
  pose (indabs := fun m : option Mode =>
                    match m with Some ADDR_INDABS => true | _ => false end).
  assert (Hb : indabs (mode_of ((JS.toInt (array_get opdata opcode) >> 8)
                                .& 0xff)) = false);
    [|intros Hm; rewrite Hm in Hb; discriminate].
  destruct (decide (0 <= opcode < 256)) as [Hr|Hr].
  - assert (Hall : ((opcode =? 0x6c)
                    || negb (indabs (mode_of
                         ((JS.toInt (array_get opdata opcode) >> 8)
                          .& 0xff)))) = true).
    { apply (JS.forall_below_spec 256
               (fun o => (o =? 0x6c)
                         || negb (indabs (mode_of
                              ((JS.toInt (array_get opdata o) >> 8)
                               .& 0xff))))); [|exact Hr].
      vm_compute. reflexivity. }
    apply orb_true_iff in Hall as [Hall|Hall];
      [apply Z.eqb_eq in Hall; lia|].
    apply negb_true_iff in Hall. exact Hall.
  - assert (E : array_get opdata opcode = None).
    { unfold array_get. destruct (0 <=? opcode) eqn:E0; [|reflexivity].
      apply Z.leb_le in E0. apply lookup_ge_None_2.
      change (length opdata) with 256%nat. lia. }
    rewrite E. reflexivity.
Qed.

(** When [emulate] returns from an instruction other than [JMP (addr)],
    [dataBus] holds the byte of the last access. *)
Lemma synced_execute opcode :
  opcode <> 0x6c -> hoare synced (execute opcode) synced.
Proof.
  intros Ho. unfold execute. cbv zeta.
  eapply (hoare_bind synced synced); [sync_auto | intros opaddr].
  eapply (hoare_bind synced synced); [sync_auto | intros _].
  eapply (hoare_bind synced synced);
    [apply synced_addressing, indabs_only_6c, Ho | intros [[addr ca] bh]].
  destruct (instr_of _); [apply synced_exec | apply keeps_throw].
Qed.

(** X1.  When [emulate] returns from an instruction other than
    [JMP (addr)], [dataBus] holds the byte of the last access the CPU
    made, whatever the instruction and the devices are. *)
Theorem dataBus_follows_bus (s s1 s' : St W) (opcode : Z) (c : option Z) :
  mmap_loaded (nes s) = true ->
  (check_interrupts;; fetch) s = Ok opcode s1 ->
  opcode <> 0x6c ->
  emulate s = Ok c s' ->
  synced s'.
Proof.
  intros Hl Ef Ho Ee.
  apply bind_inv in Ef as (u & sa & Ea & Ef).
  pose proof (quiet_inv _ _ _ _ quiet_check_interrupts Ea) as V.
  unfold view in V. injection V as _ _ V _ _ _ _ _.
  assert (La : loaded sa) by (unfold loaded; congruence).
  pose proof (synced_fetch sa La) as S1. rewrite Ef in S1.
  unfold emulate in Ee.
  rewrite (bind_ok _ _ _ _ _ Ea) in Ee.
  unfold mbind at 1, M_bind at 1, getn at 1 in Ee. rewrite La in Ee.
  rewrite (bind_ok _ _ _ _ _ Ef) in Ee.
  pose proof (synced_execute opcode Ho s1 S1) as S2.
  rewrite Ee in S2. exact S2.
Qed.

End DataBusCycles.

(** ** Closed examples on the small console *)

Section Examples.
#[local] Existing Instance Bench.devices.
#[local] Existing Instance APU.silent.

(** X3.  The opcodes that [setOp] never assigned are the twelve that
    halt a 6502. *)
Example unassigned_opcodes :
  filter (fun opcode => JS.toInt (array_get opdata opcode) = 0xff)
         (Z.of_nat <$> seq 0 256)
  = [0x02; 0x12; 0x22; 0x32; 0x42; 0x52; 0x62; 0x72; 0x92; 0xb2; 0xd2; 0xf2].
Proof. vm_compute. reflexivity. Qed.

(** C1.  [JMP ($0200)] reads the two bytes of its target from $0200 and
    $0201 without assigning [dataBus]: when [emulate] returns, the last
    byte read is $12 and [dataBus] still holds $02, the last byte of the
    operand. *)
Theorem jmp_indirect_stale_dataBus :
  exists s',
    emulate Bench.jmp_indirect = Ok (Some 5) s'
    /\ trace (ghost s')
       = [BusRead 0x8000 0x6c; BusRead 0x8001 0x00; BusRead 0x8002 0x02;
          BusRead 0x0200 0x34; BusRead 0x0201 0x12]
    /\ REG_PC (cpu (nes s')) = 0x1234 - 1
    /\ dataBus (cpu (nes s')) = 0x02
    /\ instrBusCycles (cpu (nes s')) = 3.
Proof.
  eexists. split; [vm_compute; reflexivity|].
  vm_compute. repeat split; reflexivity.
Qed.

(** C2, the statement as given: a frame that ends after 7 CPU cycles and
    no halt cycle has advanced 19 dots, not 21. *)
Lemma frame_dots_counterexample :
  frame 10 Bench.nop_loop = Ok true (final (frame 10 Bench.nop_loop))
  /\ dots (ghost (final (frame 10 Bench.nop_loop))) = 19
  /\ dropped (ghost (final (frame 10 Bench.nop_loop))) = 2
  /\ cpuCycles (ghost (final (frame 10 Bench.nop_loop))) = 7
  /\ stallCycles (ghost (final (frame 10 Bench.nop_loop))) = 0
  /\ 19 <> 3 * 7 + 3 * 0.
Proof. vm_compute. repeat split; try reflexivity. discriminate. Qed.

Lemma frame_dots_accounted_witness :
  (dots (ghost (final (frame 10 Bench.nop_loop)))
   - dots (ghost Bench.nop_loop))
  + (dropped (ghost (final (frame 10 Bench.nop_loop)))
     - dropped (ghost Bench.nop_loop))
  = 3 * (cpuCycles (ghost (final (frame 10 Bench.nop_loop)))
         - cpuCycles (ghost Bench.nop_loop))
    + 3 * (stallCycles (ghost (final (frame 10 Bench.nop_loop)))
           - stallCycles (ghost Bench.nop_loop))
  /\ 1 <= dropped (ghost (final (frame 10 Bench.nop_loop)))
          - dropped (ghost Bench.nop_loop)
  /\ dots (ghost (final (frame 10 Bench.nop_loop)))
     - dots (ghost Bench.nop_loop)
     < 3 * (cpuCycles (ghost (final (frame 10 Bench.nop_loop)))
            - cpuCycles (ghost Bench.nop_loop))
       + 3 * (stallCycles (ghost (final (frame 10 Bench.nop_loop)))
              - stallCycles (ghost Bench.nop_loop)).
Proof.
  apply (frame_dots_accounted 10 Bench.nop_loop
           (final (frame 10 Bench.nop_loop))).
  - reflexivity.
  - vm_compute. reflexivity.
  - vm_compute. reflexivity.
Defined.

(** C3.  A read of $4015 goes from [load] to the mapper and from there
    to [readReg]: the frame counter stays where it was, whatever
    [instrBusCycles] is. *)
Theorem read_4015_no_catch_up (s : St (APU.t unit)) :
  mmap_loaded (nes s) = true ->
  exists v s',
    load 0x4015 s = Ok v s'
    /\ APU.frameCycleCounter (world (nes s'))
       = APU.frameCycleCounter (world (nes s))
    /\ APU.frameStep (world (nes s')) = APU.frameStep (world (nes s))
    /\ APU.chan (world (nes s')) = APU.chan (world (nes s)).
Proof.
  intros Hl.
  assert (EL : exists v active,
             Bench.load 0x4015 (nes s)
             = (v, set_world (APU.set_frameIrqActive active (world (nes s)))
                             (nes s))).
  { unfold Bench.load, Bench.regLoad, APU.readReg.
    destruct (APU.lengthStatus (APU.chan (world (nes s))))
      as [[[[? ?] ?] ?] ?].
    eexists _, _. reflexivity. }
  destruct EL as (v0 & active & EL).
  unfold load, loadFromCartridge, mmap_do_load.
  unfold mbind, M_bind, when, getn, note, calln, getc, setc, log, bump.
  cbn. rewrite Hl. cbn. rewrite EL. cbn.
  destruct (enabled (gameGenie (nes s))
            && (0 <? Z.of_nat (length (patches (gameGenie (nes s))))));
    eexists _, _; (split; [reflexivity|]); cbn; auto.
Qed.

Lemma read_4015_no_catch_up_witness :
  exists v s',
    load 0x4015 Bench.step_due = Ok v s'
    /\ APU.frameCycleCounter (world (nes s'))
       = APU.frameCycleCounter (world (nes Bench.step_due))
    /\ APU.frameStep (world (nes s'))
       = APU.frameStep (world (nes Bench.step_due))
    /\ APU.chan (world (nes s')) = APU.chan (world (nes Bench.step_due)).
Proof. apply (read_4015_no_catch_up Bench.step_due). reflexivity. Defined.

(** What the catch-up would have done in that state: the first step of
    the sequence is due after 3 more cycles. *)
Example read_4015_catch_up_due :
  instrBusCycles (cpu (nes Bench.step_due)) = 3
  /\ APU.frameStep (world (nes (final (load 0x4015 Bench.step_due)))) = 0
  /\ APU.frameStep
       (APU.advanceFrameCounter 3 (world (nes Bench.step_due))) = 1.
Proof. vm_compute. repeat split; reflexivity. Qed.

Lemma rmw_bus_cycles_witness :
  exists r s' v d,
    exec INC 0 0x7fff 0x10 0 0 5 Bench.inc_ram = Ok r s'
    /\ bus ((if dummy_read 0 0 then [BusRead 0x10 d] else [])
            ++ rmw_pattern INC 0x10 (F_CARRY (cpu (nes Bench.inc_ram))) v)
           ((if dummy_read 0 0
             then through_mapper 0x10 (MapLoad 0x10) else [])
            ++ rmw_calls INC 0x10 (F_CARRY (cpu (nes Bench.inc_ram))) v)
           Bench.inc_ram s'
    /\ dataBus (cpu (nes s'))
       = modified INC (F_CARRY (cpu (nes Bench.inc_ram))) v.
Proof.
  apply (rmw_bus_cycles INC 0 0x7fff 0x10 0 0 5 Bench.inc_ram).
  - reflexivity.
  - discriminate.
  - reflexivity.
Defined.

(** C6, the statement as given: [INC $10] makes both of its writes
    without a call of [mmap.write]; the mapper is called for the opcode
    and the operand only. *)
Lemma rmw_mapper_counterexample :
  trace (ghost (final (emulate Bench.inc_ram)))
  = [BusRead 0x8000 0xe6; BusRead 0x8001 0x10; BusRead 0x10 0x41;
     BusWrite 0x10 0x41; BusWrite 0x10 0x42]
  /\ mapper (ghost (final (emulate Bench.inc_ram)))
     = [MapLoad 0x8000; MapLoad 0x8001]
  /\ dataBus (cpu (nes (final (emulate Bench.inc_ram)))) = 0x42.
Proof. vm_compute. repeat split; reflexivity. Qed.

(** [NOP] at $8000 and the unassigned opcode $02 behind it: the second
    pass of the frame loop fetches it. *)
Definition nop_crash : St Bench.W :=
  Bench.console [(0x8000, 0xea); (0x8001, 0x02)].

(** The console when the first pass of the frame loop is done. *)
Definition nop_done : St Bench.W :=
  final ((setn ppu_startFrame;; frame_loop 1) nop_crash).


(** The second pass is the one that throws: the first has run [NOP] and
    left the program counter at $8000, and the error names that
    address. *)
Example nop_crash_second_pass :
  (setn ppu_startFrame;; frame_loop 1) nop_crash = Ok false nop_done
  /\ REG_PC (cpu (nes nop_crash)) = 0x7fff
  /\ REG_PC (cpu (nes nop_done)) = 0x8000
  /\ (exists s3, frame 2 nop_crash = Throw (InvalidOpcode 0x8000) s3).
Proof.
  split; [vm_compute; reflexivity|]. split; [reflexivity|].
  split; [vm_compute; reflexivity|].
  eexists. vm_compute. reflexivity.
Qed.

Lemma dataBus_follows_bus_witness :
  synced (final (emulate Bench.inc_ram)).
Proof.
  apply (dataBus_follows_bus Bench.inc_ram
           (final ((check_interrupts;; fetch) Bench.inc_ram))
           (final (emulate Bench.inc_ram)) 0xe6 (Some 5)).
  - reflexivity.
  - vm_compute. reflexivity.
  - discriminate.
  - vm_compute. reflexivity.
Defined.

Lemma catch_up_dots_counted_witness :
  (dots (ghost (final (emulate Bench.lda_status)))
   - dots (ghost Bench.lda_status))
  + (dropped (ghost (final (emulate Bench.lda_status)))
     - dropped (ghost Bench.lda_status))
  = ppuCatchupDots (cpu (nes (final (emulate Bench.lda_status))))
  /\ dropped (ghost Bench.lda_status)
     <= dropped (ghost (final (emulate Bench.lda_status)))
  /\ (ppuFrameEnded (cpu (nes (final (emulate Bench.lda_status)))) = true ->
      dropped (ghost Bench.lda_status) + 1
      <= dropped (ghost (final (emulate Bench.lda_status)))).
Proof.
  apply (catch_up_dots_counted Bench.lda_status
           (final (emulate Bench.lda_status)) (Some 4)).
  - reflexivity.
  - vm_compute. reflexivity.
Defined.

(** [LDA $2002] reads the status port as its fourth bus cycle: catch-up
    advances nine dots before the read. *)
Example lda_status_catch_up :
  dots (ghost (final (emulate Bench.lda_status))) = 9
  /\ ppuCatchupDots (cpu (nes (final (emulate Bench.lda_status)))) = 9
  /\ curX (ppu (nes (final (emulate Bench.lda_status)))) = 9.
Proof. vm_compute. repeat split; reflexivity. Qed.

End Examples.

(** ** The processor, instruction by instruction *)

Definition signed (v : Z) : Z := if v <? 128 then v else v - 256.

Section Arith.
Context {W : Type} `{Devices W}.

Lemma load_ram addr (s : St W) :
  addr < 0x2000 ->
  load addr s
  = let v := JS.toInt (mem (cpu (nes s)) !! (addr .& 0x7ff)) in
    Ok v (mkSt (set_cpu (set_instrBusCycles (instrBusCycles (cpu (nes s)) + 1)
                           (set_dataBus v (cpu (nes s)))) (nes s))
               (set_trace (trace (ghost s) ++ [BusRead addr v]) (ghost s))).
Proof.
  intros Ha. unfold load, in_ppu_range.
  assert (E1 : (0x2000 <=? addr) = false) by lia.
  assert (E2 : (addr <? 0x2000) = true) by lia.
  rewrite E1, E2. cbn. destruct s as [n g]. cbn. reflexivity.
Qed.

Lemma bind_load_ram {B} addr (k : Z -> M W B) (s : St W) :
  addr < 0x2000 ->
  (load addr ≫= k) s
  = k (JS.toInt (mem (cpu (nes s)) !! (addr .& 0x7ff)))
      (mkSt (set_cpu (set_instrBusCycles (instrBusCycles (cpu (nes s)) + 1)
                        (set_dataBus
                           (JS.toInt (mem (cpu (nes s)) !! (addr .& 0x7ff)))
                           (cpu (nes s)))) (nes s))
            (set_trace (trace (ghost s)
                        ++ [BusRead addr
                              (JS.toInt (mem (cpu (nes s)) !! (addr .& 0x7ff)))])
                       (ghost s))).
Proof.
  intros Ha. unfold mbind at 1, M_bind at 1. rewrite load_ram by exact Ha.
  reflexivity.
Qed.

Lemma bind_getn {A B} (f : NES W -> A) (k : A -> M W B) s :
  (getn f ≫= k) s = k (f (nes s)) s.
Proof. reflexivity. Qed.

Lemma bind_setn {B} f (k : unit -> M W B) s :
  (setn f ≫= k) s = k tt (set_nes (f (nes s)) s).
Proof. reflexivity. Qed.

Lemma bind_getp {A B} (f : Timing -> A) (k : A -> M W B) s :
  (getp f ≫= k) s = k (f (ppu (nes s))) s.
Proof. reflexivity. Qed.

Lemma bind_note {B} f (k : unit -> M W B) s :
  (note f ≫= k) s = k tt (set_ghost (f (ghost s)) s).
Proof. reflexivity. Qed.

Lemma bind_log {B} e (k : unit -> M W B) s :
  (log e ≫= k) s
  = k tt (set_ghost (set_trace (trace (ghost s) ++ [e]) (ghost s)) s).
Proof. reflexivity. Qed.

Lemma bind_calln {A B} (f : NES W -> A * NES W) (k : A -> M W B) s :
  (calln f ≫= k) s = k (f (nes s)).1 (set_nes (f (nes s)).2 s).
Proof.
  unfold mbind, M_bind, calln. destruct (f (nes s)). reflexivity.
Qed.
End Arith.

(** Projections of updated records. *)
Ltac norm_state :=
  unfold set_nes, set_ghost, set_cpu, set_ppu, set_gameGenie, set_mmap_loaded,
    set_crashed, set_fpsFrameCount, set_world;
  cbn [mem REG_ACC REG_X REG_Y REG_SP REG_PC REG_PC_NEW F_CARRY F_DECIMAL
       F_INTERRUPT F_INTERRUPT_NEW F_OVERFLOW F_SIGN F_ZERO F_NOTUSED F_BRK
       F_BRK_NEW cyclesToHalt irqRequested irqType dataBus instrBusCycles
       ppuCatchupDots ppuFrameEnded _dmcFetchCycles apuCatchupCycles
       set_mem set_REG_ACC set_REG_X set_REG_Y set_REG_SP set_REG_PC
       set_REG_PC_NEW set_F_CARRY set_F_DECIMAL set_F_INTERRUPT
       set_F_INTERRUPT_NEW set_F_OVERFLOW set_F_SIGN set_F_ZERO
       set_F_NOTUSED set_F_BRK set_F_BRK_NEW set_cyclesToHalt
       set_irqRequested set_irqType set_dataBus set_instrBusCycles
       set_ppuCatchupDots set_ppuFrameEnded set__dmcFetchCycles
       set_apuCatchupCycles curX scanline spr0HitX spr0HitY f_spVisibility
       requestEndFrame nmiCounter set_curX set_scanline set_spr0HitX
       set_spr0HitY set_f_spVisibility set_requestEndFrame set_nmiCounter
       cpu ppu gameGenie mmap_loaded crashed fpsFrameCount world set_cpu
       set_ppu set_gameGenie set_mmap_loaded set_crashed set_fpsFrameCount
       set_world trace mapper dots dropped excess cpuCycles stallCycles
       set_trace set_mapper set_dots set_dropped set_excess set_cpuCycles
       set_stallCycles nes ghost set_nes set_ghost enabled patches fst snd].

Ltac norm_state_in H :=
  cbn [mem REG_ACC REG_X REG_Y REG_SP REG_PC REG_PC_NEW F_CARRY F_DECIMAL
       F_INTERRUPT F_INTERRUPT_NEW F_OVERFLOW F_SIGN F_ZERO F_NOTUSED F_BRK
       F_BRK_NEW cyclesToHalt irqRequested irqType dataBus instrBusCycles
       ppuCatchupDots ppuFrameEnded _dmcFetchCycles apuCatchupCycles
       set_mem set_REG_ACC set_REG_X set_REG_Y set_REG_SP set_REG_PC
       set_REG_PC_NEW set_F_CARRY set_F_DECIMAL set_F_INTERRUPT
       set_F_INTERRUPT_NEW set_F_OVERFLOW set_F_SIGN set_F_ZERO
       set_F_NOTUSED set_F_BRK set_F_BRK_NEW set_cyclesToHalt
       set_irqRequested set_irqType set_dataBus set_instrBusCycles
       set_ppuCatchupDots set_ppuFrameEnded set__dmcFetchCycles
       set_apuCatchupCycles curX scanline spr0HitX spr0HitY f_spVisibility
       requestEndFrame nmiCounter set_curX set_scanline set_spr0HitX
       set_spr0HitY set_f_spVisibility set_requestEndFrame set_nmiCounter
       cpu ppu gameGenie mmap_loaded crashed fpsFrameCount world set_cpu
       set_ppu set_gameGenie set_mmap_loaded set_crashed set_fpsFrameCount
       set_world trace mapper dots dropped excess cpuCycles stallCycles
       set_trace set_mapper set_dots set_dropped set_excess set_cpuCycles
       set_stallCycles nes ghost set_nes set_ghost enabled patches fst snd] in H.

Ltac run_cpu :=
  repeat (progress (rewrite ?bind_assoc, ?bind_ret;
                    try first [ rewrite bind_setc | rewrite bind_getc
                              | rewrite bind_getn | rewrite bind_setn
                              | rewrite bind_getp | rewrite bind_log
                              | rewrite bind_note | rewrite bind_calln ];
                    cbv beta zeta; norm_state)).

(** The overflow test of ADC. *)
Definition adc_overflow (a m temp : Z) : bool :=
  (((a .^ m) .& 0x80) =? 0) && negb (((a .^ temp) .& 0x80) =? 0).

Definition in_signed_byte (v : Z) : bool := (-128 <=? v) && (v <=? 127).

Definition adc_check (a m carry : Z) : bool :=
  let temp := a + m + carry in
  ((temp .& 255) + 256 * (if 255 <? temp then 1 else 0) =? temp)
  && (0 <=? temp .& 255) && (temp .& 255 <=? 255)
  && Bool.eqb (adc_overflow a m temp)
              (negb (in_signed_byte (signed a + signed m + carry)))
  && (sign temp =? (if 128 <=? temp .& 255 then 1 else 0)).

Lemma adc_check_all a m carry :
  0 <= a <= 255 -> 0 <= m <= 255 -> 0 <= carry <= 1 ->
  adc_check a m carry = true.
Proof.
  intros Ha Hm Hc.
  assert (A : JS.forall_below 256 (fun a => JS.forall_below 256 (fun m =>
                JS.forall_below 2 (fun c => adc_check a m c))) = true)
    by (vm_compute; reflexivity).
  pose proof (JS.forall_below_spec _ _ A a ltac:(lia)) as A1. cbv beta in A1.
  pose proof (JS.forall_below_spec _ _ A1 m ltac:(lia)) as A2. cbv beta in A2.
  exact (JS.forall_below_spec _ _ A2 carry ltac:(lia)).
Qed.

Lemma adc_arith a m carry :
  0 <= a <= 255 -> 0 <= m <= 255 -> 0 <= carry <= 1 ->
  let temp := a + m + carry in
  (temp .& 255) + 256 * (if 255 <? temp then 1 else 0) = temp
  /\ 0 <= temp .& 255 <= 255
  /\ (adc_overflow a m temp = true
      <-> ~ (-128 <= signed a + signed m + carry <= 127))
  /\ sign temp = (if 128 <=? temp .& 255 then 1 else 0).
Proof.
  intros Ha Hm Hc temp.
  pose proof (adc_check_all a m carry Ha Hm Hc) as K.
  unfold adc_check in K. fold temp in K.
  apply andb_prop in K as [K K5]. apply andb_prop in K as [K K4].
  apply andb_prop in K as [K K3]. apply andb_prop in K as [K1 K2].
  apply Z.eqb_eq in K1. apply Z.leb_le in K2, K3. apply Z.eqb_eq in K5.
  apply eqb_prop in K4.
  split; [exact K1|]. split; [lia|]. split; [|exact K5].
  rewrite K4. unfold in_signed_byte.
  destruct (-128 <=? signed a + signed m + carry) eqn:E1;
    destruct (signed a + signed m + carry <=? 127) eqn:E2; cbn; split;
    intros; try discriminate; try reflexivity; lia.
Qed.

Section Adc.
Context {W : Type} `{Devices W}.

(** X5.  [ADC] on an operand in RAM adds the accumulator, the operand and
    the carry as bytes: the new accumulator and the new carry hold the sum,
    [F_OVERFLOW] is set exactly when the sum of the signed values leaves
    -128..127, [F_SIGN] is bit 7 of the result and [F_ZERO] the result; the
    operand is read from the bus twice. *)
Theorem adc_adds_with_carry addrMode opaddr addr cycleAdd baseHigh cycleCount
    (s : St W) :
  let a := REG_ACC (cpu (nes s)) in
  let m := JS.toInt (mem (cpu (nes s)) !! (addr .& 0x7ff)) in
  let carry := F_CARRY (cpu (nes s)) in
  addr < 0x2000 ->
  0 <= a <= 255 -> 0 <= m <= 255 -> 0 <= carry <= 1 ->
  exists s',
    exec ADC addrMode opaddr addr cycleAdd baseHigh cycleCount s
    = Ok (Some (cycleCount + cycleAdd)) s'
    /\ REG_ACC (cpu (nes s')) + 256 * F_CARRY (cpu (nes s')) = a + m + carry
    /\ 0 <= REG_ACC (cpu (nes s')) <= 255
    /\ (F_OVERFLOW (cpu (nes s')) = 1
        <-> ~ (-128 <= signed a + signed m + carry <= 127))
    /\ F_SIGN (cpu (nes s')) = (if 128 <=? REG_ACC (cpu (nes s')) then 1 else 0)
    /\ F_ZERO (cpu (nes s')) = REG_ACC (cpu (nes s'))
    /\ trace (ghost s') = trace (ghost s) ++ [BusRead addr m; BusRead addr m].
Proof.
  intros a m carry Ha Hacc Hm Hc.
  destruct (adc_arith a m carry Hacc Hm Hc) as (K1 & K2 & K3 & K4).
  subst a m carry.
  unfold exec.
  unfold mbind at 1, M_bind at 1, getc at 1.
  unfold mbind at 1, M_bind at 1. rewrite (load_ram addr s Ha). cbv zeta.
  unfold mbind at 1, M_bind at 1, getc at 1.
  unfold mbind at 1, M_bind at 1, getc at 1.
  unfold mbind at 1, M_bind at 1. rewrite load_ram by exact Ha. cbv zeta.
  destruct s as [[c p g l cr f w] gh].
  cbn -[Z.land Z.lxor Z.shiftr Z.add Z.mul sign adc_overflow] in *.
  eexists. split; [reflexivity|].
  cbn -[Z.land Z.lxor Z.shiftr Z.add Z.mul sign adc_overflow].
  split; [exact K1|]. split; [exact K2|].
  split.
  { rewrite <- K3. unfold adc_overflow.
    destruct (_ && _); split; intros; try discriminate; reflexivity. }
  split; [exact K4|]. split; [reflexivity|].
  rewrite <- app_assoc. reflexivity.
Qed.
End Adc.





Section Sbc.
Context {W : Type} `{Devices W}.

End Sbc.

(** The register that a compare instruction reads. *)
Definition compared (i : Instr) (c : CPU) : option Z :=
  match i with
  | CMP => Some (REG_ACC c)
  | CPX => Some (REG_X c)
  | CPY => Some (REG_Y c)
  | _ => None
  end.

Definition cmp_check (r m : Z) : bool :=
  let temp := r - m in
  Bool.eqb (0 <=? temp) (m <=? r)
  && Bool.eqb ((temp .& 0xff) =? 0) (r =? m)
  && (sign temp =? (if 128 <=? (r - m) mod 256 then 1 else 0)).

Lemma cmp_arith r m :
  0 <= r <= 255 -> 0 <= m <= 255 ->
  ((if 0 <=? r - m then 1 else 0) = 1 <-> m <= r)
  /\ (((r - m) .& 0xff) = 0 <-> r = m)
  /\ sign (r - m) = (if 128 <=? (r - m) mod 256 then 1 else 0).
Proof.
  intros Hr Hm.
  assert (A : JS.forall_below 256 (fun r => JS.forall_below 256 (fun m =>
                cmp_check r m)) = true)
    by (vm_compute; reflexivity).
  pose proof (JS.forall_below_spec _ _ A r ltac:(lia)) as A1. cbv beta in A1.
  pose proof (JS.forall_below_spec _ _ A1 m ltac:(lia)) as K.
  unfold cmp_check in K. cbv zeta in K.
  apply andb_prop in K as [K K3]. apply andb_prop in K as [K1 K2].
  apply eqb_prop in K1, K2. apply Z.eqb_eq in K3.
  split; [|split; [|exact K3]].
  - destruct (0 <=? r - m) eqn:E; split; intros; try reflexivity; lia.
  - rewrite <- Z.eqb_eq, K2, Z.eqb_eq. reflexivity.
Qed.

Section Compare.
Context {W : Type} `{Devices W}.

(** X7.  [CMP], [CPX] and [CPY] on an operand in RAM compare the register
    with the operand: the carry is set exactly when the register is not
    below the operand, [F_ZERO] is 0 exactly when they are equal, [F_SIGN]
    is bit 7 of the difference, and the registers and memory are left as
    they were; only [CMP] adds the page-crossing cycle. *)
Theorem compare_sets_flags i addrMode opaddr addr cycleAdd baseHigh cycleCount
    (s : St W) (r : Z) :
  let m := JS.toInt (mem (cpu (nes s)) !! (addr .& 0x7ff)) in
  compared i (cpu (nes s)) = Some r ->
  addr < 0x2000 ->
  0 <= r <= 255 -> 0 <= m <= 255 ->
  exists s',
    exec i addrMode opaddr addr cycleAdd baseHigh cycleCount s
    = Ok (Some (cycleCount + match i with CMP => cycleAdd | _ => 0 end)) s'
    /\ (F_CARRY (cpu (nes s')) = 1 <-> m <= r)
    /\ (F_ZERO (cpu (nes s')) = 0 <-> r = m)
    /\ F_SIGN (cpu (nes s')) = (if 128 <=? (r - m) mod 256 then 1 else 0)
    /\ REG_ACC (cpu (nes s')) = REG_ACC (cpu (nes s))
    /\ REG_X (cpu (nes s')) = REG_X (cpu (nes s))
    /\ REG_Y (cpu (nes s')) = REG_Y (cpu (nes s))
    /\ mem (cpu (nes s')) = mem (cpu (nes s)).
Proof.
  intros m Hi Ha Hr Hm.
  destruct (cmp_arith r m Hr Hm) as (K1 & K2 & K3). subst m.
  destruct i; try discriminate Hi; injection Hi as <-;
    unfold exec; run_cpu; rewrite bind_load_ram by exact Ha; run_cpu;
    destruct s as [[c p g l cr f w] gh];
    (eexists; split; [rewrite ?Z.add_0_r; reflexivity|]);
    cbn -[Z.land Z.shiftr Z.sub sign Z.modulo] in *; auto 10.
Qed.
End Compare.

(** *** The stack *)

Section Stack.
Context {W : Type} `{Devices W}.

(** [Mapper0.write] below $2000: the 2 KiB of RAM, mirrored. *)
Definition ram_write (a v : Z) (n : NES W) : NES W :=
  set_cpu (set_mem (<[ a .& 0x7ff := v ]> (mem (cpu n))) (cpu n)) n.

(** The mapper decodes $0000-$1FFF as [Mapper0.write] and [Mapper0.load]
    do. *)
Definition ram_mapped : Prop :=
  forall a n, 0 <= a < 0x2000 ->
    (forall v, mmap_write a v n = ram_write a v n)
    /\ mmap_load a n = (JS.toInt (mem (cpu n) !! (a .& 0x7ff)), n).

(** The state that [push] leaves. *)
Definition after_push (v : Z) (s : St W) : St W :=
  let c := cpu (nes s) in
  let a := REG_SP c .| 0x100 in
  mkSt (set_cpu (set_instrBusCycles (instrBusCycles c + 1)
                   (set_REG_SP ((REG_SP c - 1) .& 0xff)
                      (set_mem (<[ a .& 0x7ff := v ]> (mem c))
                         (set_dataBus v c))))
                (nes s))
       (set_trace (trace (ghost s) ++ [BusWrite a v])
          (set_mapper (mapper (ghost s) ++ [MapWrite a v]) (ghost s))).

(** The value that [pull] returns and the state that it leaves. *)
Definition pulled (s : St W) : Z :=
  let c := cpu (nes s) in
  JS.toInt (mem c !! ((0x100 .| ((REG_SP c + 1) .& 0xff)) .& 0x7ff)).

Definition after_pull (s : St W) : St W :=
  let c := cpu (nes s) in
  let a := 0x100 .| ((REG_SP c + 1) .& 0xff) in
  mkSt (set_cpu (set_instrBusCycles (instrBusCycles c + 1)
                   (set_dataBus (pulled s)
                      (set_REG_SP ((REG_SP c + 1) .& 0xff) c)))
                (nes s))
       (set_trace (trace (ghost s) ++ [BusRead a (pulled s)])
          (set_mapper (mapper (ghost s) ++ [MapLoad a]) (ghost s))).

Lemma stack_address sp :
  0 <= sp <= 0x1ff ->
  0 <= sp .| 0x100 < 0x2000
  /\ (sp .| 0x100) .& 0x7ff = 0x100 + sp mod 256
  /\ (sp - 1) .& 0xff = (sp - 1) mod 256
  /\ (sp + 1) .& 0xff = (sp + 1) mod 256
  /\ 0x100 .| sp = sp .| 0x100.
Proof.
  intros Hs.
  assert (A : JS.forall_below 512 (fun sp =>
            (0 <=? sp .| 0x100) && (sp .| 0x100 <? 0x2000)
            && ((sp .| 0x100) .& 0x7ff =? 0x100 + sp mod 256)
            && ((sp - 1) .& 0xff =? (sp - 1) mod 256)
            && ((sp + 1) .& 0xff =? (sp + 1) mod 256)
            && (0x100 .| sp =? sp .| 0x100)) = true)
    by (vm_compute; reflexivity).
  pose proof (JS.forall_below_spec _ _ A sp ltac:(lia)) as K. cbv beta in K.
  repeat (apply andb_prop in K as [K ?]). lia.
Qed.

Lemma push_ram v (s : St W) :
  ram_mapped -> mmap_loaded (nes s) = true ->
  0 <= REG_SP (cpu (nes s)) <= 0x1ff ->
  push v s = Ok tt (after_push v s).
Proof.
  intros Hr Hl Hs. unfold push, mmap_do_write, after_push, bump.
  destruct (stack_address _ Hs) as (A1 & _).
  run_cpu. rewrite Hl. run_cpu.
  rewrite (proj1 (Hr _ _ A1)). unfold setc, ram_write. norm_state.
  destruct s as [n g]. reflexivity.
Qed.

Lemma pull_ram (s : St W) :
  ram_mapped -> mmap_loaded (nes s) = true ->
  0 <= REG_SP (cpu (nes s)) <= 0x1ff ->
  pull s = Ok (pulled s) (after_pull s).
Proof.
  intros Hr Hl Hs. unfold pull, mmap_do_load, after_pull, pulled, bump.
  assert (A1 : 0 <= 0x100 .| ((REG_SP (cpu (nes s)) + 1) .& 0xff) < 0x2000).
  { destruct (stack_address _ Hs) as (_ & _ & _ & E & _). rewrite E.
    pose proof (Z.mod_pos_bound (REG_SP (cpu (nes s)) + 1) 256 ltac:(lia)) as B.
    destruct (stack_address ((REG_SP (cpu (nes s)) + 1) mod 256) ltac:(lia))
      as (B1 & _ & _ & _ & B2). rewrite B2. exact B1. }
  run_cpu. rewrite Hl. run_cpu.
  rewrite (proj2 (Hr _ _ A1)). unfold setc. norm_state.
  destruct s as [[c p g l cr f w] gh]. reflexivity.
Qed.

Lemma bind_push {B} v (k : unit -> M W B) (s : St W) :
  ram_mapped -> mmap_loaded (nes s) = true ->
  0 <= REG_SP (cpu (nes s)) <= 0x1ff ->
  (push v ≫= k) s = k tt (after_push v s).
Proof.
  intros. unfold mbind at 1, M_bind at 1. rewrite push_ram by assumption.
  reflexivity.
Qed.

Lemma bind_pull {B} (k : Z -> M W B) (s : St W) :
  ram_mapped -> mmap_loaded (nes s) = true ->
  0 <= REG_SP (cpu (nes s)) <= 0x1ff ->
  (pull ≫= k) s = k (pulled s) (after_pull s).
Proof.
  intros. unfold mbind at 1, M_bind at 1. rewrite pull_ram by assumption.
  reflexivity.
Qed.

End Stack.

Section Lifo.
Context {W : Type} `{Devices W}.

(** Pushes of the bytes of a list, first to last, and [n] pulls. *)
Fixpoint push_all (vs : list Z) : M W unit :=
  match vs with
  | [] => mret tt
  | v :: vs' => push v;; push_all vs'
  end.

Fixpoint pull_n (n : nat) : M W (list Z) :=
  match n with
  | O => mret []
  | S n' => v ← pull; vs ← pull_n n'; mret (v :: vs)
  end.

(** The cell of [cpu.mem] that a stack pointer designates. *)
Definition stack_cell (sp : Z) : Z := 0x100 + sp mod 256.

Definition stack_ok (s : St W) : Prop :=
  mmap_loaded (nes s) = true /\ 0 <= REG_SP (cpu (nes s)) <= 0x1ff.

Lemma after_push_spec v (s : St W) :
  stack_ok s ->
  stack_ok (after_push v s)
  /\ REG_SP (cpu (nes (after_push v s))) = (REG_SP (cpu (nes s)) - 1) mod 256
  /\ mem (cpu (nes (after_push v s)))
     = <[ stack_cell (REG_SP (cpu (nes s))) := v ]> (mem (cpu (nes s))).
Proof.
  intros [Hl Hs]. destruct (stack_address _ Hs) as (_ & E1 & E2 & _).
  unfold after_push, stack_ok, stack_cell. norm_state.
  rewrite E1, E2.
  pose proof (Z.mod_pos_bound (REG_SP (cpu (nes s)) - 1) 256 ltac:(lia)).
  repeat split; try assumption; lia.
Qed.

Lemma after_pull_spec (s : St W) :
  stack_ok s ->
  stack_ok (after_pull s)
  /\ REG_SP (cpu (nes (after_pull s))) = (REG_SP (cpu (nes s)) + 1) mod 256
  /\ mem (cpu (nes (after_pull s))) = mem (cpu (nes s))
  /\ pulled s
     = JS.toInt (mem (cpu (nes s)) !! stack_cell (REG_SP (cpu (nes s)) + 1)).
Proof.
  intros [Hl Hs]. destruct (stack_address _ Hs) as (_ & _ & _ & E3 & _).
  unfold after_pull, pulled, stack_ok, stack_cell. norm_state.
  rewrite E3.
  pose proof (Z.mod_pos_bound (REG_SP (cpu (nes s)) + 1) 256 ltac:(lia)) as B.
  destruct (stack_address ((REG_SP (cpu (nes s)) + 1) mod 256) ltac:(lia))
    as (_ & E1 & _ & _ & E5).
  rewrite E5, E1, Z.mod_mod by lia.
  repeat split; try assumption; lia.
Qed.

Lemma push_all_spec vs : forall s : St W,
  ram_mapped -> stack_ok s -> (length vs <= 256)%nat ->
  exists s',
    push_all vs s = Ok tt s' /\ stack_ok s'
    /\ REG_SP (cpu (nes s')) mod 256
       = (REG_SP (cpu (nes s)) - Z.of_nat (length vs)) mod 256
    /\ (forall k v, vs !! k = Some v ->
          mem (cpu (nes s'))
            !! stack_cell (REG_SP (cpu (nes s)) - Z.of_nat k) = Some v)
    /\ (forall i, (forall k, (k < length vs)%nat ->
                     i <> stack_cell (REG_SP (cpu (nes s)) - Z.of_nat k)) ->
          mem (cpu (nes s')) !! i = mem (cpu (nes s)) !! i).
Proof.
  induction vs as [|v vs IH]; intros s Hr Hs Hlen.
  - exists s. cbn. rewrite Z.sub_0_r. repeat split; try apply Hs.
    intros k v0 E. rewrite lookup_nil in E. discriminate.
  - cbn [push_all length] in *. destruct Hs as [Hl Hs].
    rewrite bind_push by assumption.
    destruct (after_push_spec v s (conj Hl Hs)) as (Ok1 & SP1 & M1).
    destruct (IH (after_push v s) Hr Ok1 ltac:(lia))
      as (s' & E & Ok' & SP' & Cells & Frame).
    exists s'. split; [exact E|]. split; [exact Ok'|].
    rewrite SP1 in *.
    assert (Shift : forall k,
              stack_cell ((REG_SP (cpu (nes s)) - 1) mod 256 - Z.of_nat k)
              = stack_cell (REG_SP (cpu (nes s)) - Z.of_nat (S k))).
    { intros k. unfold stack_cell. f_equal.
      rewrite Zminus_mod_idemp_l. f_equal. lia. }
    split; [|split].
    + rewrite SP', Zminus_mod_idemp_l. f_equal. lia.
    + intros [|k] v0 E0.
      * injection E0 as ->. rewrite Frame, M1.
        { rewrite Z.sub_0_r. apply lookup_insert_eq. }
        intros k Hk. rewrite Shift. unfold stack_cell.
        rewrite Z.sub_0_r. intros E1.
        assert (Hk' : 0 < Z.of_nat (S k) < 256) by lia.
        revert E1 Hk'. generalize (Z.of_nat (S k)) (REG_SP (cpu (nes s))).
        intros d sp ? ?. Z.div_mod_to_equations. lia.
      * rewrite <- Shift. apply Cells. exact E0.
    + intros i Hi. rewrite Frame, M1.
      * apply lookup_insert_ne. specialize (Hi 0%nat ltac:(lia)).
        rewrite Z.sub_0_r in Hi. congruence.
      * intros k Hk. rewrite Shift. apply Hi. lia.
Qed.

Lemma pull_n_spec n : forall s : St W,
  ram_mapped -> stack_ok s ->
  exists s',
    pull_n n s
    = Ok (map (fun j => JS.toInt (mem (cpu (nes s))
                                    !! stack_cell (REG_SP (cpu (nes s)) + 1
                                                   + Z.of_nat j)))
              (seq 0 n)) s'
    /\ stack_ok s'
    /\ REG_SP (cpu (nes s')) mod 256
       = (REG_SP (cpu (nes s)) + Z.of_nat n) mod 256
    /\ mem (cpu (nes s')) = mem (cpu (nes s)).
Proof.
  induction n as [|n IH]; intros s Hr Hs.
  - exists s. cbn. rewrite Z.add_0_r. repeat split; apply Hs.
  - cbn [pull_n]. destruct Hs as [Hl Hs].
    rewrite bind_pull by assumption.
    destruct (after_pull_spec s (conj Hl Hs)) as (Ok1 & SP1 & M1 & V1).
    destruct (IH (after_pull s) Hr Ok1) as (s' & E & Ok' & SP' & M').
    exists s'. unfold mbind at 1, M_bind at 1. rewrite E.
    rewrite SP1, M1 in *.
    split; [|split; [exact Ok'|split]].
    + cbn [mret M_ret seq map]. f_equal. f_equal.
      * rewrite V1, Z.add_0_r. reflexivity.
      * rewrite <- seq_shift, map_map. apply map_ext. intros j.
        unfold stack_cell. do 3 f_equal.
        rewrite <- Z.add_assoc, Zplus_mod_idemp_l. f_equal. lia.
    + rewrite SP', Zplus_mod_idemp_l. f_equal. lia.
    + congruence.
Qed.

(** X8.  The stack is last in, first out: after pushing up to 256 bytes,
    as many pulls return them in reverse order, and the low byte of the
    stack pointer is back where it was. *)
Theorem stack_last_in_first_out (vs : list Z) (s : St W) :
  ram_mapped ->
  mmap_loaded (nes s) = true ->
  0 <= REG_SP (cpu (nes s)) <= 0x1ff ->
  (length vs <= 256)%nat ->
  exists s',
    (push_all vs;; pull_n (length vs)) s = Ok (reverse vs) s'
    /\ REG_SP (cpu (nes s')) mod 256 = REG_SP (cpu (nes s)) mod 256.
Proof.
  intros Hr Hl Hs Hlen.
  destruct (push_all_spec vs s Hr (conj Hl Hs) Hlen)
    as (s1 & E1 & Ok1 & SP1 & Cells & _).
  destruct (pull_n_spec (length vs) s1 Hr Ok1) as (s2 & E2 & _ & SP2 & _).
  exists s2. unfold mbind, M_bind. rewrite E1. split.
  - rewrite E2. f_equal. apply list_eq. intros j.
    rewrite list_lookup_fmap.
    destruct (decide (j < length vs)%nat) as [Hj|Hj].
    + rewrite lookup_seq_lt by exact Hj. cbn.
      rewrite reverse_lookup by exact Hj.
      destruct (lookup_lt_is_Some_2 vs (length vs - S j)%nat ltac:(lia))
        as [v Ev].
      rewrite Ev. f_equal.
      assert (Ec : stack_cell (REG_SP (cpu (nes s1)) + 1 + Z.of_nat j)
                   = stack_cell (REG_SP (cpu (nes s))
                                 - Z.of_nat (length vs - S j))).
      { unfold stack_cell. f_equal.
        rewrite <- Z.add_assoc, <- Zplus_mod_idemp_l, SP1, Zplus_mod_idemp_l.
        f_equal. lia. }
      rewrite Ec, (Cells _ _ Ev). reflexivity.
    + rewrite lookup_seq_ge by lia. cbn.
      symmetry. apply lookup_ge_None_2. rewrite length_reverse. lia.
  - rewrite SP2, <- Zplus_mod_idemp_l, SP1, Zplus_mod_idemp_l. f_equal. lia.
Qed.

End Lifo.

Section Subroutine.
Context {W : Type} `{Devices W}.

(** The mapper reads $8000-$FFFF from [cpu.mem], as [Mapper0.load]
    does. *)
Definition rom_mapped : Prop :=
  forall a n, 0x8000 <= a <= 0xffff ->
    mmap_load a n = (JS.toInt (mem (cpu n) !! a), n).

(** No pending interrupt, a ROM loaded and no Game Genie patch. *)
Definition plain (s : St W) : Prop :=
  mmap_loaded (nes s) = true
  /\ irqRequested (cpu (nes s)) = false
  /\ patches (gameGenie (nes s)) = [].

Lemma bind_loadFromCartridge_rom {B} a (k : Z -> M W B) (s : St W) :
  rom_mapped -> mmap_loaded (nes s) = true ->
  patches (gameGenie (nes s)) = [] ->
  0x8000 <= a <= 0xffff ->
  (loadFromCartridge a ≫= k) s
  = k (JS.toInt (mem (cpu (nes s)) !! a))
      (set_ghost (set_mapper (mapper (ghost s) ++ [MapLoad a]) (ghost s)) s).
Proof.
  intros Hr Hl Hp Ha. unfold loadFromCartridge, mmap_do_load.
  run_cpu. rewrite Hl. run_cpu. rewrite (Hr _ _ Ha). norm_state.
  rewrite Hp. cbn [length Z.of_nat Z.ltb Z.compare andb].
  rewrite andb_false_r. run_cpu.
  destruct s as [[c p g l cr f w] gh]. reflexivity.
Qed.

Lemma addressing_abs opaddr :
  addressing 3 opaddr = (addr ← load16bit (opaddr + 2); mret (addr, 0, 0)).
Proof. reflexivity. Qed.

Lemma addressing_imp opaddr : addressing 2 opaddr = mret (0, 0, 0).
Proof. reflexivity. Qed.

Lemma execute_jsr :
  execute 0x20
  = (opaddr ← getc REG_PC;
     setc (fun c => set_REG_PC (REG_PC c + 3) c);;
     '(addr, cycleAdd, baseHigh) ← addressing 3 opaddr;
     exec JSR 3 opaddr (addr .& 0xffff) cycleAdd baseHigh 6).
Proof. reflexivity. Qed.

Lemma execute_rts :
  execute 0x60
  = (opaddr ← getc REG_PC;
     setc (fun c => set_REG_PC (REG_PC c + 1) c);;
     '(addr, cycleAdd, baseHigh) ← addressing 2 opaddr;
     exec RTS 2 opaddr (addr .& 0xffff) cycleAdd baseHigh 6).
Proof. reflexivity. Qed.

Lemma bind_load_rom {B} a (k : Z -> M W B) (s : St W) :
  rom_mapped -> mmap_loaded (nes s) = true ->
  patches (gameGenie (nes s)) = [] ->
  0x8000 <= a <= 0xffff ->
  (load a ≫= k) s
  = k (JS.toInt (mem (cpu (nes s)) !! a))
      (mkSt (set_cpu (set_instrBusCycles (instrBusCycles (cpu (nes s)) + 1)
                        (set_dataBus (JS.toInt (mem (cpu (nes s)) !! a))
                           (cpu (nes s)))) (nes s))
            (set_trace (trace (ghost s)
                        ++ [BusRead a (JS.toInt (mem (cpu (nes s)) !! a))])
               (set_mapper (mapper (ghost s) ++ [MapLoad a]) (ghost s)))).
Proof.
  intros Hr Hl Hp Ha. unfold load, in_ppu_range, bump.
  assert (E1 : (a <? 0x4000) = false) by lia.
  assert (E2 : (a <? 0x2000) = false) by lia.
  rewrite E1, E2, andb_false_r. unfold when. run_cpu.
  rewrite bind_loadFromCartridge_rom by assumption. run_cpu.
  destruct s as [[c p g l cr f w] gh]. reflexivity.
Qed.

Lemma bind_load16bit_rom {B} a (k : Z -> M W B) (s : St W) :
  rom_mapped -> mmap_loaded (nes s) = true ->
  patches (gameGenie (nes s)) = [] ->
  0x8000 <= a -> a + 1 <= 0xffff ->
  (load16bit a ≫= k) s
  = let lo := JS.toInt (mem (cpu (nes s)) !! a) in
    let hi := JS.toInt (mem (cpu (nes s)) !! (a + 1)) in
    k (lo .| (hi << 8))
      (mkSt (set_cpu (set_instrBusCycles (instrBusCycles (cpu (nes s)) + 2)
                        (set_dataBus hi (cpu (nes s)))) (nes s))
            (set_trace (trace (ghost s) ++ [BusRead a lo; BusRead (a + 1) hi])
               (set_mapper (mapper (ghost s) ++ [MapLoad a; MapLoad (a + 1)])
                  (ghost s)))).
Proof.
  intros Hr Hl Hp Ha Ha'. unfold load16bit.
  assert (E1 : (a <? 0x1fff) = false) by lia.
  rewrite E1. run_cpu.
  rewrite bind_loadFromCartridge_rom by (assumption || lia). run_cpu.
  rewrite bind_loadFromCartridge_rom by (assumption || lia). run_cpu.
  rewrite <- !app_assoc.
  destruct s as [[c p g l cr f w] gh]. reflexivity.
Qed.

Lemma byte_split v :
  0 <= v <= 0xffff ->
  ((v .& 255) + (((v >> 8) .& 255) << 8)) = v
  /\ 0 <= v .& 255 <= 255 /\ 0 <= (v >> 8) .& 255 <= 255.
Proof.
  intros Hv.
  assert (A : JS.forall_below (Z.to_nat 65536) (fun v =>
            ((v .& 255) + (((v >> 8) .& 255) << 8) =? v)
            && (0 <=? v .& 255) && (v .& 255 <=? 255)
            && (0 <=? (v >> 8) .& 255) && ((v >> 8) .& 255 <=? 255)) = true)
    by (vm_compute; reflexivity).
  pose proof (JS.forall_below_spec _ _ A v ltac:(lia)) as K. cbv beta in K.
  repeat (apply andb_prop in K as [K ?]). lia.
Qed.

Lemma word_join lo hi :
  0 <= lo <= 255 -> 0 <= hi <= 255 ->
  (lo .| (hi << 8)) .& 0xffff = lo + 256 * hi.
Proof.
  intros Hl Hh.
  assert (A : JS.forall_below 256 (fun lo => JS.forall_below 256 (fun hi =>
            ((lo .| (hi << 8)) .& 0xffff =? lo + 256 * hi))) = true)
    by (vm_compute; reflexivity).
  pose proof (JS.forall_below_spec _ _ A lo ltac:(lia)) as A1. cbv beta in A1.
  pose proof (JS.forall_below_spec _ _ A1 hi ltac:(lia)) as K.
  apply Z.eqb_eq in K. exact K.
Qed.

Lemma stack_byte x : 0 <= x .& 0xff <= 0x1ff.
Proof.
  change 0xff with (Z.ones 8). rewrite Z.land_ones by lia.
  pose proof (Z.mod_pos_bound x (2 ^ 8) ltac:(lia)). lia.
Qed.

Lemma stack_two_deep sp0 :
  0 <= sp0 <= 0x1ff ->
  let c0 := (sp0 .| 256) .& 2047 in
  let a := (sp0 - 1) .& 255 in
  let c1 := (a .| 256) .& 2047 in
  let b := (a - 1) .& 255 in
  (0x100 .| ((b + 1) .& 0xff)) .& 0x7ff = c1
  /\ (0x100 .| ((((b + 1) .& 0xff) + 1) .& 0xff)) .& 0x7ff = c0
  /\ c0 <> c1 /\ c0 < 0x800 /\ c1 < 0x800
  /\ (((b + 1) .& 0xff) + 1) .& 0xff = sp0 mod 256.
Proof.
  intros Hs.
  assert (A : JS.forall_below 512 (fun sp0 =>
    let c0 := (sp0 .| 256) .& 2047 in
    let a := (sp0 - 1) .& 255 in
    let c1 := (a .| 256) .& 2047 in
    let b := (a - 1) .& 255 in
    ((0x100 .| ((b + 1) .& 0xff)) .& 0x7ff =? c1)
    && ((0x100 .| ((((b + 1) .& 0xff) + 1) .& 0xff)) .& 0x7ff =? c0)
    && negb (c0 =? c1) && (c0 <? 0x800) && (c1 <? 0x800)
    && ((((b + 1) .& 0xff) + 1) .& 0xff =? sp0 mod 256)) = true)
    by (vm_compute; reflexivity).
  pose proof (JS.forall_below_spec _ _ A sp0 ltac:(lia)) as K.
  cbv beta zeta in K. cbv zeta.
  repeat (apply andb_prop in K as [K ?]).
  repeat match goal with
         | E : negb _ = true |- _ =>
             apply negb_true_iff in E; apply Z.eqb_neq in E
         | E : (_ =? _) = true |- _ => apply Z.eqb_eq in E
         | E : (_ <? _) = true |- _ => apply Z.ltb_lt in E
         end.
  auto 10.
Qed.

(** X9.  A [JSR] in ROM followed by the [RTS] at its target returns to the
    instruction after the [JSR]: both take 6 cycles, the program counter
    ends on the last byte of the [JSR] and the low byte of the stack
    pointer is back where it was. *)
Theorem jsr_rts_returns (s : St W) (lo hi : Z) :
  let pc := REG_PC (cpu (nes s)) in
  let m := mem (cpu (nes s)) in
  let target := lo + 256 * hi in
  ram_mapped -> rom_mapped -> plain s ->
  0 <= REG_SP (cpu (nes s)) <= 0x1ff ->
  0x8000 <= pc + 1 -> pc + 3 < 0xffff ->
  m !! (pc + 1) = Some 0x20 -> m !! (pc + 2) = Some lo ->
  m !! (pc + 3) = Some hi ->
  0 <= lo <= 255 -> 0 <= hi <= 255 ->
  0x8000 <= target -> m !! target = Some 0x60 ->
  exists s1 s2,
    emulate s = Ok (Some 6) s1
    /\ REG_PC (cpu (nes s1)) = target - 1
    /\ emulate s1 = Ok (Some 6) s2
    /\ REG_PC (cpu (nes s2)) = pc + 3
    /\ REG_SP (cpu (nes s2)) = REG_SP (cpu (nes s)) mod 256.
Proof.
  intros pc m target Hram Hrom (Hl & Hirq & Hp) Hsp Hpc1 Hpc3 M1 M2 M3
    Hlo Hhi Ht Mt.
  subst pc m target.
  destruct s as [[c p g l cr f w] gh]. norm_state_in Hl. norm_state_in Hirq.
  norm_state_in Hp. norm_state_in Hsp. norm_state_in Hpc1.
  norm_state_in Hpc3. norm_state_in M1. norm_state_in M2. norm_state_in M3.
  norm_state_in Mt. subst l.
  set (pc := REG_PC c) in *.
  destruct (byte_split (pc + 3) ltac:(lia)) as (Split & Blo & Bhi).
  pose proof (word_join lo hi Hlo Hhi) as Join.
  eexists. eexists.
  split.
  { unfold emulate, check_interrupts. run_cpu. rewrite Hirq. unfold when.
    run_cpu. unfold fetch, reset_counters. run_cpu.
    fold pc.
    rewrite bind_loadFromCartridge_rom by (norm_state; assumption || lia).
    run_cpu. rewrite M1. change (JS.toInt (Some 32)) with 32.
    rewrite execute_jsr. run_cpu. fold pc.
    rewrite addressing_abs. run_cpu.
    rewrite bind_load16bit_rom by (norm_state; assumption || lia).
    cbv zeta. run_cpu.
    replace (pc + 2 + 1) with (pc + 3) by lia.
    rewrite M2, M3. change (JS.toInt (Some ?x)) with x.
    rewrite Join. unfold exec. run_cpu. fold pc.
    rewrite bind_push by (norm_state; assumption || lia).
    unfold after_push at 1. norm_state.
    rewrite bind_push
      by (norm_state; first [assumption | reflexivity | apply stack_byte]).
    unfold after_push at 1. norm_state.
    rewrite bind_load_rom by (norm_state; assumption || lia || reflexivity).
    run_cpu. reflexivity. }
  norm_state.
  destruct (stack_two_deep (REG_SP c) Hsp) as (C1 & C0 & Ne & L0 & L1 & SP').
  cbv zeta in *.
  split; [reflexivity|].
  assert (Mt' : forall m0 a0 v0 a1 v1,
            a0 < 0x800 -> a1 < 0x800 ->
            m0 !! (lo + 256 * hi) = Some 96 ->
            (<[a1 := v1]> (<[a0 := v0]> m0) : gmap Z Z) !! (lo + 256 * hi)
            = Some 96).
  { intros m0 a0 v0 a1 v1 B0 B1 E.
    rewrite !lookup_insert_ne by lia. exact E. }
  split.
  { unfold emulate, check_interrupts. run_cpu. rewrite Hirq. unfold when.
    run_cpu. unfold fetch, reset_counters. run_cpu.
    replace (lo + 256 * hi - 1 + 1) with (lo + 256 * hi) by lia.
    rewrite bind_loadFromCartridge_rom
      by (norm_state; assumption || lia || reflexivity).
    run_cpu. rewrite Mt' by assumption.
    change (JS.toInt (Some 96)) with 96.
    rewrite execute_rts. run_cpu. rewrite addressing_imp. run_cpu.
    unfold exec. run_cpu.
    rewrite bind_pull
      by (norm_state; first [assumption | reflexivity | apply stack_byte]).
    unfold after_pull at 1, pulled at 1. norm_state. run_cpu.
    rewrite bind_pull
      by (norm_state; first [assumption | reflexivity | apply stack_byte]).
    unfold after_pull at 1, pulled at 1. norm_state. run_cpu.
    rewrite C1, C0, lookup_insert_eq, lookup_insert_ne, lookup_insert_eq
      by congruence.
    change (JS.toInt (Some ?x)) with x. rewrite Split.
    assert (E : (pc + 3 =? 65535) = false) by lia. rewrite E.
    reflexivity. }
  norm_state. split; [reflexivity|]. exact SP'.
Qed.

End Subroutine.

(** *** The status byte *)

(** [setStatus] *)
Definition setStatus (st : Z) (c : CPU) : CPU :=
  let c := set_F_CARRY (st .& 1) c in
  let c := set_F_ZERO (if ((st >> 1) .& 1) =? 1 then 0 else 1) c in
  let c := set_F_INTERRUPT ((st >> 2) .& 1) c in
  let c := set_F_DECIMAL ((st >> 3) .& 1) c in
  let c := set_F_BRK ((st >> 4) .& 1) c in
  let c := set_F_NOTUSED ((st >> 5) .& 1) c in
  let c := set_F_OVERFLOW ((st >> 6) .& 1) c in
  set_F_SIGN ((st >> 7) .& 1) c.

(** The seven flags that are 0 or 1; [F_ZERO] holds a result byte. *)
Definition flags_ok (c : CPU) : Prop :=
  0 <= F_CARRY c <= 1 /\ 0 <= F_INTERRUPT c <= 1 /\ 0 <= F_DECIMAL c <= 1
  /\ 0 <= F_BRK c <= 1 /\ 0 <= F_NOTUSED c <= 1 /\ 0 <= F_OVERFLOW c <= 1
  /\ 0 <= F_SIGN c <= 1.

Definition status_of (fc fz fi fd fb fu fv fs : Z) : Z :=
  fc .| (fz << 1) .| (fi << 2) .| (fd << 3) .| (fb << 4) .| (fu << 5)
  .| (fv << 6) .| (fs << 7).

Lemma status_bits fc fz fi fd fb fu fv fs :
  0 <= fc <= 1 -> 0 <= fz <= 1 -> 0 <= fi <= 1 -> 0 <= fd <= 1 ->
  0 <= fb <= 1 -> 0 <= fu <= 1 -> 0 <= fv <= 1 -> 0 <= fs <= 1 ->
  let st := status_of fc fz fi fd fb fu fv fs in
  st .& 1 = fc /\ (st >> 1) .& 1 = fz /\ (st >> 2) .& 1 = fi
  /\ (st >> 3) .& 1 = fd /\ (st >> 4) .& 1 = fb /\ (st >> 5) .& 1 = fu
  /\ (st >> 6) .& 1 = fv /\ (st >> 7) .& 1 = fs
  /\ (st .& 0xef) .& 1 = fc /\ ((st .& 0xef) >> 1) .& 1 = fz
  /\ ((st .& 0xef) >> 2) .& 1 = fi /\ ((st .& 0xef) >> 3) .& 1 = fd
  /\ ((st .& 0xef) >> 6) .& 1 = fv /\ ((st .& 0xef) >> 7) .& 1 = fs
  /\ 0 <= st <= 255.
Proof.
  intros.
  assert (fc = 0 \/ fc = 1) as [-> | ->] by lia;
  assert (fz = 0 \/ fz = 1) as [-> | ->] by lia;
  assert (fi = 0 \/ fi = 1) as [-> | ->] by lia;
  assert (fd = 0 \/ fd = 1) as [-> | ->] by lia;
  assert (fb = 0 \/ fb = 1) as [-> | ->] by lia;
  assert (fu = 0 \/ fu = 1) as [-> | ->] by lia;
  assert (fv = 0 \/ fv = 1) as [-> | ->] by lia;
  assert (fs = 0 \/ fs = 1) as [-> | ->] by lia;
  vm_compute; repeat split; congruence.
Qed.

Lemma getStatus_status_of c :
  getStatus c
  = status_of (F_CARRY c) (if F_ZERO c =? 0 then 1 else 0) (F_INTERRUPT c)
      (F_DECIMAL c) (F_BRK c) (F_NOTUSED c) (F_OVERFLOW c) (F_SIGN c).
Proof. reflexivity. Qed.

Lemma status_byte_bits st :
  0 <= st <= 255 ->
  status_of (st .& 1) ((st >> 1) .& 1) ((st >> 2) .& 1) ((st >> 3) .& 1)
    ((st >> 4) .& 1) ((st >> 5) .& 1) ((st >> 6) .& 1) ((st >> 7) .& 1) = st.
Proof.
  intros Hs. apply Z.eqb_eq.
  apply (JS.forall_below_spec 256 (fun st =>
    status_of (st .& 1) ((st >> 1) .& 1) ((st >> 2) .& 1) ((st >> 3) .& 1)
      ((st >> 4) .& 1) ((st >> 5) .& 1) ((st >> 6) .& 1) ((st >> 7) .& 1)
    =? st)); [vm_compute; reflexivity | lia].
Qed.

(** X10.  The status byte survives [setStatus] followed by [getStatus], and the
    flags survive [getStatus] followed by [setStatus]; of [F_ZERO], which
    holds a result byte, whether it is 0 survives. *)
Theorem status_round_trip (c : CPU) (st : Z) :
  0 <= st <= 255 -> flags_ok c ->
  getStatus (setStatus st c) = st
  /\ (let c' := setStatus (getStatus c) c in
      F_CARRY c' = F_CARRY c /\ F_INTERRUPT c' = F_INTERRUPT c
      /\ F_DECIMAL c' = F_DECIMAL c /\ F_BRK c' = F_BRK c
      /\ F_NOTUSED c' = F_NOTUSED c /\ F_OVERFLOW c' = F_OVERFLOW c
      /\ F_SIGN c' = F_SIGN c
      /\ (F_ZERO c' = 0 <-> F_ZERO c = 0)
      /\ getStatus c' = getStatus c).
Proof.
  intros Hs Hf. split.
  -  rewrite getStatus_status_of. unfold setStatus.
    cbn [F_CARRY F_ZERO F_INTERRUPT F_DECIMAL F_BRK F_NOTUSED F_OVERFLOW
         F_SIGN set_F_CARRY set_F_ZERO set_F_INTERRUPT set_F_DECIMAL
         set_F_BRK set_F_NOTUSED set_F_OVERFLOW set_F_SIGN].
    rewrite <- (status_byte_bits st Hs) at 9. f_equal.
    assert (B : (st >> 1) .& 1 = 0 \/ (st >> 1) .& 1 = 1).
    { change 1 with (Z.ones 1) at 2 4. rewrite Z.land_ones by lia.
      pose proof (Z.mod_pos_bound (st >> 1) (2 ^ 1) ltac:(lia)). lia. }
    destruct B as [-> | ->]; reflexivity.
  - destruct Hf as (Hc & Hi & Hd & Hb & Hu & Hv & Hn).
    assert (Hz : 0 <= (if F_ZERO c =? 0 then 1 else 0) <= 1)
      by (destruct (F_ZERO c =? 0); lia).
    destruct (status_bits _ _ _ _ _ _ _ _ Hc Hz Hi Hd Hb Hu Hv Hn)
      as (B0 & B1 & B2 & B3 & B4 & B5 & B6 & B7 & _).
    cbv zeta in *. rewrite <- getStatus_status_of in *.
    unfold setStatus.
    cbn [F_CARRY F_ZERO F_INTERRUPT F_DECIMAL F_BRK F_NOTUSED F_OVERFLOW
         F_SIGN set_F_CARRY set_F_ZERO set_F_INTERRUPT set_F_DECIMAL
         set_F_BRK set_F_NOTUSED set_F_OVERFLOW set_F_SIGN].
    rewrite B1.
    assert (Z' : (if (if F_ZERO c =? 0 then 1 else 0) =? 1 then 0 else 1) = 0
                 <-> F_ZERO c = 0).
    { destruct (Z.eqb_spec (F_ZERO c) 0) as [-> | Hne]; cbn; split;
        intros; try reflexivity; try lia. }
    repeat split; try assumption; try apply Z'.
    rewrite !getStatus_status_of.
    cbn [F_CARRY F_ZERO F_INTERRUPT F_DECIMAL F_BRK F_NOTUSED F_OVERFLOW
         F_SIGN set_F_CARRY set_F_ZERO set_F_INTERRUPT set_F_DECIMAL
         set_F_BRK set_F_NOTUSED set_F_OVERFLOW set_F_SIGN].
    rewrite <- getStatus_status_of, B0, B2, B3, B4, B5, B6, B7.
    rewrite getStatus_status_of. f_equal.
    destruct (Z.eqb_spec (F_ZERO c) 0) as [-> | Hne]; reflexivity.
Qed.

Section Interrupt.
Context {W : Type} `{Devices W}.

Lemma stack_three_deep sp0 :
  0 <= sp0 <= 0x1ff ->
  let c0 := (sp0 .| 256) .& 2047 in
  let a := (sp0 - 1) .& 255 in
  let c1 := (a .| 256) .& 2047 in
  let b := (a - 1) .& 255 in
  let c2 := (b .| 256) .& 2047 in
  let d := (b - 1) .& 255 in
  let p1 := (d + 1) .& 0xff in
  let p2 := (p1 + 1) .& 0xff in
  let p3 := (p2 + 1) .& 0xff in
  (0x100 .| p1) .& 0x7ff = c2 /\ (0x100 .| p2) .& 0x7ff = c1
  /\ (0x100 .| p3) .& 0x7ff = c0
  /\ c0 <> c1 /\ c0 <> c2 /\ c1 <> c2
  /\ p3 = sp0 mod 256.
Proof.
  intros Hs.
  assert (A : JS.forall_below 512 (fun sp0 =>
    let c0 := (sp0 .| 256) .& 2047 in
    let a := (sp0 - 1) .& 255 in
    let c1 := (a .| 256) .& 2047 in
    let b := (a - 1) .& 255 in
    let c2 := (b .| 256) .& 2047 in
    let d := (b - 1) .& 255 in
    let p1 := (d + 1) .& 0xff in
    let p2 := (p1 + 1) .& 0xff in
    let p3 := (p2 + 1) .& 0xff in
    ((0x100 .| p1) .& 0x7ff =? c2) && ((0x100 .| p2) .& 0x7ff =? c1)
    && ((0x100 .| p3) .& 0x7ff =? c0)
    && negb (c0 =? c1) && negb (c0 =? c2) && negb (c1 =? c2)
    && (p3 =? sp0 mod 256)) = true)
    by (vm_compute; reflexivity).
  pose proof (JS.forall_below_spec _ _ A sp0 ltac:(lia)) as K.
  cbv beta zeta in K. cbv zeta.
  repeat (apply andb_prop in K as [K ?]).
  repeat match goal with
         | E : negb _ = true |- _ =>
             apply negb_true_iff in E; apply Z.eqb_neq in E
         | E : (_ =? _) = true |- _ => apply Z.eqb_eq in E
         end.
  auto 10.
Qed.

(** [RTI] on a stack whose three top cells hold [st], [lo] and [hi]. *)
Lemma rti_pulls (s : St W) (st lo hi : Z)
    (addrMode opaddr addr cycleAdd baseHigh cycleCount : Z) :
  let c := cpu (nes s) in
  let p1 := (REG_SP c + 1) .& 0xff in
  let p2 := (p1 + 1) .& 0xff in
  let p3 := (p2 + 1) .& 0xff in
  ram_mapped -> mmap_loaded (nes s) = true -> 0 <= REG_SP c <= 0x1ff ->
  mem c !! ((0x100 .| p1) .& 0x7ff) = Some st ->
  mem c !! ((0x100 .| p2) .& 0x7ff) = Some lo ->
  mem c !! ((0x100 .| p3) .& 0x7ff) = Some hi ->
  lo + (hi << 8) <> 0xffff ->
  exists s2,
    exec RTI addrMode opaddr addr cycleAdd baseHigh cycleCount s
    = Ok (Some cycleCount) s2
    /\ REG_PC (cpu (nes s2)) = lo + (hi << 8) - 1
    /\ REG_SP (cpu (nes s2)) = p3
    /\ F_CARRY (cpu (nes s2)) = st .& 1
    /\ F_ZERO (cpu (nes s2)) = (if ((st >> 1) .& 1) =? 0 then 1 else 0)
    /\ F_INTERRUPT (cpu (nes s2)) = (st >> 2) .& 1
    /\ F_DECIMAL (cpu (nes s2)) = (st >> 3) .& 1
    /\ F_OVERFLOW (cpu (nes s2)) = (st >> 6) .& 1
    /\ F_SIGN (cpu (nes s2)) = sign st.
Proof.
  intros c0 p1 p2 p3 Hram Hl Hsp M1 M2 M3 Hpc. subst c0 p1 p2 p3.
  destruct s as [[c p g l cr f w] gh].
  norm_state_in Hl. norm_state_in Hsp. norm_state_in M1. norm_state_in M2.
  norm_state_in M3. subst l.
  eexists. split.
  { unfold exec. run_cpu.
    rewrite bind_pull
      by (norm_state; first [assumption | reflexivity | apply stack_byte]).
    unfold after_pull, pulled. norm_state. rewrite ?M1.
    change (JS.toInt (Some st)) with st. run_cpu.
    rewrite bind_pull
      by (norm_state; first [assumption | reflexivity | apply stack_byte]).
    unfold after_pull, pulled. norm_state. rewrite ?M2.
    change (JS.toInt (Some lo)) with lo. run_cpu.
    rewrite bind_pull
      by (norm_state; first [assumption | reflexivity | apply stack_byte]).
    unfold after_pull, pulled. norm_state. rewrite ?M3.
    change (JS.toInt (Some hi)) with hi. run_cpu.
    apply Z.eqb_neq in Hpc. rewrite Hpc. run_cpu. reflexivity. }
  norm_state. repeat split; reflexivity.
Qed.

(** The state in which an NMI leaves the console: the return address and
    the status byte on the stack, the program counter at the vector. *)
Lemma nmi_entered (s : St W) :
  let c := cpu (nes s) in
  let hi := (REG_PC c + 1) >> 8 .& 255 in
  let lo := (REG_PC c + 1) .& 255 in
  let a0 := (REG_SP c .| 256) .& 2047 in
  let sp1 := (REG_SP c - 1) .& 255 in
  let a1 := (sp1 .| 256) .& 2047 in
  let sp2 := (sp1 - 1) .& 255 in
  let a2 := (sp2 .| 256) .& 2047 in
  ram_mapped -> rom_mapped ->
  mmap_loaded (nes s) = true -> patches (gameGenie (nes s)) = [] ->
  irqRequested c = true -> irqType c = Some 1 -> 0 <= REG_SP c <= 0x1ff ->
  exists s1,
    check_interrupts s = Ok tt s1
    /\ mmap_loaded (nes s1) = true
    /\ REG_SP (cpu (nes s1)) = (sp2 - 1) .& 255
    /\ mem (cpu (nes s1))
       = <[ a2 := getStatus c .& 0xef ]>
           (<[ a1 := lo ]> (<[ a0 := hi ]> (mem c)))
    /\ REG_PC (cpu (nes s1))
       = (JS.toInt (mem c !! 0xfffa) .| (JS.toInt (mem c !! 0xfffb) << 8)) - 1
    /\ irqRequested (cpu (nes s1)) = false.
Proof.
  intros c0 hi lo a0 sp1 a1 sp2 a2 Hram Hrom Hl Hp Hirq Hty Hsp.
  subst c0 hi lo a0 sp1 a1 sp2 a2.
  destruct s as [[c p g l cr f w] gh]. norm_state_in Hl. norm_state_in Hirq.
  norm_state_in Hp. norm_state_in Hsp. norm_state_in Hty. subst l.
  norm_state.
  assert (Hlow : forall x, x .& 2047 <> 0xfffa /\ x .& 2047 <> 0xfffb).
  { intros x. change 2047 with (Z.ones 11). rewrite Z.land_ones by lia.
    pose proof (Z.mod_pos_bound x (2 ^ 11) ltac:(lia)). lia. }
  eexists. split.
  { unfold check_interrupts. run_cpu. rewrite Hirq. unfold when.
    run_cpu. rewrite Hty. cbv beta iota.
    unfold doNonMaskableInterrupt. run_cpu. unfold when.
    unfold push_return. run_cpu.
    rewrite bind_push
      by (norm_state; first [assumption | reflexivity | apply stack_byte]).
    unfold after_push at 1. norm_state. run_cpu.
    rewrite bind_push
      by (norm_state; first [assumption | reflexivity | apply stack_byte]).
    unfold after_push at 1. norm_state. run_cpu.
    rewrite bind_push
      by (norm_state; first [assumption | reflexivity | apply stack_byte]).
    unfold after_push at 1. norm_state.
    unfold vector_fetch. run_cpu.
    rewrite bind_loadFromCartridge_rom
      by (norm_state; assumption || lia || reflexivity).
    norm_state. rewrite !(lookup_insert_ne _ _ 0xfffa) by apply Hlow.
    run_cpu.
    rewrite bind_loadFromCartridge_rom
      by (norm_state; assumption || lia || reflexivity).
    norm_state. change (0xfffa + 1) with 0xfffb.
    rewrite !(lookup_insert_ne _ _ 0xfffb) by apply Hlow.
    run_cpu. reflexivity. }
  norm_state. repeat split; reflexivity.
Qed.

(** X11.  A non-maskable interrupt followed by [RTI] resumes the program:
    the interrupt check moves the program counter to the vector at
    $FFFA and clears the request, and [RTI] restores the program
    counter, the low byte of the stack pointer and the flags C, Z, I, D,
    V and N. *)
Theorem rti_resumes_after_nmi (s : St W)
    (addrMode opaddr addr cycleAdd baseHigh cycleCount : Z) :
  let c := cpu (nes s) in
  ram_mapped -> rom_mapped ->
  mmap_loaded (nes s) = true -> patches (gameGenie (nes s)) = [] ->
  irqRequested c = true -> irqType c = Some 1 ->
  flags_ok c -> 0 <= REG_SP c <= 0x1ff -> 0 <= REG_PC c + 1 < 0xffff ->
  exists s1 s2,
    check_interrupts s = Ok tt s1
    /\ REG_PC (cpu (nes s1))
       = (JS.toInt (mem c !! 0xfffa) .| (JS.toInt (mem c !! 0xfffb) << 8)) - 1
    /\ irqRequested (cpu (nes s1)) = false
    /\ exec RTI addrMode opaddr addr cycleAdd baseHigh cycleCount s1
       = Ok (Some cycleCount) s2
    /\ REG_PC (cpu (nes s2)) = REG_PC c
    /\ REG_SP (cpu (nes s2)) = REG_SP c mod 256
    /\ F_CARRY (cpu (nes s2)) = F_CARRY c
    /\ (F_ZERO (cpu (nes s2)) = 0 <-> F_ZERO c = 0)
    /\ F_INTERRUPT (cpu (nes s2)) = F_INTERRUPT c
    /\ F_DECIMAL (cpu (nes s2)) = F_DECIMAL c
    /\ F_OVERFLOW (cpu (nes s2)) = F_OVERFLOW c
    /\ F_SIGN (cpu (nes s2)) = F_SIGN c.
Proof.
  intros c Hram Hrom Hl Hp Hirq Hty Hf Hsp Hpc.
  destruct (nmi_entered s Hram Hrom Hl Hp Hirq Hty Hsp)
    as (s1 & E1 & L1 & SP1 & M1 & PC1 & I1).
  fold c in SP1, M1, PC1.
  destruct Hf as (Hc & Hi & Hd & Hb & Hu & Hv & Hn).
  assert (Hz : 0 <= (if F_ZERO c =? 0 then 1 else 0) <= 1)
    by (destruct (F_ZERO c =? 0); lia).
  destruct (status_bits _ _ _ _ _ _ _ _ Hc Hz Hi Hd Hb Hu Hv Hn)
    as (_ & _ & _ & _ & _ & _ & _ & _ & B0 & B1 & B2 & B3 & B6 & B7 & _).
  cbv zeta in B0, B1, B2, B3, B6, B7.
  rewrite <- getStatus_status_of in B0, B1, B2, B3, B6, B7.
  destruct (byte_split (REG_PC c + 1) ltac:(lia)) as (Split & Blo & Bhi).
  destruct (stack_three_deep (REG_SP c) Hsp)
    as (C2 & C1 & C0 & N01 & N02 & N12 & SP').
  cbv zeta in C2, C1, C0, N01, N02, N12, SP'.
  assert (Hsp1 : 0 <= REG_SP (cpu (nes s1)) <= 0x1ff)
    by (rewrite SP1; apply stack_byte).
  destruct (rti_pulls s1 (getStatus c .& 0xef) ((REG_PC c + 1) .& 255)
              ((REG_PC c + 1) >> 8 .& 255)
              addrMode opaddr addr cycleAdd baseHigh cycleCount
              Hram L1 Hsp1)
    as (s2 & E2 & PC2 & SP2 & F0 & F1 & F2 & F3 & F6 & F7).
  - rewrite SP1, M1, C2. apply lookup_insert_eq.
  - rewrite SP1, M1, C1. rewrite lookup_insert_ne by congruence.
    apply lookup_insert_eq.
  - rewrite SP1, M1, C0. rewrite !lookup_insert_ne by congruence.
    apply lookup_insert_eq.
  - rewrite Split. lia.
  - exists s1, s2. rewrite SP1 in SP2. rewrite SP' in SP2.
    unfold sign in F7. rewrite B0 in F0. rewrite B1 in F1. rewrite B2 in F2.
    rewrite B3 in F3. rewrite B6 in F6. rewrite B7 in F7.
    rewrite Split in PC2.
    repeat match goal with |- _ /\ _ => split end;
      try assumption; try lia.
    rewrite F1. destruct (Z.eqb_spec (F_ZERO c) 0) as [E | E]; cbn; lia.
Qed.

End Interrupt.

(** *** Registers, flags and memory stay bytes *)

Definition byte (v : Z) : Prop := 0 <= v <= 255.
Definition bit (v : Z) : Prop := 0 <= v <= 1.

(** Every cell of [cpu.mem] that holds a value holds a byte. *)
Definition mem_bytes (m : gmap Z Z) : Prop :=
  forall i v, m !! i = Some v -> byte v.

(** The registers and the data bus hold bytes, the stack pointer a
    number up to $1FF (it is $1FF after a reset and a byte or $100 plus
    a byte after that), [F_ZERO] a result byte and every other flag 0
    or 1. *)
Definition cpu_bytes (c : CPU) : Prop :=
  byte (REG_ACC c) /\ byte (REG_X c) /\ byte (REG_Y c)
  /\ 0 <= REG_SP c <= 0x1ff
  /\ bit (F_CARRY c) /\ bit (F_DECIMAL c) /\ bit (F_INTERRUPT c)
  /\ bit (F_INTERRUPT_NEW c) /\ bit (F_OVERFLOW c) /\ bit (F_SIGN c)
  /\ byte (F_ZERO c) /\ bit (F_NOTUSED c) /\ bit (F_BRK c)
  /\ bit (F_BRK_NEW c) /\ byte (dataBus c).

Definition genie_bytes (g : Genie) : Prop :=
  Forall (fun p => byte (GameGenie.value p)) (patches g).


(** *** Bytes under the bit operations of the instructions *)

Lemma byte_land_255 x : byte (x .& 255).
Proof.
  unfold byte. change 255 with (Z.ones 8) at 1 2. rewrite Z.land_ones by lia.
  pose proof (Z.mod_pos_bound x (2 ^ 8) ltac:(lia)). lia.
Qed.

Lemma bit_land_1 x : bit (x .& 1).
Proof.
  unfold bit. change (x .& 1) with (x .& Z.ones 1). rewrite Z.land_ones by lia.
  pose proof (Z.mod_pos_bound x (2 ^ 1) ltac:(lia)). lia.
Qed.

Lemma bit_sign x : bit (sign x).
Proof. apply bit_land_1. Qed.

Lemma byte_ops a b :
  byte a -> byte b ->
  byte (a .& b) /\ byte (a .| b) /\ byte (a .^ b) /\ byte (a >> 1)
  /\ byte (0x100 .| a - 0x100) /\ 0x100 <= 0x100 .| a.
Proof.
  intros Ha Hb. unfold byte in *.
  assert (A : JS.forall_below 256 (fun a => JS.forall_below 256 (fun b =>
    (0 <=? a .& b) && (a .& b <=? 255) && (0 <=? a .| b) && (a .| b <=? 255)
    && (0 <=? a .^ b) && (a .^ b <=? 255) && (0 <=? a >> 1)
    && (a >> 1 <=? 255) && (0x100 <=? 0x100 .| a)
    && (0x100 .| a <=? 0x1ff))) = true) by (vm_compute; reflexivity).
  pose proof (JS.forall_below_spec _ _ A a ltac:(lia)) as A1. cbv beta in A1.
  pose proof (JS.forall_below_spec _ _ A1 b ltac:(lia)) as K. cbv beta in K.
  repeat (apply andb_prop in K as [K ?]). lia.
Qed.

Lemma byte_land a b : byte a -> byte b -> byte (a .& b).
Proof. intros Ha Hb. apply (byte_ops a b Ha Hb). Qed.

Lemma byte_lor a b : byte a -> byte b -> byte (a .| b).
Proof. intros Ha Hb. apply (byte_ops a b Ha Hb). Qed.

Lemma byte_lxor a b : byte a -> byte b -> byte (a .^ b).
Proof. intros Ha Hb. apply (byte_ops a b Ha Hb). Qed.

Lemma byte_shiftr a : byte a -> byte (a >> 1).
Proof. intros Ha. apply (byte_ops a a Ha Ha). Qed.

Lemma stack_lor a : byte a -> 0 <= 0x100 .| a <= 0x1ff.
Proof. intros Ha. pose proof (byte_ops a a Ha Ha). unfold byte in *. lia. Qed.

Lemma byte_id x : byte x -> x .& 255 = x.
Proof.
  intros Hx. change 255 with (Z.ones 8). rewrite Z.land_ones by lia.
  apply Z.mod_small. unfold byte in Hx. lia.
Qed.

(** The other operand of [&] may be any number. *)
Lemma byte_land_r y x : byte x -> byte (y .& x).
Proof.
  intros Hx. rewrite <- (byte_id x Hx), Z.land_assoc.
  apply byte_land_255.
Qed.

Lemma byte_land_l x y : byte x -> byte (x .& y).
Proof. intros Hx. rewrite Z.land_comm. apply byte_land_r, Hx. Qed.

Lemma byte_rotate a c :
  byte a -> bit c ->
  byte ((a >> 1) + (c << 7)) /\ byte (((a << 1) .& 0xff) + c).
Proof.
  intros Ha Hc. unfold byte, bit in *.
  assert (A : JS.forall_below 256 (fun a => JS.forall_below 2 (fun c =>
    (0 <=? (a >> 1) + (c << 7)) && ((a >> 1) + (c << 7) <=? 255)
    && (0 <=? ((a << 1) .& 0xff) + c)
    && (((a << 1) .& 0xff) + c <=? 255))) = true)
    by (vm_compute; reflexivity).
  pose proof (JS.forall_below_spec _ _ A a ltac:(lia)) as A1. cbv beta in A1.
  pose proof (JS.forall_below_spec _ _ A1 c ltac:(lia)) as K. cbv beta in K.
  repeat (apply andb_prop in K as [K ?]). lia.
Qed.

Lemma byte_ror a c : byte a -> bit c -> byte ((a >> 1) + (c << 7)).
Proof. intros Ha Hc. apply (byte_rotate a c Ha Hc). Qed.

Lemma byte_rol a c : byte a -> bit c -> byte (((a << 1) .& 0xff) + c).
Proof. intros Ha Hc. apply (byte_rotate a c Ha Hc). Qed.

Lemma bit_if (b : bool) : bit (if b then 1 else 0).
Proof. unfold bit. destruct b; lia. Qed.

Lemma bit_if_not (b : bool) : bit (if b then 0 else 1).
Proof. unfold bit. destruct b; lia. Qed.

Lemma bit_byte x : bit x -> byte x.
Proof. unfold bit, byte. lia. Qed.

Lemma byte_0 : byte 0.
Proof. unfold byte. lia. Qed.

Lemma bit_0 : bit 0.
Proof. unfold bit. lia. Qed.

Lemma bit_1 : bit 1.
Proof. unfold bit. lia. Qed.

Lemma byte_lor_0 x : byte x -> byte (x .| 0).
Proof. rewrite Z.lor_0_r. auto. Qed.

Lemma byte_status c : cpu_bytes c -> byte (getStatus c).
Proof.
  intros (_ & _ & _ & _ & Hc & Hd & Hi & _ & Hv & Hn & _ & Hu & Hb & _).
  unfold bit in *. rewrite getStatus_status_of.
  assert (Hz : 0 <= (if F_ZERO c =? 0 then 1 else 0) <= 1)
    by (destruct (F_ZERO c =? 0); lia).
  apply (status_bits _ _ _ _ _ _ _ _ Hc Hz Hi Hd Hb Hu Hv Hn).
Qed.

Create HintDb bytes discriminated.
#[export] Hint Resolve byte_land_255 bit_land_1 bit_sign byte_land byte_lor
  byte_lxor byte_shiftr byte_land_r byte_land_l byte_ror byte_rol bit_if
  bit_if_not byte_0 bit_0 bit_1 byte_lor_0 byte_status stack_lor : bytes.

Section Bytes.
Context {W : Type} `{Devices W}.

Definition bytes (s : St W) : Prop :=
  cpu_bytes (cpu (nes s)) /\ mem_bytes (mem (cpu (nes s)))
  /\ genie_bytes (gameGenie (nes s)).

(** What a device sees of the CPU: [cpu.mem] and the data bus. *)
Definition seen (n : NES W) : Prop :=
  mem_bytes (mem (cpu n)) /\ byte (dataBus (cpu n)).

(** The devices read bytes and store bytes: a load returns a byte, and
    [cpu.mem] holds bytes after a load, after a store of a byte, and
    after the PPU has ended a scanline or started the vertical blank. *)
Definition byte_devices : Prop :=
  (forall a n, seen n ->
     byte (mmap_load a n).1 /\ mem_bytes (mem (cpu (mmap_load a n).2)))
  /\ (forall a v n, seen n -> byte v ->
        mem_bytes (mem (cpu (mmap_write a v n))))
  /\ (forall n, seen n -> mem_bytes (mem (cpu (ppu_endScanline n))))
  /\ (forall n, seen n -> mem_bytes (mem (cpu (ppu_startVBlank n)))).

Hypothesis devices_ok : byte_devices.

(** [yields m K]: from a state of bytes, when [m] returns [a] in [s],
    [K a s] holds. *)
Definition yields {A} (m : M W A) (K : A -> St W -> Prop) : Prop :=
  forall s, bytes s ->
    match m s with
    | Ok a s' => K a s'
    | Throw _ _ => True
    end.

Definition safe {A} (m : M W A) : Prop := yields m (fun _ s => bytes s).

Lemma yields_bind {A B} (m : M W A) (k : A -> M W B) (P : A -> Prop) K :
  yields m (fun a s => bytes s /\ P a) ->
  (forall a, P a -> yields (k a) K) ->
  yields (m ≫= k) K.
Proof.
  intros Hm Hk s Hs. specialize (Hm s Hs). unfold mbind, M_bind.
  destruct (m s) as [a s1|e s1]; [|exact Logic.I].
  destruct Hm as [Hs1 Pa]. exact (Hk a Pa s1 Hs1).
Qed.

Lemma safe_bind {A B} (m : M W A) (k : A -> M W B) K :
  safe m -> (forall a, yields (k a) K) -> yields (m ≫= k) K.
Proof.
  intros Hm Hk. apply (yields_bind m k (fun _ => True)).
  - intros s Hs. specialize (Hm s Hs). destruct (m s); auto.
  - auto.
Qed.

Lemma safe_ret {A} (a : A) : safe (mret a).
Proof. intros s Hs. exact Hs. Qed.

Lemma safe_throw {A} e : safe (throw (A:=A) e).
Proof. intros s Hs. exact Logic.I. Qed.

Lemma yields_getc {A B} (f : CPU -> A) (k : A -> M W B) K :
  (forall c, cpu_bytes c -> yields (k (f c)) K) -> yields (getc f ≫= k) K.
Proof. intros Hk s Hs. exact (Hk (cpu (nes s)) (proj1 Hs) s Hs). Qed.

Lemma yields_getp {A B} (f : Timing -> A) (k : A -> M W B) K :
  (forall a, yields (k a) K) -> yields (getp f ≫= k) K.
Proof. intros Hk s Hs. exact (Hk _ s Hs). Qed.

Lemma yields_getn {A B} (f : NES W -> A) (k : A -> M W B) K :
  (forall a, yields (k a) K) -> yields (getn f ≫= k) K.
Proof. intros Hk s Hs. exact (Hk _ s Hs). Qed.

Lemma safe_getc {A} (f : CPU -> A) : safe (getc f).
Proof. intros s Hs. exact Hs. Qed.

Lemma safe_setc f :
  (forall c, cpu_bytes c -> cpu_bytes (f c)) ->
  (forall c, mem (f c) = mem c) ->
  safe (setc f).
Proof.
  intros Hf Hm s (Hc & Hmem & Hg). unfold setc, bytes.
  cbn [nes set_nes cpu set_cpu gameGenie].
  split; [apply Hf, Hc|]. split; [rewrite Hm; exact Hmem | exact Hg].
Qed.

Lemma safe_setp f : safe (setp f).
Proof. intros s Hs. exact Hs. Qed.

Lemma safe_note f : safe (note f).
Proof. intros s Hs. exact Hs. Qed.

Lemma safe_log e : safe (log e).
Proof. apply safe_note. Qed.

Lemma safe_when (b : bool) m : safe m -> safe (when b m).
Proof. destruct b; [auto | intros _; apply safe_ret]. Qed.

(** *** Device calls *)

Lemma private_cpu_bytes (n1 n2 : NES W) :
  private n1 = private n2 -> cpu_bytes (cpu n1) -> cpu_bytes (cpu n2).
Proof.
  intros E. unfold cpu_bytes.
  rewrite (private_cpu REG_ACC n1 n2), (private_cpu REG_X n1 n2),
    (private_cpu REG_Y n1 n2), (private_cpu REG_SP n1 n2),
    (private_cpu F_CARRY n1 n2), (private_cpu F_DECIMAL n1 n2),
    (private_cpu F_INTERRUPT n1 n2), (private_cpu F_INTERRUPT_NEW n1 n2),
    (private_cpu F_OVERFLOW n1 n2), (private_cpu F_SIGN n1 n2),
    (private_cpu F_ZERO n1 n2), (private_cpu F_NOTUSED n1 n2),
    (private_cpu F_BRK n1 n2), (private_cpu F_BRK_NEW n1 n2),
    (private_cpu dataBus n1 n2) by (reflexivity || exact E).
  auto.
Qed.

Lemma bytes_seen (s : St W) : bytes s -> seen (nes s).
Proof. intros (Hc & Hm & _). split; [exact Hm | apply Hc]. Qed.

(** A device call that keeps [private] and leaves bytes in [cpu.mem]. *)
Lemma device_bytes (f : NES W -> NES W) (s : St W) :
  private (f (nes s)) = private (nes s) ->
  mem_bytes (mem (cpu (f (nes s)))) ->
  bytes s -> bytes (set_nes (f (nes s)) s).
Proof.
  intros E Hm (Hc & _ & Hg). unfold bytes. cbn.
  split; [exact (private_cpu_bytes _ _ (eq_sym E) Hc)|].
  split; [exact Hm|]. rewrite (private_genie _ _ E). exact Hg.
Qed.

Lemma safe_endScanline : safe (setn ppu_endScanline).
Proof.
  intros s Hs. unfold setn. apply device_bytes; [|  | exact Hs].
  - apply ppu_endScanline_private.
  - apply devices_ok, bytes_seen, Hs.
Qed.

Lemma safe_startVBlank : safe (setn ppu_startVBlank).
Proof.
  intros s Hs. unfold setn. apply device_bytes; [|  | exact Hs].
  - apply ppu_startVBlank_private.
  - apply devices_ok, bytes_seen, Hs.
Qed.

Lemma yields_mmap_do_load addr :
  yields (mmap_do_load addr) (fun v s => bytes s /\ byte v).
Proof.
  intros s Hs. unfold mmap_do_load, mbind, M_bind, getn.
  destruct (mmap_loaded (nes s)); [|exact Logic.I].
  unfold note, calln. cbn.
  destruct devices_ok as (Hload & _).
  destruct (Hload addr (nes s) (bytes_seen s Hs)) as [Hv Hm].
  pose proof (mmap_load_private addr (nes s)) as E.
  destruct (mmap_load addr (nes s)) as [v n]. cbn in *.
  split; [|exact Hv].
  destruct Hs as (Hc & _ & Hg). unfold bytes. cbn.
  split; [exact (private_cpu_bytes _ _ (eq_sym E) Hc)|].
  split; [exact Hm|]. rewrite (private_genie _ _ E). exact Hg.
Qed.

Lemma safe_mmap_do_write addr v : byte v -> safe (mmap_do_write addr v).
Proof.
  intros Hv s Hs. unfold mmap_do_write, mbind, M_bind, getn.
  destruct (mmap_loaded (nes s)); [|exact Logic.I].
  unfold note, setn. cbn.
  destruct devices_ok as (_ & Hwrite & _).
  pose proof (Hwrite addr v (nes s) (bytes_seen s Hs) Hv) as Hm.
  pose proof (mmap_write_private addr v (nes s)) as E.
  destruct Hs as (Hc & _ & Hg). unfold bytes. cbn.
  split; [exact (private_cpu_bytes _ _ (eq_sym E) Hc)|].
  split; [exact Hm|]. rewrite (private_genie _ _ E). exact Hg.
Qed.

Lemma toInt_byte (m : gmap Z Z) i : mem_bytes m -> byte (JS.toInt (m !! i)).
Proof.
  intros Hm. destruct (m !! i) as [v|] eqn:E; cbn.
  - exact (Hm i v E).
  - unfold byte. lia.
Qed.

Lemma yields_mem_at i : yields (mem_at i) (fun v s => bytes s /\ byte v).
Proof.
  intros s Hs. unfold mem_at, getc. split; [exact Hs|].
  apply toInt_byte, Hs.
Qed.

Lemma applyCodes_loop_byte ps addr v :
  Forall (fun p => byte (GameGenie.value p)) ps -> byte v ->
  byte (applyCodes_loop ps addr v).
Proof.
  intros Hps Hv. induction Hps as [|p ps Hp Hps IH]; [exact Hv|].
  cbn. destruct (_ && _); assumption.
Qed.

Lemma yields_loadFromCartridge addr :
  yields (loadFromCartridge addr) (fun v s => bytes s /\ byte v).
Proof.
  unfold loadFromCartridge.
  apply (yields_bind _ _ byte); [apply yields_mmap_do_load|].
  intros v Hv s Hs. unfold mbind, M_bind, getn.
  destruct (_ && _); cbn; (split; [exact Hs|]); [|exact Hv].
  unfold applyCodes. destruct (enabled _); [|exact Hv].
  apply applyCodes_loop_byte; [apply Hs | exact Hv].
Qed.



(** *** The bus *)

Ltac cpu_goal :=
  let c := fresh "c" in
  let Hc := fresh "Hc" in
  intros c Hc;
  unfold cpu_bytes in *;
  cbn [mem REG_ACC REG_X REG_Y REG_SP REG_PC REG_PC_NEW F_CARRY F_DECIMAL
       F_INTERRUPT F_INTERRUPT_NEW F_OVERFLOW F_SIGN F_ZERO F_NOTUSED F_BRK
       F_BRK_NEW cyclesToHalt irqRequested irqType dataBus instrBusCycles
       ppuCatchupDots ppuFrameEnded _dmcFetchCycles apuCatchupCycles
       set_mem set_REG_ACC set_REG_X set_REG_Y set_REG_SP set_REG_PC
       set_REG_PC_NEW set_F_CARRY set_F_DECIMAL set_F_INTERRUPT
       set_F_INTERRUPT_NEW set_F_OVERFLOW set_F_SIGN set_F_ZERO
       set_F_NOTUSED set_F_BRK set_F_BRK_NEW set_cyclesToHalt
       set_irqRequested set_irqType set_dataBus set_instrBusCycles
       set_ppuCatchupDots set_ppuFrameEnded set__dmcFetchCycles
       set_apuCatchupCycles];
  repeat match goal with
         | H : _ /\ _ |- _ => destruct H
         end;
  refine (conj _ (conj _ (conj _ (conj _ (conj _ (conj _ (conj _ (conj _
            (conj _ (conj _ (conj _ (conj _ (conj _ (conj _ _))))))))))))));
  try assumption; try (split; assumption);
  auto 6 using bit_byte with bytes nocore.

Ltac setc_ok := apply safe_setc; [cpu_goal | reflexivity].

Lemma safe_set_dataBus v : byte v -> safe (setc (set_dataBus v)).
Proof. intros Hv. setc_ok. Qed.

Lemma safe_bump : safe bump.
Proof. unfold bump. setc_ok. Qed.

Lemma safe_setStatusFlag flag value :
  0 <= flag <= 7 -> safe (setStatusFlag flag value).
Proof.
  intros Hf s (Hc & Hm & Hg). unfold setStatusFlag, setc, bytes.
  cbn [nes set_nes cpu set_cpu gameGenie].
  split; [revert Hc; generalize (cpu (nes s)); cpu_goal|].
  split; [|exact Hg].
  cbn [mem set_mem]. intros i v E.
  destruct (decide (i = 0x2002)) as [->|Hne].
  - rewrite lookup_insert_eq in E. injection E as <-.
    pose proof (toInt_byte _ 0x2002 Hm) as Hb.
    assert (F : flag = 0 \/ flag = 1 \/ flag = 2 \/ flag = 3 \/ flag = 4
                \/ flag = 5 \/ flag = 6 \/ flag = 7) by lia.
    destruct value;
      repeat (destruct F as [-> | F]); try subst flag;
      (apply byte_lor;
       [apply byte_land_l, Hb | vm_compute; split; discriminate]).
  - rewrite lookup_insert_ne in E by congruence. exact (Hm i v E).
Qed.

Lemma safe_sprite0_check : safe sprite0_check.
Proof.
  unfold sprite0_check. apply yields_getp. intros p.
  apply safe_when, safe_setStatusFlag. unfold STATUS_SPRITE0HIT. lia.
Qed.

Lemma safe_advance_dot : safe advance_dot.
Proof.
  unfold advance_dot.
  apply safe_bind; [apply safe_setp | intros _].
  apply safe_bind; [apply safe_note | intros _].
  apply yields_getp. intros x. apply safe_when.
  apply safe_bind; [apply safe_setp | intros _]. apply safe_endScanline.
Qed.

Lemma safe_nmi_countdown : safe nmi_countdown.
Proof.
  unfold nmi_countdown. apply yields_getp. intros [|].
  - apply safe_bind; [apply safe_setp | intros _].
    apply yields_getp. intros n. apply safe_ret.
  - apply safe_ret.
Qed.

Lemma safe_ppuCatchUp_loop fuel targetDots :
  safe (ppuCatchUp_loop fuel targetDots).
Proof.
  induction fuel as [|fuel IH]; cbn [ppuCatchUp_loop]; [apply safe_ret|].
  apply yields_getc. intros c Hc.
  destruct (ppuCatchupDots c <? targetDots); [|apply safe_ret].
  apply safe_bind; [apply safe_sprite0_check | intros _].
  apply safe_bind; [apply safe_nmi_countdown | intros [|]].
  - apply safe_bind; [apply safe_setp | intros _].
    apply safe_bind; [apply safe_startVBlank | intros _].
    apply safe_bind; [setc_ok | intros _].
    apply safe_bind; [setc_ok | intros _].
    apply safe_note.
  - apply safe_bind; [apply safe_advance_dot | intros _].
    apply safe_bind; [setc_ok | intros _].
    exact IH.
Qed.

Lemma safe_ppuCatchUp : safe ppuCatchUp.
Proof.
  unfold ppuCatchUp. apply yields_getc. intros c Hc.
  apply yields_getc. intros c' Hc'. apply safe_ppuCatchUp_loop.
Qed.

Lemma yields_load addr : yields (load addr) (fun v s => bytes s /\ byte v).
Proof.
  unfold load.
  apply safe_bind; [apply safe_when, safe_ppuCatchUp | intros _].
  apply (yields_bind _ _ byte).
  - destruct (addr <? 0x2000);
      [apply yields_mem_at | apply yields_loadFromCartridge].
  - intros v Hv.
    apply safe_bind; [apply safe_set_dataBus, Hv | intros _].
    apply safe_bind; [apply safe_log | intros _].
    apply safe_bind; [apply safe_bump | intros _].
    intros s Hs. split; [exact Hs | exact Hv].
Qed.

Lemma safe_load16bit addr : safe (load16bit addr).
Proof.
  unfold load16bit.
  destruct (addr <? 0x1fff).
  - apply (yields_bind _ _ byte); [apply yields_mem_at | intros lo Hlo].
    apply safe_bind; [apply safe_set_dataBus, Hlo | intros _].
    apply safe_bind; [apply safe_log | intros _].
    apply (yields_bind _ _ byte); [apply yields_mem_at | intros hi Hhi].
    apply safe_bind; [apply safe_set_dataBus, Hhi | intros _].
    apply safe_bind; [apply safe_log | intros _].
    apply safe_bind; [setc_ok | intros _]. apply safe_ret.
  - apply (yields_bind _ _ byte);
      [apply yields_loadFromCartridge | intros lo Hlo].
    apply safe_bind; [apply safe_set_dataBus, Hlo | intros _].
    apply safe_bind; [apply safe_log | intros _].
    apply (yields_bind _ _ byte);
      [apply yields_loadFromCartridge | intros hi Hhi].
    apply safe_bind; [apply safe_set_dataBus, Hhi | intros _].
    apply safe_bind; [apply safe_log | intros _].
    apply safe_bind; [setc_ok | intros _]. apply safe_ret.
Qed.

Lemma safe_ram_store addr val :
  byte val ->
  safe (setc (fun c => set_mem (<[ addr .& 0x7ff := val ]> (mem c)) c)).
Proof.
  intros Hv s (Hc & Hm & Hg). unfold setc, bytes.
  cbn [nes set_nes cpu set_cpu gameGenie].
  split; [revert Hc; generalize (cpu (nes s)); cpu_goal|].
  split; [|exact Hg].
  cbn [mem set_mem]. intros i v E.
  destruct (decide (i = addr .& 0x7ff)) as [->|Hne].
  - rewrite lookup_insert_eq in E. injection E as <-. exact Hv.
  - rewrite lookup_insert_ne in E by congruence. exact (Hm i v E).
Qed.

Lemma safe_write addr val : byte val -> safe (write addr val).
Proof.
  intros Hv. unfold write.
  apply safe_bind; [apply safe_set_dataBus, Hv | intros _].
  apply safe_bind; [apply safe_when, safe_ppuCatchUp | intros _].
  apply safe_bind;
    [destruct (addr <? 0x2000);
       [apply safe_ram_store, Hv | apply safe_mmap_do_write, Hv]
    | intros _].
  apply safe_bind; [apply safe_log | intros _]. apply safe_bump.
Qed.

Lemma safe_push value : byte value -> safe (push value).
Proof.
  intros Hv. unfold push.
  apply safe_bind; [apply safe_set_dataBus, Hv | intros _].
  apply yields_getc. intros c Hc.
  apply safe_bind; [apply safe_mmap_do_write, Hv | intros _].
  apply safe_bind; [apply safe_log | intros _].
  apply safe_bind; [|intros _; apply safe_bump].
  apply safe_setc; [|reflexivity]. cpu_goal.
  pose proof (byte_land_255 (REG_SP c0 - 1)). unfold byte in *. lia.
Qed.

Lemma yields_pull : yields pull (fun v s => bytes s /\ byte v).
Proof.
  unfold pull.
  apply safe_bind.
  { apply safe_setc; [|reflexivity]. cpu_goal.
    pose proof (byte_land_255 (REG_SP c + 1)). unfold byte in *. lia. }
  intros _. apply yields_getc. intros c Hc.
  apply (yields_bind _ _ byte); [apply yields_mmap_do_load | intros v Hv].
  apply safe_bind; [apply safe_set_dataBus, Hv | intros _].
  apply safe_bind; [apply safe_log | intros _].
  apply safe_bind; [apply safe_bump | intros _].
  intros s Hs. split; [exact Hs | exact Hv].
Qed.


(** *** Instructions *)

Lemma yields_assoc {A B C} (m : M W A) (f : A -> M W B) (g : B -> M W C) K :
  yields (m ≫= (fun x => f x ≫= g)) K -> yields ((m ≫= f) ≫= g) K.
Proof.
  intros Hy s Hs. specialize (Hy s Hs). unfold mbind, M_bind in *.
  destruct (m s); exact Hy.
Qed.

Lemma yields_ret_bind {A B} (a : A) (k : A -> M W B) K :
  yields (k a) K -> yields (mret a ≫= k) K.
Proof. intros Hy s Hs. exact (Hy s Hs). Qed.

(** Two assignments in a row, the first of which leaves a number that
    is no byte: [this.REG_Y++; this.REG_Y &= 0xff]. *)
Lemma yields_setc_twice {B} f g (k : unit -> M W B) K :
  safe (setc (fun c => g (f c))) ->
  yields (k tt) K ->
  yields (setc f ≫= fun _ => setc g ≫= k) K.
Proof.
  intros Hfg Hk s Hs. specialize (Hfg s Hs). exact (Hk _ Hfg).
Qed.

Lemma byte_ite (b : bool) x y : byte x -> byte y -> byte (if b then x else y).
Proof. destruct b; auto. Qed.

Lemma byte_const v : (0 <=? v) && (v <=? 255) = true -> byte v.
Proof. unfold byte. intros E. apply andb_prop in E as [? ?]. lia. Qed.

Lemma sp_land x : 0 <= x .& 0xff <= 0x1ff.
Proof. pose proof (byte_land_255 x). unfold byte in *. lia. Qed.

Ltac byte_side :=
  solve [ eauto 8 using bit_byte, byte_ite, sp_land with bytes nocore
        | apply byte_const; reflexivity ].

Ltac setc_side :=
  apply safe_setc;
  [ cpu_goal; try byte_side;
    try (match goal with
         | |- 0 <= ?x .& 255 <= 511 => apply sp_land
         | |- 0 <= 256 .| ?t <= 511 => apply stack_lor; byte_side
         end)
  | reflexivity ].

Ltac take_cpu :=
  let c := fresh "c" in
  let Hc := fresh "Hc" in
  let Hc' := fresh "Hc" in
  intros c Hc; pose proof Hc as Hc'; unfold cpu_bytes in Hc';
  destruct Hc' as (? & ? & ? & ? & ? & ? & ? & ? & ? & ? & ? & ? & ? & ? & ?).

Lemma safe_branch opaddr addr cycleCount : safe (branch opaddr addr cycleCount).
Proof.
  unfold branch. apply safe_bind; [setc_side | intros _]. apply safe_ret.
Qed.

Lemma safe_indexed_dummy_read addrMode cycleAdd addr :
  safe (indexed_dummy_read addrMode cycleAdd addr).
Proof.
  unfold indexed_dummy_read. apply safe_when.
  apply (yields_bind _ _ byte); [apply yields_load | intros v Hv].
  apply safe_ret.
Qed.

Lemma safe_dmaDuringInstr : safe dmaDuringInstr.
Proof.
  unfold dmaDuringInstr. apply yields_getc. intros c Hc.
  apply yields_getc. intros c' Hc'. apply safe_ret.
Qed.

Lemma safe_glitch_store cycleAdd addr val :
  byte val -> safe (glitch_store cycleAdd addr val).
Proof. intros Hv. unfold glitch_store. apply safe_write, Hv. Qed.

Lemma safe_load_only addr : safe (load addr;; mret tt).
Proof.
  apply (yields_bind _ _ byte); [apply yields_load | intros v Hv].
  apply safe_ret.
Qed.

Ltac by_step :=
  lazymatch goal with
  | |- yields (mret _) _ => apply safe_ret
  | |- yields (throw _) _ => apply safe_throw
  | |- yields (branch _ _ _) _ => apply safe_branch
  | |- yields ((_ ≫= _) ≫= _) _ => apply yields_assoc
  | |- yields (mret _ ≫= _) _ => apply yields_ret_bind
  | |- yields (getc _ ≫= _) _ => apply yields_getc; take_cpu
  | |- yields (load _ ≫= _) _ =>
      apply (yields_bind _ _ byte); [apply yields_load | intros ? ?]
  | |- yields (pull ≫= _) _ =>
      apply (yields_bind _ _ byte); [apply yields_pull | intros ? ?]
  | |- yields (load16bit _ ≫= _) _ =>
      apply safe_bind; [apply safe_load16bit | intros ?]
  | |- yields (write _ _ ≫= _) _ =>
      apply safe_bind; [apply safe_write; byte_side | intros _]
  | |- yields (push _ ≫= _) _ =>
      apply safe_bind; [apply safe_push; byte_side | intros _]
  | |- yields (glitch_store _ _ _ ≫= _) _ =>
      apply safe_bind; [apply safe_glitch_store; byte_side | intros _]
  | |- yields (indexed_dummy_read _ _ _ ≫= _) _ =>
      apply safe_bind; [apply safe_indexed_dummy_read | intros _]
  | |- yields (dmaDuringInstr ≫= _) _ =>
      apply safe_bind; [apply safe_dmaDuringInstr | intros ?]
  | |- yields (when _ (load _;; mret tt) ≫= _) _ =>
      apply safe_bind; [apply safe_when, safe_load_only | intros _]
  | |- yields (setc _ ≫= _) _ =>
      apply safe_bind; [setc_side | intros _]
  | |- yields (log _ ≫= _) _ => apply safe_bind; [apply safe_log | intros _]
  | |- yields (setc _) _ => setc_side
  | |- yields (push _) _ => apply safe_push; byte_side
  | |- yields (write _ _) _ => apply safe_write; byte_side
  | |- yields ((if ?b then _ else _) ≫= _) _ => destruct b
  | |- yields (if ?b then _ else _) _ => destruct b
  end.

Lemma safe_exec i addrMode opaddr addr cycleAdd baseHigh cycleCount :
  safe (exec i addrMode opaddr addr cycleAdd baseHigh cycleCount).
Proof.
  unfold safe.
  destruct i; unfold exec; cbv zeta; try solve [repeat by_step].
  (* INY *)
  apply yields_setc_twice; [setc_side | repeat by_step].
Qed.

(** *** Fetch, decode and execute *)

Lemma safe_indexed base index : safe (indexed base index).
Proof. unfold indexed, safe. cbv zeta. repeat by_step. Qed.

Lemma safe_addressing addrMode opaddr : safe (addressing addrMode opaddr).
Proof.
  unfold addressing, safe.
  destruct (mode_of addrMode) as [[]|]; try solve [repeat by_step].
  - repeat by_step; apply safe_indexed.
  - repeat by_step; apply safe_indexed.
  - repeat by_step; apply safe_indexed.
  - apply safe_bind; [apply safe_load16bit | intros a].
    cbv zeta. destruct (a <? 0x1fff).
    + apply (yields_bind _ _ byte); [apply yields_mem_at | intros lo Hlo].
      apply safe_bind; [apply safe_log | intros _].
      apply (yields_bind _ _ byte); [apply yields_mem_at | intros hi Hhi].
      apply safe_bind; [apply safe_log | intros _]. apply safe_ret.
    + apply (yields_bind _ _ byte);
        [apply yields_loadFromCartridge | intros lo Hlo].
      apply safe_bind; [apply safe_log | intros _].
      apply (yields_bind _ _ byte);
        [apply yields_loadFromCartridge | intros hi Hhi].
      apply safe_bind; [apply safe_log | intros _]. apply safe_ret.
Qed.

Lemma safe_execute opcode : safe (execute opcode).
Proof.
  unfold execute, safe. cbv zeta.
  apply yields_getc. intros c Hc.
  apply safe_bind; [setc_side | intros _].
  apply safe_bind; [apply safe_addressing | intros [[addr ca] bh]].
  destruct (instr_of _); [apply safe_exec | apply safe_throw].
Qed.

Lemma safe_fetch : yields fetch (fun _ s => bytes s).
Proof.
  unfold fetch, reset_counters.
  repeat by_step.
  apply yields_getn. intros d. repeat by_step.
  apply (yields_bind _ _ byte);
    [apply yields_loadFromCartridge | intros opcode Ho].
  repeat by_step.
Qed.

Lemma safe_vector_fetch vector : safe (vector_fetch vector).
Proof.
  unfold vector_fetch, safe.
  apply (yields_bind _ _ byte);
    [apply yields_loadFromCartridge | intros lo Hlo].
  repeat by_step.
  apply (yields_bind _ _ byte);
    [apply yields_loadFromCartridge | intros hi Hhi].
  repeat by_step.
Qed.

Lemma safe_push_return status : byte status -> safe (push_return status).
Proof.
  intros Hs. unfold push_return, safe. repeat by_step.
Qed.

Lemma safe_check_interrupts : safe check_interrupts.
Proof.
  unfold check_interrupts, safe.
  apply yields_getc. intros c Hc. apply safe_when.
  apply yields_getc. intros c1 Hc1.
  assert (Hst : byte (getStatus c1 .& 0xef))
    by (apply byte_land_l, byte_status, Hc1).
  apply safe_bind; [setc_side | intros _].
  apply safe_bind; [setc_side | intros _].
  apply yields_getc. intros c2 Hc2.
  apply safe_bind.
  { assert (Hnmi : safe (doNonMaskableInterrupt (getStatus c1 .& 0xef))).
    { unfold doNonMaskableInterrupt. apply yields_getn. intros l.
      apply safe_when.
      apply safe_bind; [apply safe_push_return, Hst | intros _].
      apply safe_vector_fetch. }
    assert (Hirq : safe (doIrq (getStatus c1 .& 0xef))).
    { unfold doIrq.
      apply safe_bind; [apply safe_push_return, Hst | intros _].
      repeat by_step. apply safe_vector_fetch. }
    destruct (irqType c2) as [[|[[]|[]|]|]|];
      first [ apply safe_ret | exact Hnmi | apply safe_vector_fetch | idtac ].
    apply yields_getc. intros c4 Hc4.
    destruct (negb _); [apply safe_ret | exact Hirq]. }
  intros _. repeat by_step.
Qed.

End Bytes.

(** X12.  From a state in which the registers, the data bus, [cpu.mem] and the
    Game Genie values are bytes, with devices that read and store bytes,
    an instruction leaves such a state. *)
Theorem emulate_keeps_bytes {W : Type} `{Devices W}
    (s s' : St W) (r : option Z) :
  byte_devices -> bytes s -> emulate s = Ok r s' -> bytes s'.
Proof.
  intros Hd Hs E.
  assert (S : safe emulate).
  { unfold emulate.
    apply safe_bind; [apply (safe_check_interrupts Hd) | intros _].
    apply yields_getn. intros [|]; [|apply safe_ret].
    apply safe_bind; [apply (safe_fetch Hd) | intros opcode].
    apply (safe_execute Hd). }
  specialize (S s Hs). rewrite E in S. exact S.
Qed.


(** *** Open bus *)

Section OpenBus.
Context {W : Type} `{Devices W}.

(** The mapper answers a read of $4018-$5FFF with the data bus, as
    [Mapper0.load] does. *)
Definition open_bus_mapped : Prop :=
  forall a n, 0x4018 <= a < 0x6000 -> mmap_load a n = (dataBus (cpu n), n).

Lemma execute_lda_abs :
  execute 0xad
  = (opaddr ← getc REG_PC;
     setc (fun c => set_REG_PC (REG_PC c + 3) c);;
     '(addr, cycleAdd, baseHigh) ← addressing 3 opaddr;
     exec LDA 3 opaddr (addr .& 0xffff) cycleAdd baseHigh 4).
Proof. reflexivity. Qed.

Lemma bind_load_open_bus {B} a (k : Z -> M W B) (s : St W) :
  open_bus_mapped -> mmap_loaded (nes s) = true ->
  patches (gameGenie (nes s)) = [] ->
  0x4018 <= a < 0x6000 ->
  (load a ≫= k) s
  = k (dataBus (cpu (nes s)))
      (mkSt (set_cpu (set_instrBusCycles (instrBusCycles (cpu (nes s)) + 1)
                        (set_dataBus (dataBus (cpu (nes s))) (cpu (nes s))))
                     (nes s))
            (set_trace (trace (ghost s) ++ [BusRead a (dataBus (cpu (nes s)))])
               (set_mapper (mapper (ghost s) ++ [MapLoad a]) (ghost s)))).
Proof.
  intros Ho Hl Hp Ha. destruct s as [[c p g l cr f w] gh].
  norm_state_in Hl. norm_state_in Hp. subst l.
  unfold load, in_ppu_range, bump, loadFromCartridge, mmap_do_load.
  assert (E1 : (a <? 0x4000) = false) by lia.
  assert (E2 : (a <? 0x2000) = false) by lia.
  rewrite E1, E2, andb_false_r. unfold when. run_cpu.
  rewrite (Ho _ _ Ha). norm_state.
  rewrite Hp. cbn [length Z.of_nat Z.ltb Z.compare andb].
  rewrite andb_false_r. run_cpu. reflexivity.
Qed.

(** X13.  [LDA] from an address in $4018-$5FFF loads the high byte of
    that address: the mapper answers with the data bus, which holds the
    last operand byte fetched; whatever [cpu.mem] holds there is not
    read. *)
Theorem lda_reads_open_bus (s : St W) (lo hi : Z) :
  let pc := REG_PC (cpu (nes s)) in
  let m := mem (cpu (nes s)) in
  rom_mapped -> open_bus_mapped -> plain s ->
  0x8000 <= pc + 1 -> pc + 3 <= 0xffff ->
  m !! (pc + 1) = Some 0xad -> m !! (pc + 2) = Some lo ->
  m !! (pc + 3) = Some hi ->
  0 <= lo <= 255 -> 0 <= hi <= 255 ->
  0x4018 <= lo + 256 * hi < 0x6000 ->
  exists s',
    emulate s = Ok (Some 4) s'
    /\ REG_ACC (cpu (nes s')) = hi
    /\ REG_PC (cpu (nes s')) = pc + 3
    /\ mem (cpu (nes s')) = m
    /\ trace (ghost s')
       = trace (ghost s)
         ++ [BusRead (pc + 1) 0xad; BusRead (pc + 2) lo; BusRead (pc + 3) hi;
             BusRead (lo + 256 * hi) hi].
Proof.
  intros pc m Hrom Hopen (Hl & Hirq & Hp) Hpc1 Hpc3 M1 M2 M3 Hlo Hhi Ht.
  subst pc m.
  destruct s as [[c p g l cr f w] gh]. norm_state_in Hl. norm_state_in Hirq.
  norm_state_in Hp. norm_state_in Hpc1. norm_state_in Hpc3.
  norm_state_in M1. norm_state_in M2. norm_state_in M3. subst l.
  set (pc := REG_PC c) in *.
  pose proof (word_join lo hi Hlo Hhi) as Join.
  eexists. split.
  { unfold emulate, check_interrupts. run_cpu. rewrite Hirq. unfold when.
    run_cpu. unfold fetch, reset_counters. run_cpu.
    fold pc.
    rewrite bind_loadFromCartridge_rom by (norm_state; assumption || lia).
    run_cpu. rewrite M1. change (JS.toInt (Some 173)) with 173.
    rewrite execute_lda_abs. run_cpu. fold pc.
    rewrite addressing_abs. run_cpu.
    rewrite bind_load16bit_rom by (norm_state; assumption || lia).
    cbv zeta. run_cpu.
    replace (pc + 2 + 1) with (pc + 3) by lia.
    rewrite M2, M3. change (JS.toInt (Some ?x)) with x.
    rewrite Join. unfold exec. run_cpu.
    rewrite bind_load_open_bus
      by (norm_state; assumption || lia || reflexivity).
    run_cpu. reflexivity. }
  norm_state. repeat split; try reflexivity.
  rewrite <- !app_assoc. reflexivity.
Qed.

End OpenBus.

(** *** Branches *)

(** The opcode of a conditional branch. *)
Definition branch_opcode (i : Instr) : option Z :=
  match i with
  | BPL => Some 0x10 | BMI => Some 0x30 | BVC => Some 0x50
  | BVS => Some 0x70 | BCC => Some 0x90 | BCS => Some 0xb0
  | BNE => Some 0xd0 | BEQ => Some 0xf0
  | _ => None
  end.

(** The test of each branch; [F_ZERO] holds the last result. *)
Definition branch_taken (i : Instr) (c : CPU) : bool :=
  match i with
  | BPL => F_SIGN c =? 0 | BMI => F_SIGN c =? 1
  | BVC => F_OVERFLOW c =? 0 | BVS => F_OVERFLOW c =? 1
  | BCC => F_CARRY c =? 0 | BCS => F_CARRY c =? 1
  | BNE => negb (F_ZERO c =? 0) | BEQ => F_ZERO c =? 0
  | _ => false
  end.

Lemma page_of x : 0 <= x <= 0xffff -> x .& 0xff00 = 256 * (x / 256).
Proof.
  intros Hx. apply Z.eqb_eq.
  apply (JS.forall_below_spec (Z.to_nat 65536)
           (fun x => x .& 0xff00 =? 256 * (x / 256)));
    [vm_compute; reflexivity | lia].
Qed.

Section Branch.
Context {W : Type} `{Devices W}.

Lemma execute_branch i op :
  branch_opcode i = Some op ->
  execute op
  = (opaddr ← getc REG_PC;
     setc (fun c => set_REG_PC (REG_PC c + 2) c);;
     '(addr, cycleAdd, baseHigh) ← addressing 1 opaddr;
     exec i 1 opaddr (addr .& 0xffff) cycleAdd baseHigh 2).
Proof. destruct i; intros [= <-]; reflexivity. Qed.

Lemma addressing_rel opaddr :
  addressing 1 opaddr
  = (addr ← load (opaddr + 2);
     pc ← getc REG_PC;
     if addr <? 0x80 then mret (addr + pc, 0, 0)
     else mret (addr + (pc - 256), 0, 0)).
Proof. reflexivity. Qed.

Lemma exec_branch i op addrMode opaddr addr cycleAdd baseHigh cycleCount
    (s : St W) :
  branch_opcode i = Some op ->
  exec i addrMode opaddr addr cycleAdd baseHigh cycleCount s
  = if branch_taken i (cpu (nes s)) then branch opaddr addr cycleCount s
    else Ok (Some cycleCount) s.
Proof.
  destruct i; intros [= <-]; unfold exec, branch_taken; run_cpu;
    destruct (_ =? _); reflexivity.
Qed.

Lemma branch_taken_flags i (c c' : CPU) :
  F_SIGN c' = F_SIGN c -> F_OVERFLOW c' = F_OVERFLOW c ->
  F_CARRY c' = F_CARRY c -> F_ZERO c' = F_ZERO c ->
  branch_taken i c' = branch_taken i c.
Proof. intros E1 E2 E3 E4. destruct i; cbn; congruence. Qed.

(** X14.  A conditional branch in ROM takes 2 cycles when it is not
    taken and leaves the program counter on its operand; when it is taken
    the program counter moves to the operand's address plus the signed
    offset (modulo $10000) and the branch takes 3 cycles, or 4 when that
    target and the byte before the opcode lie in different pages. *)
Theorem branch_cycles (s : St W) (i : Instr) (op d : Z) :
  let c := cpu (nes s) in
  let pc := REG_PC c in
  let target := (pc + 2 + signed d) mod 65536 in
  rom_mapped -> plain s -> branch_opcode i = Some op ->
  0x8000 <= pc + 1 -> pc + 2 <= 0xffff ->
  mem c !! (pc + 1) = Some op -> mem c !! (pc + 2) = Some d ->
  0 <= d <= 255 ->
  exists s',
    emulate s
    = Ok (Some (if branch_taken i c
                then (if pc / 256 =? target / 256 then 3 else 4)
                else 2)) s'
    /\ REG_PC (cpu (nes s')) = (if branch_taken i c then target else pc + 2)
    /\ mem (cpu (nes s')) = mem c
    /\ REG_SP (cpu (nes s')) = REG_SP c.
Proof.
  intros c0 pc target Hrom (Hl & Hirq & Hp) Hop Hpc1 Hpc2 M1 M2 Hd.
  subst c0 pc target.
  destruct s as [[c p g l cr f w] gh]. norm_state_in Hl. norm_state_in Hirq.
  norm_state_in Hp. norm_state_in Hpc1. norm_state_in Hpc2.
  norm_state_in M1. norm_state_in M2. subst l. norm_state.
  set (pc := REG_PC c) in *.
  assert (Ht : (if d <? 128 then d + (pc + 2) else d + (pc + 2 - 256))
               .& 0xffff = (pc + 2 + signed d) mod 65536).
  { change 0xffff with (Z.ones 16). rewrite Z.land_ones by lia.
    unfold signed. destruct (d <? 128); f_equal; lia. }
  pose proof (Z.mod_pos_bound (pc + 2 + signed d) 65536 ltac:(lia)) as Hb.
  set (target := (pc + 2 + signed d) mod 65536) in *.
  assert (Hpage : negb (pc .& 0xff00 =? target .& 0xff00)
                  = negb (pc / 256 =? target / 256)).
  { rewrite !page_of by lia. f_equal.
    destruct (Z.eqb_spec (pc / 256) (target / 256)) as [E | E];
      [rewrite E; apply Z.eqb_refl | apply Z.eqb_neq; lia]. }
  assert (E : forall (k : Z * Z * Z -> M W (option Z)) s0,
            ((if d <? 128 then mret (d + (pc + 2), 0, 0)
              else mret (d + (pc + 2 - 256), 0, 0)) ≫= k) s0
            = k (if d <? 128 then d + (pc + 2) else d + (pc + 2 - 256),
                 0, 0) s0)
    by (intros k s0; destruct (d <? 128); reflexivity).
  destruct (branch_taken i c) eqn:Tk; eexists; (split; [
    unfold emulate, check_interrupts; run_cpu; rewrite Hirq; unfold when;
    run_cpu; unfold fetch, reset_counters; run_cpu; fold pc;
    rewrite bind_loadFromCartridge_rom by (norm_state; assumption || lia);
    run_cpu; rewrite M1; change (JS.toInt (Some op)) with op;
    rewrite (execute_branch i op Hop); run_cpu; fold pc;
    rewrite addressing_rel; run_cpu;
    rewrite bind_load_rom by (norm_state; assumption || lia);
    run_cpu; rewrite M2; change (JS.toInt (Some d)) with d; fold pc;
    rewrite E; cbv beta iota; rewrite Ht;
    rewrite (exec_branch i op _ _ _ _ _ _ _ Hop); norm_state;
    rewrite (branch_taken_flags i c) by reflexivity; rewrite Tk;
    unfold branch; rewrite ?Hpage; run_cpu;
    try (destruct (pc / 256 =? target / 256)); reflexivity
  | ]).
  - destruct (pc / 256 =? target / 256); norm_state; repeat split;
      reflexivity.
  - norm_state. repeat split; reflexivity.
Qed.

End Branch.

(** ** The instruction set on the small console *)

Section CpuExamples.
#[local] Existing Instance Bench.devices.
#[local] Existing Instance APU.silent.

Lemma land_ffff_id a : 0 <= a <= 0xffff -> a .& 0xffff = a.
Proof.
  intros Ha. change 0xffff with (Z.ones 16). rewrite Z.land_ones by lia.
  apply Z.mod_small. lia.
Qed.

Lemma bench_ram_mapped : ram_mapped (W := Bench.W).
Proof.
  intros a n Ha. split.
  - intros v. cbn [mmap_write Bench.devices]. unfold Bench.write.
    assert (E : (a <? 0x2000) = true) by lia. rewrite E. reflexivity.
  - cbn [mmap_load Bench.devices]. unfold Bench.load. cbv zeta.
    rewrite land_ffff_id by lia.
    assert (E1 : (0x4017 <? a) = false) by lia.
    assert (E2 : (0x2000 <=? a) = false) by lia.
    rewrite E1, E2. reflexivity.
Qed.

Lemma bench_rom_mapped : rom_mapped (W := Bench.W).
Proof.
  intros a n Ha.
  cbn [mmap_load Bench.devices]. unfold Bench.load. cbv zeta.
  rewrite land_ffff_id by lia.
  assert (E1 : (0x4017 <? a) = true) by lia.
  assert (E2 : (a <? 0x6000) = false) by lia.
  rewrite E1, E2. reflexivity.
Qed.

Lemma mem_bytes_insert (m : gmap Z Z) i v :
  mem_bytes m -> byte v -> mem_bytes (<[ i := v ]> m).
Proof.
  intros Hm Hv j w E. destruct (decide (j = i)) as [->|Hne].
  - rewrite lookup_insert_eq in E. injection E as <-. exact Hv.
  - rewrite lookup_insert_ne in E by congruence. exact (Hm j w E).
Qed.

Lemma bench_setStatusFlag_bytes flag value (n : NES Bench.W) :
  0 <= flag <= 7 -> mem_bytes (mem (cpu n)) ->
  mem_bytes (mem (cpu (Bench.setStatusFlag flag value n))).
Proof.
  intros Hf Hm. unfold Bench.setStatusFlag, Bench.mem_put, Bench.mem_get.
  cbv zeta. cbn [cpu set_cpu mem set_mem].
  apply mem_bytes_insert; [exact Hm|].
  pose proof (toInt_byte _ 0x2002 Hm) as Hb.
  assert (F : flag = 0 \/ flag = 1 \/ flag = 2 \/ flag = 3 \/ flag = 4
              \/ flag = 5 \/ flag = 6 \/ flag = 7) by lia.
  destruct value;
    repeat (destruct F as [-> | F]); try subst flag;
    (apply byte_lor;
       [apply byte_land_l, Hb | vm_compute; split; discriminate]).
Qed.

Lemma bench_byte_devices : byte_devices (W := Bench.W).
Proof.
  unfold byte_devices, seen.
  cbn [mmap_load mmap_write ppu_endScanline ppu_startVBlank Bench.devices].
  split; [|split; [|split]].
  - intros a n [Hm Hd]. unfold Bench.load, Bench.regLoad, Bench.mem_get.
    cbv zeta.
    repeat case_match; cbn [fst snd cpu set_world mem];
      try (split; [|exact Hm]); try exact Hd; try apply toInt_byte, Hm.
    match goal with
    | E : APU.readReg _ _ = _ |- _ =>
        unfold APU.readReg in E; cbn in E; injection E as <- <-
    end.
    apply (byte_land_255 _).
  - intros a v n [Hm Hd] Hv.
    unfold Bench.write, Bench.regWrite, Bench.mem_put, haltCycles.
    repeat case_match;
      cbn [cpu set_cpu set_world mem set_mem set_cyclesToHalt];
      try exact Hm; apply mem_bytes_insert; assumption.
  - intros n [Hm Hd]. unfold Bench.endScanline. cbv zeta.
    repeat case_match; cbn [cpu set_ppu mem];
      repeat first [ exact Hm
                   | apply bench_setStatusFlag_bytes; [lia|] ].
  - intros n [Hm Hd]. exact Hm.
Qed.

(** A state of the small console with its CPU changed by [f]. *)
Definition with_cpu (f : CPU -> CPU) (s : St Bench.W) : St Bench.W :=
  set_nes (set_cpu (f (cpu (nes s))) (nes s)) s.

(** $7F in the accumulator, the carry set and $01 at $0010. *)
Definition adc_ram : St Bench.W :=
  with_cpu (fun c => set_F_CARRY 1 (set_REG_ACC 0x7f c))
           (Bench.console [(0x0010, 0x01)]).

(** [JSR $9000] at $8000 and [RTS] at $9000. *)
Definition jsr_rom : St Bench.W :=
  Bench.console [(0x8000, 0x20); (0x8001, 0x00); (0x8002, 0x90);
                 (0x9000, 0x60)].

(** A pending NMI, with the handler at $9000 and the flags N and C
    set. *)
Definition nmi_pending : St Bench.W :=
  with_cpu (fun c => requestIrq 1 (set_F_SIGN 1 (set_F_CARRY 1 c)))
           (Bench.console [(0xfffa, 0x00); (0xfffb, 0x90)]).

Lemma adc_adds_with_carry_witness :
  exists s',
    exec ADC 0 0x7fff 0x10 0 0 3 adc_ram = Ok (Some (3 + 0)) s'
    /\ REG_ACC (cpu (nes s')) + 256 * F_CARRY (cpu (nes s')) = 0x7f + 0x01 + 1
    /\ 0 <= REG_ACC (cpu (nes s')) <= 255
    /\ (F_OVERFLOW (cpu (nes s')) = 1
        <-> ~ (-128 <= signed 0x7f + signed 0x01 + 1 <= 127))
    /\ F_SIGN (cpu (nes s')) = (if 128 <=? REG_ACC (cpu (nes s')) then 1 else 0)
    /\ F_ZERO (cpu (nes s')) = REG_ACC (cpu (nes s'))
    /\ trace (ghost s')
       = trace (ghost adc_ram) ++ [BusRead 0x10 0x01; BusRead 0x10 0x01].
Proof.
  apply (adc_adds_with_carry 0 0x7fff 0x10 0 0 3 adc_ram).
  - lia.
  - vm_compute. split; discriminate.
  - vm_compute. split; discriminate.
  - vm_compute. split; discriminate.
Defined.


Lemma compare_sets_flags_witness :
  exists s',
    exec CMP 0 0x7fff 0x10 1 0 3 adc_ram = Ok (Some (3 + 1)) s'
    /\ (F_CARRY (cpu (nes s')) = 1 <-> 0x01 <= 0x7f)
    /\ (F_ZERO (cpu (nes s')) = 0 <-> 0x7f = 0x01)
    /\ F_SIGN (cpu (nes s')) = (if 128 <=? (0x7f - 0x01) mod 256 then 1 else 0)
    /\ REG_ACC (cpu (nes s')) = REG_ACC (cpu (nes adc_ram))
    /\ REG_X (cpu (nes s')) = REG_X (cpu (nes adc_ram))
    /\ REG_Y (cpu (nes s')) = REG_Y (cpu (nes adc_ram))
    /\ mem (cpu (nes s')) = mem (cpu (nes adc_ram)).
Proof.
  apply (compare_sets_flags CMP 0 0x7fff 0x10 1 0 3 adc_ram 0x7f).
  - reflexivity.
  - lia.
  - lia.
  - vm_compute. split; discriminate.
Defined.

Lemma stack_last_in_first_out_witness :
  exists s',
    (push_all [0x11; 0x22; 0x33];; pull_n 3) adc_ram
    = Ok (reverse [0x11; 0x22; 0x33]) s'
    /\ REG_SP (cpu (nes s')) mod 256 = REG_SP (cpu (nes adc_ram)) mod 256.
Proof.
  apply (stack_last_in_first_out [0x11; 0x22; 0x33] adc_ram).
  - exact bench_ram_mapped.
  - reflexivity.
  - vm_compute. split; discriminate.
  - cbn. lia.
Defined.

Lemma jsr_rts_returns_witness :
  exists s1 s2,
    emulate jsr_rom = Ok (Some 6) s1
    /\ REG_PC (cpu (nes s1)) = 0x00 + 256 * 0x90 - 1
    /\ emulate s1 = Ok (Some 6) s2
    /\ REG_PC (cpu (nes s2)) = REG_PC (cpu (nes jsr_rom)) + 3
    /\ REG_SP (cpu (nes s2)) = REG_SP (cpu (nes jsr_rom)) mod 256.
Proof.
  apply (jsr_rts_returns jsr_rom 0x00 0x90).
  - exact bench_ram_mapped.
  - exact bench_rom_mapped.
  - repeat split.
  - vm_compute. split; discriminate.
  - vm_compute. discriminate.
  - vm_compute. reflexivity.
  - vm_compute. reflexivity.
  - vm_compute. reflexivity.
  - vm_compute. reflexivity.
  - lia.
  - lia.
  - lia.
  - vm_compute. reflexivity.
Defined.

Lemma status_round_trip_witness :
  getStatus (setStatus 0xa5 (cpu (nes nmi_pending))) = 0xa5
  /\ (let c := cpu (nes nmi_pending) in
      let c' := setStatus (getStatus c) c in
      F_CARRY c' = F_CARRY c /\ F_INTERRUPT c' = F_INTERRUPT c
      /\ F_DECIMAL c' = F_DECIMAL c /\ F_BRK c' = F_BRK c
      /\ F_NOTUSED c' = F_NOTUSED c /\ F_OVERFLOW c' = F_OVERFLOW c
      /\ F_SIGN c' = F_SIGN c
      /\ (F_ZERO c' = 0 <-> F_ZERO c = 0)
      /\ getStatus c' = getStatus c).
Proof.
  apply (status_round_trip (cpu (nes nmi_pending)) 0xa5).
  - lia.
  - vm_compute. repeat split; discriminate.
Defined.

Lemma rti_resumes_after_nmi_witness :
  exists s1 s2,
    check_interrupts nmi_pending = Ok tt s1
    /\ REG_PC (cpu (nes s1)) = 0x9000 - 1
    /\ irqRequested (cpu (nes s1)) = false
    /\ exec RTI 2 0x8fff 0 0 0 6 s1 = Ok (Some 6) s2
    /\ REG_PC (cpu (nes s2)) = REG_PC (cpu (nes nmi_pending))
    /\ REG_SP (cpu (nes s2)) = REG_SP (cpu (nes nmi_pending)) mod 256
    /\ F_CARRY (cpu (nes s2)) = F_CARRY (cpu (nes nmi_pending))
    /\ (F_ZERO (cpu (nes s2)) = 0 <-> F_ZERO (cpu (nes nmi_pending)) = 0)
    /\ F_INTERRUPT (cpu (nes s2)) = F_INTERRUPT (cpu (nes nmi_pending))
    /\ F_DECIMAL (cpu (nes s2)) = F_DECIMAL (cpu (nes nmi_pending))
    /\ F_OVERFLOW (cpu (nes s2)) = F_OVERFLOW (cpu (nes nmi_pending))
    /\ F_SIGN (cpu (nes s2)) = F_SIGN (cpu (nes nmi_pending)).
Proof.
  apply (rti_resumes_after_nmi nmi_pending 2 0x8fff 0 0 0 6).
  - exact bench_ram_mapped.
  - exact bench_rom_mapped.
  - reflexivity.
  - reflexivity.
  - reflexivity.
  - reflexivity.
  - vm_compute. repeat split; discriminate.
  - vm_compute. split; discriminate.
  - vm_compute. split; [discriminate | reflexivity].
Defined.

Lemma bytes_console cells :
  Forall (fun kv : Z * Z => byte kv.2) cells -> bytes (Bench.console cells).
Proof.
  intros Hc. unfold bytes, Bench.console. cbn [nes cpu gameGenie].
  split; [vm_compute; repeat split; discriminate|].
  split; [|constructor].
  unfold Bench.cpu0. cbn [mem]. intros i v E.
  apply elem_of_list_to_map_2 in E.
  rewrite Forall_forall in Hc. exact (Hc _ E).
Qed.

Lemma emulate_keeps_bytes_witness : bytes (final (emulate jsr_rom)).
Proof.
  apply (emulate_keeps_bytes jsr_rom (final (emulate jsr_rom)) (Some 6)).
  - exact bench_byte_devices.
  - unfold jsr_rom. apply bytes_console.
    repeat (apply Forall_cons_2; [vm_compute; split; discriminate|]).
    apply Forall_nil_2.
  - vm_compute. reflexivity.
Defined.

End CpuExamples.

(** ** The memory map of Mapper0 *)

Section MemoryMap.
#[local] Existing Instance Bench.devices.
#[local] Existing Instance APU.silent.

Lemma ram_mirror a : 0 <= a -> a .& 0x7ff = a mod 0x800.
Proof.
  intros Ha. change 0x7ff with (Z.ones 11). rewrite Z.land_ones by lia.
  reflexivity.
Qed.

(** X15.  What a read gives back after a write, by region: the 2 KiB of RAM
    answer at every address below $2000 that is equal modulo $800;
    cartridge RAM at $6000-$7FFF answers at the address written; a write
    to $8000-$FFFF changes nothing; and a byte written to $4018-$5FFF is
    stored in [cpu.mem] but a read there gives the data bus. *)
Theorem mapper0_read_after_write (a a' v : Z) (n : NES Bench.W) :
  0 <= a <= 0xffff ->
  let n' := Bench.write a v n in
  (a < 0x2000 -> 0 <= a' < 0x2000 -> a' mod 0x800 = a mod 0x800 ->
     Bench.load a' n' = (v, n'))
  /\ (0x6000 <= a < 0x8000 -> Bench.load a n' = (v, n'))
  /\ (0x8000 <= a -> n' = n)
  /\ (0x4018 <= a < 0x6000 ->
        Bench.load a n' = (dataBus (cpu n), n')
        /\ mem (cpu n') !! a = Some v).
Proof.
  intros Ha n'. subst n'. unfold Bench.write, Bench.load, Bench.mem_get,
    Bench.mem_put. cbv zeta.
  repeat split.
  - intros Hlt Ha' Hm.
    assert (E : (a <? 0x2000) = true) by lia. rewrite E.
    rewrite (land_ffff_id a') by lia.
    assert (E1 : (0x4017 <? a') = false) by lia.
    assert (E2 : (0x2000 <=? a') = false) by lia.
    rewrite E1, E2. cbn [cpu set_cpu mem set_mem].
    rewrite !ram_mirror by lia. rewrite Hm, lookup_insert_eq. reflexivity.
  - intros Hr.
    assert (E : (a <? 0x2000) = false) by lia.
    assert (E0 : (0x8000 <=? a) = false) by lia.
    assert (E3 : (0x6000 <=? a) = true) by lia.
    rewrite E, E0, E3. rewrite (land_ffff_id a) by lia.
    assert (E1 : (0x4017 <? a) = true) by lia.
    assert (E2 : (a <? 0x6000) = false) by lia.
    rewrite E1, E2. cbn [cpu set_cpu mem set_mem].
    rewrite lookup_insert_eq. reflexivity.
  - intros Hr.
    assert (E : (a <? 0x2000) = false) by lia.
    assert (E0 : (0x8000 <=? a) = true) by lia.
    rewrite E, E0. reflexivity.
  - assert (E : (a <? 0x2000) = false) by lia.
    assert (E0 : (0x8000 <=? a) = false) by lia.
    assert (E3 : (0x6000 <=? a) = false) by lia.
    assert (E4 : (0x4017 <? a) = true) by lia.
    rewrite E, E0, E3, E4. rewrite (land_ffff_id a) by lia.
    assert (E2 : (a <? 0x6000) = true) by lia.
    rewrite E4, E2. reflexivity.
  - assert (E : (a <? 0x2000) = false) by lia.
    assert (E0 : (0x8000 <=? a) = false) by lia.
    assert (E3 : (0x6000 <=? a) = false) by lia.
    assert (E4 : (0x4017 <? a) = true) by lia.
    rewrite E, E0, E3, E4. cbn [cpu set_cpu mem set_mem].
    apply lookup_insert_eq.
Qed.

Lemma mapper0_read_after_write_witness :
  (0x0123 < 0x2000 -> 0 <= 0x1923 < 0x2000 ->
     0x1923 mod 0x800 = 0x0123 mod 0x800 ->
     Bench.load 0x1923 (Bench.write 0x0123 0x45 (nes (Bench.console [])))
     = (0x45, Bench.write 0x0123 0x45 (nes (Bench.console []))))
  /\ (0x6000 <= 0x0123 < 0x8000 ->
        Bench.load 0x0123 (Bench.write 0x0123 0x45 (nes (Bench.console [])))
        = (0x45, Bench.write 0x0123 0x45 (nes (Bench.console []))))
  /\ (0x8000 <= 0x0123 ->
        Bench.write 0x0123 0x45 (nes (Bench.console []))
        = nes (Bench.console []))
  /\ (0x4018 <= 0x0123 < 0x6000 ->
        Bench.load 0x0123 (Bench.write 0x0123 0x45 (nes (Bench.console [])))
        = (dataBus (cpu (nes (Bench.console []))),
           Bench.write 0x0123 0x45 (nes (Bench.console [])))
        /\ mem (cpu (Bench.write 0x0123 0x45 (nes (Bench.console []))))
             !! 0x0123 = Some 0x45).
Proof.
  apply (mapper0_read_after_write 0x0123 0x1923 0x45 (nes (Bench.console []))).
  lia.
Defined.

End MemoryMap.

(** ** Open bus and branches on the small console *)

Section CpuExamples2.
#[local] Existing Instance Bench.devices.
#[local] Existing Instance APU.silent.

Lemma bench_open_bus_mapped : open_bus_mapped (W := Bench.W).
Proof.
  intros a n Ha.
  cbn [mmap_load Bench.devices]. unfold Bench.load. cbv zeta.
  rewrite land_ffff_id by lia.
  assert (E1 : (0x4017 <? a) = true) by lia.
  assert (E2 : (a <? 0x6000) = true) by lia.
  rewrite E1, E2. reflexivity.
Qed.

(** [LDA $5000] at $8000, with $77 in [cpu.mem] at $5000. *)
Definition lda_expansion : St Bench.W :=
  Bench.console [(0x8000, 0xad); (0x8001, 0x00); (0x8002, 0x50);
                 (0x5000, 0x77)].

(** [BNE] at $80FE with the offset $10: [F_ZERO] is 1 after a reset, so
    the branch is taken, to $8110. *)
Definition bne_rom : St Bench.W :=
  with_cpu (set_REG_PC 0x80fd)
           (Bench.console [(0x80fe, 0xd0); (0x80ff, 0x10)]).

Lemma lda_reads_open_bus_witness :
  exists s',
    emulate lda_expansion = Ok (Some 4) s'
    /\ REG_ACC (cpu (nes s')) = 0x50
    /\ REG_PC (cpu (nes s')) = 0x7fff + 3
    /\ mem (cpu (nes s')) = mem (cpu (nes lda_expansion))
    /\ trace (ghost s')
       = trace (ghost lda_expansion)
         ++ [BusRead (0x7fff + 1) 0xad; BusRead (0x7fff + 2) 0x00;
             BusRead (0x7fff + 3) 0x50; BusRead (0x00 + 256 * 0x50) 0x50].
Proof.
  apply (lda_reads_open_bus lda_expansion 0x00 0x50).
  - exact bench_rom_mapped.
  - exact bench_open_bus_mapped.
  - repeat split.
  - vm_compute. discriminate.
  - vm_compute. discriminate.
  - vm_compute. reflexivity.
  - vm_compute. reflexivity.
  - vm_compute. reflexivity.
  - lia.
  - lia.
  - lia.
Defined.

Lemma branch_cycles_witness :
  exists s',
    emulate bne_rom
    = Ok (Some (if branch_taken BNE (cpu (nes bne_rom))
                then (if 0x80fd / 256 =? ((0x80fd + 2 + signed 0x10) mod 65536) / 256
                      then 3 else 4)
                else 2)) s'
    /\ REG_PC (cpu (nes s'))
       = (if branch_taken BNE (cpu (nes bne_rom))
          then (0x80fd + 2 + signed 0x10) mod 65536 else 0x80fd + 2)
    /\ mem (cpu (nes s')) = mem (cpu (nes bne_rom))
    /\ REG_SP (cpu (nes s')) = REG_SP (cpu (nes bne_rom)).
Proof.
  apply (branch_cycles bne_rom BNE 0xd0 0x10).
  - exact bench_rom_mapped.
  - repeat split.
  - reflexivity.
  - vm_compute. discriminate.
  - vm_compute. discriminate.
  - vm_compute. reflexivity.
  - vm_compute. reflexivity.
  - lia.
Defined.

End CpuExamples2.


End Console.
